(** * gwctl resource model: graph assembly and hierarchical policy resolution

    A shallow embedding of [gwctl/pkg/resourcediscovery/resourcemodel.go].

    Representation of the Go heap.  Every node of the model is created by
    one of the [add...] operations, lives in the model's top-level mapping of
    its kind under its identity, and is never replaced or deleted.  Every
    pointer the code stores in another node is obtained by a lookup
    [rm.Kind[id]].  A pointer to a node is therefore represented by the
    identity under which the node lives in the model ("arena" storage), and
    a write through a pointer is an update of the arena at that identity, so
    that every holder of the pointer observes it.  A nil pointer is [None].
    Policy nodes are written once (at attachment) and never mutated
    afterwards, so the mappings that hold them store the node itself. *)

From Stdlib Require Import String Ascii OrderedTypeEx.
From stdpp Require Import base option list gmap fin_maps strings sorting.

Local Open Scope string_scope.
Local Open Scope list_scope.

(** ** Identities *)

Abbreviation gatewayClassID := string (only parsing).
Abbreviation namespaceID := string (only parsing).
Abbreviation gatewayID := (string * string)%type (only parsing).
Abbreviation httpRouteID := (string * string)%type (only parsing).
Abbreviation backendID := (string * string * string * string)%type (only parsing).
Abbreviation referenceGrantID := (string * string)%type (only parsing).
Abbreviation policyID := (string * string * string * string)%type (only parsing).
Abbreviation PolicyCrdID := string (only parsing).
Abbreviation error := string (only parsing).

(** Modelled from the spec: the identity constructors of [nodes.go] (not
    part of the sources).  An identity is the kind-specific natural key:
    name, or namespace and name, or group, kind, namespace and name. *)
Definition GatewayClassID (gatewayClassName : string) : gatewayClassID :=
  gatewayClassName.

Definition NamespaceID (namespaceName : string) : namespaceID :=
  namespaceName.

Definition GatewayID (namespace name : string) : gatewayID :=
  (namespace, name).

Definition HTTPRouteID (namespace name : string) : httpRouteID :=
  (namespace, name).

Definition BackendID (group kind namespace name : string) : backendID :=
  (group, kind, namespace, name).

Definition ReferenceGrantID (namespace name : string) : referenceGrantID :=
  (namespace, name).

Definition PolicyID (group kind namespace name : string) : policyID :=
  (group, kind, namespace, name).

(** ** Decoded resources and the policy capability's data *)

(** A decoded Kubernetes object: its group and kind, its namespace and
    name, and the rest of its content, which the model never inspects. *)
Record Object := {
  objGroup : string;
  objKind : string;
  objNamespace : string;
  objName : string;
  objBody : string;
}.

Record TargetRef := {
  trGroup : string;
  trKind : string;
  trNamespace : string;
  trName : string;
}.

(** [policymanager.Policy], by its accessors [Name()], [TargetRef()],
    [IsInherited()], [PolicyCrdID()] and [Unstructured()]. *)
Record Policy := {
  polName : string;
  polTargetRef : TargetRef;
  polIsInherited : bool;
  polCrdID : PolicyCrdID;
  polUnstructured : Object;
}.

(** A Go map that may be nil: [None] is the nil map. *)
Abbreviation PolicyMap := (option (gmap PolicyCrdID Policy)) (only parsing).

(** [gatewayv1.GroupName] and [corev1.GroupName]. *)
Definition gatewayv1_GroupName : string := "gateway.networking.k8s.io".

Definition corev1_GroupName : string := "".

(** ** Nodes *)

Record PolicyNode := {
  pn_Policy : Policy;
  pn_GatewayClass : option gatewayClassID;
  pn_Namespace : option namespaceID;
  pn_Gateway : option gatewayID;
  pn_HTTPRoute : option httpRouteID;
  pn_Backend : option backendID;
}.

Record GatewayClassNode := {
  gc_GatewayClass : Object;
  gc_Gateways : gmap gatewayID gatewayID;
  gc_Policies : gmap policyID PolicyNode;
}.

Record NamespaceNode := {
  ns_Namespace : Object;
  ns_Gateways : gmap gatewayID gatewayID;
  ns_HTTPRoutes : gmap httpRouteID httpRouteID;
  ns_Backends : gmap backendID backendID;
  ns_Policies : gmap policyID PolicyNode;
}.

Record GatewayNode := {
  gw_Gateway : Object;
  gw_Namespace : option namespaceID;
  gw_GatewayClass : option gatewayClassID;
  gw_HTTPRoutes : gmap httpRouteID httpRouteID;
  gw_Policies : gmap policyID PolicyNode;
  gw_EffectivePolicies : PolicyMap;
  gw_InheritedPolicies : option (gmap policyID PolicyNode);
}.

Record HTTPRouteNode := {
  hr_HTTPRoute : Object;
  hr_Namespace : option namespaceID;
  hr_Gateways : gmap gatewayID gatewayID;
  hr_Backends : gmap backendID backendID;
  hr_Policies : gmap policyID PolicyNode;
  hr_EffectivePolicies : option (gmap gatewayID PolicyMap);
  hr_InheritedPolicies : option (gmap policyID PolicyNode);
}.

Record BackendNode := {
  bk_Backend : Object;
  bk_Namespace : option namespaceID;
  bk_HTTPRoutes : gmap httpRouteID httpRouteID;
  bk_ReferenceGrants : gmap referenceGrantID referenceGrantID;
  bk_Policies : gmap policyID PolicyNode;
  bk_EffectivePolicies : option (gmap gatewayID PolicyMap);
  bk_InheritedPolicies : option (gmap policyID PolicyNode);
}.

Record ReferenceGrantNode := {
  rg_ReferenceGrant : Object;
  rg_Backends : gmap backendID backendID;
}.

Record ResourceModel := {
  rm_GatewayClasses : gmap gatewayClassID GatewayClassNode;
  rm_Namespaces : gmap namespaceID NamespaceNode;
  rm_Gateways : gmap gatewayID GatewayNode;
  rm_HTTPRoutes : gmap httpRouteID HTTPRouteNode;
  rm_Backends : gmap backendID BackendNode;
  rm_ReferenceGrants : gmap referenceGrantID ReferenceGrantNode;
  rm_Policies : gmap policyID PolicyNode;
}.

(** The zero value [ResourceModel{}]: every mapping is nil, which reads as
    the empty mapping. *)
Definition emptyModel : ResourceModel :=
  {| rm_GatewayClasses := ∅; rm_Namespaces := ∅; rm_Gateways := ∅;
     rm_HTTPRoutes := ∅; rm_Backends := ∅; rm_ReferenceGrants := ∅;
     rm_Policies := ∅ |}.

(** Modelled from the spec: the node constructors and [ID()] methods of
    [nodes.go] (not part of the sources).  A new node wraps its resource,
    has no parent and empty (allocated) mappings, and its computed fields
    are absent. *)
Definition NewGatewayClassNode (gatewayClass : Object) : GatewayClassNode :=
  {| gc_GatewayClass := gatewayClass; gc_Gateways := ∅; gc_Policies := ∅ |}.

Definition NewNamespaceNode (namespace : Object) : NamespaceNode :=
  {| ns_Namespace := namespace; ns_Gateways := ∅; ns_HTTPRoutes := ∅;
     ns_Backends := ∅; ns_Policies := ∅ |}.

Definition NewGatewayNode (gateway : Object) : GatewayNode :=
  {| gw_Gateway := gateway; gw_Namespace := None; gw_GatewayClass := None;
     gw_HTTPRoutes := ∅; gw_Policies := ∅; gw_EffectivePolicies := None;
     gw_InheritedPolicies := None |}.

Definition NewHTTPRouteNode (httpRoute : Object) : HTTPRouteNode :=
  {| hr_HTTPRoute := httpRoute; hr_Namespace := None; hr_Gateways := ∅;
     hr_Backends := ∅; hr_Policies := ∅; hr_EffectivePolicies := None;
     hr_InheritedPolicies := None |}.

Definition NewBackendNode (backend : Object) : BackendNode :=
  {| bk_Backend := backend; bk_Namespace := None; bk_HTTPRoutes := ∅;
     bk_ReferenceGrants := ∅; bk_Policies := ∅; bk_EffectivePolicies := None;
     bk_InheritedPolicies := None |}.

Definition NewReferenceGrantNode (referenceGrant : Object) : ReferenceGrantNode :=
  {| rg_ReferenceGrant := referenceGrant; rg_Backends := ∅ |}.

Definition NewPolicyNode (policy : Policy) : PolicyNode :=
  {| pn_Policy := policy; pn_GatewayClass := None; pn_Namespace := None;
     pn_Gateway := None; pn_HTTPRoute := None; pn_Backend := None |}.

Definition gc_ID (n : GatewayClassNode) : gatewayClassID :=
  GatewayClassID (objName (gc_GatewayClass n)).

Definition ns_ID (n : NamespaceNode) : namespaceID :=
  NamespaceID (objName (ns_Namespace n)).

Definition gw_ID (n : GatewayNode) : gatewayID :=
  GatewayID (objNamespace (gw_Gateway n)) (objName (gw_Gateway n)).

Definition hr_ID (n : HTTPRouteNode) : httpRouteID :=
  HTTPRouteID (objNamespace (hr_HTTPRoute n)) (objName (hr_HTTPRoute n)).

Definition bk_ID (n : BackendNode) : backendID :=
  BackendID (objGroup (bk_Backend n)) (objKind (bk_Backend n))
            (objNamespace (bk_Backend n)) (objName (bk_Backend n)).

Definition rg_ID (n : ReferenceGrantNode) : referenceGrantID :=
  ReferenceGrantID (objNamespace (rg_ReferenceGrant n)) (objName (rg_ReferenceGrant n)).

Definition pn_ID (n : PolicyNode) : policyID :=
  let u := polUnstructured (pn_Policy n) in
  PolicyID (objGroup u) (objKind u) (objNamespace u) (objName u).

(** ** Field updates (assignments through a node pointer) *)

Definition rm_with_GatewayClasses (m : gmap gatewayClassID GatewayClassNode) (rm : ResourceModel) :=
  {| rm_GatewayClasses := m; rm_Namespaces := rm_Namespaces rm;
     rm_Gateways := rm_Gateways rm; rm_HTTPRoutes := rm_HTTPRoutes rm;
     rm_Backends := rm_Backends rm; rm_ReferenceGrants := rm_ReferenceGrants rm;
     rm_Policies := rm_Policies rm |}.

Definition rm_with_Namespaces (m : gmap namespaceID NamespaceNode) (rm : ResourceModel) :=
  {| rm_GatewayClasses := rm_GatewayClasses rm; rm_Namespaces := m;
     rm_Gateways := rm_Gateways rm; rm_HTTPRoutes := rm_HTTPRoutes rm;
     rm_Backends := rm_Backends rm; rm_ReferenceGrants := rm_ReferenceGrants rm;
     rm_Policies := rm_Policies rm |}.

Definition rm_with_Gateways (m : gmap gatewayID GatewayNode) (rm : ResourceModel) :=
  {| rm_GatewayClasses := rm_GatewayClasses rm; rm_Namespaces := rm_Namespaces rm;
     rm_Gateways := m; rm_HTTPRoutes := rm_HTTPRoutes rm;
     rm_Backends := rm_Backends rm; rm_ReferenceGrants := rm_ReferenceGrants rm;
     rm_Policies := rm_Policies rm |}.

Definition rm_with_HTTPRoutes (m : gmap httpRouteID HTTPRouteNode) (rm : ResourceModel) :=
  {| rm_GatewayClasses := rm_GatewayClasses rm; rm_Namespaces := rm_Namespaces rm;
     rm_Gateways := rm_Gateways rm; rm_HTTPRoutes := m;
     rm_Backends := rm_Backends rm; rm_ReferenceGrants := rm_ReferenceGrants rm;
     rm_Policies := rm_Policies rm |}.

Definition rm_with_Backends (m : gmap backendID BackendNode)
    (rm : ResourceModel) :=
  {| rm_GatewayClasses := rm_GatewayClasses rm; rm_Namespaces := rm_Namespaces rm;
     rm_Gateways := rm_Gateways rm; rm_HTTPRoutes := rm_HTTPRoutes rm;
     rm_Backends := m; rm_ReferenceGrants := rm_ReferenceGrants rm;
     rm_Policies := rm_Policies rm |}.

Definition rm_with_ReferenceGrants (m : gmap referenceGrantID ReferenceGrantNode)
    (rm : ResourceModel) :=
  {| rm_GatewayClasses := rm_GatewayClasses rm; rm_Namespaces := rm_Namespaces rm;
     rm_Gateways := rm_Gateways rm; rm_HTTPRoutes := rm_HTTPRoutes rm;
     rm_Backends := rm_Backends rm; rm_ReferenceGrants := m;
     rm_Policies := rm_Policies rm |}.

Definition rm_with_Policies (m : gmap policyID PolicyNode)
    (rm : ResourceModel) :=
  {| rm_GatewayClasses := rm_GatewayClasses rm; rm_Namespaces := rm_Namespaces rm;
     rm_Gateways := rm_Gateways rm; rm_HTTPRoutes := rm_HTTPRoutes rm;
     rm_Backends := rm_Backends rm; rm_ReferenceGrants := rm_ReferenceGrants rm;
     rm_Policies := m |}.

Definition gc_with_Gateways (m : gmap gatewayID gatewayID) (n : GatewayClassNode) :=
  {| gc_GatewayClass := gc_GatewayClass n; gc_Gateways := m; gc_Policies := gc_Policies n |}.

Definition gc_with_Policies (m : gmap policyID PolicyNode)
    (n : GatewayClassNode) :=
  {| gc_GatewayClass := gc_GatewayClass n; gc_Gateways := gc_Gateways n; gc_Policies := m |}.

Definition ns_with_Gateways (m : gmap gatewayID gatewayID) (n : NamespaceNode) :=
  {| ns_Namespace := ns_Namespace n; ns_Gateways := m; ns_HTTPRoutes := ns_HTTPRoutes n;
     ns_Backends := ns_Backends n; ns_Policies := ns_Policies n |}.

Definition ns_with_HTTPRoutes (m : gmap httpRouteID httpRouteID) (n : NamespaceNode) :=
  {| ns_Namespace := ns_Namespace n; ns_Gateways := ns_Gateways n; ns_HTTPRoutes := m;
     ns_Backends := ns_Backends n; ns_Policies := ns_Policies n |}.

Definition ns_with_Backends (m : gmap backendID backendID)
    (n : NamespaceNode) :=
  {| ns_Namespace := ns_Namespace n; ns_Gateways := ns_Gateways n;
     ns_HTTPRoutes := ns_HTTPRoutes n; ns_Backends := m; ns_Policies := ns_Policies n |}.

Definition ns_with_Policies (m : gmap policyID PolicyNode)
    (n : NamespaceNode) :=
  {| ns_Namespace := ns_Namespace n; ns_Gateways := ns_Gateways n;
     ns_HTTPRoutes := ns_HTTPRoutes n; ns_Backends := ns_Backends n; ns_Policies := m |}.

Definition gw_with_Namespace (p : option namespaceID) (n : GatewayNode) :=
  {| gw_Gateway := gw_Gateway n; gw_Namespace := p; gw_GatewayClass := gw_GatewayClass n;
     gw_HTTPRoutes := gw_HTTPRoutes n; gw_Policies := gw_Policies n;
     gw_EffectivePolicies := gw_EffectivePolicies n;
     gw_InheritedPolicies := gw_InheritedPolicies n |}.

Definition gw_with_GatewayClass (p : option gatewayClassID) (n : GatewayNode) :=
  {| gw_Gateway := gw_Gateway n; gw_Namespace := gw_Namespace n; gw_GatewayClass := p;
     gw_HTTPRoutes := gw_HTTPRoutes n; gw_Policies := gw_Policies n;
     gw_EffectivePolicies := gw_EffectivePolicies n;
     gw_InheritedPolicies := gw_InheritedPolicies n |}.

Definition gw_with_HTTPRoutes (m : gmap httpRouteID httpRouteID) (n : GatewayNode) :=
  {| gw_Gateway := gw_Gateway n; gw_Namespace := gw_Namespace n;
     gw_GatewayClass := gw_GatewayClass n; gw_HTTPRoutes := m; gw_Policies := gw_Policies n;
     gw_EffectivePolicies := gw_EffectivePolicies n;
     gw_InheritedPolicies := gw_InheritedPolicies n |}.

Definition gw_with_Policies (m : gmap policyID PolicyNode)
    (n : GatewayNode) :=
  {| gw_Gateway := gw_Gateway n; gw_Namespace := gw_Namespace n;
     gw_GatewayClass := gw_GatewayClass n; gw_HTTPRoutes := gw_HTTPRoutes n;
     gw_Policies := m; gw_EffectivePolicies := gw_EffectivePolicies n;
     gw_InheritedPolicies := gw_InheritedPolicies n |}.

Definition gw_with_EffectivePolicies (v : PolicyMap) (n : GatewayNode) :=
  {| gw_Gateway := gw_Gateway n; gw_Namespace := gw_Namespace n;
     gw_GatewayClass := gw_GatewayClass n; gw_HTTPRoutes := gw_HTTPRoutes n;
     gw_Policies := gw_Policies n; gw_EffectivePolicies := v;
     gw_InheritedPolicies := gw_InheritedPolicies n |}.

Definition gw_with_InheritedPolicies
    (v : option (gmap policyID PolicyNode)) (n : GatewayNode) :=
  {| gw_Gateway := gw_Gateway n; gw_Namespace := gw_Namespace n;
     gw_GatewayClass := gw_GatewayClass n; gw_HTTPRoutes := gw_HTTPRoutes n;
     gw_Policies := gw_Policies n; gw_EffectivePolicies := gw_EffectivePolicies n;
     gw_InheritedPolicies := v |}.

Definition hr_with_Namespace (p : option namespaceID) (n : HTTPRouteNode) :=
  {| hr_HTTPRoute := hr_HTTPRoute n; hr_Namespace := p; hr_Gateways := hr_Gateways n;
     hr_Backends := hr_Backends n; hr_Policies := hr_Policies n;
     hr_EffectivePolicies := hr_EffectivePolicies n;
     hr_InheritedPolicies := hr_InheritedPolicies n |}.

Definition hr_with_Gateways (m : gmap gatewayID gatewayID) (n : HTTPRouteNode) :=
  {| hr_HTTPRoute := hr_HTTPRoute n; hr_Namespace := hr_Namespace n; hr_Gateways := m;
     hr_Backends := hr_Backends n; hr_Policies := hr_Policies n;
     hr_EffectivePolicies := hr_EffectivePolicies n;
     hr_InheritedPolicies := hr_InheritedPolicies n |}.

Definition hr_with_Backends (m : gmap backendID backendID)
    (n : HTTPRouteNode) :=
  {| hr_HTTPRoute := hr_HTTPRoute n; hr_Namespace := hr_Namespace n;
     hr_Gateways := hr_Gateways n; hr_Backends := m; hr_Policies := hr_Policies n;
     hr_EffectivePolicies := hr_EffectivePolicies n;
     hr_InheritedPolicies := hr_InheritedPolicies n |}.

Definition hr_with_Policies (m : gmap policyID PolicyNode)
    (n : HTTPRouteNode) :=
  {| hr_HTTPRoute := hr_HTTPRoute n; hr_Namespace := hr_Namespace n;
     hr_Gateways := hr_Gateways n; hr_Backends := hr_Backends n; hr_Policies := m;
     hr_EffectivePolicies := hr_EffectivePolicies n;
     hr_InheritedPolicies := hr_InheritedPolicies n |}.

Definition hr_with_EffectivePolicies (v : option (gmap gatewayID PolicyMap))
    (n : HTTPRouteNode) :=
  {| hr_HTTPRoute := hr_HTTPRoute n; hr_Namespace := hr_Namespace n;
     hr_Gateways := hr_Gateways n; hr_Backends := hr_Backends n;
     hr_Policies := hr_Policies n; hr_EffectivePolicies := v;
     hr_InheritedPolicies := hr_InheritedPolicies n |}.

Definition hr_with_InheritedPolicies
    (v : option (gmap policyID PolicyNode)) (n : HTTPRouteNode) :=
  {| hr_HTTPRoute := hr_HTTPRoute n; hr_Namespace := hr_Namespace n;
     hr_Gateways := hr_Gateways n; hr_Backends := hr_Backends n;
     hr_Policies := hr_Policies n; hr_EffectivePolicies := hr_EffectivePolicies n;
     hr_InheritedPolicies := v |}.

Definition bk_with_Namespace (p : option namespaceID) (n : BackendNode) :=
  {| bk_Backend := bk_Backend n; bk_Namespace := p; bk_HTTPRoutes := bk_HTTPRoutes n;
     bk_ReferenceGrants := bk_ReferenceGrants n; bk_Policies := bk_Policies n;
     bk_EffectivePolicies := bk_EffectivePolicies n;
     bk_InheritedPolicies := bk_InheritedPolicies n |}.

Definition bk_with_HTTPRoutes (m : gmap httpRouteID httpRouteID) (n : BackendNode) :=
  {| bk_Backend := bk_Backend n; bk_Namespace := bk_Namespace n; bk_HTTPRoutes := m;
     bk_ReferenceGrants := bk_ReferenceGrants n; bk_Policies := bk_Policies n;
     bk_EffectivePolicies := bk_EffectivePolicies n;
     bk_InheritedPolicies := bk_InheritedPolicies n |}.

Definition bk_with_ReferenceGrants (m : gmap referenceGrantID referenceGrantID)
    (n : BackendNode) :=
  {| bk_Backend := bk_Backend n; bk_Namespace := bk_Namespace n;
     bk_HTTPRoutes := bk_HTTPRoutes n; bk_ReferenceGrants := m;
     bk_Policies := bk_Policies n; bk_EffectivePolicies := bk_EffectivePolicies n;
     bk_InheritedPolicies := bk_InheritedPolicies n |}.

Definition bk_with_Policies (m : gmap policyID PolicyNode)
    (n : BackendNode) :=
  {| bk_Backend := bk_Backend n; bk_Namespace := bk_Namespace n;
     bk_HTTPRoutes := bk_HTTPRoutes n; bk_ReferenceGrants := bk_ReferenceGrants n;
     bk_Policies := m; bk_EffectivePolicies := bk_EffectivePolicies n;
     bk_InheritedPolicies := bk_InheritedPolicies n |}.

Definition bk_with_EffectivePolicies (v : option (gmap gatewayID PolicyMap))
    (n : BackendNode) :=
  {| bk_Backend := bk_Backend n; bk_Namespace := bk_Namespace n;
     bk_HTTPRoutes := bk_HTTPRoutes n; bk_ReferenceGrants := bk_ReferenceGrants n;
     bk_Policies := bk_Policies n; bk_EffectivePolicies := v;
     bk_InheritedPolicies := bk_InheritedPolicies n |}.

Definition bk_with_InheritedPolicies
    (v : option (gmap policyID PolicyNode)) (n : BackendNode) :=
  {| bk_Backend := bk_Backend n; bk_Namespace := bk_Namespace n;
     bk_HTTPRoutes := bk_HTTPRoutes n; bk_ReferenceGrants := bk_ReferenceGrants n;
     bk_Policies := bk_Policies n; bk_EffectivePolicies := bk_EffectivePolicies n;
     bk_InheritedPolicies := v |}.

Definition rg_with_Backends (m : gmap backendID backendID)
    (n : ReferenceGrantNode) :=
  {| rg_ReferenceGrant := rg_ReferenceGrant n; rg_Backends := m |}.

(** ** Diagnostics

    The entries the code hands to [klog.V(1).ErrorS]: the message, the name
    of the policy when one is logged, and the identity logged with it (the
    constructor stands for the key, such as [gatewayClassID]). *)

Inductive resourceID :=
  | OfGatewayClass (id : gatewayClassID)
  | OfNamespace (id : namespaceID)
  | OfGateway (id : gatewayID)
  | OfHTTPRoute (id : httpRouteID)
  | OfBackend (id : backendID)
  | OfReferenceGrant (id : referenceGrantID).

Record Diagnostic := {
  diagMessage : string;
  diagPolicy : option string;
  diagID : resourceID;
}.

Definition skippingPolicy (kind : string) (policy : Policy) (id : resourceID) : Diagnostic :=
  {| diagMessage := "Skipping policy since targetRef " +:+ kind
                    +:+ " does not exist in ResourceModel";
     diagPolicy := Some (polName policy);
     diagID := id |}.

Definition doesNotExist (kind : string) (id : resourceID) : Diagnostic :=
  {| diagMessage := kind +:+ " does not exist in ResourceModel";
     diagPolicy := None;
     diagID := id |}.

(** ** Graph builder: node insertion *)

Definition addGatewayClasses (gatewayClasses : list Object) (rm : ResourceModel)
    : ResourceModel :=
  foldl (λ rm gatewayClass,
    let gatewayClassNode := NewGatewayClassNode gatewayClass in
    match rm_GatewayClasses rm !! gc_ID gatewayClassNode with
    | Some _ => rm
    | None =>
        rm_with_GatewayClasses
          (<[gc_ID gatewayClassNode := gatewayClassNode]> (rm_GatewayClasses rm)) rm
    end) rm gatewayClasses.

Definition addNamespace (namespaces : list Object) (rm : ResourceModel) : ResourceModel :=
  foldl (λ rm namespace,
    let namespaceNode := NewNamespaceNode namespace in
    match rm_Namespaces rm !! ns_ID namespaceNode with
    | Some _ => rm
    | None =>
        rm_with_Namespaces (<[ns_ID namespaceNode := namespaceNode]> (rm_Namespaces rm)) rm
    end) rm namespaces.

Definition addGateways (gateways : list Object) (rm : ResourceModel) : ResourceModel :=
  foldl (λ rm gateway,
    let gatewayNode := NewGatewayNode gateway in
    match rm_Gateways rm !! gw_ID gatewayNode with
    | Some _ => rm
    | None => rm_with_Gateways (<[gw_ID gatewayNode := gatewayNode]> (rm_Gateways rm)) rm
    end) rm gateways.

Definition addHTTPRoutes (httpRoutes : list Object) (rm : ResourceModel) : ResourceModel :=
  foldl (λ rm httpRoute,
    let httpRouteNode := NewHTTPRouteNode httpRoute in
    match rm_HTTPRoutes rm !! hr_ID httpRouteNode with
    | Some _ => rm
    | None =>
        rm_with_HTTPRoutes (<[hr_ID httpRouteNode := httpRouteNode]> (rm_HTTPRoutes rm)) rm
    end) rm httpRoutes.

Definition addBackends (backends : list Object) (rm : ResourceModel) : ResourceModel :=
  foldl (λ rm backend,
    let backendNode := NewBackendNode backend in
    match rm_Backends rm !! bk_ID backendNode with
    | Some _ => rm
    | None => rm_with_Backends (<[bk_ID backendNode := backendNode]> (rm_Backends rm)) rm
    end) rm backends.

Definition addReferenceGrants (referenceGrants : list Object) (rm : ResourceModel)
    : ResourceModel :=
  foldl (λ rm referenceGrant,
    let referenceGrantNode := NewReferenceGrantNode referenceGrant in
    match rm_ReferenceGrants rm !! rg_ID referenceGrantNode with
    | Some _ => rm
    | None =>
        rm_with_ReferenceGrants
          (<[rg_ID referenceGrantNode := referenceGrantNode]> (rm_ReferenceGrants rm)) rm
    end) rm referenceGrants.

(** ** Policy attacher *)

Definition pn_with_GatewayClass (p : gatewayClassID) (n : PolicyNode) : PolicyNode :=
  {| pn_Policy := pn_Policy n; pn_GatewayClass := Some p; pn_Namespace := pn_Namespace n;
     pn_Gateway := pn_Gateway n; pn_HTTPRoute := pn_HTTPRoute n; pn_Backend := pn_Backend n |}.

Definition pn_with_Namespace (p : namespaceID) (n : PolicyNode) : PolicyNode :=
  {| pn_Policy := pn_Policy n; pn_GatewayClass := pn_GatewayClass n; pn_Namespace := Some p;
     pn_Gateway := pn_Gateway n; pn_HTTPRoute := pn_HTTPRoute n; pn_Backend := pn_Backend n |}.

Definition pn_with_Gateway (p : gatewayID) (n : PolicyNode) : PolicyNode :=
  {| pn_Policy := pn_Policy n; pn_GatewayClass := pn_GatewayClass n;
     pn_Namespace := pn_Namespace n; pn_Gateway := Some p; pn_HTTPRoute := pn_HTTPRoute n;
     pn_Backend := pn_Backend n |}.

Definition pn_with_HTTPRoute (p : httpRouteID) (n : PolicyNode) : PolicyNode :=
  {| pn_Policy := pn_Policy n; pn_GatewayClass := pn_GatewayClass n;
     pn_Namespace := pn_Namespace n; pn_Gateway := pn_Gateway n; pn_HTTPRoute := Some p;
     pn_Backend := pn_Backend n |}.

Definition pn_with_Backend (p : backendID) (n : PolicyNode) : PolicyNode :=
  {| pn_Policy := pn_Policy n; pn_GatewayClass := pn_GatewayClass n;
     pn_Namespace := pn_Namespace n; pn_Gateway := pn_Gateway n;
     pn_HTTPRoute := pn_HTTPRoute n; pn_Backend := Some p |}.

(** The body of the loop of [addPolicyIfTargetExists], for one policy: the
    model after it and the diagnostics it logs.  The global mapping and the
    target's mapping receive the same policy node; here the node is stored
    with its back-reference already set. *)
Definition attachPolicy (policy : Policy) (rm : ResourceModel)
    : ResourceModel * list Diagnostic :=
  let policyNode := NewPolicyNode policy in
  let ref := polTargetRef policy in
  if decide (trGroup ref = gatewayv1_GroupName) then
    if decide (trKind ref = "GatewayClass") then
      let gwcID := GatewayClassID (trName ref) in
      match rm_GatewayClasses rm !! gwcID with
      | None => (rm, [skippingPolicy "GatewayClass" policy (OfGatewayClass gwcID)])
      | Some gatewayClassNode =>
          let policyNode := pn_with_GatewayClass gwcID policyNode in
          (rm_with_GatewayClasses
             (<[gwcID := gc_with_Policies
                           (<[pn_ID policyNode := policyNode]> (gc_Policies gatewayClassNode))
                           gatewayClassNode]> (rm_GatewayClasses rm))
             (rm_with_Policies (<[pn_ID policyNode := policyNode]> (rm_Policies rm)) rm),
           [])
      end
    else if decide (trKind ref = "Gateway") then
      let gwID := GatewayID (trNamespace ref) (trName ref) in
      match rm_Gateways rm !! gwID with
      | None => (rm, [skippingPolicy "Gateway" policy (OfGateway gwID)])
      | Some gatewayNode =>
          let policyNode := pn_with_Gateway gwID policyNode in
          (rm_with_Gateways
             (<[gwID := gw_with_Policies
                          (<[pn_ID policyNode := policyNode]> (gw_Policies gatewayNode))
                          gatewayNode]> (rm_Gateways rm))
             (rm_with_Policies (<[pn_ID policyNode := policyNode]> (rm_Policies rm)) rm),
           [])
      end
    else if decide (trKind ref = "HTTPRoute") then
      let hrID := HTTPRouteID (trNamespace ref) (trName ref) in
      match rm_HTTPRoutes rm !! hrID with
      | None => (rm, [skippingPolicy "HTTPRoute" policy (OfHTTPRoute hrID)])
      | Some httpRouteNode =>
          let policyNode := pn_with_HTTPRoute hrID policyNode in
          (rm_with_HTTPRoutes
             (<[hrID := hr_with_Policies
                          (<[pn_ID policyNode := policyNode]> (hr_Policies httpRouteNode))
                          httpRouteNode]> (rm_HTTPRoutes rm))
             (rm_with_Policies (<[pn_ID policyNode := policyNode]> (rm_Policies rm)) rm),
           [])
      end
    else (rm, [])
  else if decide (trGroup ref = corev1_GroupName ∧ trKind ref = "Namespace") then
    let nsID := NamespaceID (trName ref) in
    match rm_Namespaces rm !! nsID with
    | None => (rm, [skippingPolicy "Namespace" policy (OfNamespace nsID)])
    | Some namespaceNode =>
        let policyNode := pn_with_Namespace nsID policyNode in
        (rm_with_Namespaces
           (<[nsID := ns_with_Policies
                        (<[pn_ID policyNode := policyNode]> (ns_Policies namespaceNode))
                        namespaceNode]> (rm_Namespaces rm))
           (rm_with_Policies (<[pn_ID policyNode := policyNode]> (rm_Policies rm)) rm),
         [])
    end
  else
    let bID := BackendID (trGroup ref) (trKind ref) (trNamespace ref) (trName ref) in
    match rm_Backends rm !! bID with
    | None => (rm, [skippingPolicy "Backend" policy (OfBackend bID)])
    | Some backendNode =>
        let policyNode := pn_with_Backend bID policyNode in
        (rm_with_Backends
           (<[bID := bk_with_Policies
                       (<[pn_ID policyNode := policyNode]> (bk_Policies backendNode))
                       backendNode]> (rm_Backends rm))
           (rm_with_Policies (<[pn_ID policyNode := policyNode]> (rm_Policies rm)) rm),
         [])
    end.

Definition addPolicyIfTargetExists (policies : list Policy) (rm : ResourceModel)
    : ResourceModel * list Diagnostic :=
  foldl (λ '(rm, log) policy,
           let '(rm', lines) := attachPolicy policy rm in (rm', log ++ lines))
        (rm, []) policies.

(** ** Graph builder: connections *)

Definition connectGatewayWithGatewayClass (gatewayID : gatewayID)
    (gatewayClassID : gatewayClassID) (rm : ResourceModel)
    : ResourceModel * list Diagnostic :=
  match rm_Gateways rm !! gatewayID with
  | None => (rm, [doesNotExist "Gateway" (OfGateway gatewayID)])
  | Some gatewayNode =>
      match rm_GatewayClasses rm !! gatewayClassID with
      | None => (rm, [doesNotExist "GatewayClass" (OfGatewayClass gatewayClassID)])
      | Some gatewayClassNode =>
          (rm_with_GatewayClasses
             (<[gatewayClassID := gc_with_Gateways
                                    (<[gatewayID := gatewayID]> (gc_Gateways gatewayClassNode))
                                    gatewayClassNode]> (rm_GatewayClasses rm))
             (rm_with_Gateways
                (<[gatewayID := gw_with_GatewayClass (Some gatewayClassID) gatewayNode]>
                   (rm_Gateways rm)) rm),
           [])
      end
  end.

Definition connectHTTPRouteWithGateway (httpRouteID : httpRouteID) (gatewayID : gatewayID)
    (rm : ResourceModel) : ResourceModel * list Diagnostic :=
  match rm_HTTPRoutes rm !! httpRouteID with
  | None => (rm, [doesNotExist "HTTPRoute" (OfHTTPRoute httpRouteID)])
  | Some httpRouteNode =>
      match rm_Gateways rm !! gatewayID with
      | None => (rm, [doesNotExist "Gateway" (OfGateway gatewayID)])
      | Some gatewayNode =>
          (rm_with_Gateways
             (<[gatewayID := gw_with_HTTPRoutes
                               (<[httpRouteID := httpRouteID]> (gw_HTTPRoutes gatewayNode))
                               gatewayNode]> (rm_Gateways rm))
             (rm_with_HTTPRoutes
                (<[httpRouteID := hr_with_Gateways
                                    (<[gatewayID := gatewayID]> (hr_Gateways httpRouteNode))
                                    httpRouteNode]> (rm_HTTPRoutes rm)) rm),
           [])
      end
  end.

Definition connectHTTPRouteWithBackend (httpRouteID : httpRouteID) (backendID : backendID)
    (rm : ResourceModel) : ResourceModel * list Diagnostic :=
  match rm_HTTPRoutes rm !! httpRouteID with
  | None => (rm, [doesNotExist "HTTPRoute" (OfHTTPRoute httpRouteID)])
  | Some httpRouteNode =>
      match rm_Backends rm !! backendID with
      | None => (rm, [doesNotExist "Backend" (OfBackend backendID)])
      | Some backendNode =>
          (rm_with_Backends
             (<[backendID := bk_with_HTTPRoutes
                               (<[httpRouteID := httpRouteID]> (bk_HTTPRoutes backendNode))
                               backendNode]> (rm_Backends rm))
             (rm_with_HTTPRoutes
                (<[httpRouteID := hr_with_Backends
                                    (<[backendID := backendID]> (hr_Backends httpRouteNode))
                                    httpRouteNode]> (rm_HTTPRoutes rm)) rm),
           [])
      end
  end.

Definition connectGatewayWithNamespace (gatewayID : gatewayID) (namespaceID : namespaceID)
    (rm : ResourceModel) : ResourceModel * list Diagnostic :=
  match rm_Gateways rm !! gatewayID with
  | None => (rm, [doesNotExist "Gateway" (OfGateway gatewayID)])
  | Some gatewayNode =>
      match rm_Namespaces rm !! namespaceID with
      | None => (rm, [doesNotExist "Namespace" (OfNamespace namespaceID)])
      | Some namespaceNode =>
          (rm_with_Namespaces
             (<[namespaceID := ns_with_Gateways
                                 (<[gatewayID := gatewayID]> (ns_Gateways namespaceNode))
                                 namespaceNode]> (rm_Namespaces rm))
             (rm_with_Gateways
                (<[gatewayID := gw_with_Namespace (Some namespaceID) gatewayNode]>
                   (rm_Gateways rm)) rm),
           [])
      end
  end.

Definition connectHTTPRouteWithNamespace (httpRouteID : httpRouteID)
    (namespaceID : namespaceID) (rm : ResourceModel) : ResourceModel * list Diagnostic :=
  match rm_HTTPRoutes rm !! httpRouteID with
  | None => (rm, [doesNotExist "HTTPRoute" (OfHTTPRoute httpRouteID)])
  | Some httpRouteNode =>
      match rm_Namespaces rm !! namespaceID with
      | None => (rm, [doesNotExist "Namespace" (OfNamespace namespaceID)])
      | Some namespaceNode =>
          (rm_with_Namespaces
             (<[namespaceID := ns_with_HTTPRoutes
                                 (<[httpRouteID := httpRouteID]> (ns_HTTPRoutes namespaceNode))
                                 namespaceNode]> (rm_Namespaces rm))
             (rm_with_HTTPRoutes
                (<[httpRouteID := hr_with_Namespace (Some namespaceID) httpRouteNode]>
                   (rm_HTTPRoutes rm)) rm),
           [])
      end
  end.

Definition connectBackendWithNamespace (backendID : backendID) (namespaceID : namespaceID)
    (rm : ResourceModel) : ResourceModel * list Diagnostic :=
  match rm_Backends rm !! backendID with
  | None => (rm, [doesNotExist "Backend" (OfBackend backendID)])
  | Some backendNode =>
      match rm_Namespaces rm !! namespaceID with
      | None => (rm, [doesNotExist "Namespace" (OfNamespace namespaceID)])
      | Some namespaceNode =>
          (rm_with_Namespaces
             (<[namespaceID := ns_with_Backends
                                 (<[backendID := backendID]> (ns_Backends namespaceNode))
                                 namespaceNode]> (rm_Namespaces rm))
             (rm_with_Backends
                (<[backendID := bk_with_Namespace (Some namespaceID) backendNode]>
                   (rm_Backends rm)) rm),
           [])
      end
  end.

Definition connectReferenceGrantWithBackend (referenceGrantID : referenceGrantID)
    (backendID : backendID) (rm : ResourceModel) : ResourceModel * list Diagnostic :=
  match rm_ReferenceGrants rm !! referenceGrantID with
  | None => (rm, [doesNotExist "ReferenceGrant" (OfReferenceGrant referenceGrantID)])
  | Some referenceGrantNode =>
      match rm_Backends rm !! backendID with
      | None => (rm, [doesNotExist "Backend" (OfBackend backendID)])
      | Some backendNode =>
          (rm_with_Backends
             (<[backendID := bk_with_ReferenceGrants
                               (<[referenceGrantID := referenceGrantID]>
                                  (bk_ReferenceGrants backendNode))
                               backendNode]> (rm_Backends rm))
             (rm_with_ReferenceGrants
                (<[referenceGrantID := rg_with_Backends
                                         (<[backendID := backendID]>
                                            (rg_Backends referenceGrantNode))
                                         referenceGrantNode]> (rm_ReferenceGrants rm)) rm),
           [])
      end
  end.

(** A connect call, as data, so that sequences of calls can be run. *)
Inductive connectOp :=
  | GatewayWithGatewayClass (g : gatewayID) (c : gatewayClassID)
  | HTTPRouteWithGateway (r : httpRouteID) (g : gatewayID)
  | HTTPRouteWithBackend (r : httpRouteID) (b : backendID)
  | GatewayWithNamespace (g : gatewayID) (n : namespaceID)
  | HTTPRouteWithNamespace (r : httpRouteID) (n : namespaceID)
  | BackendWithNamespace (b : backendID) (n : namespaceID)
  | ReferenceGrantWithBackend (rg : referenceGrantID) (b : backendID).

Definition connect (op : connectOp) (rm : ResourceModel) : ResourceModel * list Diagnostic :=
  match op with
  | GatewayWithGatewayClass g c => connectGatewayWithGatewayClass g c rm
  | HTTPRouteWithGateway r g => connectHTTPRouteWithGateway r g rm
  | HTTPRouteWithBackend r b => connectHTTPRouteWithBackend r b rm
  | GatewayWithNamespace g n => connectGatewayWithNamespace g n rm
  | HTTPRouteWithNamespace r n => connectHTTPRouteWithNamespace r n rm
  | BackendWithNamespace b n => connectBackendWithNamespace b n rm
  | ReferenceGrantWithBackend rg b => connectReferenceGrantWithBackend rg b rm
  end.

Definition connectAll (ops : list connectOp) (rm : ResourceModel)
    : ResourceModel * list Diagnostic :=
  foldl (λ '(rm, log) op, let '(rm', lines) := connect op rm in (rm', log ++ lines))
        (rm, []) ops.

(** ** Results of the resolution passes *)

(** What a merge operation of the policy capability returns: the merged
    per-kind mapping, or an error. *)
Inductive merged :=
  | Merged (policies : PolicyMap)
  | MergeError (err : error).

(** How a computation ends: it returns a value ([Ret], a nil error), it
    returns an error ([Fail]), or it dereferences a nil pointer ([Panic]). *)
Inductive outcome (A : Type) :=
  | Ret (a : A)
  | Fail (err : error)
  | Panic.

Arguments Ret {A} a.
Arguments Fail {A} err.
Arguments Panic {A}.

#[global] Instance outcome_ret : MRet outcome := λ A a, Ret a.

#[global] Instance outcome_bind : MBind outcome := λ A B f x,
  match x with
  | Ret a => f a
  | Fail err => Fail err
  | Panic => Panic
  end.

Definition liftMerge (r : merged) : outcome PolicyMap :=
  match r with
  | Merged policies => Ret policies
  | MergeError err => Fail err
  end.

(** [*ptr] for a pointer into an arena. *)
Definition deref {K : Type} `{Countable K} {V : Type} (arena : gmap K V) (ptr : option K)
    : outcome V :=
  match ptr ≫= (arena !!.) with
  | Some node => Ret node
  | None => Panic
  end.

(** A loop whose body may return early with an error. *)
Fixpoint foldlM {A B : Type} (body : B → A → outcome B) (l : list A) (acc : B)
    : outcome B :=
  match l with
  | [] => Ret acc
  | a :: l' => acc' ← body acc a; foldlM body l' acc'
  end.

(** A loop over the nodes of one kind: the body reads the model and returns
    early on an error, or writes the node's computed field and goes on. *)
Fixpoint forEach {A : Type} (body : A → ResourceModel → outcome unit * ResourceModel)
    (l : list A) (rm : ResourceModel) : outcome unit * ResourceModel :=
  match l with
  | [] => (Ret tt, rm)
  | a :: l' =>
      match body a rm with
      | (Ret _, rm') => forEach body l' rm'
      | stop => stop
      end
  end.

Definition store {A : Type} (computed : outcome A) (write : A → ResourceModel)
    (rm : ResourceModel) : outcome unit * ResourceModel :=
  match computed with
  | Ret a => (Ret tt, write a)
  | Fail err => (Fail err, rm)
  | Panic => (Panic, rm)
  end.

(** [if err := f(); err != nil { return err }] followed by [g]. *)
Definition andThen (f g : ResourceModel → outcome unit * ResourceModel)
    (rm : ResourceModel) : outcome unit * ResourceModel :=
  match f rm with
  | (Ret _, rm') => g rm'
  | stop => stop
  end.

(** The key [sort.Slice] compares in [convertPoliciesMapToSlice]:
    [fmt.Sprintf("%v/%v/%v", PolicyCrdID, namespace, name)]. *)
Definition sortKey (p : Policy) : string :=
  polCrdID p +:+ "/" +:+ objNamespace (polUnstructured p) +:+ "/"
  +:+ objName (polUnstructured p).

(** The [less] function handed to [sort.Slice]: [a < b] on Go strings is
    the byte-wise lexicographic order. *)
Definition policyLess (a b : Policy) : bool := String.ltb (sortKey a) (sortKey b).

(** [filterInheritablePolicies] builds a mapping, so the order in which it
    visits [policies] does not show. *)
Definition filterInheritablePolicies (policies : gmap policyID PolicyNode)
    : gmap policyID PolicyNode :=
  filter (λ kv, polIsInherited (pn_Policy kv.2) = true) policies.

(** [maps.Copy(dst, src)]: every entry of [src] is written into [dst]. *)
Definition maps_Copy {K : Type} `{Countable K} {V : Type} (dst src : gmap K V) : gmap K V :=
  src ∪ dst.

(** An insertion sort: what [sort.Slice] runs on a slice of at most twelve
    elements.  It is one of the sorts that meet the contract the passes
    assume of [sort.Slice]. *)
Fixpoint insertSorted {A : Type} (less : A → A → bool) (x : A) (l : list A) : list A :=
  match l with
  | [] => [x]
  | y :: l' => if less x y then x :: y :: l' else y :: insertSorted less x l'
  end.

Definition insertionSort {A : Type} (less : A → A → bool) (l : list A) : list A :=
  foldl (λ sorted x, insertSorted less x sorted) [] l.


(** ** Loops over the nodes of one kind, in general *)

(** How a computation that did not return a value shows in the outcome of
    the pass. *)
Definition stopsWith {A : Type} (computed : outcome A) (o : outcome unit) : Prop :=
  match computed, o with
  | Fail err, Fail err' => err = err'
  | Panic, Panic => True
  | _, _ => False
  end.

(** One iteration of a pass over the nodes kept in [arena]: read the node
    behind the pointer, compute its new value, write it back. *)
Definition nodeStep {K : Type} `{Countable K} {N : Type}
    (arena : ResourceModel → gmap K N) (put : gmap K N → ResourceModel → ResourceModel)
    (compute : ResourceModel → N → outcome N)
    (ptr : K) (rm : ResourceModel) : outcome unit * ResourceModel :=
  match arena rm !! ptr with
  | Some node =>
      match compute rm node with
      | Ret node' => (Ret tt, put (<[ptr := node']> (arena rm)) rm)
      | Fail err => (Fail err, rm)
      | Panic => (Panic, rm)
      end
  | None => (Panic, rm)
  end.

(** The node [k] was visited and its computation returned. *)
Definition computedAt {K : Type} `{Countable K} {N : Type}
    (arena : ResourceModel → gmap K N) (compute : ResourceModel → N → outcome N)
    (rm rm' : ResourceModel) (k : K) : Prop :=
  ∃ node node', arena rm !! k = Some node ∧ compute rm node = Ret node'
                ∧ arena rm' !! k = Some node'.

(** ** Sample instances

    A runtime, a merge capability and small graphs on which the passes are
    evaluated. *)

(** Two orders in which [range] may visit a map. *)
Definition mapOrder (K : Type) (EqK : EqDecision K) (CntK : Countable K) (V : Type)
    (m : gmap K V) : list (K * V) :=
  map_to_list m.

Definition reverseMapOrder (K : Type) (EqK : EqDecision K) (CntK : Countable K) (V : Type)
    (m : gmap K V) : list (K * V) :=
  reverse (map_to_list m).

(** A same-kind merge that keeps one policy per kind and reports a conflict
    when two policies of a kind differ in content. *)
Definition sampleMergeSimilar (policies : list Policy) : merged :=
  foldl (λ acc policy,
           match acc with
           | Merged byKind =>
               match default ∅ byKind !! polCrdID policy with
               | None => Merged (Some (<[polCrdID policy := policy]> (default ∅ byKind)))
               | Some existing =>
                   if decide (objBody (polUnstructured existing)
                              = objBody (polUnstructured policy))
                   then acc
                   else MergeError "conflict"
               end
           | MergeError err => acc
           end)
        (Merged (Some ∅)) policies.

(** A merge of two per-kind mappings in which the second (more specific, or
    later) mapping wins for a kind both have. *)
Definition sampleMergeMaps (parent child : PolicyMap) : merged :=
  Merged (Some (default ∅ child ∪ default ∅ parent)).

Definition sampleObject (kind namespace name : string) : Object :=
  {| objGroup := ""; objKind := kind; objNamespace := namespace; objName := name;
     objBody := "" |}.

Definition samplePolicy (crd namespace name body : string) (inherited : bool)
    (target : TargetRef) : Policy :=
  {| polName := name; polTargetRef := target; polIsInherited := inherited;
     polCrdID := crd;
     polUnstructured := {| objGroup := "policy.example.com"; objKind := crd;
                           objNamespace := namespace; objName := name;
                           objBody := body |} |}.

Definition gatewayTarget (namespace name : string) : TargetRef :=
  {| trGroup := gatewayv1_GroupName; trKind := "Gateway"; trNamespace := namespace;
     trName := name |}.

Definition gatewayClassTarget (name : string) : TargetRef :=
  {| trGroup := gatewayv1_GroupName; trKind := "GatewayClass"; trNamespace := "";
     trName := name |}.

Definition httpRouteTarget (namespace name : string) : TargetRef :=
  {| trGroup := gatewayv1_GroupName; trKind := "HTTPRoute"; trNamespace := namespace;
     trName := name |}.

Definition namespaceTarget (name : string) : TargetRef :=
  {| trGroup := corev1_GroupName; trKind := "Namespace"; trNamespace := "";
     trName := name |}.

Definition serviceTarget (namespace name : string) : TargetRef :=
  {| trGroup := ""; trKind := "Service"; trNamespace := namespace; trName := name |}.

(** One class, one namespace, two gateways, two routes that both reach both
    gateways and one backend, all connected. *)
Definition sampleGraph : ResourceModel :=
  let rm := addGatewayClasses [sampleObject "GatewayClass" "" "c"] emptyModel in
  let rm := addNamespace [sampleObject "Namespace" "" "ns"] rm in
  let rm := addGateways [sampleObject "Gateway" "ns" "g1";
                         sampleObject "Gateway" "ns" "g2"] rm in
  let rm := addHTTPRoutes [sampleObject "HTTPRoute" "ns" "r1";
                           sampleObject "HTTPRoute" "ns" "r2"] rm in
  let rm := addBackends [sampleObject "Service" "ns" "b"] rm in
  (connectAll [GatewayWithGatewayClass ("ns", "g1") "c";
               GatewayWithGatewayClass ("ns", "g2") "c";
               GatewayWithNamespace ("ns", "g1") "ns";
               GatewayWithNamespace ("ns", "g2") "ns";
               HTTPRouteWithNamespace ("ns", "r1") "ns";
               HTTPRouteWithNamespace ("ns", "r2") "ns";
               BackendWithNamespace ("", "Service", "ns", "b") "ns";
               HTTPRouteWithGateway ("ns", "r1") ("ns", "g1");
               HTTPRouteWithGateway ("ns", "r1") ("ns", "g2");
               HTTPRouteWithGateway ("ns", "r2") ("ns", "g1");
               HTTPRouteWithBackend ("ns", "r1") ("", "Service", "ns", "b");
               HTTPRouteWithBackend ("ns", "r2") ("", "Service", "ns", "b")] rm).1.

(** The sample graph with policies that merge without conflict: an
    inheritable policy on the namespace, one on the class, one on each
    route and one on the backend. *)
Definition samplePolicies : list Policy :=
  [samplePolicy "RateLimit" "ns" "limit" "10" true (namespaceTarget "ns");
   samplePolicy "Timeout" "ns" "class-timeout" "30s" true (gatewayClassTarget "c");
   samplePolicy "Header" "ns" "r1-header" "x-a" false (httpRouteTarget "ns" "r1");
   samplePolicy "Header" "ns" "r2-header" "x-b" false (httpRouteTarget "ns" "r2");
   samplePolicy "Retry" "ns" "b-retry" "3" false (serviceTarget "ns" "b")].

Definition sampleModel : ResourceModel :=
  (addPolicyIfTargetExists samplePolicies sampleGraph).1.

(** The sample model with two more policies, of one kind and different
    content, both attached to the gateway [g2]: their same-kind merge is a
    conflict. *)
Definition conflictingPolicies : list Policy :=
  [samplePolicy "Timeout" "ns" "t1" "1s" false (gatewayTarget "ns" "g2");
   samplePolicy "Timeout" "ns" "t2" "2s" false (gatewayTarget "ns" "g2")].

Definition conflictModel : ResourceModel :=
  (addPolicyIfTargetExists conflictingPolicies sampleModel).1.

(** ** Well-formed graphs *)

(** Every pointer the effective-policy passes follow leads to a node: the
    namespace of every gateway, route and backend, the class of a gateway
    that has one, the gateways of a route and the routes of a backend. *)
Definition pointersResolved (rm : ResourceModel) : Prop :=
  (∀ g n, rm_Gateways rm !! g = Some n →
     is_Some (gw_Namespace n ≫= (rm_Namespaces rm !!.))
     ∧ ∀ c, gw_GatewayClass n = Some c → is_Some (rm_GatewayClasses rm !! c))
  ∧ (∀ r n, rm_HTTPRoutes rm !! r = Some n →
       is_Some (hr_Namespace n ≫= (rm_Namespaces rm !!.))
       ∧ ∀ G ptr, hr_Gateways n !! G = Some ptr → is_Some (rm_Gateways rm !! ptr))
  ∧ (∀ b n, rm_Backends rm !! b = Some n →
       is_Some (bk_Namespace n ≫= (rm_Namespaces rm !!.))
       ∧ ∀ r ptr, bk_HTTPRoutes n !! r = Some ptr → is_Some (rm_HTTPRoutes rm !! ptr)).

(** A node without its computed fields. *)
Definition gw_structure (n : GatewayNode) : GatewayNode :=
  gw_with_InheritedPolicies None (gw_with_EffectivePolicies None n).

Definition hr_structure (n : HTTPRouteNode) : HTTPRouteNode :=
  hr_with_InheritedPolicies None (hr_with_EffectivePolicies None n).

Definition bk_structure (n : BackendNode) : BackendNode :=
  bk_with_InheritedPolicies None (bk_with_EffectivePolicies None n).

(** Two models are the same graph when they differ at most in the computed
    fields of their nodes. *)
Definition sameGraph (rm rm' : ResourceModel) : Prop :=
  rm_GatewayClasses rm' = rm_GatewayClasses rm
  ∧ rm_Namespaces rm' = rm_Namespaces rm
  ∧ gw_structure <$> rm_Gateways rm' = gw_structure <$> rm_Gateways rm
  ∧ hr_structure <$> rm_HTTPRoutes rm' = hr_structure <$> rm_HTTPRoutes rm
  ∧ bk_structure <$> rm_Backends rm' = bk_structure <$> rm_Backends rm.

(** The inherited policies of a gateway, in the spec's words: the
    inheritable policies of its namespace, and those of its class when it
    has one (which win for a policy identity both hold). *)
Definition gatewayInheritance (rm : ResourceModel) (gatewayNode : GatewayNode)
    (result : gmap policyID PolicyNode) : Prop :=
  ∃ namespaceNode,
    gw_Namespace gatewayNode ≫= (rm_Namespaces rm !!.) = Some namespaceNode
    ∧ match gw_GatewayClass gatewayNode with
      | None => result = filterInheritablePolicies (ns_Policies namespaceNode)
      | Some c =>
          ∃ classNode,
            rm_GatewayClasses rm !! c = Some classNode
            ∧ result = filterInheritablePolicies (gc_Policies classNode)
                       ∪ filterInheritablePolicies (ns_Policies namespaceNode)
      end.

(** ** The order of the candidates *)

(** [b] may follow [a] in a slice sorted with [policyLess]. *)
Definition inOrder (a b : Policy) : Prop := policyLess b a = false.

(** The policies held by a mapping of policy nodes. *)
Definition policiesOf (policies : gmap policyID PolicyNode) : list Policy :=
  (λ kv, pn_Policy kv.2) <$> map_to_list policies.

(** Two policies of the mapping with the same sort key are the same
    policy. *)
Definition distinctSortKeys (policies : gmap policyID PolicyNode) : Prop :=
  ∀ k1 k2 n1 n2,
    policies !! k1 = Some n1 → policies !! k2 = Some n2 →
    sortKey (pn_Policy n1) = sortKey (pn_Policy n2) → pn_Policy n1 = pn_Policy n2.

(** The candidates in their one sorted order. *)
Definition sortedCandidates (policies : gmap policyID PolicyNode) : list Policy :=
  insertionSort policyLess (policiesOf policies).

(** What the passes assume of [range] and of [sort.Slice]. *)
Definition visitsEveryEntry
    (range : ∀ (K : Type) (EqK : EqDecision K) (CntK : Countable K) (V : Type),
               gmap K V → list (K * V)) : Prop :=
  ∀ (K : Type) (EqK : EqDecision K) (CntK : Countable K) (V : Type) (m : gmap K V),
    range K EqK CntK V m ≡ₚ map_to_list m.

Definition sortsPolicies (sort : (Policy → Policy → bool) → list Policy → list Policy)
    : Prop :=
  ∀ l, sort policyLess l ≡ₚ l ∧ Sorted inOrder (sort policyLess l).

(** The order the spec recommends: the lexical order of the merge-kind
    identifier, then the namespace, then the name. *)
Definition kindNamespaceNameCompare (a b : Policy) : comparison :=
  match String.compare (polCrdID a) (polCrdID b) with
  | Eq =>
      match String.compare (objNamespace (polUnstructured a))
                           (objNamespace (polUnstructured b)) with
      | Eq => String.compare (objName (polUnstructured a)) (objName (polUnstructured b))
      | c => c
      end
  | c => c
  end.

(** The effective policies a model holds for a gateway; nil when they were
    not computed. *)
Definition effectiveOfGateway (rm : ResourceModel) (g : gatewayID) : PolicyMap :=
  rm_Gateways rm !! g ≫= gw_EffectivePolicies.

(** Two policies of one kind, in the namespaces [a] and [a-b], attached to
    the class of the sample graph. *)
Definition policyInA : Policy :=
  samplePolicy "Timeout" "a" "x" "1s" false (gatewayClassTarget "c").

Definition policyInAB : Policy :=
  samplePolicy "Timeout" "a-b" "x" "1s" false (gatewayClassTarget "c").

Definition twoNamespacesModel : ResourceModel :=
  (addPolicyIfTargetExists [policyInA; policyInAB] sampleGraph).1.

Definition policiesOfSampleClass (rm : ResourceModel) : gmap policyID PolicyNode :=
  default ∅ (gc_Policies <$> rm_GatewayClasses rm !! "c").

(** A gateway connected to its class but to no namespace: the namespace was
    not inserted, so [connectGatewayWithNamespace] did nothing. *)
Definition noNamespaceModel : ResourceModel :=
  let rm := addGatewayClasses [sampleObject "GatewayClass" "" "c"] emptyModel in
  let rm := addGateways [sampleObject "Gateway" "ns" "g1"] rm in
  (connectAll [GatewayWithGatewayClass ("ns", "g1") "c";
               GatewayWithNamespace ("ns", "g1") "ns"] rm).1.

(** ** Cross-references

    What each end of an edge stores.  On the child's side: the class and
    the namespace of a gateway, the namespace of a route and of a backend
    (single pointers), and the gateways and backends of a route and the
    backends of a grant (mappings).  On the parent's side: the reverse
    index. *)

Definition classOfGateway (rm : ResourceModel) (g : gatewayID) : option gatewayClassID :=
  rm_Gateways rm !! g ≫= gw_GatewayClass.

Definition namespaceOfGateway (rm : ResourceModel) (g : gatewayID) : option namespaceID :=
  rm_Gateways rm !! g ≫= gw_Namespace.

Definition namespaceOfHTTPRoute (rm : ResourceModel) (r : httpRouteID)
    : option namespaceID :=
  rm_HTTPRoutes rm !! r ≫= hr_Namespace.

Definition namespaceOfBackend (rm : ResourceModel) (b : backendID) : option namespaceID :=
  rm_Backends rm !! b ≫= bk_Namespace.

Definition classHoldsGateway (rm : ResourceModel) (c : gatewayClassID) (g : gatewayID)
    : Prop :=
  rm_GatewayClasses rm !! c ≫= (λ n, gc_Gateways n !! g) = Some g.

Definition namespaceHoldsGateway (rm : ResourceModel) (ns : namespaceID) (g : gatewayID)
    : Prop :=
  rm_Namespaces rm !! ns ≫= (λ n, ns_Gateways n !! g) = Some g.

Definition namespaceHoldsHTTPRoute (rm : ResourceModel) (ns : namespaceID)
    (r : httpRouteID) : Prop :=
  rm_Namespaces rm !! ns ≫= (λ n, ns_HTTPRoutes n !! r) = Some r.

Definition namespaceHoldsBackend (rm : ResourceModel) (ns : namespaceID) (b : backendID)
    : Prop :=
  rm_Namespaces rm !! ns ≫= (λ n, ns_Backends n !! b) = Some b.

Definition httpRouteHoldsGateway (rm : ResourceModel) (r : httpRouteID) (g : gatewayID)
    : Prop :=
  rm_HTTPRoutes rm !! r ≫= (λ n, hr_Gateways n !! g) = Some g.

Definition gatewayHoldsHTTPRoute (rm : ResourceModel) (g : gatewayID) (r : httpRouteID)
    : Prop :=
  rm_Gateways rm !! g ≫= (λ n, gw_HTTPRoutes n !! r) = Some r.

Definition httpRouteHoldsBackend (rm : ResourceModel) (r : httpRouteID) (b : backendID)
    : Prop :=
  rm_HTTPRoutes rm !! r ≫= (λ n, hr_Backends n !! b) = Some b.

Definition backendHoldsHTTPRoute (rm : ResourceModel) (b : backendID) (r : httpRouteID)
    : Prop :=
  rm_Backends rm !! b ≫= (λ n, bk_HTTPRoutes n !! r) = Some r.

Definition referenceGrantHoldsBackend (rm : ResourceModel) (rg : referenceGrantID)
    (b : backendID) : Prop :=
  rm_ReferenceGrants rm !! rg ≫= (λ n, rg_Backends n !! b) = Some b.

Definition backendHoldsReferenceGrant (rm : ResourceModel) (b : backendID)
    (rg : referenceGrantID) : Prop :=
  rm_Backends rm !! b ≫= (λ n, bk_ReferenceGrants n !! rg) = Some rg.

(** Every pointer a child holds to its parent is mirrored in the reverse
    index of that parent. *)
Definition parentsMirrored (rm : ResourceModel) : Prop :=
  (∀ g c, classOfGateway rm g = Some c → classHoldsGateway rm c g)
  ∧ (∀ g ns, namespaceOfGateway rm g = Some ns → namespaceHoldsGateway rm ns g)
  ∧ (∀ r ns, namespaceOfHTTPRoute rm r = Some ns → namespaceHoldsHTTPRoute rm ns r)
  ∧ (∀ b ns, namespaceOfBackend rm b = Some ns → namespaceHoldsBackend rm ns b).

(** Every entry of the reverse index of a class or a namespace is the
    parent pointer of the child it names. *)
Definition indexesMirrored (rm : ResourceModel) : Prop :=
  (∀ c g, classHoldsGateway rm c g → classOfGateway rm g = Some c)
  ∧ (∀ ns g, namespaceHoldsGateway rm ns g → namespaceOfGateway rm g = Some ns)
  ∧ (∀ ns r, namespaceHoldsHTTPRoute rm ns r → namespaceOfHTTPRoute rm r = Some ns)
  ∧ (∀ ns b, namespaceHoldsBackend rm ns b → namespaceOfBackend rm b = Some ns).

(** The edges between routes and gateways, routes and backends, and grants
    and backends are stored at both ends. *)
Definition edgesMirrored (rm : ResourceModel) : Prop :=
  (∀ r g, httpRouteHoldsGateway rm r g ↔ gatewayHoldsHTTPRoute rm g r)
  ∧ (∀ r b, httpRouteHoldsBackend rm r b ↔ backendHoldsHTTPRoute rm b r)
  ∧ (∀ rg b, referenceGrantHoldsBackend rm rg b ↔ backendHoldsReferenceGrant rm b rg).

(** Every stored cross-reference is bidirectional. *)
Definition bidirectional (rm : ResourceModel) : Prop :=
  parentsMirrored rm ∧ indexesMirrored rm ∧ edgesMirrored rm.

(** Both endpoints of a connect call are nodes of the model. *)
Definition endpointsExist (op : connectOp) (rm : ResourceModel) : Prop :=
  match op with
  | GatewayWithGatewayClass g c =>
      is_Some (rm_Gateways rm !! g) ∧ is_Some (rm_GatewayClasses rm !! c)
  | HTTPRouteWithGateway r g =>
      is_Some (rm_HTTPRoutes rm !! r) ∧ is_Some (rm_Gateways rm !! g)
  | HTTPRouteWithBackend r b =>
      is_Some (rm_HTTPRoutes rm !! r) ∧ is_Some (rm_Backends rm !! b)
  | GatewayWithNamespace g n =>
      is_Some (rm_Gateways rm !! g) ∧ is_Some (rm_Namespaces rm !! n)
  | HTTPRouteWithNamespace r n =>
      is_Some (rm_HTTPRoutes rm !! r) ∧ is_Some (rm_Namespaces rm !! n)
  | BackendWithNamespace b n =>
      is_Some (rm_Backends rm !! b) ∧ is_Some (rm_Namespaces rm !! n)
  | ReferenceGrantWithBackend rg b =>
      is_Some (rm_ReferenceGrants rm !! rg) ∧ is_Some (rm_Backends rm !! b)
  end.

(** The call gives a child that already has a parent a different one. *)
Definition reparents (op : connectOp) (rm : ResourceModel) : Prop :=
  match op with
  | GatewayWithGatewayClass g c => ∃ c', classOfGateway rm g = Some c' ∧ c' ≠ c
  | GatewayWithNamespace g n => ∃ n', namespaceOfGateway rm g = Some n' ∧ n' ≠ n
  | HTTPRouteWithNamespace r n => ∃ n', namespaceOfHTTPRoute rm r = Some n' ∧ n' ≠ n
  | BackendWithNamespace b n => ∃ n', namespaceOfBackend rm b = Some n' ∧ n' ≠ n
  | _ => False
  end.

(** No call of the sequence gives a child a second, different parent. *)
Fixpoint neverReparents (ops : list connectOp) (rm : ResourceModel) : Prop :=
  match ops with
  | [] => True
  | op :: ops' => ¬ reparents op rm ∧ neverReparents ops' (connect op rm).1
  end.

(** Two classes and one gateway, not connected. *)
Definition twoClassesModel : ResourceModel :=
  addGateways [sampleObject "Gateway" "ns" "g"]
    (addGatewayClasses [sampleObject "GatewayClass" "" "c1";
                        sampleObject "GatewayClass" "" "c2"] emptyModel).

(** [pointersResolved], as a check that can be run on a model. *)
Definition isSome {A : Type} (o : option A) : bool :=
  match o with
  | Some _ => true
  | None => false
  end.

Definition pointersResolvedCheck (rm : ResourceModel) : bool :=
  forallb (λ kn : gatewayID * GatewayNode,
             isSome (gw_Namespace kn.2 ≫= (rm_Namespaces rm !!.))
             && match gw_GatewayClass kn.2 with
                | Some c => isSome (rm_GatewayClasses rm !! c)
                | None => true
                end)
          (map_to_list (rm_Gateways rm))
  && forallb (λ kn : httpRouteID * HTTPRouteNode,
                isSome (hr_Namespace kn.2 ≫= (rm_Namespaces rm !!.))
                && forallb (λ kp : gatewayID * gatewayID, isSome (rm_Gateways rm !! kp.2))
                           (map_to_list (hr_Gateways kn.2)))
             (map_to_list (rm_HTTPRoutes rm))
  && forallb (λ kn : backendID * BackendNode,
                isSome (bk_Namespace kn.2 ≫= (rm_Namespaces rm !!.))
                && forallb (λ kp : httpRouteID * httpRouteID,
                              isSome (rm_HTTPRoutes rm !! kp.2))
                           (map_to_list (bk_HTTPRoutes kn.2)))
             (map_to_list (rm_Backends rm)).


(** No node of the model holds a pointer to another node, as a check that
    can be run on a model. *)
Definition isNone {A : Type} (o : option A) : bool := negb (isSome o).

Definition isEmpty {K : Type} `{Countable K} {V : Type} (m : gmap K V) : bool :=
  match map_to_list m with
  | [] => true
  | _ => false
  end.

Definition unconnectedCheck (rm : ResourceModel) : bool :=
  forallb (λ kn : gatewayClassID * GatewayClassNode, isEmpty (gc_Gateways kn.2))
          (map_to_list (rm_GatewayClasses rm))
  && forallb (λ kn : namespaceID * NamespaceNode,
                isEmpty (ns_Gateways kn.2) && isEmpty (ns_HTTPRoutes kn.2)
                && isEmpty (ns_Backends kn.2))
             (map_to_list (rm_Namespaces rm))
  && forallb (λ kn : gatewayID * GatewayNode,
                isNone (gw_GatewayClass kn.2) && isNone (gw_Namespace kn.2)
                && isEmpty (gw_HTTPRoutes kn.2))
             (map_to_list (rm_Gateways rm))
  && forallb (λ kn : httpRouteID * HTTPRouteNode,
                isNone (hr_Namespace kn.2) && isEmpty (hr_Gateways kn.2)
                && isEmpty (hr_Backends kn.2))
             (map_to_list (rm_HTTPRoutes rm))
  && forallb (λ kn : backendID * BackendNode,
                isNone (bk_Namespace kn.2) && isEmpty (bk_HTTPRoutes kn.2)
                && isEmpty (bk_ReferenceGrants kn.2))
             (map_to_list (rm_Backends rm))
  && forallb (λ kn : referenceGrantID * ReferenceGrantNode, isEmpty (rg_Backends kn.2))
             (map_to_list (rm_ReferenceGrants rm)).

(** A policy whose target is in the routing group and of a kind the
    attacher does not resolve. *)
Definition grpcRoutePolicy : Policy :=
  samplePolicy "Timeout" "ns" "grpc-timeout" "1s" false
    {| trGroup := gatewayv1_GroupName; trKind := "GRPCRoute"; trNamespace := "ns";
       trName := "r1" |}.

(** The edge of a connect call is stored at both of its endpoints. *)
Definition connected (op : connectOp) (rm : ResourceModel) : Prop :=
  match op with
  | GatewayWithGatewayClass g c => classOfGateway rm g = Some c ∧ classHoldsGateway rm c g
  | HTTPRouteWithGateway r g => httpRouteHoldsGateway rm r g ∧ gatewayHoldsHTTPRoute rm g r
  | HTTPRouteWithBackend r b => httpRouteHoldsBackend rm r b ∧ backendHoldsHTTPRoute rm b r
  | GatewayWithNamespace g n => namespaceOfGateway rm g = Some n ∧ namespaceHoldsGateway rm n g
  | HTTPRouteWithNamespace r n =>
      namespaceOfHTTPRoute rm r = Some n ∧ namespaceHoldsHTTPRoute rm n r
  | BackendWithNamespace b n => namespaceOfBackend rm b = Some n ∧ namespaceHoldsBackend rm n b
  | ReferenceGrantWithBackend rg b =>
      referenceGrantHoldsBackend rm rg b ∧ backendHoldsReferenceGrant rm b rg
  end.

(** The gateway of [twoClassesModel], connected to the first class and then
    to the second. *)
Definition reparentedModel : ResourceModel :=
  (connectAll [GatewayWithGatewayClass ("ns", "g") "c1";
               GatewayWithGatewayClass ("ns", "g") "c2"] twoClassesModel).1.

(** What it means for an insertion operation [add], which keeps its nodes
    in the mapping [nodes] under the identity [id] of the resource, to
    insert a resource at most once. *)
Definition insertsOnce {K : Type} `{Countable K} {N : Type}
    (add : list Object → ResourceModel → ResourceModel)
    (nodes : ResourceModel → gmap K N) (id : Object → K) : Prop :=
  ∀ (rm : ResourceModel) (x : Object) (pre mid post : list Object),
    (is_Some (nodes rm !! id x) → add [x] rm = rm)
    ∧ add (pre ++ x :: mid ++ x :: post) rm = add (pre ++ x :: mid ++ post) rm
    ∧ add [x] (add (pre ++ x :: post) rm) = add (pre ++ x :: post) rm
    ∧ is_Some (nodes (add [x] rm) !! id x)
    ∧ (∀ y, id y = id x → nodes (add [x; y] rm) = nodes (add [x] rm)).

(** ** Statements about the graph builder *)

(** The first resource of a batch with the identity [k]. *)
Definition firstWithID {K : Type} `{EqDecision K} (id : Object → K) (k : K)
    (batch : list Object) : option Object :=
  head (filter (λ x, id x = k) batch).

(** What a lookup finds after the insertion operation [add] ran on a batch:
    the node that was there before, and otherwise the node [new] makes of
    the first resource of the batch with that identity.  Every resource of
    the batch is a value of its own: the loop variable the constructor is
    given is the one of the iteration. *)
Definition insertsAbsent {K : Type} `{Countable K} {N : Type}
    (add : list Object → ResourceModel → ResourceModel)
    (nodes : ResourceModel → gmap K N) (id : Object → K) (new : Object → N) : Prop :=
  ∀ (rm : ResourceModel) (batch : list Object) (k : K),
    nodes (add batch rm) !! k
    = match nodes rm !! k with
      | Some node => Some node
      | None => new <$> firstWithID id k batch
      end.

#[global] Instance resourceID_eq_dec : EqDecision resourceID.
Proof. solve_decision. Defined.

(** The node a policy is attached to, as [addPolicyIfTargetExists] reads it
    off the target reference, with the kind it names in its diagnostics;
    [None] for a reference that no case of the switch takes. *)
Definition policyTarget (ref : TargetRef) : option (string * resourceID) :=
  if decide (trGroup ref = gatewayv1_GroupName) then
    if decide (trKind ref = "GatewayClass") then
      Some ("GatewayClass", OfGatewayClass (GatewayClassID (trName ref)))
    else if decide (trKind ref = "Gateway") then
      Some ("Gateway", OfGateway (GatewayID (trNamespace ref) (trName ref)))
    else if decide (trKind ref = "HTTPRoute") then
      Some ("HTTPRoute", OfHTTPRoute (HTTPRouteID (trNamespace ref) (trName ref)))
    else None
  else if decide (trGroup ref = corev1_GroupName ∧ trKind ref = "Namespace") then
    Some ("Namespace", OfNamespace (NamespaceID (trName ref)))
  else
    Some ("Backend",
          OfBackend (BackendID (trGroup ref) (trKind ref) (trNamespace ref) (trName ref))).

(** The policies attached to the node with the identity [t]; [None] when
    the model has no such node.  Reference grants hold no policies. *)
Definition policiesAt (rm : ResourceModel) (t : resourceID)
    : option (gmap policyID PolicyNode) :=
  match t with
  | OfGatewayClass c => gc_Policies <$> rm_GatewayClasses rm !! c
  | OfNamespace n => ns_Policies <$> rm_Namespaces rm !! n
  | OfGateway g => gw_Policies <$> rm_Gateways rm !! g
  | OfHTTPRoute r => hr_Policies <$> rm_HTTPRoutes rm !! r
  | OfBackend b => bk_Policies <$> rm_Backends rm !! b
  | OfReferenceGrant _ => None
  end.

(** The back-references a policy node has set. *)
Definition backReferences (n : PolicyNode) : list resourceID :=
  option_list (OfGatewayClass <$> pn_GatewayClass n)
  ++ option_list (OfNamespace <$> pn_Namespace n)
  ++ option_list (OfGateway <$> pn_Gateway n)
  ++ option_list (OfHTTPRoute <$> pn_HTTPRoute n)
  ++ option_list (OfBackend <$> pn_Backend n).

(** Every policy node of the global mapping is kept under its own identity,
    refers back to exactly one node, and that node holds the same policy
    node under the same identity. *)
Definition policiesAnchored (rm : ResourceModel) : Prop :=
  ∀ id policyNode,
    rm_Policies rm !! id = Some policyNode →
    pn_ID policyNode = id
    ∧ ∃ t, backReferences policyNode = [t]
           ∧ policiesAt rm t ≫= (.!! id) = Some policyNode.

(** The identities of the nodes of a model, kind by kind. *)
Definition sameNodes (rm rm' : ResourceModel) : Prop :=
  dom (rm_GatewayClasses rm') = dom (rm_GatewayClasses rm)
  ∧ dom (rm_Namespaces rm') = dom (rm_Namespaces rm)
  ∧ dom (rm_Gateways rm') = dom (rm_Gateways rm)
  ∧ dom (rm_HTTPRoutes rm') = dom (rm_HTTPRoutes rm)
  ∧ dom (rm_Backends rm') = dom (rm_Backends rm)
  ∧ dom (rm_ReferenceGrants rm') = dom (rm_ReferenceGrants rm).

(** Two models store the same cross-references between their nodes. *)
Definition sameLinks (rm rm' : ResourceModel) : Prop :=
  (∀ g, classOfGateway rm' g = classOfGateway rm g)
  ∧ (∀ g, namespaceOfGateway rm' g = namespaceOfGateway rm g)
  ∧ (∀ r, namespaceOfHTTPRoute rm' r = namespaceOfHTTPRoute rm r)
  ∧ (∀ b, namespaceOfBackend rm' b = namespaceOfBackend rm b)
  ∧ (∀ c g, classHoldsGateway rm' c g ↔ classHoldsGateway rm c g)
  ∧ (∀ ns g, namespaceHoldsGateway rm' ns g ↔ namespaceHoldsGateway rm ns g)
  ∧ (∀ ns r, namespaceHoldsHTTPRoute rm' ns r ↔ namespaceHoldsHTTPRoute rm ns r)
  ∧ (∀ ns b, namespaceHoldsBackend rm' ns b ↔ namespaceHoldsBackend rm ns b)
  ∧ (∀ r g, httpRouteHoldsGateway rm' r g ↔ httpRouteHoldsGateway rm r g)
  ∧ (∀ g r, gatewayHoldsHTTPRoute rm' g r ↔ gatewayHoldsHTTPRoute rm g r)
  ∧ (∀ r b, httpRouteHoldsBackend rm' r b ↔ httpRouteHoldsBackend rm r b)
  ∧ (∀ b r, backendHoldsHTTPRoute rm' b r ↔ backendHoldsHTTPRoute rm b r)
  ∧ (∀ rg b, referenceGrantHoldsBackend rm' rg b ↔ referenceGrantHoldsBackend rm rg b)
  ∧ (∀ b rg, backendHoldsReferenceGrant rm' b rg ↔ backendHoldsReferenceGrant rm b rg).

(** The node made for a policy attached to the node [t]: the policy, with
    the back-reference to [t] set. *)
Definition attachedNode (policy : Policy) (t : resourceID) : PolicyNode :=
  match t with
  | OfGatewayClass c => pn_with_GatewayClass c (NewPolicyNode policy)
  | OfNamespace n => pn_with_Namespace n (NewPolicyNode policy)
  | OfGateway g => pn_with_Gateway g (NewPolicyNode policy)
  | OfHTTPRoute r => pn_with_HTTPRoute r (NewPolicyNode policy)
  | OfBackend b => pn_with_Backend b (NewPolicyNode policy)
  | OfReferenceGrant _ => NewPolicyNode policy
  end.

(** Every node of [rm] is a node of [rm']. *)
Definition nodesKept (rm rm' : ResourceModel) : Prop :=
  dom (rm_GatewayClasses rm) ⊆ dom (rm_GatewayClasses rm')
  ∧ dom (rm_Namespaces rm) ⊆ dom (rm_Namespaces rm')
  ∧ dom (rm_Gateways rm) ⊆ dom (rm_Gateways rm')
  ∧ dom (rm_HTTPRoutes rm) ⊆ dom (rm_HTTPRoutes rm')
  ∧ dom (rm_Backends rm) ⊆ dom (rm_Backends rm')
  ∧ dom (rm_ReferenceGrants rm) ⊆ dom (rm_ReferenceGrants rm').

(** [rm'] has the global policy mapping of [rm], and every node of [rm]
    holds in [rm'] the policies it holds in [rm]. *)
Definition policiesKept (rm rm' : ResourceModel) : Prop :=
  rm_Policies rm' = rm_Policies rm
  ∧ ∀ t held, policiesAt rm t = Some held → policiesAt rm' t = Some held.

(** Every cross-reference a node stores leads to a node of the model. *)
Definition noDanglingLinks (rm : ResourceModel) : Prop :=
  (∀ g c, classOfGateway rm g = Some c → is_Some (rm_GatewayClasses rm !! c))
  ∧ (∀ g ns, namespaceOfGateway rm g = Some ns → is_Some (rm_Namespaces rm !! ns))
  ∧ (∀ r ns, namespaceOfHTTPRoute rm r = Some ns → is_Some (rm_Namespaces rm !! ns))
  ∧ (∀ b ns, namespaceOfBackend rm b = Some ns → is_Some (rm_Namespaces rm !! ns))
  ∧ (∀ c g, classHoldsGateway rm c g → is_Some (rm_Gateways rm !! g))
  ∧ (∀ ns g, namespaceHoldsGateway rm ns g → is_Some (rm_Gateways rm !! g))
  ∧ (∀ ns r, namespaceHoldsHTTPRoute rm ns r → is_Some (rm_HTTPRoutes rm !! r))
  ∧ (∀ ns b, namespaceHoldsBackend rm ns b → is_Some (rm_Backends rm !! b))
  ∧ (∀ r g, httpRouteHoldsGateway rm r g → is_Some (rm_Gateways rm !! g))
  ∧ (∀ g r, gatewayHoldsHTTPRoute rm g r → is_Some (rm_HTTPRoutes rm !! r))
  ∧ (∀ r b, httpRouteHoldsBackend rm r b → is_Some (rm_Backends rm !! b))
  ∧ (∀ b r, backendHoldsHTTPRoute rm b r → is_Some (rm_HTTPRoutes rm !! r))
  ∧ (∀ rg b, referenceGrantHoldsBackend rm rg b → is_Some (rm_Backends rm !! b))
  ∧ (∀ b rg, backendHoldsReferenceGrant rm b rg → is_Some (rm_ReferenceGrants rm !! rg)).

(** The operations that build the graph, and a run of a sequence of them;
    what they log is dropped here. *)
Inductive builderOp :=
  | AddGatewayClasses (gatewayClasses : list Object)
  | AddNamespace (namespaces : list Object)
  | AddGateways (gateways : list Object)
  | AddHTTPRoutes (httpRoutes : list Object)
  | AddBackends (backends : list Object)
  | AddReferenceGrants (referenceGrants : list Object)
  | AddPolicyIfTargetExists (policies : list Policy)
  | Connect (op : connectOp).

Definition build (op : builderOp) (rm : ResourceModel) : ResourceModel :=
  match op with
  | AddGatewayClasses l => addGatewayClasses l rm
  | AddNamespace l => addNamespace l rm
  | AddGateways l => addGateways l rm
  | AddHTTPRoutes l => addHTTPRoutes l rm
  | AddBackends l => addBackends l rm
  | AddReferenceGrants l => addReferenceGrants l rm
  | AddPolicyIfTargetExists l => (addPolicyIfTargetExists l rm).1
  | Connect op => (connect op rm).1
  end.

Definition buildAll (ops : list builderOp) (rm : ResourceModel) : ResourceModel :=
  foldl (λ rm op, build op rm) rm ops.

(** What the builder keeps true of the graph. *)
Definition consistent (rm : ResourceModel) : Prop :=
  parentsMirrored rm ∧ edgesMirrored rm ∧ noDanglingLinks rm ∧ policiesAnchored rm.

(** ** Statements about the resolution passes *)

(** [rm'] is [rm] but for the effective policies of its gateways, routes
    and backends. *)
Definition sameButEffective (rm rm' : ResourceModel) : Prop :=
  rm_GatewayClasses rm' = rm_GatewayClasses rm
  ∧ rm_Namespaces rm' = rm_Namespaces rm
  ∧ rm_ReferenceGrants rm' = rm_ReferenceGrants rm
  ∧ rm_Policies rm' = rm_Policies rm
  ∧ gw_with_EffectivePolicies None <$> rm_Gateways rm'
    = gw_with_EffectivePolicies None <$> rm_Gateways rm
  ∧ hr_with_EffectivePolicies None <$> rm_HTTPRoutes rm'
    = hr_with_EffectivePolicies None <$> rm_HTTPRoutes rm
  ∧ bk_with_EffectivePolicies None <$> rm_Backends rm'
    = bk_with_EffectivePolicies None <$> rm_Backends rm.

(** [rm'] is [rm] but for the inherited policies of its gateways, routes
    and backends. *)
Definition sameButInherited (rm rm' : ResourceModel) : Prop :=
  rm_GatewayClasses rm' = rm_GatewayClasses rm
  ∧ rm_Namespaces rm' = rm_Namespaces rm
  ∧ rm_ReferenceGrants rm' = rm_ReferenceGrants rm
  ∧ rm_Policies rm' = rm_Policies rm
  ∧ gw_with_InheritedPolicies None <$> rm_Gateways rm'
    = gw_with_InheritedPolicies None <$> rm_Gateways rm
  ∧ hr_with_InheritedPolicies None <$> rm_HTTPRoutes rm'
    = hr_with_InheritedPolicies None <$> rm_HTTPRoutes rm
  ∧ bk_with_InheritedPolicies None <$> rm_Backends rm'
    = bk_with_InheritedPolicies None <$> rm_Backends rm.

(** Where an inherited policy of a route comes from: the inheritable
    policies of its namespace, and the inherited and the inheritable
    policies of a gateway it is connected to. *)
Definition routeInheritsFrom (rm : ResourceModel) (httpRouteNode : HTTPRouteNode)
    (id : policyID) (policyNode : PolicyNode) : Prop :=
  (∃ namespaceNode,
     hr_Namespace httpRouteNode ≫= (rm_Namespaces rm !!.) = Some namespaceNode
     ∧ filterInheritablePolicies (ns_Policies namespaceNode) !! id = Some policyNode)
  ∨ ∃ G ptr gatewayNode,
      hr_Gateways httpRouteNode !! G = Some ptr
      ∧ rm_Gateways rm !! ptr = Some gatewayNode
      ∧ (default ∅ (gw_InheritedPolicies gatewayNode) !! id = Some policyNode
         ∨ filterInheritablePolicies (gw_Policies gatewayNode) !! id = Some policyNode).

(** Where an inherited policy of a backend comes from: the inheritable
    policies of its namespace, and the inherited and the inheritable
    policies of a route that references it. *)
Definition backendInheritsFrom (rm : ResourceModel) (backendNode : BackendNode)
    (id : policyID) (policyNode : PolicyNode) : Prop :=
  (∃ namespaceNode,
     bk_Namespace backendNode ≫= (rm_Namespaces rm !!.) = Some namespaceNode
     ∧ filterInheritablePolicies (ns_Policies namespaceNode) !! id = Some policyNode)
  ∨ ∃ r ptr httpRouteNode,
      bk_HTTPRoutes backendNode !! r = Some ptr
      ∧ rm_HTTPRoutes rm !! ptr = Some httpRouteNode
      ∧ (default ∅ (hr_InheritedPolicies httpRouteNode) !! id = Some policyNode
         ∨ filterInheritablePolicies (hr_Policies httpRouteNode) !! id = Some policyNode).

(** Every inherited policy of every gateway, route and backend is one that
    can be inherited. *)
Definition inheritedAreInheritable (rm : ResourceModel) : Prop :=
  (∀ g n id policyNode,
     rm_Gateways rm !! g = Some n →
     default ∅ (gw_InheritedPolicies n) !! id = Some policyNode →
     polIsInherited (pn_Policy policyNode) = true)
  ∧ (∀ r n id policyNode,
       rm_HTTPRoutes rm !! r = Some n →
       default ∅ (hr_InheritedPolicies n) !! id = Some policyNode →
       polIsInherited (pn_Policy policyNode) = true)
  ∧ (∀ b n id policyNode,
       rm_Backends rm !! b = Some n →
       default ∅ (bk_InheritedPolicies n) !! id = Some policyNode →
       polIsInherited (pn_Policy policyNode) = true).

(** In every mapping of attached policies, the sort keys tell the policies
    apart. *)
Definition candidatesDistinct (rm : ResourceModel) : Prop :=
  (∀ c n, rm_GatewayClasses rm !! c = Some n → distinctSortKeys (gc_Policies n))
  ∧ (∀ ns n, rm_Namespaces rm !! ns = Some n → distinctSortKeys (ns_Policies n))
  ∧ (∀ g n, rm_Gateways rm !! g = Some n → distinctSortKeys (gw_Policies n))
  ∧ (∀ r n, rm_HTTPRoutes rm !! r = Some n → distinctSortKeys (hr_Policies n))
  ∧ (∀ b n, rm_Backends rm !! b = Some n → distinctSortKeys (bk_Policies n)).

(** [candidatesDistinct], as a check that can be run on a model. *)
Definition distinctSortKeysCheck (policies : gmap policyID PolicyNode) : bool :=
  bool_decide (NoDup (sortKey <$> policiesOf policies)).

Definition candidatesDistinctCheck (rm : ResourceModel) : bool :=
  forallb (λ kn : gatewayClassID * GatewayClassNode, distinctSortKeysCheck (gc_Policies kn.2))
          (map_to_list (rm_GatewayClasses rm))
  && forallb (λ kn : namespaceID * NamespaceNode, distinctSortKeysCheck (ns_Policies kn.2))
             (map_to_list (rm_Namespaces rm))
  && forallb (λ kn : gatewayID * GatewayNode, distinctSortKeysCheck (gw_Policies kn.2))
             (map_to_list (rm_Gateways rm))
  && forallb (λ kn : httpRouteID * HTTPRouteNode, distinctSortKeysCheck (hr_Policies kn.2))
             (map_to_list (rm_HTTPRoutes rm))
  && forallb (λ kn : backendID * BackendNode, distinctSortKeysCheck (bk_Policies kn.2))
             (map_to_list (rm_Backends rm)).

(** Every gateway, route and backend has its namespace pointer set. *)
Definition namespacesConnected (rm : ResourceModel) : Prop :=
  (∀ g n, rm_Gateways rm !! g = Some n → is_Some (gw_Namespace n))
  ∧ (∀ r n, rm_HTTPRoutes rm !! r = Some n → is_Some (hr_Namespace n))
  ∧ (∀ b n, rm_Backends rm !! b = Some n → is_Some (bk_Namespace n)).

(** The gateway pointers of every route and the route pointers of every
    backend lead to nodes of the model. *)
Definition mappedPointersExist (rm : ResourceModel) : Prop :=
  (∀ r n G ptr, rm_HTTPRoutes rm !! r = Some n → hr_Gateways n !! G = Some ptr →
     is_Some (rm_Gateways rm !! ptr))
  ∧ (∀ b n r ptr, rm_Backends rm !! b = Some n → bk_HTTPRoutes n !! r = Some ptr →
       is_Some (rm_HTTPRoutes rm !! ptr)).

(** [namespacesConnected], as a check that can be run on a model. *)
Definition namespacesConnectedCheck (rm : ResourceModel) : bool :=
  forallb (λ kn : gatewayID * GatewayNode, isSome (gw_Namespace kn.2))
          (map_to_list (rm_Gateways rm))
  && forallb (λ kn : httpRouteID * HTTPRouteNode, isSome (hr_Namespace kn.2))
             (map_to_list (rm_HTTPRoutes rm))
  && forallb (λ kn : backendID * BackendNode, isSome (bk_Namespace kn.2))
             (map_to_list (rm_Backends rm)).

(** The operations that build [sampleGraph], with a connect call that
    misses its endpoint and an attachment among them. *)
Definition sampleBuild : list builderOp :=
  [AddGatewayClasses [sampleObject "GatewayClass" "" "c"];
   AddNamespace [sampleObject "Namespace" "" "ns"];
   AddGateways [sampleObject "Gateway" "ns" "g1"];
   AddHTTPRoutes [sampleObject "HTTPRoute" "ns" "r1"];
   AddBackends [sampleObject "Service" "ns" "b"];
   Connect (GatewayWithGatewayClass ("ns", "g1") "c");
   Connect (GatewayWithGatewayClass ("ns", "g2") "c");
   Connect (GatewayWithNamespace ("ns", "g1") "ns");
   Connect (HTTPRouteWithNamespace ("ns", "r1") "ns");
   Connect (BackendWithNamespace ("", "Service", "ns", "b") "ns");
   Connect (HTTPRouteWithGateway ("ns", "r1") ("ns", "g1"));
   Connect (HTTPRouteWithBackend ("ns", "r1") ("", "Service", "ns", "b"));
   AddPolicyIfTargetExists
     [samplePolicy "RateLimit" "ns" "limit" "10" true (namespaceTarget "ns")]].

(** ** The candidates of a same-kind merge *)

(** [slice] holds the policies attached in [policies], each once, in the
    order of their sort keys: what a pass hands to the same-kind merge. *)
Definition candidates (policies : gmap policyID PolicyNode) (slice : list Policy) : Prop :=
  slice ≡ₚ policiesOf policies ∧ Sorted inOrder slice.

(** ** The computation of one node, seen from the pass *)


(** ** What is inherited, from the attached policies *)

(** The policy node is attached under [id] in [policies] and its policy may
    be inherited. *)
Definition inheritable (policies : gmap policyID PolicyNode) (id : policyID)
    (policyNode : PolicyNode) : Prop :=
  policies !! id = Some policyNode ∧ polIsInherited (pn_Policy policyNode) = true.

(** What a gateway inherits: the inheritable policies of its class, when it
    has one, and the inheritable policies of its namespace under the
    identities for which the class holds no inheritable policy. *)
Definition gatewayInherits (rm : ResourceModel) (gatewayNode : GatewayNode)
    (id : policyID) (policyNode : PolicyNode) : Prop :=
  (∃ c classNode,
     gw_GatewayClass gatewayNode = Some c
     ∧ rm_GatewayClasses rm !! c = Some classNode
     ∧ inheritable (gc_Policies classNode) id policyNode)
  ∨ (∃ namespaceNode,
       gw_Namespace gatewayNode ≫= (rm_Namespaces rm !!.) = Some namespaceNode
       ∧ inheritable (ns_Policies namespaceNode) id policyNode
       ∧ ∀ c classNode other,
           gw_GatewayClass gatewayNode = Some c →
           rm_GatewayClasses rm !! c = Some classNode →
           ¬ inheritable (gc_Policies classNode) id other).

(** What a route inherits: the inheritable policies of its namespace and,
    for every gateway it is connected to, what that gateway inherits and
    the inheritable policies attached to that gateway. *)
Definition httpRouteInherits (rm : ResourceModel) (httpRouteNode : HTTPRouteNode)
    (id : policyID) (policyNode : PolicyNode) : Prop :=
  (∃ namespaceNode,
     hr_Namespace httpRouteNode ≫= (rm_Namespaces rm !!.) = Some namespaceNode
     ∧ inheritable (ns_Policies namespaceNode) id policyNode)
  ∨ ∃ G ptr gatewayNode,
      hr_Gateways httpRouteNode !! G = Some ptr
      ∧ rm_Gateways rm !! ptr = Some gatewayNode
      ∧ (gatewayInherits rm gatewayNode id policyNode
         ∨ inheritable (gw_Policies gatewayNode) id policyNode).

(** What a backend inherits: the inheritable policies of its namespace and,
    for every route that references it, what that route inherits and the
    inheritable policies attached to that route. *)
Definition backendInherits (rm : ResourceModel) (backendNode : BackendNode)
    (id : policyID) (policyNode : PolicyNode) : Prop :=
  (∃ namespaceNode,
     bk_Namespace backendNode ≫= (rm_Namespaces rm !!.) = Some namespaceNode
     ∧ inheritable (ns_Policies namespaceNode) id policyNode)
  ∨ ∃ r ptr httpRouteNode,
      bk_HTTPRoutes backendNode !! r = Some ptr
      ∧ rm_HTTPRoutes rm !! ptr = Some httpRouteNode
      ∧ (httpRouteInherits rm httpRouteNode id policyNode
         ∨ inheritable (hr_Policies httpRouteNode) id policyNode).

(** ** More sample graphs *)

(** A route in its namespace, connected to no gateway, with two policies of
    one kind and different content attached to it. *)
Definition lonelyRouteModel : ResourceModel :=
  let rm := addNamespace [sampleObject "Namespace" "" "ns"] emptyModel in
  let rm := addHTTPRoutes [sampleObject "HTTPRoute" "ns" "r1"] rm in
  let rm := (connectAll [HTTPRouteWithNamespace ("ns", "r1") "ns"] rm).1 in
  (addPolicyIfTargetExists
     [samplePolicy "Header" "ns" "h1" "x-a" false (httpRouteTarget "ns" "r1");
      samplePolicy "Header" "ns" "h2" "x-b" false (httpRouteTarget "ns" "r1")] rm).1.

(** A gateway that was inserted and never connected: it has no class and
    no namespace. *)
Definition unconnectedGatewayModel : ResourceModel :=
  addGateways [sampleObject "Gateway" "ns" "g1"] emptyModel.

(** The identities under which a mapping of policy nodes holds its
    policies, and the policy kinds of a per-kind mapping. *)
Definition policyIDs (policies : option (gmap policyID PolicyNode)) : list policyID :=
  (map_to_list (default ∅ policies)).*1.

Definition policyNames (policies : PolicyMap) : list (PolicyCrdID * string) :=
  (λ kv : PolicyCrdID * Policy, (kv.1, polName kv.2)) <$> map_to_list (default ∅ policies).

(** What the model holds for a route and for a backend under the gateway
    [G]; nothing when no effective policies were computed or when they have
    no entry for [G]. *)
Definition effectiveOfHTTPRoute (rm : ResourceModel) (r : httpRouteID) (G : gatewayID)
    : option PolicyMap :=
  httpRouteNode ← rm_HTTPRoutes rm !! r;
  default ∅ (hr_EffectivePolicies httpRouteNode) !! G.

Definition effectiveOfBackend (rm : ResourceModel) (b : backendID) (G : gatewayID)
    : option PolicyMap :=
  backendNode ← rm_Backends rm !! b;
  default ∅ (bk_EffectivePolicies backendNode) !! G.

Definition inheritedOfGateway (rm : ResourceModel) (g : gatewayID)
    : option (gmap policyID PolicyNode) :=
  rm_Gateways rm !! g ≫= gw_InheritedPolicies.

Definition inheritedOfHTTPRoute (rm : ResourceModel) (r : httpRouteID)
    : option (gmap policyID PolicyNode) :=
  rm_HTTPRoutes rm !! r ≫= hr_InheritedPolicies.

Definition inheritedOfBackend (rm : ResourceModel) (b : backendID)
    : option (gmap policyID PolicyNode) :=
  rm_Backends rm !! b ≫= bk_InheritedPolicies.

(** ** Policy identities *)

#[global] Instance Object_eq_dec : EqDecision Object.
Proof. solve_decision. Defined.

#[global] Instance TargetRef_eq_dec : EqDecision TargetRef.
Proof. solve_decision. Defined.

#[global] Instance Policy_eq_dec : EqDecision Policy.
Proof. solve_decision. Defined.

#[global] Instance PolicyNode_eq_dec : EqDecision PolicyNode.
Proof. solve_decision. Defined.

(** A policy identity names one policy node: every policy node attached to
    a node of the model is the one that the model keeps under that
    identity in its global mapping. *)
Definition attachedAreGlobal (rm : ResourceModel) : Prop :=
  ∀ t policies id policyNode,
    policiesAt rm t = Some policies → policies !! id = Some policyNode →
    rm_Policies rm !! id = Some policyNode.

(** [attachedAreGlobal], as a check that can be run on a model. *)
Definition attachedAreGlobalCheck (rm : ResourceModel) : bool :=
  let global (policies : gmap policyID PolicyNode) :=
    forallb (λ kv : policyID * PolicyNode,
               bool_decide (rm_Policies rm !! kv.1 = Some kv.2))
            (map_to_list policies) in
  forallb (λ kn : gatewayClassID * GatewayClassNode, global (gc_Policies kn.2))
          (map_to_list (rm_GatewayClasses rm))
  && forallb (λ kn : namespaceID * NamespaceNode, global (ns_Policies kn.2))
             (map_to_list (rm_Namespaces rm))
  && forallb (λ kn : gatewayID * GatewayNode, global (gw_Policies kn.2))
             (map_to_list (rm_Gateways rm))
  && forallb (λ kn : httpRouteID * HTTPRouteNode, global (hr_Policies kn.2))
             (map_to_list (rm_HTTPRoutes rm))
  && forallb (λ kn : backendID * BackendNode, global (bk_Policies kn.2))
             (map_to_list (rm_Backends rm)).

(** The model [out] holds, as the inherited policies of every gateway,
    route and backend of the graph [rm], exactly what that node inherits. *)
Definition holdsInherited (rm out : ResourceModel) : Prop :=
  (∀ g gatewayNode, rm_Gateways rm !! g = Some gatewayNode →
     ∃ gatewayNode2 result,
       rm_Gateways out !! g = Some gatewayNode2
       ∧ gw_InheritedPolicies gatewayNode2 = Some result
       ∧ ∀ id policyNode,
           result !! id = Some policyNode ↔ gatewayInherits rm gatewayNode id policyNode)
  ∧ (∀ r httpRouteNode, rm_HTTPRoutes rm !! r = Some httpRouteNode →
       ∃ httpRouteNode2 result,
         rm_HTTPRoutes out !! r = Some httpRouteNode2
         ∧ hr_InheritedPolicies httpRouteNode2 = Some result
         ∧ ∀ id policyNode,
             result !! id = Some policyNode
             ↔ httpRouteInherits rm httpRouteNode id policyNode)
  ∧ (∀ b backendNode, rm_Backends rm !! b = Some backendNode →
       ∃ backendNode2 result,
         rm_Backends out !! b = Some backendNode2
         ∧ bk_InheritedPolicies backendNode2 = Some result
         ∧ ∀ id policyNode,
             result !! id = Some policyNode
             ↔ backendInherits rm backendNode id policyNode).
Section Resolver.

(** The Go runtime picks the order in which [range] visits a map.  *)
Variable range_order :
  ∀ (K : Type) (EqK : EqDecision K) (CntK : Countable K) (V : Type) (m : gmap K V),
    list (K * V).

(** [sort.Slice] of the Go library. *)
Variable sort_Slice : (Policy → Policy → bool) → list Policy → list Policy.

(** The merge operations of the policy capability ([policymanager], not
    part of the sources): pluggable, and each may fail. *)
Variable MergePoliciesOfSimilarKind : list Policy → merged.
Variable MergePoliciesOfDifferentHierarchy : PolicyMap → PolicyMap → merged.
Variable MergePoliciesOfSameHierarchy : PolicyMap → PolicyMap → merged.

Arguments range_order {K EqK CntK V} m.

Definition convertPoliciesMapToSlice (policies : gmap policyID PolicyNode) : list Policy :=
  let result := (λ kv, pn_Policy kv.2) <$> range_order policies in
  sort_Slice policyLess result.

(** *** Effective policies *)

(** The body of the loop of [calculateEffectivePoliciesForGateways] for a
    gateway whose class pointer is not nil. *)
Definition effectivePoliciesOfGateway (rm : ResourceModel) (gatewayNode : GatewayNode)
    (classPtr : gatewayClassID) : outcome PolicyMap :=
  gatewayClassNode ← deref (rm_GatewayClasses rm) (Some classPtr);
  let gatewayClassPolicies := convertPoliciesMapToSlice (gc_Policies gatewayClassNode) in
  namespaceNode ← deref (rm_Namespaces rm) (gw_Namespace gatewayNode);
  let gatewayNamespacePolicies := convertPoliciesMapToSlice (ns_Policies namespaceNode) in
  let gatewayPolicies := convertPoliciesMapToSlice (gw_Policies gatewayNode) in
  gatewayClassPoliciesByKind ← liftMerge (MergePoliciesOfSimilarKind gatewayClassPolicies);
  gatewayNamespacePoliciesByKind ←
    liftMerge (MergePoliciesOfSimilarKind gatewayNamespacePolicies);
  gatewayPoliciesByKind ← liftMerge (MergePoliciesOfSimilarKind gatewayPolicies);
  result ← liftMerge (MergePoliciesOfDifferentHierarchy gatewayClassPoliciesByKind
                                                        gatewayNamespacePoliciesByKind);
  liftMerge (MergePoliciesOfDifferentHierarchy result gatewayPoliciesByKind).

Definition gatewayEffectiveStep (ptr : gatewayID) (rm : ResourceModel)
    : outcome unit * ResourceModel :=
  match deref (rm_Gateways rm) (Some ptr) with
  | Ret gatewayNode =>
      match gw_GatewayClass gatewayNode with
      | None => (Ret tt, rm)
      | Some classPtr =>
          store (effectivePoliciesOfGateway rm gatewayNode classPtr)
                (λ result,
                   rm_with_Gateways
                     (<[ptr := gw_with_EffectivePolicies result gatewayNode]> (rm_Gateways rm))
                     rm)
                rm
      end
  | Fail err => (Fail err, rm)
  | Panic => (Panic, rm)
  end.

Definition calculateEffectivePoliciesForGateways (rm : ResourceModel)
    : outcome unit * ResourceModel :=
  forEach gatewayEffectiveStep (range_order (rm_Gateways rm)).*1 rm.

(** The body of the loop of [calculateEffectivePoliciesForHTTPRoutes]. *)
Definition effectivePoliciesOfHTTPRoute (rm : ResourceModel) (httpRouteNode : HTTPRouteNode)
    : outcome (gmap gatewayID PolicyMap) :=
  let httpRoutePolicies := convertPoliciesMapToSlice (hr_Policies httpRouteNode) in
  namespaceNode ← deref (rm_Namespaces rm) (hr_Namespace httpRouteNode);
  let httpRouteNamespacePolicies := convertPoliciesMapToSlice (ns_Policies namespaceNode) in
  httpRoutePoliciesByKind ← liftMerge (MergePoliciesOfSimilarKind httpRoutePolicies);
  httpRouteNamespacePoliciesByKind ←
    liftMerge (MergePoliciesOfSimilarKind httpRouteNamespacePolicies);
  foldlM (λ (result : gmap gatewayID PolicyMap) '(gatewayID, gatewayPtr),
            gatewayNode ← deref (rm_Gateways rm) (Some gatewayPtr);
            let gatewayPoliciesByKind := gw_EffectivePolicies gatewayNode in
            mergedPolicies ←
              liftMerge (MergePoliciesOfDifferentHierarchy gatewayPoliciesByKind
                                                           httpRouteNamespacePoliciesByKind);
            mergedPolicies ←
              liftMerge (MergePoliciesOfDifferentHierarchy mergedPolicies
                                                           httpRoutePoliciesByKind);
            mret (<[gatewayID := mergedPolicies]> result))
         (range_order (hr_Gateways httpRouteNode)) ∅.

Definition httpRouteEffectiveStep (ptr : httpRouteID) (rm : ResourceModel)
    : outcome unit * ResourceModel :=
  match deref (rm_HTTPRoutes rm) (Some ptr) with
  | Ret httpRouteNode =>
      store (effectivePoliciesOfHTTPRoute rm httpRouteNode)
            (λ result,
               rm_with_HTTPRoutes
                 (<[ptr := hr_with_EffectivePolicies (Some result) httpRouteNode]>
                    (rm_HTTPRoutes rm))
                 rm)
            rm
  | Fail err => (Fail err, rm)
  | Panic => (Panic, rm)
  end.

Definition calculateEffectivePoliciesForHTTPRoutes (rm : ResourceModel)
    : outcome unit * ResourceModel :=
  forEach httpRouteEffectiveStep (range_order (rm_HTTPRoutes rm)).*1 rm.

(** The inner loop of step 3 of [calculateEffectivePoliciesForBackends]:
    the effective policies of one route, merged per gateway into [result]
    as peers.  [result[gatewayID]] reads nil when the key is absent. *)
Definition foldHTTPRoute (httpRoutePoliciesByGateway result : gmap gatewayID PolicyMap)
    : outcome (gmap gatewayID PolicyMap) :=
  foldlM (λ (result : gmap gatewayID PolicyMap) '(gatewayID, policies),
            folded ← liftMerge (MergePoliciesOfSameHierarchy
                                  (default None (result !! gatewayID)) policies);
            mret (<[gatewayID := folded]> result))
         (range_order httpRoutePoliciesByGateway) result.

(** Step 3: the effective policies of the routes of the backend, folded
    together per gateway. *)
Definition foldHTTPRoutes (rm : ResourceModel) (backendNode : BackendNode)
    : outcome (gmap gatewayID PolicyMap) :=
  foldlM (λ (result : gmap gatewayID PolicyMap) '(_, httpRoutePtr),
            httpRouteNode ← deref (rm_HTTPRoutes rm) (Some httpRoutePtr);
            let httpRoutePoliciesByGateway :=
              default ∅ (hr_EffectivePolicies httpRouteNode) in
            foldHTTPRoute httpRoutePoliciesByGateway result)
         (range_order (bk_HTTPRoutes backendNode)) ∅.

(** Step 4: the backend-namespace and backend policies, once per gateway. *)
Definition overlayBackendPolicies (backendNamespacePoliciesByKind backendPoliciesByKind
                                     : PolicyMap)
    (folded : gmap gatewayID PolicyMap) : outcome (gmap gatewayID PolicyMap) :=
  foldlM (λ (result : gmap gatewayID PolicyMap) gatewayID,
            overlaid ← liftMerge (MergePoliciesOfDifferentHierarchy
                                    (default None (result !! gatewayID))
                                    backendNamespacePoliciesByKind);
            overlaid ← liftMerge (MergePoliciesOfDifferentHierarchy
                                    overlaid backendPoliciesByKind);
            mret (<[gatewayID := overlaid]> result))
         (range_order folded).*1 folded.

(** The body of the loop of [calculateEffectivePoliciesForBackends]. *)
Definition effectivePoliciesOfBackend (rm : ResourceModel) (backendNode : BackendNode)
    : outcome (gmap gatewayID PolicyMap) :=
  let backendPolicies := convertPoliciesMapToSlice (bk_Policies backendNode) in
  namespaceNode ← deref (rm_Namespaces rm) (bk_Namespace backendNode);
  let backendNamespacePolicies := convertPoliciesMapToSlice (ns_Policies namespaceNode) in
  backendPoliciesByKind ← liftMerge (MergePoliciesOfSimilarKind backendPolicies);
  backendNamespacePoliciesByKind ←
    liftMerge (MergePoliciesOfSimilarKind backendNamespacePolicies);
  result ← foldHTTPRoutes rm backendNode;
  overlayBackendPolicies backendNamespacePoliciesByKind backendPoliciesByKind result.

Definition backendEffectiveStep (ptr : backendID) (rm : ResourceModel)
    : outcome unit * ResourceModel :=
  match deref (rm_Backends rm) (Some ptr) with
  | Ret backendNode =>
      store (effectivePoliciesOfBackend rm backendNode)
            (λ result,
               rm_with_Backends
                 (<[ptr := bk_with_EffectivePolicies (Some result) backendNode]>
                    (rm_Backends rm))
                 rm)
            rm
  | Fail err => (Fail err, rm)
  | Panic => (Panic, rm)
  end.

Definition calculateEffectivePoliciesForBackends (rm : ResourceModel)
    : outcome unit * ResourceModel :=
  forEach backendEffectiveStep (range_order (rm_Backends rm)).*1 rm.

Definition calculateEffectivePolicies : ResourceModel → outcome unit * ResourceModel :=
  andThen calculateEffectivePoliciesForGateways
    (andThen calculateEffectivePoliciesForHTTPRoutes
       calculateEffectivePoliciesForBackends).

(** *** Inherited policies *)

(** The body of the loop of [calculateInheritedPoliciesForGateways]. *)
Definition inheritedPoliciesOfGateway (rm : ResourceModel) (gatewayNode : GatewayNode)
    : outcome (gmap policyID PolicyNode) :=
  let result : gmap policyID PolicyNode := ∅ in
  namespaceNode ← deref (rm_Namespaces rm) (gw_Namespace gatewayNode);
  let policiesInheritedFromNamespace :=
    filterInheritablePolicies (ns_Policies namespaceNode) in
  let result := maps_Copy result policiesInheritedFromNamespace in
  match gw_GatewayClass gatewayNode with
  | Some classPtr =>
      gatewayClassNode ← deref (rm_GatewayClasses rm) (Some classPtr);
      let policiesInheritedFromGatewayClass :=
        filterInheritablePolicies (gc_Policies gatewayClassNode) in
      mret (maps_Copy result policiesInheritedFromGatewayClass)
  | None => mret result
  end.

Definition gatewayInheritedStep (ptr : gatewayID) (rm : ResourceModel)
    : outcome unit * ResourceModel :=
  match deref (rm_Gateways rm) (Some ptr) with
  | Ret gatewayNode =>
      store (inheritedPoliciesOfGateway rm gatewayNode)
            (λ result,
               rm_with_Gateways
                 (<[ptr := gw_with_InheritedPolicies (Some result) gatewayNode]>
                    (rm_Gateways rm))
                 rm)
            rm
  | Fail err => (Fail err, rm)
  | Panic => (Panic, rm)
  end.

Definition calculateInheritedPoliciesForGateways (rm : ResourceModel)
    : outcome unit * ResourceModel :=
  forEach gatewayInheritedStep (range_order (rm_Gateways rm)).*1 rm.

(** The body of the loop of [calculateInheritedPoliciesForHTTPRoutes]. *)
Definition inheritedPoliciesOfHTTPRoute (rm : ResourceModel) (httpRouteNode : HTTPRouteNode)
    : outcome (gmap policyID PolicyNode) :=
  let result : gmap policyID PolicyNode := ∅ in
  namespaceNode ← deref (rm_Namespaces rm) (hr_Namespace httpRouteNode);
  let policiesInheritedFromNamespace :=
    filterInheritablePolicies (ns_Policies namespaceNode) in
  let result := maps_Copy result policiesInheritedFromNamespace in
  foldlM (λ (result : gmap policyID PolicyNode) '(_, gatewayPtr),
            gatewayNode ← deref (rm_Gateways rm) (Some gatewayPtr);
            let result := maps_Copy result (default ∅ (gw_InheritedPolicies gatewayNode)) in
            mret (maps_Copy result (filterInheritablePolicies (gw_Policies gatewayNode))))
         (range_order (hr_Gateways httpRouteNode)) result.

Definition httpRouteInheritedStep (ptr : httpRouteID) (rm : ResourceModel)
    : outcome unit * ResourceModel :=
  match deref (rm_HTTPRoutes rm) (Some ptr) with
  | Ret httpRouteNode =>
      store (inheritedPoliciesOfHTTPRoute rm httpRouteNode)
            (λ result,
               rm_with_HTTPRoutes
                 (<[ptr := hr_with_InheritedPolicies (Some result) httpRouteNode]>
                    (rm_HTTPRoutes rm))
                 rm)
            rm
  | Fail err => (Fail err, rm)
  | Panic => (Panic, rm)
  end.

Definition calculateInheritedPoliciesForHTTPRoutes (rm : ResourceModel)
    : outcome unit * ResourceModel :=
  forEach httpRouteInheritedStep (range_order (rm_HTTPRoutes rm)).*1 rm.

(** The body of the loop of [calculateInheritedPoliciesForBackends]. *)
Definition inheritedPoliciesOfBackend (rm : ResourceModel) (backendNode : BackendNode)
    : outcome (gmap policyID PolicyNode) :=
  let result : gmap policyID PolicyNode := ∅ in
  namespaceNode ← deref (rm_Namespaces rm) (bk_Namespace backendNode);
  let policiesInheritedFromNamespace :=
    filterInheritablePolicies (ns_Policies namespaceNode) in
  let result := maps_Copy result policiesInheritedFromNamespace in
  foldlM (λ (result : gmap policyID PolicyNode) '(_, httpRoutePtr),
            httpRouteNode ← deref (rm_HTTPRoutes rm) (Some httpRoutePtr);
            let result :=
              maps_Copy result (default ∅ (hr_InheritedPolicies httpRouteNode)) in
            mret (maps_Copy result (filterInheritablePolicies (hr_Policies httpRouteNode))))
         (range_order (bk_HTTPRoutes backendNode)) result.

Definition backendInheritedStep (ptr : backendID) (rm : ResourceModel)
    : outcome unit * ResourceModel :=
  match deref (rm_Backends rm) (Some ptr) with
  | Ret backendNode =>
      store (inheritedPoliciesOfBackend rm backendNode)
            (λ result,
               rm_with_Backends
                 (<[ptr := bk_with_InheritedPolicies (Some result) backendNode]>
                    (rm_Backends rm))
                 rm)
            rm
  | Fail err => (Fail err, rm)
  | Panic => (Panic, rm)
  end.

Definition calculateInheritedPoliciesForBackends (rm : ResourceModel)
    : outcome unit * ResourceModel :=
  forEach backendInheritedStep (range_order (rm_Backends rm)).*1 rm.

Definition calculateInheritedPolicies : ResourceModel → outcome unit * ResourceModel :=
  andThen calculateInheritedPoliciesForGateways
    (andThen calculateInheritedPoliciesForHTTPRoutes
       calculateInheritedPoliciesForBackends).


(** *** The passes as loops over nodes

    The value a pass computes for one node, as the node after the write. *)

Definition gatewayEffective (rm : ResourceModel) (gatewayNode : GatewayNode)
    : outcome GatewayNode :=
  match gw_GatewayClass gatewayNode with
  | None => Ret gatewayNode
  | Some classPtr =>
      result ← effectivePoliciesOfGateway rm gatewayNode classPtr;
      mret (gw_with_EffectivePolicies result gatewayNode)
  end.

Definition httpRouteEffective (rm : ResourceModel) (httpRouteNode : HTTPRouteNode)
    : outcome HTTPRouteNode :=
  result ← effectivePoliciesOfHTTPRoute rm httpRouteNode;
  mret (hr_with_EffectivePolicies (Some result) httpRouteNode).

Definition backendEffective (rm : ResourceModel) (backendNode : BackendNode)
    : outcome BackendNode :=
  result ← effectivePoliciesOfBackend rm backendNode;
  mret (bk_with_EffectivePolicies (Some result) backendNode).

Definition gatewayInherited (rm : ResourceModel) (gatewayNode : GatewayNode)
    : outcome GatewayNode :=
  result ← inheritedPoliciesOfGateway rm gatewayNode;
  mret (gw_with_InheritedPolicies (Some result) gatewayNode).

Definition httpRouteInherited (rm : ResourceModel) (httpRouteNode : HTTPRouteNode)
    : outcome HTTPRouteNode :=
  result ← inheritedPoliciesOfHTTPRoute rm httpRouteNode;
  mret (hr_with_InheritedPolicies (Some result) httpRouteNode).

Definition backendInherited (rm : ResourceModel) (backendNode : BackendNode)
    : outcome BackendNode :=
  result ← inheritedPoliciesOfBackend rm backendNode;
  mret (bk_with_InheritedPolicies (Some result) backendNode).

(** *** What the spec says the passes compute *)

(** The effective policies of a gateway with class [c]: the policies of the
    class, of the namespace and of the gateway are each merged by kind, and
    the three mappings are merged pairwise, ancestor level first. *)
Definition gatewayMerge (rm : ResourceModel) (gatewayNode : GatewayNode)
    (c : gatewayClassID) (result : PolicyMap) : Prop :=
  ∃ classNode namespaceNode classByKind namespaceByKind gatewayByKind ancestors,
    rm_GatewayClasses rm !! c = Some classNode
    ∧ gw_Namespace gatewayNode ≫= (rm_Namespaces rm !!.) = Some namespaceNode
    ∧ MergePoliciesOfSimilarKind (convertPoliciesMapToSlice (gc_Policies classNode))
      = Merged classByKind
    ∧ MergePoliciesOfSimilarKind (convertPoliciesMapToSlice (ns_Policies namespaceNode))
      = Merged namespaceByKind
    ∧ MergePoliciesOfSimilarKind (convertPoliciesMapToSlice (gw_Policies gatewayNode))
      = Merged gatewayByKind
    ∧ MergePoliciesOfDifferentHierarchy classByKind namespaceByKind = Merged ancestors
    ∧ MergePoliciesOfDifferentHierarchy ancestors gatewayByKind = Merged result.

(** The effective policies of a route: one entry per gateway the route is
    connected to, computed from that gateway's effective policies, the
    same-kind merge of the route-namespace policies, and the same-kind
    merge of the route's own policies. *)
Definition httpRouteMerge (rm : ResourceModel) (httpRouteNode : HTTPRouteNode)
    (result : gmap gatewayID PolicyMap) : Prop :=
  ∃ namespaceNode routeByKind namespaceByKind,
    hr_Namespace httpRouteNode ≫= (rm_Namespaces rm !!.) = Some namespaceNode
    ∧ MergePoliciesOfSimilarKind (convertPoliciesMapToSlice (hr_Policies httpRouteNode))
      = Merged routeByKind
    ∧ MergePoliciesOfSimilarKind (convertPoliciesMapToSlice (ns_Policies namespaceNode))
      = Merged namespaceByKind
    ∧ dom result = dom (hr_Gateways httpRouteNode)
    ∧ ∀ G ptr, hr_Gateways httpRouteNode !! G = Some ptr →
        ∃ gatewayNode withNamespace final,
          rm_Gateways rm !! ptr = Some gatewayNode
          ∧ MergePoliciesOfDifferentHierarchy (gw_EffectivePolicies gatewayNode)
                                              namespaceByKind = Merged withNamespace
          ∧ MergePoliciesOfDifferentHierarchy withNamespace routeByKind = Merged final
          ∧ result !! G = Some final.

(** The per-gateway mappings that the routes of a backend contribute for
    the gateway [G], in the order in which the routes are visited. *)
Definition contributions (rm : ResourceModel) (backendNode : BackendNode) (G : gatewayID)
    : list PolicyMap :=
  omap (λ kv : httpRouteID * httpRouteID,
          httpRouteNode ← rm_HTTPRoutes rm !! kv.2;
          default ∅ (hr_EffectivePolicies httpRouteNode) !! G)
       (range_order (bk_HTTPRoutes backendNode)).

(** The peer merge of the contributions, starting from the nil mapping. *)
Definition peerFold (acc : PolicyMap) (contribs : list PolicyMap) : outcome PolicyMap :=
  foldlM (λ acc policies, liftMerge (MergePoliciesOfSameHierarchy acc policies))
         contribs acc.

(** The effective policies of a backend: for every gateway that some route
    of the backend has effective policies for, the peer merge of what all
    these routes contribute, overlaid once with the backend-namespace
    policies and then with the backend's own policies. *)
Definition backendMerge (rm : ResourceModel) (backendNode : BackendNode)
    (result : gmap gatewayID PolicyMap) : Prop :=
  ∃ namespaceNode backendByKind namespaceByKind,
    bk_Namespace backendNode ≫= (rm_Namespaces rm !!.) = Some namespaceNode
    ∧ MergePoliciesOfSimilarKind (convertPoliciesMapToSlice (bk_Policies backendNode))
      = Merged backendByKind
    ∧ MergePoliciesOfSimilarKind (convertPoliciesMapToSlice (ns_Policies namespaceNode))
      = Merged namespaceByKind
    ∧ (∀ r ptr, bk_HTTPRoutes backendNode !! r = Some ptr →
         is_Some (rm_HTTPRoutes rm !! ptr))
    ∧ ∀ G,
        match contributions rm backendNode G with
        | [] => result !! G = None
        | contribs =>
            ∃ folded withNamespace final,
              peerFold None contribs = Ret folded
              ∧ MergePoliciesOfDifferentHierarchy folded namespaceByKind
                = Merged withNamespace
              ∧ MergePoliciesOfDifferentHierarchy withNamespace backendByKind
                = Merged final
              ∧ result !! G = Some final
        end.


(** *** The passes, from the attached policies

    What the effective-policy passes compute for a node, stated on the
    policies attached in the model: the candidates of every same-kind merge
    are the attached policies in the order of their sort keys. *)

(** The merges for a gateway, given the candidates of the class, of the
    namespace and of the gateway: each level is merged by kind, then class
    with namespace, then the result with the gateway. *)
Definition gatewayChain (classSlice namespaceSlice gatewaySlice : list Policy)
    (result : PolicyMap) : Prop :=
  ∃ classByKind namespaceByKind gatewayByKind ancestors,
    MergePoliciesOfSimilarKind classSlice = Merged classByKind
    ∧ MergePoliciesOfSimilarKind namespaceSlice = Merged namespaceByKind
    ∧ MergePoliciesOfSimilarKind gatewaySlice = Merged gatewayByKind
    ∧ MergePoliciesOfDifferentHierarchy classByKind namespaceByKind = Merged ancestors
    ∧ MergePoliciesOfDifferentHierarchy ancestors gatewayByKind = Merged result.

(** [result] is the outcome of these merges for the gateway and its class
    [c], on the policies attached to the class, to the namespace and to the
    gateway. *)
Definition gatewayResolution (rm : ResourceModel) (gatewayNode : GatewayNode)
    (c : gatewayClassID) (result : PolicyMap) : Prop :=
  ∃ classNode namespaceNode classSlice namespaceSlice gatewaySlice,
    rm_GatewayClasses rm !! c = Some classNode
    ∧ gw_Namespace gatewayNode ≫= (rm_Namespaces rm !!.) = Some namespaceNode
    ∧ candidates (gc_Policies classNode) classSlice
    ∧ candidates (ns_Policies namespaceNode) namespaceSlice
    ∧ candidates (gw_Policies gatewayNode) gatewaySlice
    ∧ gatewayChain classSlice namespaceSlice gatewaySlice result.

(** The merges for the gateway succeed, in whatever order policies with
    equal sort keys come. *)
Definition gatewayResolves (rm : ResourceModel) (gatewayNode : GatewayNode)
    (c : gatewayClassID) : Prop :=
  ∃ classNode namespaceNode,
    rm_GatewayClasses rm !! c = Some classNode
    ∧ gw_Namespace gatewayNode ≫= (rm_Namespaces rm !!.) = Some namespaceNode
    ∧ ∀ classSlice namespaceSlice gatewaySlice,
        candidates (gc_Policies classNode) classSlice →
        candidates (ns_Policies namespaceNode) namespaceSlice →
        candidates (gw_Policies gatewayNode) gatewaySlice →
        ∃ result, gatewayChain classSlice namespaceSlice gatewaySlice result.

(** The merges for a route, given the candidates of the route and of its
    namespace: one entry per gateway of the route, made of the effective
    policies of that gateway, merged with the namespace level and then with
    the route level. *)
Definition httpRouteChain (rm : ResourceModel) (httpRouteNode : HTTPRouteNode)
    (routeSlice namespaceSlice : list Policy) (result : gmap gatewayID PolicyMap) : Prop :=
  ∃ routeByKind namespaceByKind,
    MergePoliciesOfSimilarKind routeSlice = Merged routeByKind
    ∧ MergePoliciesOfSimilarKind namespaceSlice = Merged namespaceByKind
    ∧ dom result = dom (hr_Gateways httpRouteNode)
    ∧ ∀ G ptr, hr_Gateways httpRouteNode !! G = Some ptr →
        ∃ gatewayNode withNamespace final,
          rm_Gateways rm !! ptr = Some gatewayNode
          ∧ MergePoliciesOfDifferentHierarchy (gw_EffectivePolicies gatewayNode)
                                              namespaceByKind = Merged withNamespace
          ∧ MergePoliciesOfDifferentHierarchy withNamespace routeByKind = Merged final
          ∧ result !! G = Some final.

Definition httpRouteResolution (rm : ResourceModel) (httpRouteNode : HTTPRouteNode)
    (result : gmap gatewayID PolicyMap) : Prop :=
  ∃ namespaceNode routeSlice namespaceSlice,
    hr_Namespace httpRouteNode ≫= (rm_Namespaces rm !!.) = Some namespaceNode
    ∧ candidates (hr_Policies httpRouteNode) routeSlice
    ∧ candidates (ns_Policies namespaceNode) namespaceSlice
    ∧ httpRouteChain rm httpRouteNode routeSlice namespaceSlice result.

Definition httpRouteResolves (rm : ResourceModel) (httpRouteNode : HTTPRouteNode) : Prop :=
  ∃ namespaceNode,
    hr_Namespace httpRouteNode ≫= (rm_Namespaces rm !!.) = Some namespaceNode
    ∧ ∀ routeSlice namespaceSlice,
        candidates (hr_Policies httpRouteNode) routeSlice →
        candidates (ns_Policies namespaceNode) namespaceSlice →
        ∃ result, httpRouteChain rm httpRouteNode routeSlice namespaceSlice result.

(** The same-kind merges of the policies of a route and of its namespace
    succeed, in whatever order policies with equal sort keys come. *)
Definition httpRouteLevelsMerge (rm : ResourceModel) (httpRouteNode : HTTPRouteNode)
    : Prop :=
  ∃ namespaceNode,
    hr_Namespace httpRouteNode ≫= (rm_Namespaces rm !!.) = Some namespaceNode
    ∧ (∀ routeSlice, candidates (hr_Policies httpRouteNode) routeSlice →
         ∃ routeByKind, MergePoliciesOfSimilarKind routeSlice = Merged routeByKind)
    ∧ (∀ namespaceSlice, candidates (ns_Policies namespaceNode) namespaceSlice →
         ∃ namespaceByKind,
           MergePoliciesOfSimilarKind namespaceSlice = Merged namespaceByKind).

(** The merges for a backend, given the candidates of the backend and of
    its namespace: for every gateway that some route of the backend has
    effective policies for, the peer merge of what all these routes
    contribute, overlaid once with the namespace level and then once with
    the backend level; no entry for any other gateway. *)
Definition backendChain (rm : ResourceModel) (backendNode : BackendNode)
    (backendSlice namespaceSlice : list Policy) (result : gmap gatewayID PolicyMap) : Prop :=
  ∃ backendByKind namespaceByKind,
    MergePoliciesOfSimilarKind backendSlice = Merged backendByKind
    ∧ MergePoliciesOfSimilarKind namespaceSlice = Merged namespaceByKind
    ∧ ∀ G,
        match contributions rm backendNode G with
        | [] => result !! G = None
        | contribs =>
            ∃ folded withNamespace final,
              peerFold None contribs = Ret folded
              ∧ MergePoliciesOfDifferentHierarchy folded namespaceByKind
                = Merged withNamespace
              ∧ MergePoliciesOfDifferentHierarchy withNamespace backendByKind
                = Merged final
              ∧ result !! G = Some final
        end.

Definition backendResolution (rm : ResourceModel) (backendNode : BackendNode)
    (result : gmap gatewayID PolicyMap) : Prop :=
  ∃ namespaceNode backendSlice namespaceSlice,
    bk_Namespace backendNode ≫= (rm_Namespaces rm !!.) = Some namespaceNode
    ∧ candidates (bk_Policies backendNode) backendSlice
    ∧ candidates (ns_Policies namespaceNode) namespaceSlice
    ∧ (∀ r ptr, bk_HTTPRoutes backendNode !! r = Some ptr →
         is_Some (rm_HTTPRoutes rm !! ptr))
    ∧ backendChain rm backendNode backendSlice namespaceSlice result.

Definition backendResolves (rm : ResourceModel) (backendNode : BackendNode) : Prop :=
  ∃ namespaceNode,
    bk_Namespace backendNode ≫= (rm_Namespaces rm !!.) = Some namespaceNode
    ∧ (∀ r ptr, bk_HTTPRoutes backendNode !! r = Some ptr →
         is_Some (rm_HTTPRoutes rm !! ptr))
    ∧ ∀ backendSlice namespaceSlice,
        candidates (bk_Policies backendNode) backendSlice →
        candidates (ns_Policies namespaceNode) namespaceSlice →
        ∃ result, backendChain rm backendNode backendSlice namespaceSlice result.

(** * Properties of the resolution passes *)

(** ** What is assumed of the Go runtime and library *)

(** [range] visits every entry of the map exactly once. *)
Hypothesis range_order_perm :
  ∀ (K : Type) (EqK : EqDecision K) (CntK : Countable K) (V : Type) (m : gmap K V),
    range_order m ≡ₚ map_to_list m.

Lemma range_order_elem {K : Type} `{Countable K} {V : Type} (m : gmap K V) (k : K) (v : V) :
  (k, v) ∈ range_order m ↔ m !! k = Some v.
Proof. rewrite range_order_perm. apply elem_of_map_to_list. Qed.

Lemma range_order_keys {K : Type} `{Countable K} {V : Type} (m : gmap K V) (k : K) :
  k ∈ (range_order m).*1 ↔ is_Some (m !! k).
Proof.
  rewrite list_elem_of_fmap. split.
  - intros [[k' v] [-> Hkv]]. apply range_order_elem in Hkv. by exists v.
  - intros [v Hv]. exists (k, v). split; [done|]. by apply range_order_elem.
Qed.

Lemma range_order_NoDup {K : Type} `{Countable K} {V : Type} (m : gmap K V) :
  NoDup (range_order m).*1.
Proof. rewrite range_order_perm. apply NoDup_fst_map_to_list. Qed.

(** ** Loops over the nodes of one kind *)

Lemma forEach_ext {A : Type} (f g : A → ResourceModel → outcome unit * ResourceModel)
    (l : list A) (rm : ResourceModel) :
  (∀ a rm, f a rm = g a rm) → forEach f l rm = forEach g l rm.
Proof.
  intros Hfg. revert rm. induction l as [|a l IH]; intros rm; simpl; [done|].
  rewrite Hfg. destruct (g a rm) as [[[]| |] rm1]; auto.
Qed.

Section NodeLoop.

Context {K : Type} `{Countable K} {N : Type}.
Variable arena : ResourceModel → gmap K N.
Variable put : gmap K N → ResourceModel → ResourceModel.
Variable compute : ResourceModel → N → outcome N.

Hypothesis arena_put : ∀ m rm, arena (put m rm) = m.
Hypothesis put_put : ∀ m m' rm, put m (put m' rm) = put m rm.
Hypothesis put_arena : ∀ rm, put (arena rm) rm = rm.
Hypothesis compute_put : ∀ m rm n, compute (put m rm) n = compute rm n.

Abbreviation nodeStep := (nodeStep arena put compute).
Abbreviation computedAt := (computedAt arena compute).

Lemma nodeLoop_spec (l : list K) (rm : ResourceModel) (o : outcome unit)
    (rm' : ResourceModel) :
  NoDup l →
  (∀ k, k ∈ l → is_Some (arena rm !! k)) →
  forEach nodeStep l rm = (o, rm') →
  rm' = put (arena rm') rm
  ∧ (∀ k, k ∉ l → arena rm' !! k = arena rm !! k)
  ∧ match o with
    | Ret _ => ∀ k, k ∈ l → computedAt rm rm' k
    | _ => ∃ pre k post node,
        l = pre ++ k :: post
        ∧ (∀ j, j ∈ pre → computedAt rm rm' j)
        ∧ (∀ j, j ∈ k :: post → arena rm' !! j = arena rm !! j)
        ∧ arena rm !! k = Some node
        ∧ stopsWith (compute rm node) o
    end.
Proof.
  revert rm. induction l as [|k l IH]; intros rm Hnd Hin Hrun.
  - simpl in Hrun. injection Hrun as <- <-. rewrite put_arena.
    split; [done|]. split; [done|]. intros k Hk. by apply elem_of_nil in Hk.
  - apply NoDup_cons in Hnd as [Hk Hnd].
    destruct (Hin k) as [node Hnode]; [by left|].
    simpl in Hrun. unfold nodeStep in Hrun at 1. rewrite Hnode in Hrun.
    destruct (compute rm node) as [node'| err |] eqn:Hc.
    + set (rm1 := put (<[k:=node']> (arena rm)) rm) in *.
      assert (Harena1 : arena rm1 = <[k:=node']> (arena rm)) by apply arena_put.
      assert (Hin1 : ∀ j, j ∈ l → is_Some (arena rm1 !! j)).
      { intros j Hj. rewrite Harena1. destruct (decide (k = j)) as [->|?].
        - rewrite lookup_insert_eq. eauto.
        - rewrite lookup_insert_ne by done. apply Hin. by right. }
      destruct (IH rm1 Hnd Hin1 Hrun) as (Hput & Hout & Hres).
      assert (Hk' : arena rm' !! k = Some node').
      { rewrite Hout by done. rewrite Harena1. apply lookup_insert_eq. }
      assert (Hother : ∀ j, j ∈ l → arena rm1 !! j = arena rm !! j).
      { intros j Hj. rewrite Harena1. apply lookup_insert_ne. intros ->. done. }
      assert (Hcomp : ∀ j, j ∈ l → computedAt rm1 rm' j → computedAt rm rm' j).
      { intros j Hj (n & n' & Hn & Hcn & Hn'). exists n, n'.
        rewrite <- Hother by done. split; [done|]. split; [|done].
        unfold rm1 in Hcn. by rewrite compute_put in Hcn. }
      split; [|split].
      * etrans; [exact Hput|]. unfold rm1. apply put_put.
      * intros j Hj. apply not_elem_of_cons in Hj as [Hjk Hjl].
        rewrite Hout by done. rewrite Harena1. by apply lookup_insert_ne.
      * destruct o as [[]| err |].
        -- intros j Hj. apply elem_of_cons in Hj as [->|Hj].
           ++ exists node, node'; auto.
           ++ apply Hcomp; [done|]. by apply Hres.
        -- destruct Hres as (pre & k0 & post & n0 & -> & Hpre & Hpost & Hn0 & Hstop).
           exists (k :: pre), k0, post, n0. split; [done|].
           assert (Hk0 : k0 ∈ pre ++ k0 :: post) by (apply elem_of_app; right; by left).
           split; [|split; [|split]].
           ++ intros j Hj. apply elem_of_cons in Hj as [->|Hj].
              ** exists node, node'; auto.
              ** apply Hcomp; [apply elem_of_app; by left|]. by apply Hpre.
           ++ intros j Hj. rewrite Hpost by done. apply Hother.
              apply elem_of_app. by right.
           ++ by rewrite <- Hother.
           ++ unfold rm1 in Hstop. by rewrite compute_put in Hstop.
        -- destruct Hres as (pre & k0 & post & n0 & -> & Hpre & Hpost & Hn0 & Hstop).
           exists (k :: pre), k0, post, n0. split; [done|].
           assert (Hk0 : k0 ∈ pre ++ k0 :: post) by (apply elem_of_app; right; by left).
           split; [|split; [|split]].
           ++ intros j Hj. apply elem_of_cons in Hj as [->|Hj].
              ** exists node, node'; auto.
              ** apply Hcomp; [apply elem_of_app; by left|]. by apply Hpre.
           ++ intros j Hj. rewrite Hpost by done. apply Hother.
              apply elem_of_app. by right.
           ++ by rewrite <- Hother.
           ++ unfold rm1 in Hstop. by rewrite compute_put in Hstop.
    + injection Hrun as <- <-. rewrite put_arena. split; [done|]. split; [done|].
      exists [], k, l, node. rewrite Hc. simpl. split; [done|].
      split; [intros j Hj; by apply elem_of_nil in Hj|]. done.
    + injection Hrun as <- <-. rewrite put_arena. split; [done|]. split; [done|].
      exists [], k, l, node. rewrite Hc. simpl. split; [done|].
      split; [intros j Hj; by apply elem_of_nil in Hj|]. done.
Qed.

(** A pass returns normally exactly when the computation of every node does. *)
Lemma nodeLoop_returns (l : list K) (rm : ResourceModel) :
  NoDup l →
  (∀ k, k ∈ l → ∃ node node', arena rm !! k = Some node ∧ compute rm node = Ret node') →
  ∃ rm', forEach nodeStep l rm = (Ret tt, rm').
Proof.
  intros Hnd Hall.
  destruct (forEach nodeStep l rm) as [o rm'] eqn:Hrun.
  destruct (nodeLoop_spec l rm o rm' Hnd) as (_ & _ & Hres); [|done|].
  { intros k Hk. destruct (Hall k Hk) as (n & _ & -> & _). eauto. }
  destruct o as [[]| err |]; [by exists rm'| |].
  - destruct Hres as (pre & k & post & n & -> & _ & _ & Hn & Hstop).
    destruct (Hall k) as (n1 & n1' & Hn1 & Hc); [apply elem_of_app; right; by left|].
    rewrite Hn in Hn1. injection Hn1 as <-. rewrite Hc in Hstop. done.
  - destruct Hres as (pre & k & post & n & -> & _ & _ & Hn & Hstop).
    destruct (Hall k) as (n1 & n1' & Hn1 & Hc); [apply elem_of_app; right; by left|].
    rewrite Hn in Hn1. injection Hn1 as <-. rewrite Hc in Hstop. done.
Qed.

(** The same for a pass, which visits the nodes of the arena in the order
    [range] yields them. *)
Lemma nodePass_returns_iff (rm rm' : ResourceModel) (o : outcome unit) :
  forEach nodeStep (range_order (arena rm)).*1 rm = (o, rm') →
  (o = Ret tt →
   ∀ k node, arena rm !! k = Some node →
     ∃ node', compute rm node = Ret node' ∧ arena rm' !! k = Some node')
  ∧ ((∀ k node, arena rm !! k = Some node → ∃ node', compute rm node = Ret node') →
     o = Ret tt).
Proof.
  intros Hrun.
  pose proof (range_order_NoDup (arena rm)) as Hnd.
  assert (Hin : ∀ k, k ∈ (range_order (arena rm)).*1 → is_Some (arena rm !! k))
    by (intros k; apply range_order_keys).
  split.
  - intros ->. intros k node Hk.
    destruct (nodeLoop_spec _ rm _ rm' Hnd Hin Hrun) as (_ & _ & Hres).
    destruct (Hres k) as (n & n' & Hn & Hc & Hn'); [apply range_order_keys; eauto|].
    rewrite Hk in Hn. injection Hn as <-. eauto.
  - intros Hall. destruct (nodeLoop_returns _ rm Hnd) as [rm2 Hrun2].
    + intros k Hk. apply Hin in Hk as [n Hn]. destruct (Hall k n Hn) as [n' Hn']. eauto.
    + rewrite Hrun2 in Hrun. by injection Hrun as <- _.
Qed.

(** A pass that stops leaves the node it stopped at, and the nodes after
    it in the order of the visit, as they were; the nodes before it keep
    what was computed for them. *)
Lemma nodePass_stops (rm rm' : ResourceModel) (o : outcome unit) :
  forEach nodeStep (range_order (arena rm)).*1 rm = (o, rm') →
  o ≠ Ret tt →
  ∃ pre k post node,
    (range_order (arena rm)).*1 = pre ++ k :: post
    ∧ (∀ j, j ∈ pre → computedAt rm rm' j)
    ∧ (∀ j, j ∈ k :: post → arena rm' !! j = arena rm !! j)
    ∧ arena rm !! k = Some node
    ∧ stopsWith (compute rm node) o.
Proof.
  intros Hrun Ho.
  pose proof (range_order_NoDup (arena rm)) as Hnd.
  assert (Hin : ∀ k, k ∈ (range_order (arena rm)).*1 → is_Some (arena rm !! k))
    by (intros k; apply range_order_keys).
  destruct (nodeLoop_spec _ rm _ rm' Hnd Hin Hrun) as (_ & _ & Hres).
  destruct o as [[]| err |]; [done|exact Hres|exact Hres].
Qed.

(** A pass changes nothing but the arena it writes. *)
Lemma nodePass_frame (rm rm' : ResourceModel) (o : outcome unit) :
  forEach nodeStep (range_order (arena rm)).*1 rm = (o, rm') →
  rm' = put (arena rm') rm ∧ dom (arena rm') = dom (arena rm).
Proof.
  intros Hrun.
  pose proof (range_order_NoDup (arena rm)) as Hnd.
  assert (Hin : ∀ k, k ∈ (range_order (arena rm)).*1 → is_Some (arena rm !! k))
    by (intros k; apply range_order_keys).
  destruct (nodeLoop_spec _ rm _ rm' Hnd Hin Hrun) as (Hput & Hout & Hres).
  split; [done|]. apply set_eq. intros k. rewrite !elem_of_dom.
  destruct (decide (k ∈ (range_order (arena rm)).*1)) as [Hk|Hk]; [|by rewrite Hout].
  assert (Hcase : computedAt rm rm' k ∨ arena rm' !! k = arena rm !! k).
  { destruct o as [[]| err |].
    - left. by apply Hres.
    - destruct Hres as (pre & k0 & post & nk & Hl & Hpre & Hpost & _).
      rewrite Hl in Hk. apply elem_of_app in Hk as [?|?]; [left|right]; auto.
    - destruct Hres as (pre & k0 & post & nk & Hl & Hpre & Hpost & _).
      rewrite Hl in Hk. apply elem_of_app in Hk as [?|?]; [left|right]; auto. }
  destruct Hcase as [(n & n' & Hn & _ & Hn')|Hsame]; [|by rewrite Hsame].
  rewrite Hn, Hn'. split; eauto.
Qed.

(** Every node after a pass is the node before it, or what was computed
    for it. *)
Lemma nodePass_pointwise (rm rm' : ResourceModel) (o : outcome unit) (k : K) (node : N) :
  forEach nodeStep (range_order (arena rm)).*1 rm = (o, rm') →
  arena rm !! k = Some node →
  arena rm' !! k = Some node
  ∨ ∃ node', compute rm node = Ret node' ∧ arena rm' !! k = Some node'.
Proof.
  intros Hrun Hnode.
  pose proof (range_order_NoDup (arena rm)) as Hnd.
  assert (Hin : ∀ k, k ∈ (range_order (arena rm)).*1 → is_Some (arena rm !! k))
    by (intros j; apply range_order_keys).
  destruct (nodeLoop_spec _ rm _ rm' Hnd Hin Hrun) as (Hput & Hout & Hres).
  assert (Hk : k ∈ (range_order (arena rm)).*1) by (apply range_order_keys; eauto).
  assert (Hcase : computedAt rm rm' k ∨ arena rm' !! k = arena rm !! k).
  { destruct o as [[]| err |].
    - left. by apply Hres.
    - destruct Hres as (pre & k0 & post & nk & Hl & Hpre & Hpost & _).
      rewrite Hl in Hk. apply elem_of_app in Hk as [?|?]; [left|right]; auto.
    - destruct Hres as (pre & k0 & post & nk & Hl & Hpre & Hpost & _).
      rewrite Hl in Hk. apply elem_of_app in Hk as [?|?]; [left|right]; auto. }
  destruct Hcase as [(n & n' & Hn & Hc & Hn')|Hsame].
  - right. rewrite Hnode in Hn. injection Hn as <-. eauto.
  - left. by rewrite Hsame.
Qed.

(** A pass whose computation changes a node only in a way that [erase]
    forgets leaves the erased arena as it was. *)
Lemma nodePass_erased (erase : N → N) (rm rm' : ResourceModel) (o : outcome unit) :
  (∀ rm node node', compute rm node = Ret node' → erase node' = erase node) →
  forEach nodeStep (range_order (arena rm)).*1 rm = (o, rm') →
  erase <$> arena rm' = erase <$> arena rm.
Proof.
  intros Herase Hrun. apply map_eq. intros k. rewrite !lookup_fmap.
  destruct (arena rm !! k) as [n|] eqn:Hn.
  - destruct (nodePass_pointwise rm rm' o k n Hrun Hn) as [->|(n' & Hc & ->)]; [done|].
    simpl. f_equal. by apply (Herase rm).
  - destruct (nodePass_frame rm rm' o Hrun) as [_ Hdom].
    assert (Hk : arena rm' !! k = None).
    { apply not_elem_of_dom. rewrite Hdom. by apply not_elem_of_dom. }
    by rewrite Hk.
Qed.

End NodeLoop.

(** ** The gateway pass *)

Lemma rm_with_Gateways_id (rm : ResourceModel) : rm_with_Gateways (rm_Gateways rm) rm = rm.
Proof. by destruct rm. Qed.

Lemma rm_with_HTTPRoutes_id (rm : ResourceModel) :
  rm_with_HTTPRoutes (rm_HTTPRoutes rm) rm = rm.
Proof. by destruct rm. Qed.

Lemma rm_with_Backends_id (rm : ResourceModel) : rm_with_Backends (rm_Backends rm) rm = rm.
Proof. by destruct rm. Qed.

Lemma gatewayEffectiveStep_nodeStep (ptr : gatewayID) (rm : ResourceModel) :
  gatewayEffectiveStep ptr rm
  = nodeStep rm_Gateways rm_with_Gateways gatewayEffective ptr rm.
Proof.
  unfold gatewayEffectiveStep, nodeStep, gatewayEffective, deref. simpl.
  destruct (rm_Gateways rm !! ptr) as [n|] eqn:Hn; [|done].
  destruct (gw_GatewayClass n) as [c|].
  - by destruct (effectivePoliciesOfGateway rm n c).
  - by rewrite insert_id, rm_with_Gateways_id.
Qed.

Lemma effectivePoliciesOfGateway_Ret (rm : ResourceModel) (n : GatewayNode)
    (c : gatewayClassID) (result : PolicyMap) :
  effectivePoliciesOfGateway rm n c = Ret result ↔ gatewayMerge rm n c result.
Proof.
  unfold effectivePoliciesOfGateway, gatewayMerge, deref. simpl. split.
  - destruct (rm_GatewayClasses rm !! c) as [cn|]; [|done]. simpl.
    destruct (gw_Namespace n ≫= (rm_Namespaces rm !!.)) as [nsn|]; [|done]. simpl.
    destruct (MergePoliciesOfSimilarKind (convertPoliciesMapToSlice (gc_Policies cn)))
      as [cK|] eqn:E1; [|done]. simpl.
    destruct (MergePoliciesOfSimilarKind (convertPoliciesMapToSlice (ns_Policies nsn)))
      as [nK|] eqn:E2; [|done]. simpl.
    destruct (MergePoliciesOfSimilarKind (convertPoliciesMapToSlice (gw_Policies n)))
      as [gK|] eqn:E3; [|done]. simpl.
    destruct (MergePoliciesOfDifferentHierarchy cK nK) as [a|] eqn:E4; [|done]. simpl.
    destruct (MergePoliciesOfDifferentHierarchy a gK) as [r|] eqn:E5; [|done]. simpl.
    intros [= <-]. by exists cn, nsn, cK, nK, gK, a.
  - intros (cn & nsn & cK & nK & gK & a & -> & -> & E1 & E2 & E3 & E4 & E5). simpl.
    rewrite E1. simpl. rewrite E2. simpl. rewrite E3. simpl. rewrite E4. simpl.
    by rewrite E5.
Qed.

(** ** Loops that build a mapping *)

Lemma foldlM_ext {A B : Type} (f g : B → A → outcome B) (l : list A) (acc : B) :
  (∀ b a, f b a = g b a) → foldlM f l acc = foldlM g l acc.
Proof.
  intros Hfg. revert acc. induction l as [|a l IH]; intros acc; simpl; [done|].
  rewrite Hfg. destruct (g acc a); simpl; auto.
Qed.

Lemma foldlM_app {A B : Type} (f : B → A → outcome B) (l1 l2 : list A) (acc : B) :
  foldlM f (l1 ++ l2) acc = foldlM f l1 acc ≫= foldlM f l2.
Proof.
  revert acc. induction l1 as [|a l1 IH]; intros acc; simpl; [done|].
  destruct (f acc a); simpl; auto.
Qed.

(** A loop that writes one computed value per key. *)
Lemma foldlM_insert_spec {K : Type} `{Countable K} {P V : Type}
    (g : K * P → outcome V) (l : list (K * P)) (acc result : gmap K V) :
  NoDup l.*1 →
  foldlM (λ r kv, v ← g kv; mret (<[kv.1 := v]> r)) l acc = Ret result
  ↔ (∀ kv, kv ∈ l → ∃ v, g kv = Ret v ∧ result !! kv.1 = Some v)
    ∧ (∀ k, k ∉ l.*1 → result !! k = acc !! k).
Proof.
  revert acc. induction l as [|[k p] l IH]; intros acc Hnd; simpl.
  - split.
    + intros [= <-]. split; [|done]. intros kv Hkv. by apply elem_of_nil in Hkv.
    + intros [_ Hout]. f_equal. apply map_eq. intros k. symmetry. apply Hout.
      apply not_elem_of_nil.
  - apply NoDup_cons in Hnd as [Hk Hnd]. split.
    + destruct (g (k, p)) as [v| |] eqn:Hg; simpl; [|done..].
      intros Hrun. apply IH in Hrun as [Hin Hout]; [|done]. split.
      * intros kv Hkv. apply elem_of_cons in Hkv as [->|Hkv]; [|by apply Hin].
        exists v. split; [done|]. simpl. rewrite Hout by done. apply lookup_insert_eq.
      * intros j Hj. apply not_elem_of_cons in Hj as [Hjk Hjl].
        rewrite Hout by done. by apply lookup_insert_ne.
    + intros [Hin Hout].
      destruct (Hin (k, p)) as (v & Hg & Hv); [by left|]. rewrite Hg. simpl.
      apply IH; [done|]. split.
      * intros kv Hkv. apply Hin. by right.
      * intros j Hj. destruct (decide (j = k)) as [->|Hjk].
        -- simpl in Hv. rewrite Hv. symmetry. apply lookup_insert_eq.
        -- rewrite lookup_insert_ne by done. apply Hout.
           apply not_elem_of_cons. by split.
Qed.

(** ** The route pass *)

Lemma httpRouteEffectiveStep_nodeStep (ptr : httpRouteID) (rm : ResourceModel) :
  httpRouteEffectiveStep ptr rm
  = nodeStep rm_HTTPRoutes rm_with_HTTPRoutes httpRouteEffective ptr rm.
Proof.
  unfold httpRouteEffectiveStep, nodeStep, httpRouteEffective, deref. simpl.
  destruct (rm_HTTPRoutes rm !! ptr) as [n|] eqn:Hn; [|done].
  by destruct (effectivePoliciesOfHTTPRoute rm n).
Qed.

Lemma effectivePoliciesOfHTTPRoute_Ret (rm : ResourceModel) (n : HTTPRouteNode)
    (result : gmap gatewayID PolicyMap) :
  effectivePoliciesOfHTTPRoute rm n = Ret result ↔ httpRouteMerge rm n result.
Proof.
  unfold effectivePoliciesOfHTTPRoute, httpRouteMerge, deref.
  destruct (hr_Namespace n ≫= (rm_Namespaces rm !!.)) as [nsn|]; simpl;
    [|split; [done|by intros (? & ? & ? & ? & _)]].
  destruct (MergePoliciesOfSimilarKind (convertPoliciesMapToSlice (hr_Policies n)))
    as [rK|] eqn:E1; simpl; [|split; [done|by intros (? & ? & ? & ? & ? & _)]].
  destruct (MergePoliciesOfSimilarKind (convertPoliciesMapToSlice (ns_Policies nsn)))
    as [nK|] eqn:E2; simpl;
    [|split; [done|intros (? & ? & ? & [= <-] & _ & ? & _); congruence]].
  set (g := λ kv : gatewayID * gatewayID,
         gatewayNode ← deref (rm_Gateways rm) (Some kv.2);
         withNamespace ← liftMerge
           (MergePoliciesOfDifferentHierarchy (gw_EffectivePolicies gatewayNode) nK);
         liftMerge (MergePoliciesOfDifferentHierarchy withNamespace rK)).
  rewrite (foldlM_ext _ (λ r kv, v ← g kv; mret (<[kv.1 := v]> r))).
  2:{ intros b [G ptr]. unfold g, deref. simpl.
      destruct (rm_Gateways rm !! ptr) as [gn|]; simpl; [|done].
      destruct (MergePoliciesOfDifferentHierarchy (gw_EffectivePolicies gn) nK); simpl;
        [|done].
      by destruct (MergePoliciesOfDifferentHierarchy policies rK). }
  rewrite foldlM_insert_spec by apply range_order_NoDup.
  assert (Hg : ∀ G ptr v, g (G, ptr) = Ret v ↔
            ∃ gatewayNode withNamespace,
              rm_Gateways rm !! ptr = Some gatewayNode
              ∧ MergePoliciesOfDifferentHierarchy (gw_EffectivePolicies gatewayNode) nK
                = Merged withNamespace
              ∧ MergePoliciesOfDifferentHierarchy withNamespace rK = Merged v).
  { intros G ptr v. unfold g, deref. simpl. split.
    - destruct (rm_Gateways rm !! ptr) as [gn|]; simpl; [|done].
      destruct (MergePoliciesOfDifferentHierarchy (gw_EffectivePolicies gn) nK) as [w|]
        eqn:E3; simpl; [|done].
      destruct (MergePoliciesOfDifferentHierarchy w rK) as [f|] eqn:E4; simpl; [|done].
      intros [= <-]. by exists gn, w.
    - intros (gn & w & -> & E3 & E4). simpl. rewrite E3. simpl. by rewrite E4. }
  split.
  - intros [Hin Hout]. exists nsn, rK, nK. repeat (split; [done|]). split.
    + apply set_eq. intros G. rewrite !elem_of_dom. split.
      * intros HG. destruct (hr_Gateways n !! G) as [ptr|] eqn:Hptr; [eauto|].
        rewrite Hout in HG; [by rewrite lookup_empty in HG|].
        intros HGin. apply range_order_keys in HGin. rewrite Hptr in HGin.
        by destruct HGin.
      * intros [ptr Hptr]. apply range_order_elem in Hptr.
        destruct (Hin _ Hptr) as (v & _ & Hv). eauto.
    + intros G ptr Hptr. apply range_order_elem in Hptr.
      destruct (Hin _ Hptr) as (v & Hgv & Hv). apply Hg in Hgv as (gn & w & ? & ? & ?).
      by exists gn, w, v.
  - intros (nsn' & rK' & nK' & [= <-] & [= <-] & E2' & Hdom & Hall).
    rewrite E2 in E2'. injection E2' as <-. split.
    + intros [G ptr] Hkv. apply range_order_elem in Hkv.
      destruct (Hall G ptr Hkv) as (gn & w & f & ? & ? & ? & ?).
      exists f. split; [|done]. apply Hg. by exists gn, w.
    + intros G HG. rewrite lookup_empty. apply not_elem_of_dom. rewrite Hdom.
      intros HGdom. apply HG, range_order_keys. by apply elem_of_dom.
Qed.

(** ** The backend pass *)

(** A loop that rewrites the entry of one key per iteration, from the
    entry's current value. *)
Lemma foldlM_update_spec {K : Type} `{Countable K} {A V : Type}
    (key : A → K) (g : option V → A → outcome V) (l : list A) (acc result : gmap K V) :
  NoDup (key <$> l) →
  foldlM (λ r a, v ← g (r !! key a) a; mret (<[key a := v]> r)) l acc = Ret result
  ↔ (∀ a, a ∈ l → ∃ v, g (acc !! key a) a = Ret v ∧ result !! key a = Some v)
    ∧ (∀ k, k ∉ key <$> l → result !! k = acc !! k).
Proof.
  revert acc. induction l as [|a l IH]; intros acc Hnd; simpl.
  - split.
    + intros [= <-]. split; [|done]. intros kv Hkv. by apply elem_of_nil in Hkv.
    + intros [_ Hout]. f_equal. apply map_eq. intros k. symmetry. apply Hout.
      apply not_elem_of_nil.
  - simpl in Hnd. apply NoDup_cons in Hnd as [Hk Hnd].
    assert (Hfresh : ∀ b v, b ∈ l → <[key a := v]> acc !! key b = acc !! key b).
    { intros b v Hb. apply lookup_insert_ne. intros Heq. apply Hk. rewrite Heq.
      apply list_elem_of_fmap. eauto. }
    split.
    + destruct (g (acc !! key a) a) as [v| |] eqn:Hg; simpl; [|done..].
      intros Hrun. apply IH in Hrun as [Hin Hout]; [|done]. split.
      * intros b Hb. apply elem_of_cons in Hb as [->|Hb].
        -- exists v. split; [done|]. rewrite Hout by done. apply lookup_insert_eq.
        -- destruct (Hin b Hb) as (w & Hw & Hres). exists w.
           by rewrite Hfresh in Hw.
      * intros j Hj. apply not_elem_of_cons in Hj as [Hjk Hjl].
        rewrite Hout by done. by apply lookup_insert_ne.
    + intros [Hin Hout].
      destruct (Hin a) as (v & Hg & Hv); [by left|]. rewrite Hg. simpl.
      apply IH; [done|]. split.
      * intros b Hb. destruct (Hin b) as (w & Hw & Hres); [by right|].
        exists w. by rewrite Hfresh.
      * intros j Hj. destruct (decide (j = key a)) as [->|Hjk].
        -- rewrite Hv. symmetry. apply lookup_insert_eq.
        -- rewrite lookup_insert_ne by done. apply Hout.
           apply not_elem_of_cons. by split.
Qed.

Lemma backendEffectiveStep_nodeStep (ptr : backendID) (rm : ResourceModel) :
  backendEffectiveStep ptr rm
  = nodeStep rm_Backends rm_with_Backends backendEffective ptr rm.
Proof.
  unfold backendEffectiveStep, nodeStep, backendEffective, deref. simpl.
  destruct (rm_Backends rm !! ptr) as [n|] eqn:Hn; [|done].
  by destruct (effectivePoliciesOfBackend rm n).
Qed.

(** The value [result[gatewayID]] reads. *)
Abbreviation cur r G := (default None (r !! G)).

(** The inner loop of step 3, over the effective policies of one route. *)
Lemma foldRoute_spec (m acc result : gmap gatewayID PolicyMap) :
  foldHTTPRoute m acc = Ret result
  ↔ ∀ G, match m !! G with
         | Some policies =>
             ∃ folded, MergePoliciesOfSameHierarchy (cur acc G) policies = Merged folded
                       ∧ result !! G = Some folded
         | None => result !! G = acc !! G
         end.
Proof.
  unfold foldHTTPRoute.
  set (g := λ (o : option PolicyMap) (kv : gatewayID * PolicyMap),
         liftMerge (MergePoliciesOfSameHierarchy (default None o) kv.2)).
  rewrite (foldlM_ext _ (λ r kv, v ← g (r !! kv.1) kv; mret (<[kv.1 := v]> r)))
    by (by intros b [G p]).
  etrans; [apply (foldlM_update_spec fst g), range_order_NoDup|]. unfold g.
  split.
  - intros [Hin Hout] G. destruct (m !! G) as [p|] eqn:Hp.
    + apply range_order_elem in Hp. destruct (Hin _ Hp) as (v & Hv & Hres).
      simpl in *. exists v. split; [|done].
      destruct (MergePoliciesOfSameHierarchy (cur acc G) p); simpl in Hv; by simplify_eq.
    + apply Hout. intros HG. apply range_order_keys in HG. rewrite Hp in HG.
      by destruct HG.
  - intros Hall. split.
    + intros [G p] Hkv. apply range_order_elem in Hkv. specialize (Hall G).
      rewrite Hkv in Hall. destruct Hall as (f & Hf & Hres). exists f. simpl.
      by rewrite Hf.
    + intros G HG. specialize (Hall G). destruct (m !! G) as [p|] eqn:Hp; [|done].
      exfalso. apply HG, range_order_keys. eauto.
Qed.

Lemma foldlM_update_returns {K : Type} `{Countable K} {A V : Type}
    (key : A → K) (g : option V → A → outcome V) (l : list A) (acc : gmap K V) :
  NoDup (key <$> l) →
  (∀ a, a ∈ l → ∃ v, g (acc !! key a) a = Ret v) →
  ∃ result, foldlM (λ r a, v ← g (r !! key a) a; mret (<[key a := v]> r)) l acc
            = Ret result.
Proof.
  revert acc. induction l as [|a l IH]; intros acc Hnd Hall; simpl; [eauto|].
  simpl in Hnd. apply NoDup_cons in Hnd as [Hk Hnd].
  destruct (Hall a) as [v Hv]; [by left|]. rewrite Hv. simpl.
  apply IH; [done|]. intros b Hb. destruct (Hall b) as [w Hw]; [by right|].
  exists w. rewrite lookup_insert_ne; [done|]. intros Heq. apply Hk. rewrite Heq.
  apply list_elem_of_fmap. eauto.
Qed.

Lemma foldRoute_returns (m acc : gmap gatewayID PolicyMap) :
  (∀ G policies, m !! G = Some policies →
     ∃ folded, MergePoliciesOfSameHierarchy (cur acc G) policies = Merged folded) →
  ∃ result,
    foldHTTPRoute m acc = Ret result.
Proof.
  intros Hall. unfold foldHTTPRoute.
  set (g := λ (o : option PolicyMap) (kv : gatewayID * PolicyMap),
         liftMerge (MergePoliciesOfSameHierarchy (default None o) kv.2)).
  rewrite (foldlM_ext _ (λ r kv, v ← g (r !! kv.1) kv; mret (<[kv.1 := v]> r)))
    by (by intros b [G p]).
  apply (foldlM_update_returns fst g); [apply range_order_NoDup|].
  intros [G p] Hkv. apply range_order_elem in Hkv.
  destruct (Hall G p Hkv) as [f Hf]. exists f. unfold g. simpl. by rewrite Hf.
Qed.

Section FoldRoutes.

Variable rm : ResourceModel.

(** The contributions of the routes in [L] for the gateway [G]. *)
Abbreviation contribsOf L G :=
  (omap (λ kv : httpRouteID * httpRouteID,
           httpRouteNode ← rm_HTTPRoutes rm !! kv.2;
           default ∅ (hr_EffectivePolicies httpRouteNode) !! G) L).

Abbreviation routesBody :=
  (λ (result : gmap gatewayID PolicyMap) '(_, httpRoutePtr),
     httpRouteNode ← deref (rm_HTTPRoutes rm) (Some httpRoutePtr);
     let httpRoutePoliciesByGateway :=
       default ∅ (hr_EffectivePolicies httpRouteNode) in
     foldHTTPRoute httpRoutePoliciesByGateway result).

Lemma foldRoutes_spec (L : list (httpRouteID * httpRouteID))
    (acc result : gmap gatewayID PolicyMap) :
  foldlM routesBody L acc = Ret result →
  (∀ kv, kv ∈ L → is_Some (rm_HTTPRoutes rm !! kv.2))
  ∧ ∀ G, peerFold (cur acc G) (contribsOf L G) = Ret (cur result G)
         ∧ (is_Some (result !! G) ↔ is_Some (acc !! G) ∨ contribsOf L G ≠ []).
Proof.
  revert acc. induction L as [|[k ptr] L IH]; intros acc; simpl.
  - intros [= <-]. split; [intros kv Hkv; by apply elem_of_nil in Hkv|].
    intros G. split; [done|]. split; [by left|]. by intros [?|?].
  - unfold deref. simpl. destruct (rm_HTTPRoutes rm !! ptr) as [rn|] eqn:Hrn; [|done].
    simpl.
    destruct (foldHTTPRoute (default ∅ (hr_EffectivePolicies rn)) acc)
      as [r1| |] eqn:Hinner; [|done..].
    simpl. intros Hrest. apply IH in Hrest as [Hvalid HG].
    pose proof (proj1 (foldRoute_spec _ _ _) Hinner) as Hin1. clear Hinner.
    rename Hin1 into Hinner. split.
    + intros kv Hkv. apply elem_of_cons in Hkv as [->|Hkv]; [simpl; eauto|by apply Hvalid].
    + intros G. specialize (HG G) as [Hfold Hpres]. specialize (Hinner G).
      destruct (default ∅ (hr_EffectivePolicies rn) !! G) as [p|] eqn:Hp; simpl.
      * destruct Hinner as (f & Hf & Hr1). unfold peerFold. simpl. rewrite Hf. simpl.
        rewrite Hr1 in Hfold. simpl in Hfold. split; [done|].
        rewrite Hpres, Hr1. split; [|eauto]. intros _. by right.
      * rewrite Hinner in Hfold, Hpres. done.
Qed.

Lemma foldRoutes_returns (L : list (httpRouteID * httpRouteID))
    (acc : gmap gatewayID PolicyMap) :
  (∀ kv, kv ∈ L → is_Some (rm_HTTPRoutes rm !! kv.2)) →
  (∀ G, ∃ folded, peerFold (cur acc G) (contribsOf L G) = Ret folded) →
  ∃ result, foldlM routesBody L acc = Ret result.
Proof.
  revert acc. induction L as [|[k ptr] L IH]; intros acc Hvalid Hall; simpl; [eauto|].
  destruct (Hvalid (k, ptr)) as [rn Hrn]; [by left|]. simpl in Hrn.
  unfold deref. simpl. rewrite Hrn. simpl.
  destruct (foldRoute_returns (default ∅ (hr_EffectivePolicies rn)) acc) as [r1 Hinner].
  { intros G p Hp. destruct (Hall G) as [x Hx]. simpl in Hx. rewrite Hrn in Hx.
    simpl in Hx. rewrite Hp in Hx. unfold peerFold in Hx. simpl in Hx.
    destruct (MergePoliciesOfSameHierarchy (cur acc G) p); [eauto|done]. }
  rewrite Hinner. simpl. apply IH; [intros kv Hkv; apply Hvalid; by right|].
  pose proof (proj1 (foldRoute_spec _ _ _) Hinner) as Hin1. clear Hinner.
  rename Hin1 into Hinner. intros G. specialize (Hinner G).
  destruct (Hall G) as [x Hx]. simpl in Hx. rewrite Hrn in Hx. simpl in Hx.
  destruct (default ∅ (hr_EffectivePolicies rn) !! G) as [p|] eqn:Hp.
  - destruct Hinner as (f & Hf & Hr1). unfold peerFold in Hx. simpl in Hx.
    rewrite Hf in Hx. simpl in Hx. rewrite Hr1. simpl. eauto.
  - rewrite Hinner. eauto.
Qed.

End FoldRoutes.

Lemma overlayBackendPolicies_spec (nsK bK : PolicyMap)
    (folded result : gmap gatewayID PolicyMap) :
  overlayBackendPolicies nsK bK folded = Ret result
  ↔ ∀ G, match folded !! G with
         | Some peers =>
             ∃ withNamespace final,
               MergePoliciesOfDifferentHierarchy peers nsK = Merged withNamespace
               ∧ MergePoliciesOfDifferentHierarchy withNamespace bK = Merged final
               ∧ result !! G = Some final
         | None => result !! G = None
         end.
Proof.
  unfold overlayBackendPolicies.
  set (g := λ (o : option PolicyMap) (_ : gatewayID),
         withNamespace ← liftMerge (MergePoliciesOfDifferentHierarchy (default None o) nsK);
         liftMerge (MergePoliciesOfDifferentHierarchy withNamespace bK)).
  rewrite (foldlM_ext _ (λ r G, v ← g (r !! id G) G; mret (<[id G := v]> r))).
  2:{ intros b G. unfold g. simpl.
      destruct (MergePoliciesOfDifferentHierarchy (cur b G) nsK); simpl; [|done].
      by destruct (MergePoliciesOfDifferentHierarchy policies bK). }
  etrans; [apply (foldlM_update_spec id g); rewrite list_fmap_id; apply range_order_NoDup|].
  rewrite list_fmap_id. unfold g. simpl. split.
  - intros [Hin Hout] G. destruct (folded !! G) as [x|] eqn:Hx.
    + destruct (Hin G) as (v & Hv & Hres); [apply range_order_keys; eauto|].
      rewrite Hx in Hv. simpl in Hv.
      destruct (MergePoliciesOfDifferentHierarchy x nsK) as [w|] eqn:E1; [|done].
      simpl in Hv.
      destruct (MergePoliciesOfDifferentHierarchy w bK) as [f|] eqn:E2; [|done].
      simpl in Hv. injection Hv as <-. by exists w, f.
    + rewrite Hout; [done|]. intros HG. apply range_order_keys in HG.
      rewrite Hx in HG. by destruct HG.
  - intros Hall. split.
    + intros G HG. apply range_order_keys in HG as [x Hx]. specialize (Hall G).
      rewrite Hx in Hall. destruct Hall as (w & f & E1 & E2 & Hres).
      exists f. rewrite Hx. simpl. rewrite E1. simpl. by rewrite E2.
    + intros G HG. specialize (Hall G). destruct (folded !! G) as [x|] eqn:Hx; [|done].
      exfalso. apply HG, range_order_keys. eauto.
Qed.

Lemma peerFold_nil_contributions (rm : ResourceModel) (n : BackendNode)
    (r3 : gmap gatewayID PolicyMap) (G : gatewayID) :
  peerFold None (contributions rm n G) = Ret (cur r3 G) →
  (is_Some (r3 !! G) ↔ is_Some ((∅ : gmap gatewayID PolicyMap) !! G)
                       ∨ contributions rm n G ≠ []) →
  match contributions rm n G with
  | [] => r3 !! G = None
  | contribs => ∃ peers, r3 !! G = Some peers ∧ peerFold None contribs = Ret peers
  end.
Proof.
  intros Hfold Hpres. destruct (contributions rm n G) as [|p cs] eqn:Hc.
  - destruct (r3 !! G) eqn:Hr; [|done]. destruct Hpres as [Hpres _].
    destruct Hpres as [Hpres|Hpres]; [eauto| |done].
    rewrite lookup_empty in Hpres. by destruct Hpres.
  - destruct Hpres as [_ Hpres]. destruct Hpres as [x Hx]; [by right|].
    exists x. split; [done|]. by rewrite Hx in Hfold.
Qed.

Lemma effectivePoliciesOfBackend_Ret (rm : ResourceModel) (n : BackendNode)
    (result : gmap gatewayID PolicyMap) :
  effectivePoliciesOfBackend rm n = Ret result ↔ backendMerge rm n result.
Proof.
  unfold effectivePoliciesOfBackend, backendMerge, deref.
  destruct (bk_Namespace n ≫= (rm_Namespaces rm !!.)) as [nsn|]; simpl;
    [|split; [done|by intros (? & ? & ? & ? & _)]].
  destruct (MergePoliciesOfSimilarKind (convertPoliciesMapToSlice (bk_Policies n)))
    as [bK|] eqn:E1; simpl; [|split; [done|by intros (? & ? & ? & ? & ? & _)]].
  destruct (MergePoliciesOfSimilarKind (convertPoliciesMapToSlice (ns_Policies nsn)))
    as [nK|] eqn:E2; simpl;
    [|split; [done|intros (? & ? & ? & [= <-] & _ & ? & _); congruence]].
  split.
  - destruct (foldHTTPRoutes rm n) as [r3| |] eqn:Hfold; simpl; [|done..].
    intros Hover. unfold foldHTTPRoutes in Hfold.
    apply foldRoutes_spec in Hfold as [Hvalid HG].
    pose proof (proj1 (overlayBackendPolicies_spec _ _ _ _) Hover) as Hres.
    exists nsn, bK, nK. repeat (split; [done|]). split.
    + intros r ptr Hptr. apply range_order_elem in Hptr. apply (Hvalid _ Hptr).
    + intros G. specialize (HG G) as [Hf Hp]. specialize (Hres G).
      pose proof (peerFold_nil_contributions rm n r3 G Hf Hp) as Hcase.
      destruct (contributions rm n G) as [|p cs].
      * by rewrite Hcase in Hres.
      * destruct Hcase as (x & Hx & Hpeer). rewrite Hx in Hres.
        destruct Hres as (w & f & ? & ? & ?). by exists x, w, f.
  - intros (nsn' & bK' & nK' & [= <-] & [= <-] & E2' & Hvalid & Hall).
    rewrite E2 in E2'. injection E2' as <-.
    destruct (foldRoutes_returns rm (range_order (bk_HTTPRoutes n)) ∅) as [r3 Hfold].
    { intros [r ptr] Hkv. apply range_order_elem in Hkv. by apply (Hvalid r ptr). }
    { intros G. specialize (Hall G). rewrite lookup_empty. simpl.
      fold (contributions rm n G).
      destruct (contributions rm n G) as [|p cs]; [by exists None|].
      destruct Hall as (x & _ & _ & Hx & _). eauto. }
    assert (Hfold' : foldHTTPRoutes rm n = Ret r3) by exact Hfold.
    rewrite Hfold'. simpl.
    apply foldRoutes_spec in Hfold as [_ HG].
    apply overlayBackendPolicies_spec. intros G.
    specialize (HG G) as [Hf Hp]. specialize (Hall G).
    pose proof (peerFold_nil_contributions rm n r3 G Hf Hp) as Hcase.
    destruct (contributions rm n G) as [|p cs].
    + by rewrite Hcase.
    + destruct Hcase as (x & Hx & Hpeer). rewrite Hx.
      destruct Hall as (x' & w & f & Hpeer' & ? & ? & ?).
      rewrite Hpeer in Hpeer'. injection Hpeer' as <-. by exists w, f.
Qed.

(** ** Errors and nil pointers *)

Lemma stopsWith_Fail {A : Type} (computed : outcome A) (err : error) :
  stopsWith computed (Fail err) → computed = Fail err.
Proof. destruct computed; simpl; try done. by intros ->. Qed.

Lemma stopsWith_Panic {A : Type} (computed : outcome A) :
  stopsWith computed Panic → computed = Panic.
Proof. by destruct computed. Qed.

Lemma foldlM_no_panic {A B : Type} (body : B → A → outcome B) (l : list A) (acc : B) :
  (∀ b a, a ∈ l → body b a ≠ Panic) → foldlM body l acc ≠ Panic.
Proof.
  revert acc. induction l as [|a l IH]; intros acc Hall; simpl; [done|].
  destruct (body acc a) as [b| |] eqn:Hb; simpl; [|done|].
  - apply IH. intros b' a' Ha'. apply Hall. by right.
  - exfalso. apply (Hall acc a); [by left|done].
Qed.

Lemma liftMerge_no_panic (r : merged) : liftMerge r ≠ Panic.
Proof. by destruct r. Qed.

Lemma bind_no_panic {A B : Type} (x : outcome A) (f : A → outcome B) :
  x ≠ Panic → (∀ a, f a ≠ Panic) → x ≫= f ≠ Panic.
Proof. destruct x; simpl; auto. Qed.

Lemma deref_no_panic {K : Type} `{Countable K} {V : Type} (arena : gmap K V)
    (ptr : option K) :
  is_Some (ptr ≫= (arena !!.)) → deref arena ptr ≠ Panic.
Proof. unfold deref. by intros [v ->]. Qed.

Local Hint Resolve liftMerge_no_panic : core.

Lemma effectivePoliciesOfGateway_no_panic (rm : ResourceModel) (n : GatewayNode)
    (c : gatewayClassID) :
  is_Some (rm_GatewayClasses rm !! c) →
  is_Some (gw_Namespace n ≫= (rm_Namespaces rm !!.)) →
  effectivePoliciesOfGateway rm n c ≠ Panic.
Proof.
  intros Hc Hns. unfold effectivePoliciesOfGateway.
  apply bind_no_panic; [by apply deref_no_panic|]. intros cn.
  apply bind_no_panic; [by apply deref_no_panic|]. intros nsn.
  repeat (apply bind_no_panic; [done|]; intros ?). done.
Qed.

Lemma effectivePoliciesOfHTTPRoute_no_panic (rm : ResourceModel) (n : HTTPRouteNode) :
  is_Some (hr_Namespace n ≫= (rm_Namespaces rm !!.)) →
  (∀ G ptr, hr_Gateways n !! G = Some ptr → is_Some (rm_Gateways rm !! ptr)) →
  effectivePoliciesOfHTTPRoute rm n ≠ Panic.
Proof.
  intros Hns Hptr. unfold effectivePoliciesOfHTTPRoute.
  apply bind_no_panic; [by apply deref_no_panic|]. intros nsn.
  repeat (apply bind_no_panic; [done|]; intros ?).
  apply foldlM_no_panic. intros b [G ptr] Hkv. apply range_order_elem in Hkv.
  apply bind_no_panic; [apply deref_no_panic; simpl; eauto|]. intros gn.
  repeat (apply bind_no_panic; [done|]; intros ?). done.
Qed.

Lemma effectivePoliciesOfBackend_no_panic (rm : ResourceModel) (n : BackendNode) :
  is_Some (bk_Namespace n ≫= (rm_Namespaces rm !!.)) →
  (∀ r ptr, bk_HTTPRoutes n !! r = Some ptr → is_Some (rm_HTTPRoutes rm !! ptr)) →
  effectivePoliciesOfBackend rm n ≠ Panic.
Proof.
  intros Hns Hptr. unfold effectivePoliciesOfBackend.
  apply bind_no_panic; [by apply deref_no_panic|]. intros nsn.
  repeat (apply bind_no_panic; [done|]; intros ?).
  apply bind_no_panic.
  - unfold foldHTTPRoutes. apply foldlM_no_panic. intros b [r ptr] Hkv.
    apply range_order_elem in Hkv.
    apply bind_no_panic; [apply deref_no_panic; simpl; eauto|]. intros rn.
    unfold foldHTTPRoute. apply foldlM_no_panic. intros b' [G p] _.
    apply bind_no_panic; [done|]. done.
  - intros r3. unfold overlayBackendPolicies. apply foldlM_no_panic. intros b G _.
    repeat (apply bind_no_panic; [done|]; intros ?). done.
Qed.

Lemma effectivePoliciesOfGateway_nil_namespace (rm : ResourceModel) (n : GatewayNode)
    (c : gatewayClassID) :
  is_Some (rm_GatewayClasses rm !! c) → gw_Namespace n = None →
  effectivePoliciesOfGateway rm n c = Panic.
Proof.
  intros [cn Hc] Hns. unfold effectivePoliciesOfGateway, deref. simpl.
  rewrite Hc, Hns. done.
Qed.

Lemma effectivePoliciesOfHTTPRoute_nil_namespace (rm : ResourceModel) (n : HTTPRouteNode) :
  hr_Namespace n = None → effectivePoliciesOfHTTPRoute rm n = Panic.
Proof. intros Hns. unfold effectivePoliciesOfHTTPRoute, deref. by rewrite Hns. Qed.

Lemma effectivePoliciesOfBackend_nil_namespace (rm : ResourceModel) (n : BackendNode) :
  bk_Namespace n = None → effectivePoliciesOfBackend rm n = Panic.
Proof. intros Hns. unfold effectivePoliciesOfBackend, deref. by rewrite Hns. Qed.

Lemma nodeStep_gateways (rm : ResourceModel) :
  calculateEffectivePoliciesForGateways rm
  = forEach (nodeStep rm_Gateways rm_with_Gateways gatewayEffective)
            (range_order (rm_Gateways rm)).*1 rm.
Proof. apply forEach_ext, gatewayEffectiveStep_nodeStep. Qed.

Lemma nodeStep_httpRoutes (rm : ResourceModel) :
  calculateEffectivePoliciesForHTTPRoutes rm
  = forEach (nodeStep rm_HTTPRoutes rm_with_HTTPRoutes httpRouteEffective)
            (range_order (rm_HTTPRoutes rm)).*1 rm.
Proof. apply forEach_ext, httpRouteEffectiveStep_nodeStep. Qed.

Lemma nodeStep_backends (rm : ResourceModel) :
  calculateEffectivePoliciesForBackends rm
  = forEach (nodeStep rm_Backends rm_with_Backends backendEffective)
            (range_order (rm_Backends rm)).*1 rm.
Proof. apply forEach_ext, backendEffectiveStep_nodeStep. Qed.

(** C10.  Each effective-policy pass dereferences the namespace pointer of
    the node before any merge: the computation of a gateway with a class,
    of a route and of a backend panics when that pointer is nil.  A pass
    therefore returns normally only if the namespace of every such node is
    resolved, where a gateway without a class is skipped; and no pass
    panics on a model whose pointers are resolved. *)
Theorem namespace_is_dereferenced_unchecked (rm rm' : ResourceModel) (o : outcome unit) :
  ((∀ gatewayNode c,
      is_Some (rm_GatewayClasses rm !! c) → gw_Namespace gatewayNode = None →
      effectivePoliciesOfGateway rm gatewayNode c = Panic)
   ∧ (∀ httpRouteNode,
        hr_Namespace httpRouteNode = None →
        effectivePoliciesOfHTTPRoute rm httpRouteNode = Panic)
   ∧ (∀ backendNode,
        bk_Namespace backendNode = None →
        effectivePoliciesOfBackend rm backendNode = Panic))
  ∧ (calculateEffectivePoliciesForGateways rm = (Ret tt, rm') →
     ∀ g gatewayNode,
       rm_Gateways rm !! g = Some gatewayNode → is_Some (gw_GatewayClass gatewayNode) →
       is_Some (gw_Namespace gatewayNode ≫= (rm_Namespaces rm !!.)))
  ∧ (calculateEffectivePoliciesForHTTPRoutes rm = (Ret tt, rm') →
     ∀ r httpRouteNode,
       rm_HTTPRoutes rm !! r = Some httpRouteNode →
       is_Some (hr_Namespace httpRouteNode ≫= (rm_Namespaces rm !!.)))
  ∧ (calculateEffectivePoliciesForBackends rm = (Ret tt, rm') →
     ∀ b backendNode,
       rm_Backends rm !! b = Some backendNode →
       is_Some (bk_Namespace backendNode ≫= (rm_Namespaces rm !!.)))
  ∧ (pointersResolved rm →
     (calculateEffectivePoliciesForGateways rm = (o, rm') → o ≠ Panic)
     ∧ (calculateEffectivePoliciesForHTTPRoutes rm = (o, rm') → o ≠ Panic)
     ∧ (calculateEffectivePoliciesForBackends rm = (o, rm') → o ≠ Panic)).
Proof.
  split; [|split; [|split; [|split]]].
  - split; [|split].
    + apply effectivePoliciesOfGateway_nil_namespace.
    + apply effectivePoliciesOfHTTPRoute_nil_namespace.
    + apply effectivePoliciesOfBackend_nil_namespace.
  - intros Hrun g n Hg [c Hc]. rewrite nodeStep_gateways in Hrun.
    destruct (nodePass_returns_iff rm_Gateways rm_with_Gateways gatewayEffective
                (λ _ _, eq_refl) (λ _ _ _, eq_refl) rm_with_Gateways_id
                (λ _ _ _, eq_refl) rm rm' _ Hrun) as [Hret _].
    destruct (Hret eq_refl g n Hg) as (n' & Hcomp & _).
    unfold gatewayEffective in Hcomp. rewrite Hc in Hcomp.
    destruct (effectivePoliciesOfGateway rm n c) as [res| |] eqn:Hres; [|done..].
    apply effectivePoliciesOfGateway_Ret in Hres.
    destruct Hres as (cn & nsn & ? & ? & ? & ? & _ & Hns & _). rewrite Hns. eauto.
  - intros Hrun r n Hr. rewrite nodeStep_httpRoutes in Hrun.
    destruct (nodePass_returns_iff rm_HTTPRoutes rm_with_HTTPRoutes httpRouteEffective
                (λ _ _, eq_refl) (λ _ _ _, eq_refl) rm_with_HTTPRoutes_id
                (λ _ _ _, eq_refl) rm rm' _ Hrun) as [Hret _].
    destruct (Hret eq_refl r n Hr) as (n' & Hcomp & _).
    unfold httpRouteEffective in Hcomp.
    destruct (effectivePoliciesOfHTTPRoute rm n) as [res| |] eqn:Hres; [|done..].
    apply effectivePoliciesOfHTTPRoute_Ret in Hres.
    destruct Hres as (nsn & ? & ? & Hns & _). rewrite Hns. eauto.
  - intros Hrun b n Hb. rewrite nodeStep_backends in Hrun.
    destruct (nodePass_returns_iff rm_Backends rm_with_Backends backendEffective
                (λ _ _, eq_refl) (λ _ _ _, eq_refl) rm_with_Backends_id
                (λ _ _ _, eq_refl) rm rm' _ Hrun) as [Hret _].
    destruct (Hret eq_refl b n Hb) as (n' & Hcomp & _).
    unfold backendEffective in Hcomp.
    destruct (effectivePoliciesOfBackend rm n) as [res| |] eqn:Hres; [|done..].
    apply effectivePoliciesOfBackend_Ret in Hres.
    destruct Hres as (nsn & ? & ? & Hns & _). rewrite Hns. eauto.
  - intros (Hgw & Hhr & Hbk). split; [|split]; intros Hrun ->.
    + rewrite nodeStep_gateways in Hrun.
      destruct (nodePass_stops rm_Gateways rm_with_Gateways gatewayEffective
                  (λ _ _, eq_refl) (λ _ _ _, eq_refl) rm_with_Gateways_id
                  (λ _ _ _, eq_refl) rm rm' _ Hrun)
        as (pre & g & post & n & Hl & Hpre & Hpost & Hn & Hstop); [done|].
      apply stopsWith_Panic in Hstop. unfold gatewayEffective in Hstop.
      destruct (Hgw g n Hn) as [Hns Hclass].
      destruct (gw_GatewayClass n) as [c|]; [|done].
      pose proof (effectivePoliciesOfGateway_no_panic rm n c (Hclass c eq_refl) Hns).
      by destruct (effectivePoliciesOfGateway rm n c).
    + rewrite nodeStep_httpRoutes in Hrun.
      destruct (nodePass_stops rm_HTTPRoutes rm_with_HTTPRoutes httpRouteEffective
                  (λ _ _, eq_refl) (λ _ _ _, eq_refl) rm_with_HTTPRoutes_id
                  (λ _ _ _, eq_refl) rm rm' _ Hrun)
        as (pre & g & post & n & Hl & Hpre & Hpost & Hn & Hstop); [done|].
      apply stopsWith_Panic in Hstop. unfold httpRouteEffective in Hstop.
      destruct (Hhr g n Hn) as [Hns Hptr].
      pose proof (effectivePoliciesOfHTTPRoute_no_panic rm n Hns Hptr).
      by destruct (effectivePoliciesOfHTTPRoute rm n).
    + rewrite nodeStep_backends in Hrun.
      destruct (nodePass_stops rm_Backends rm_with_Backends backendEffective
                  (λ _ _, eq_refl) (λ _ _ _, eq_refl) rm_with_Backends_id
                  (λ _ _ _, eq_refl) rm rm' _ Hrun)
        as (pre & g & post & n & Hl & Hpre & Hpost & Hn & Hstop); [done|].
      apply stopsWith_Panic in Hstop. unfold backendEffective in Hstop.
      destruct (Hbk g n Hn) as [Hns Hptr].
      pose proof (effectivePoliciesOfBackend_no_panic rm n Hns Hptr).
      by destruct (effectivePoliciesOfBackend rm n).
Qed.

(** ** The inherited-policy passes *)

Lemma foldlM_returns {A B : Type} (body : B → A → outcome B) (l : list A) (acc : B) :
  (∀ b a, a ∈ l → ∃ b', body b a = Ret b') → ∃ result, foldlM body l acc = Ret result.
Proof.
  revert acc. induction l as [|a l IH]; intros acc Hall; simpl; [eauto|].
  destruct (Hall acc a) as [b Hb]; [by left|]. rewrite Hb. simpl.
  apply IH. intros b' a' Ha'. apply Hall. by right.
Qed.

Lemma gatewayInheritedStep_nodeStep (ptr : gatewayID) (rm : ResourceModel) :
  gatewayInheritedStep ptr rm
  = nodeStep rm_Gateways rm_with_Gateways gatewayInherited ptr rm.
Proof.
  unfold gatewayInheritedStep, nodeStep, gatewayInherited, deref. simpl.
  destruct (rm_Gateways rm !! ptr) as [n|] eqn:Hn; [|done].
  by destruct (inheritedPoliciesOfGateway rm n).
Qed.

Lemma httpRouteInheritedStep_nodeStep (ptr : httpRouteID) (rm : ResourceModel) :
  httpRouteInheritedStep ptr rm
  = nodeStep rm_HTTPRoutes rm_with_HTTPRoutes httpRouteInherited ptr rm.
Proof.
  unfold httpRouteInheritedStep, nodeStep, httpRouteInherited, deref. simpl.
  destruct (rm_HTTPRoutes rm !! ptr) as [n|] eqn:Hn; [|done].
  by destruct (inheritedPoliciesOfHTTPRoute rm n).
Qed.

Lemma backendInheritedStep_nodeStep (ptr : backendID) (rm : ResourceModel) :
  backendInheritedStep ptr rm
  = nodeStep rm_Backends rm_with_Backends backendInherited ptr rm.
Proof.
  unfold backendInheritedStep, nodeStep, backendInherited, deref. simpl.
  destruct (rm_Backends rm !! ptr) as [n|] eqn:Hn; [|done].
  by destruct (inheritedPoliciesOfBackend rm n).
Qed.

Lemma inheritedPoliciesOfGateway_Ret (rm : ResourceModel) (n : GatewayNode)
    (result : gmap policyID PolicyNode) :
  inheritedPoliciesOfGateway rm n = Ret result ↔ gatewayInheritance rm n result.
Proof.
  unfold inheritedPoliciesOfGateway, gatewayInheritance, deref, maps_Copy.
  destruct (gw_Namespace n ≫= (rm_Namespaces rm !!.)) as [nsn|]; simpl;
    [|split; [done|by intros (? & ? & _)]].
  rewrite (right_id_L ∅ (∪)).
  destruct (gw_GatewayClass n) as [c|]; simpl.
  - destruct (rm_GatewayClasses rm !! c) as [cn|]; simpl.
    + split.
      * intros [= <-]. exists nsn. split; [done|]. by exists cn.
      * intros (nsn' & [= <-] & cn' & [= <-] & ->). done.
    + split; [done|]. by intros (nsn' & _ & cn' & ? & _).
  - split.
    + intros [= <-]. by exists nsn.
    + by intros (nsn' & [= <-] & ->).
Qed.

Lemma inheritedPoliciesOfHTTPRoute_returns (rm : ResourceModel) (n : HTTPRouteNode) :
  is_Some (hr_Namespace n ≫= (rm_Namespaces rm !!.)) →
  (∀ G ptr, hr_Gateways n !! G = Some ptr → is_Some (rm_Gateways rm !! ptr)) →
  ∃ result, inheritedPoliciesOfHTTPRoute rm n = Ret result.
Proof.
  intros [nsn Hns] Hptr. unfold inheritedPoliciesOfHTTPRoute, deref. rewrite Hns. simpl.
  apply foldlM_returns. intros b [G ptr] Hkv. apply range_order_elem in Hkv.
  destruct (Hptr G ptr Hkv) as [gn Hgn]. simpl. rewrite Hgn. simpl. eauto.
Qed.

Lemma inheritedPoliciesOfBackend_returns (rm : ResourceModel) (n : BackendNode) :
  is_Some (bk_Namespace n ≫= (rm_Namespaces rm !!.)) →
  (∀ r ptr, bk_HTTPRoutes n !! r = Some ptr → is_Some (rm_HTTPRoutes rm !! ptr)) →
  ∃ result, inheritedPoliciesOfBackend rm n = Ret result.
Proof.
  intros [nsn Hns] Hptr. unfold inheritedPoliciesOfBackend, deref. rewrite Hns. simpl.
  apply foldlM_returns. intros b [r ptr] Hkv. apply range_order_elem in Hkv.
  destruct (Hptr r ptr Hkv) as [rn Hrn]. simpl. rewrite Hrn. simpl. eauto.
Qed.

(** *** The passes write computed fields only *)

Lemma sameGraph_refl (rm : ResourceModel) : sameGraph rm rm.
Proof. by repeat split. Qed.

Lemma sameGraph_trans (rm1 rm2 rm3 : ResourceModel) :
  sameGraph rm1 rm2 → sameGraph rm2 rm3 → sameGraph rm1 rm3.
Proof.
  intros (? & ? & ? & ? & ?) (? & ? & ? & ? & ?). repeat split; congruence.
Qed.

Lemma gatewaysPass_sameGraph (compute : ResourceModel → GatewayNode → outcome GatewayNode)
    (rm rm' : ResourceModel) (o : outcome unit) :
  (∀ rm n n', compute rm n = Ret n' → gw_structure n' = gw_structure n) →
  (∀ m rm n, compute (rm_with_Gateways m rm) n = compute rm n) →
  forEach (nodeStep rm_Gateways rm_with_Gateways compute)
          (range_order (rm_Gateways rm)).*1 rm = (o, rm') →
  sameGraph rm rm'.
Proof.
  intros Herase Hframe Hrun.
  destruct (nodePass_frame rm_Gateways rm_with_Gateways compute
              (λ _ _, eq_refl) (λ _ _ _, eq_refl) rm_with_Gateways_id Hframe
              rm rm' o Hrun) as [Hput _].
  pose proof (nodePass_erased rm_Gateways rm_with_Gateways compute
                (λ _ _, eq_refl) (λ _ _ _, eq_refl) rm_with_Gateways_id Hframe
                gw_structure rm rm' o Herase Hrun) as Hnodes.
  repeat split; [by rewrite Hput..|done|by rewrite Hput|by rewrite Hput].
Qed.

Lemma httpRoutesPass_sameGraph
    (compute : ResourceModel → HTTPRouteNode → outcome HTTPRouteNode)
    (rm rm' : ResourceModel) (o : outcome unit) :
  (∀ rm n n', compute rm n = Ret n' → hr_structure n' = hr_structure n) →
  (∀ m rm n, compute (rm_with_HTTPRoutes m rm) n = compute rm n) →
  forEach (nodeStep rm_HTTPRoutes rm_with_HTTPRoutes compute)
          (range_order (rm_HTTPRoutes rm)).*1 rm = (o, rm') →
  sameGraph rm rm' ∧ rm_Gateways rm' = rm_Gateways rm.
Proof.
  intros Herase Hframe Hrun.
  destruct (nodePass_frame rm_HTTPRoutes rm_with_HTTPRoutes compute
              (λ _ _, eq_refl) (λ _ _ _, eq_refl) rm_with_HTTPRoutes_id Hframe
              rm rm' o Hrun) as [Hput _].
  pose proof (nodePass_erased rm_HTTPRoutes rm_with_HTTPRoutes compute
                (λ _ _, eq_refl) (λ _ _ _, eq_refl) rm_with_HTTPRoutes_id Hframe
                hr_structure rm rm' o Herase Hrun) as Hnodes.
  repeat split; [by rewrite Hput..|done|by rewrite Hput|by rewrite Hput].
Qed.

Lemma backendsPass_sameGraph
    (compute : ResourceModel → BackendNode → outcome BackendNode)
    (rm rm' : ResourceModel) (o : outcome unit) :
  (∀ rm n n', compute rm n = Ret n' → bk_structure n' = bk_structure n) →
  (∀ m rm n, compute (rm_with_Backends m rm) n = compute rm n) →
  forEach (nodeStep rm_Backends rm_with_Backends compute)
          (range_order (rm_Backends rm)).*1 rm = (o, rm') →
  sameGraph rm rm' ∧ rm_Gateways rm' = rm_Gateways rm
  ∧ rm_HTTPRoutes rm' = rm_HTTPRoutes rm.
Proof.
  intros Herase Hframe Hrun.
  destruct (nodePass_frame rm_Backends rm_with_Backends compute
              (λ _ _, eq_refl) (λ _ _ _, eq_refl) rm_with_Backends_id Hframe
              rm rm' o Hrun) as [Hput _].
  pose proof (nodePass_erased rm_Backends rm_with_Backends compute
                (λ _ _, eq_refl) (λ _ _ _, eq_refl) rm_with_Backends_id Hframe
                bk_structure rm rm' o Herase Hrun) as Hnodes.
  repeat split; [by rewrite Hput..|done|by rewrite Hput|by rewrite Hput].
Qed.

Lemma gatewayEffective_structure (rm : ResourceModel) (n n' : GatewayNode) :
  gatewayEffective rm n = Ret n' → gw_structure n' = gw_structure n.
Proof.
  unfold gatewayEffective. destruct (gw_GatewayClass n) as [c|]; [|by intros [= <-]].
  destruct (effectivePoliciesOfGateway rm n c); simpl; [|done..]. by intros [= <-].
Qed.

Lemma httpRouteEffective_structure (rm : ResourceModel) (n n' : HTTPRouteNode) :
  httpRouteEffective rm n = Ret n' → hr_structure n' = hr_structure n.
Proof.
  unfold httpRouteEffective.
  destruct (effectivePoliciesOfHTTPRoute rm n); simpl; [|done..]. by intros [= <-].
Qed.

Lemma backendEffective_structure (rm : ResourceModel) (n n' : BackendNode) :
  backendEffective rm n = Ret n' → bk_structure n' = bk_structure n.
Proof.
  unfold backendEffective.
  destruct (effectivePoliciesOfBackend rm n); simpl; [|done..]. by intros [= <-].
Qed.

Lemma gatewayInherited_structure (rm : ResourceModel) (n n' : GatewayNode) :
  gatewayInherited rm n = Ret n' → gw_structure n' = gw_structure n.
Proof.
  unfold gatewayInherited.
  destruct (inheritedPoliciesOfGateway rm n); simpl; [|done..]. by intros [= <-].
Qed.

Lemma httpRouteInherited_structure (rm : ResourceModel) (n n' : HTTPRouteNode) :
  httpRouteInherited rm n = Ret n' → hr_structure n' = hr_structure n.
Proof.
  unfold httpRouteInherited.
  destruct (inheritedPoliciesOfHTTPRoute rm n); simpl; [|done..]. by intros [= <-].
Qed.

Lemma backendInherited_structure (rm : ResourceModel) (n n' : BackendNode) :
  backendInherited rm n = Ret n' → bk_structure n' = bk_structure n.
Proof.
  unfold backendInherited.
  destruct (inheritedPoliciesOfBackend rm n); simpl; [|done..]. by intros [= <-].
Qed.

(** Whatever its outcome, [calculateEffectivePolicies] leaves the graph as
    it was: it writes effective policies only. *)
Lemma calculateEffectivePolicies_sameGraph (rm rm' : ResourceModel) (o : outcome unit) :
  calculateEffectivePolicies rm = (o, rm') → sameGraph rm rm'.
Proof.
  unfold calculateEffectivePolicies, andThen.
  destruct (calculateEffectivePoliciesForGateways rm) as [o1 rm1] eqn:H1.
  rewrite nodeStep_gateways in H1.
  apply gatewaysPass_sameGraph in H1;
    [|apply gatewayEffective_structure|by intros].
  destruct o1 as [[]| |]; [|by intros [= <- <-]..].
  destruct (calculateEffectivePoliciesForHTTPRoutes rm1) as [o2 rm2] eqn:H2.
  rewrite nodeStep_httpRoutes in H2.
  apply httpRoutesPass_sameGraph in H2 as [H2 _];
    [|apply httpRouteEffective_structure|by intros].
  destruct o2 as [[]| |];
    [|intros [= <- <-]; by apply (sameGraph_trans _ rm1)..].
  intros H3. rewrite nodeStep_backends in H3.
  apply backendsPass_sameGraph in H3 as [H3 _];
    [|apply backendEffective_structure|by intros].
  apply (sameGraph_trans _ rm1); [done|]. by apply (sameGraph_trans _ rm2).
Qed.

Lemma sameGraph_gateway (rm rm' : ResourceModel) (g : gatewayID) (n : GatewayNode) :
  sameGraph rm rm' → rm_Gateways rm !! g = Some n →
  ∃ n', rm_Gateways rm' !! g = Some n' ∧ gw_structure n' = gw_structure n.
Proof.
  intros (_ & _ & Hgw & _) Hn. apply (f_equal (.!! g)) in Hgw.
  rewrite !lookup_fmap, Hn in Hgw. simpl in Hgw.
  destruct (rm_Gateways rm' !! g) as [n'|]; [|done].
  exists n'. split; [done|]. apply (inj Some) in Hgw. exact Hgw.
Qed.

Lemma sameGraph_httpRoute (rm rm' : ResourceModel) (r : httpRouteID) (n : HTTPRouteNode) :
  sameGraph rm rm' → rm_HTTPRoutes rm !! r = Some n →
  ∃ n', rm_HTTPRoutes rm' !! r = Some n' ∧ hr_structure n' = hr_structure n.
Proof.
  intros (_ & _ & _ & Hhr & _) Hn. apply (f_equal (.!! r)) in Hhr.
  rewrite !lookup_fmap, Hn in Hhr. simpl in Hhr.
  destruct (rm_HTTPRoutes rm' !! r) as [n'|]; [|done].
  exists n'. split; [done|]. apply (inj Some) in Hhr. exact Hhr.
Qed.

Lemma sameGraph_backend (rm rm' : ResourceModel) (b : backendID) (n : BackendNode) :
  sameGraph rm rm' → rm_Backends rm !! b = Some n →
  ∃ n', rm_Backends rm' !! b = Some n' ∧ bk_structure n' = bk_structure n.
Proof.
  intros (_ & _ & _ & _ & Hbk) Hn. apply (f_equal (.!! b)) in Hbk.
  rewrite !lookup_fmap, Hn in Hbk. simpl in Hbk.
  destruct (rm_Backends rm' !! b) as [n'|]; [|done].
  exists n'. split; [done|]. apply (inj Some) in Hbk. exact Hbk.
Qed.

Lemma sameGraph_sym (rm rm' : ResourceModel) : sameGraph rm rm' → sameGraph rm' rm.
Proof. intros (? & ? & ? & ? & ?). by repeat split. Qed.

Lemma pointersResolved_sameGraph (rm rm' : ResourceModel) :
  sameGraph rm rm' → pointersResolved rm → pointersResolved rm'.
Proof.
  intros Hsame (Hgw & Hhr & Hbk). pose proof (sameGraph_sym _ _ Hsame) as Hsym.
  destruct Hsame as (Hc & Hns & _).
  split; [|split].
  - intros g n' Hn'. destruct (sameGraph_gateway _ _ g n' Hsym Hn') as (n & Hn & Heq).
    destruct (Hgw g n Hn) as [H1 H2].
    assert (E1 : gw_Namespace n' = gw_Namespace n)
      by exact (f_equal gw_Namespace (eq_sym Heq)).
    assert (E2 : gw_GatewayClass n' = gw_GatewayClass n)
      by exact (f_equal gw_GatewayClass (eq_sym Heq)).
    rewrite E1, E2, Hns, Hc. done.
  - intros r n' Hn'. destruct (sameGraph_httpRoute _ _ r n' Hsym Hn') as (n & Hn & Heq).
    destruct (Hhr r n Hn) as [H1 H2].
    assert (E1 : hr_Namespace n' = hr_Namespace n)
      by exact (f_equal hr_Namespace (eq_sym Heq)).
    assert (E2 : hr_Gateways n' = hr_Gateways n)
      by exact (f_equal hr_Gateways (eq_sym Heq)).
    rewrite E1, E2, Hns. split; [done|]. intros G ptr Hptr.
    destruct (H2 G ptr Hptr) as [gn Hgn].
    destruct (sameGraph_gateway _ _ ptr gn (sameGraph_sym _ _ Hsym) Hgn) as (gn' & -> & _).
    eauto.
  - intros b n' Hn'. destruct (sameGraph_backend _ _ b n' Hsym Hn') as (n & Hn & Heq).
    destruct (Hbk b n Hn) as [H1 H2].
    assert (E1 : bk_Namespace n' = bk_Namespace n)
      by exact (f_equal bk_Namespace (eq_sym Heq)).
    assert (E2 : bk_HTTPRoutes n' = bk_HTTPRoutes n)
      by exact (f_equal bk_HTTPRoutes (eq_sym Heq)).
    rewrite E1, E2, Hns. split; [done|]. intros r ptr Hptr.
    destruct (H2 r ptr Hptr) as [rn Hrn].
    destruct (sameGraph_httpRoute _ _ ptr rn (sameGraph_sym _ _ Hsym) Hrn)
      as (rn' & -> & _).
    eauto.
Qed.

Lemma gatewayInheritance_returns (rm : ResourceModel) (n : GatewayNode) :
  is_Some (gw_Namespace n ≫= (rm_Namespaces rm !!.)) →
  (∀ c, gw_GatewayClass n = Some c → is_Some (rm_GatewayClasses rm !! c)) →
  ∃ result, gatewayInheritance rm n result.
Proof.
  intros [nsn Hns] Hclass. unfold gatewayInheritance.
  destruct (gw_GatewayClass n) as [c|] eqn:Hc.
  - destruct (Hclass c eq_refl) as [cn Hcn]. eexists. exists nsn. split; [done|].
    exists cn. split; [done|]. reflexivity.
  - eexists. exists nsn. split; [done|]. reflexivity.
Qed.

(** On a model whose pointers are resolved the inherited-policy passes run
    to the end and write the inherited policies of every node. *)
Lemma calculateInheritedPolicies_returns (rm : ResourceModel) :
  pointersResolved rm →
  ∃ rm2,
    calculateInheritedPolicies rm = (Ret tt, rm2)
    ∧ (∀ g n, rm_Gateways rm !! g = Some n →
         ∃ result,
           gatewayInheritance rm n result
           ∧ rm_Gateways rm2 !! g = Some (gw_with_InheritedPolicies (Some result) n))
    ∧ (∀ r n, rm_HTTPRoutes rm !! r = Some n →
         ∃ result,
           rm_HTTPRoutes rm2 !! r = Some (hr_with_InheritedPolicies (Some result) n))
    ∧ (∀ b n, rm_Backends rm !! b = Some n →
         ∃ result,
           rm_Backends rm2 !! b = Some (bk_with_InheritedPolicies (Some result) n)).
Proof.
  intros Hres. unfold calculateInheritedPolicies, andThen.
  (* gateways *)
  destruct (calculateInheritedPoliciesForGateways rm) as [o1 rmA] eqn:H1.
  unfold calculateInheritedPoliciesForGateways in H1.
  rewrite (forEach_ext _ _ _ _ gatewayInheritedStep_nodeStep) in H1.
  destruct (nodePass_returns_iff rm_Gateways rm_with_Gateways gatewayInherited
              (λ _ _, eq_refl) (λ _ _ _, eq_refl) rm_with_Gateways_id
              (λ _ _ _, eq_refl) rm rmA o1 H1) as [Hret1 Hall1].
  assert (Ho1 : o1 = Ret tt).
  { apply Hall1. intros g n Hn. destruct Hres as (Hgw & _).
    destruct (Hgw g n Hn) as [Hns Hclass].
    destruct (gatewayInheritance_returns rm n Hns Hclass) as [result Hr].
    apply inheritedPoliciesOfGateway_Ret in Hr. unfold gatewayInherited.
    rewrite Hr. simpl. eauto. }
  subst o1. specialize (Hret1 eq_refl).
  pose proof (gatewaysPass_sameGraph gatewayInherited rm rmA _
                gatewayInherited_structure (λ _ _ _, eq_refl) H1) as HsameA.
  pose proof (pointersResolved_sameGraph _ _ HsameA Hres) as HresA.
  (* routes *)
  destruct (calculateInheritedPoliciesForHTTPRoutes rmA) as [o2 rmB] eqn:H2.
  unfold calculateInheritedPoliciesForHTTPRoutes in H2.
  rewrite (forEach_ext _ _ _ _ httpRouteInheritedStep_nodeStep) in H2.
  destruct (nodePass_returns_iff rm_HTTPRoutes rm_with_HTTPRoutes httpRouteInherited
              (λ _ _, eq_refl) (λ _ _ _, eq_refl) rm_with_HTTPRoutes_id
              (λ _ _ _, eq_refl) rmA rmB o2 H2) as [Hret2 Hall2].
  assert (Ho2 : o2 = Ret tt).
  { apply Hall2. intros r n Hn. destruct HresA as (_ & Hhr & _).
    destruct (Hhr r n Hn) as [Hns Hptr].
    destruct (inheritedPoliciesOfHTTPRoute_returns rmA n Hns Hptr) as [result Hr].
    unfold httpRouteInherited. rewrite Hr. simpl. eauto. }
  subst o2. specialize (Hret2 eq_refl).
  destruct (httpRoutesPass_sameGraph httpRouteInherited rmA rmB _
              httpRouteInherited_structure (λ _ _ _, eq_refl) H2) as [HsameB HgwB].
  pose proof (pointersResolved_sameGraph _ _ HsameB HresA) as HresB.
  (* backends *)
  destruct (calculateInheritedPoliciesForBackends rmB) as [o3 rm2] eqn:H3.
  unfold calculateInheritedPoliciesForBackends in H3.
  rewrite (forEach_ext _ _ _ _ backendInheritedStep_nodeStep) in H3.
  destruct (nodePass_returns_iff rm_Backends rm_with_Backends backendInherited
              (λ _ _, eq_refl) (λ _ _ _, eq_refl) rm_with_Backends_id
              (λ _ _ _, eq_refl) rmB rm2 o3 H3) as [Hret3 Hall3].
  assert (Ho3 : o3 = Ret tt).
  { apply Hall3. intros b n Hn. destruct HresB as (_ & _ & Hbk).
    destruct (Hbk b n Hn) as [Hns Hptr].
    destruct (inheritedPoliciesOfBackend_returns rmB n Hns Hptr) as [result Hr].
    unfold backendInherited. rewrite Hr. simpl. eauto. }
  subst o3. specialize (Hret3 eq_refl).
  destruct (backendsPass_sameGraph backendInherited rmB rm2 _
              backendInherited_structure (λ _ _ _, eq_refl) H3)
    as (Hsame2 & Hgw2 & Hhr2).
  exists rm2. split; [done|]. split; [|split].
  - intros g n Hn. destruct (Hret1 g n Hn) as (n' & Hc & Hn').
    unfold gatewayInherited in Hc.
    destruct (inheritedPoliciesOfGateway rm n) as [result| |] eqn:Hr; [|done..].
    simpl in Hc. injection Hc as <-. exists result.
    split; [by apply inheritedPoliciesOfGateway_Ret|]. by rewrite Hgw2, HgwB.
  - intros r n Hn.
    assert (HhrA : rm_HTTPRoutes rmA = rm_HTTPRoutes rm).
    { destruct (nodePass_frame rm_Gateways rm_with_Gateways gatewayInherited
                  (λ _ _, eq_refl) (λ _ _ _, eq_refl) rm_with_Gateways_id
                  (λ _ _ _, eq_refl) rm rmA _ H1) as [-> _]. done. }
    rewrite <- HhrA in Hn. destruct (Hret2 r n Hn) as (n' & Hc & Hn').
    unfold httpRouteInherited in Hc.
    destruct (inheritedPoliciesOfHTTPRoute rmA n) as [result| |] eqn:Hr; [|done..].
    simpl in Hc. injection Hc as <-. exists result. by rewrite Hhr2.
  - intros b n Hn.
    assert (HbkB : rm_Backends rmB = rm_Backends rm).
    { destruct (nodePass_frame rm_Gateways rm_with_Gateways gatewayInherited
                  (λ _ _, eq_refl) (λ _ _ _, eq_refl) rm_with_Gateways_id
                  (λ _ _ _, eq_refl) rm rmA _ H1) as [HA _].
      destruct (nodePass_frame rm_HTTPRoutes rm_with_HTTPRoutes httpRouteInherited
                  (λ _ _, eq_refl) (λ _ _ _, eq_refl) rm_with_HTTPRoutes_id
                  (λ _ _ _, eq_refl) rmA rmB _ H2) as [HB _].
      rewrite HB. simpl. rewrite HA. done. }
    rewrite <- HbkB in Hn. destruct (Hret3 b n Hn) as (n' & Hc & Hn').
    unfold backendInherited in Hc.
    destruct (inheritedPoliciesOfBackend rmB n) as [result| |] eqn:Hr; [|done..].
    simpl in Hc. injection Hc as <-. by exists result.
Qed.

Lemma gatewayInheritance_sameGraph (rm rm' : ResourceModel) (n n' : GatewayNode)
    (result : gmap policyID PolicyNode) :
  sameGraph rm rm' → gw_structure n' = gw_structure n →
  gatewayInheritance rm' n' result → gatewayInheritance rm n result.
Proof.
  intros (Hc & Hns & _) Heq. unfold gatewayInheritance.
  assert (E1 : gw_Namespace n' = gw_Namespace n) by exact (f_equal gw_Namespace Heq).
  assert (E2 : gw_GatewayClass n' = gw_GatewayClass n)
    by exact (f_equal gw_GatewayClass Heq).
  by rewrite E1, E2, Hns, Hc.
Qed.

(** ** The order of the candidates of a same-kind merge *)

Hypothesis sort_Slice_sorts : sortsPolicies sort_Slice.

Lemma string_ltb_asym (s1 s2 : string) : String.ltb s1 s2 = true → String.ltb s2 s1 = false.
Proof.
  unfold String.ltb. rewrite (String.compare_antisym s1 s2).
  by destruct (String.compare s2 s1).
Qed.

Lemma string_not_ltb_trans (s1 s2 s3 : string) :
  String.ltb s2 s1 = false → String.ltb s3 s2 = false → String.ltb s3 s1 = false.
Proof.
  unfold String.ltb. intros H12 H23.
  destruct (String.compare s3 s1) eqn:H31; [done| |done]. exfalso.
  apply String_as_OT.cmp_lt in H31.
  destruct (String.compare s2 s1) eqn:H21; [|done|].
  - apply String_as_OT.cmp_eq in H21 as ->.
    apply String_as_OT.cmp_lt in H31. unfold String_as_OT.cmp in H31.
    by rewrite H31 in H23.
  - rewrite String.compare_antisym in H21.
    destruct (String.compare s1 s2) eqn:H12'; try done.
    apply String_as_OT.cmp_lt in H12'.
    pose proof (String_as_OT.lt_trans _ _ _ H31 H12') as H32.
    apply String_as_OT.cmp_lt in H32. unfold String_as_OT.cmp in H32.
    by rewrite H32 in H23.
Qed.

Lemma string_not_ltb_antisym (s1 s2 : string) :
  String.ltb s2 s1 = false → String.ltb s1 s2 = false → s1 = s2.
Proof.
  unfold String.ltb. intros H21 H12. rewrite String.compare_antisym in H21.
  destruct (String.compare s1 s2) eqn:Hc; try done.
  by apply String_as_OT.cmp_eq.
Qed.

Lemma inOrder_trans : Transitive inOrder.
Proof. intros a b c. unfold inOrder, policyLess. apply string_not_ltb_trans. Qed.

Lemma insertSorted_perm (x : Policy) (l : list Policy) :
  insertSorted policyLess x l ≡ₚ x :: l.
Proof.
  induction l as [|y l IH]; simpl; [done|].
  destruct (policyLess x y); [done|]. rewrite IH. apply Permutation_swap.
Qed.

Lemma insertSorted_sorted (x : Policy) (l : list Policy) :
  Sorted inOrder l → Sorted inOrder (insertSorted policyLess x l).
Proof.
  induction l as [|y l IH]; intros Hl; simpl.
  - by repeat constructor.
  - destruct (policyLess x y) eqn:Hxy.
    + constructor; [done|]. constructor. unfold inOrder, policyLess in *.
      by apply string_ltb_asym.
    + apply Sorted_inv in Hl as [Hl Hhd]. constructor; [by apply IH|].
      destruct l as [|z l]; simpl.
      * by constructor.
      * destruct (policyLess x z); constructor; [done|]. by apply HdRel_inv in Hhd.
Qed.

Lemma insertionSort_sorts : sortsPolicies insertionSort.
Proof.
  intros l. unfold insertionSort.
  cut (∀ acc, Sorted inOrder acc →
         foldl (λ sorted x, insertSorted policyLess x sorted) acc l ≡ₚ acc ++ l
         ∧ Sorted inOrder (foldl (λ sorted x, insertSorted policyLess x sorted) acc l)).
  { intros Hcut. apply (Hcut []). constructor. }
  induction l as [|x l IH]; intros acc Hacc; simpl.
  - by rewrite app_nil_r.
  - destruct (IH (insertSorted policyLess x acc)) as [Hp Hs];
      [by apply insertSorted_sorted|].
    split; [|done]. rewrite Hp, insertSorted_perm. simpl. apply Permutation_middle.
Qed.

Lemma convertPoliciesMapToSlice_perm (policies : gmap policyID PolicyNode) :
  convertPoliciesMapToSlice policies ≡ₚ policiesOf policies.
Proof.
  unfold convertPoliciesMapToSlice, policiesOf.
  destruct (sort_Slice_sorts ((λ kv, pn_Policy kv.2) <$> range_order policies))
    as [Hperm _].
  etrans; [exact Hperm|]. apply fmap_Permutation, range_order_perm.
Qed.

Lemma convertPoliciesMapToSlice_sorted (policies : gmap policyID PolicyNode) :
  Sorted inOrder (convertPoliciesMapToSlice policies).
Proof. unfold convertPoliciesMapToSlice. apply sort_Slice_sorts. Qed.

(** With distinct sort keys there is one sorted order, whatever the order
    of the visit and whatever the sort. *)
Lemma convertPoliciesMapToSlice_canonical (policies : gmap policyID PolicyNode) :
  distinctSortKeys policies →
  convertPoliciesMapToSlice policies = sortedCandidates policies.
Proof.
  intros Hdistinct.
  assert (Hmem : ∀ p, p ∈ policiesOf policies →
            ∃ k n, policies !! k = Some n ∧ p = pn_Policy n).
  { intros p Hp. unfold policiesOf in Hp. apply list_elem_of_fmap in Hp as ([k n] & -> & Hkn).
    apply elem_of_map_to_list in Hkn. by exists k, n. }
  apply (@Sorted_unique_strong _ inOrder inOrder_trans).
  - intros x1 x2 Hx1 Hx2 H12 H21.
    rewrite convertPoliciesMapToSlice_perm in Hx1.
    unfold sortedCandidates in Hx2.
    destruct (insertionSort_sorts (policiesOf policies)) as [Hp _]. rewrite Hp in Hx2.
    destruct (Hmem x1 Hx1) as (k1 & n1 & Hn1 & ->).
    destruct (Hmem x2 Hx2) as (k2 & n2 & Hn2 & ->).
    apply (Hdistinct k1 k2 n1 n2 Hn1 Hn2). unfold inOrder, policyLess in *.
    by apply string_not_ltb_antisym.
  - apply convertPoliciesMapToSlice_sorted.
  - apply insertionSort_sorts.
  - etrans; [apply convertPoliciesMapToSlice_perm|]. symmetry.
    apply (proj1 (insertionSort_sorts (policiesOf policies))).
Qed.

(** ** What the passes leave as it is *)

Lemma sameButEffective_refl (rm : ResourceModel) : sameButEffective rm rm.
Proof. by repeat split. Qed.

Lemma sameButEffective_trans (rm1 rm2 rm3 : ResourceModel) :
  sameButEffective rm1 rm2 → sameButEffective rm2 rm3 → sameButEffective rm1 rm3.
Proof.
  intros (? & ? & ? & ? & ? & ? & ?) (? & ? & ? & ? & ? & ? & ?).
  unfold sameButEffective. split_and!; congruence.
Qed.

Lemma sameButInherited_refl (rm : ResourceModel) : sameButInherited rm rm.
Proof. by repeat split. Qed.

Lemma sameButInherited_trans (rm1 rm2 rm3 : ResourceModel) :
  sameButInherited rm1 rm2 → sameButInherited rm2 rm3 → sameButInherited rm1 rm3.
Proof.
  intros (? & ? & ? & ? & ? & ? & ?) (? & ? & ? & ? & ? & ? & ?).
  unfold sameButInherited. split_and!; congruence.
Qed.

(** A pass over the gateways, the routes or the backends writes that arena
    only, and changes of a node only what [erase] forgets. *)
Lemma gatewaysPass_keeps (erase : GatewayNode → GatewayNode)
    (compute : ResourceModel → GatewayNode → outcome GatewayNode)
    (rm rm' : ResourceModel) (o : outcome unit) :
  (∀ rm n n', compute rm n = Ret n' → erase n' = erase n) →
  (∀ m rm n, compute (rm_with_Gateways m rm) n = compute rm n) →
  forEach (nodeStep rm_Gateways rm_with_Gateways compute)
          (range_order (rm_Gateways rm)).*1 rm = (o, rm') →
  rm' = rm_with_Gateways (rm_Gateways rm') rm
  ∧ erase <$> rm_Gateways rm' = erase <$> rm_Gateways rm.
Proof.
  intros Herase Hframe Hrun. split.
  - apply (nodePass_frame rm_Gateways rm_with_Gateways compute
             (λ _ _, eq_refl) (λ _ _ _, eq_refl) rm_with_Gateways_id Hframe rm rm' o Hrun).
  - apply (nodePass_erased rm_Gateways rm_with_Gateways compute
             (λ _ _, eq_refl) (λ _ _ _, eq_refl) rm_with_Gateways_id Hframe
             erase rm rm' o Herase Hrun).
Qed.

Lemma httpRoutesPass_keeps (erase : HTTPRouteNode → HTTPRouteNode)
    (compute : ResourceModel → HTTPRouteNode → outcome HTTPRouteNode)
    (rm rm' : ResourceModel) (o : outcome unit) :
  (∀ rm n n', compute rm n = Ret n' → erase n' = erase n) →
  (∀ m rm n, compute (rm_with_HTTPRoutes m rm) n = compute rm n) →
  forEach (nodeStep rm_HTTPRoutes rm_with_HTTPRoutes compute)
          (range_order (rm_HTTPRoutes rm)).*1 rm = (o, rm') →
  rm' = rm_with_HTTPRoutes (rm_HTTPRoutes rm') rm
  ∧ erase <$> rm_HTTPRoutes rm' = erase <$> rm_HTTPRoutes rm.
Proof.
  intros Herase Hframe Hrun. split.
  - apply (nodePass_frame rm_HTTPRoutes rm_with_HTTPRoutes compute
             (λ _ _, eq_refl) (λ _ _ _, eq_refl) rm_with_HTTPRoutes_id Hframe
             rm rm' o Hrun).
  - apply (nodePass_erased rm_HTTPRoutes rm_with_HTTPRoutes compute
             (λ _ _, eq_refl) (λ _ _ _, eq_refl) rm_with_HTTPRoutes_id Hframe
             erase rm rm' o Herase Hrun).
Qed.

Lemma backendsPass_keeps (erase : BackendNode → BackendNode)
    (compute : ResourceModel → BackendNode → outcome BackendNode)
    (rm rm' : ResourceModel) (o : outcome unit) :
  (∀ rm n n', compute rm n = Ret n' → erase n' = erase n) →
  (∀ m rm n, compute (rm_with_Backends m rm) n = compute rm n) →
  forEach (nodeStep rm_Backends rm_with_Backends compute)
          (range_order (rm_Backends rm)).*1 rm = (o, rm') →
  rm' = rm_with_Backends (rm_Backends rm') rm
  ∧ erase <$> rm_Backends rm' = erase <$> rm_Backends rm.
Proof.
  intros Herase Hframe Hrun. split.
  - apply (nodePass_frame rm_Backends rm_with_Backends compute
             (λ _ _, eq_refl) (λ _ _ _, eq_refl) rm_with_Backends_id Hframe
             rm rm' o Hrun).
  - apply (nodePass_erased rm_Backends rm_with_Backends compute
             (λ _ _, eq_refl) (λ _ _ _, eq_refl) rm_with_Backends_id Hframe
             erase rm rm' o Herase Hrun).
Qed.

Lemma gatewayEffective_keeps (rm : ResourceModel) (n n' : GatewayNode) :
  gatewayEffective rm n = Ret n' →
  gw_with_EffectivePolicies None n' = gw_with_EffectivePolicies None n.
Proof.
  unfold gatewayEffective. destruct (gw_GatewayClass n) as [c|]; [|by intros [= <-]].
  destruct (effectivePoliciesOfGateway rm n c); simpl; [|done..]. by intros [= <-].
Qed.

Lemma httpRouteEffective_keeps (rm : ResourceModel) (n n' : HTTPRouteNode) :
  httpRouteEffective rm n = Ret n' →
  hr_with_EffectivePolicies None n' = hr_with_EffectivePolicies None n.
Proof.
  unfold httpRouteEffective.
  destruct (effectivePoliciesOfHTTPRoute rm n); simpl; [|done..]. by intros [= <-].
Qed.

Lemma backendEffective_keeps (rm : ResourceModel) (n n' : BackendNode) :
  backendEffective rm n = Ret n' →
  bk_with_EffectivePolicies None n' = bk_with_EffectivePolicies None n.
Proof.
  unfold backendEffective.
  destruct (effectivePoliciesOfBackend rm n); simpl; [|done..]. by intros [= <-].
Qed.

Lemma gatewayInherited_keeps (rm : ResourceModel) (n n' : GatewayNode) :
  gatewayInherited rm n = Ret n' →
  gw_with_InheritedPolicies None n' = gw_with_InheritedPolicies None n.
Proof.
  unfold gatewayInherited.
  destruct (inheritedPoliciesOfGateway rm n); simpl; [|done..]. by intros [= <-].
Qed.

Lemma httpRouteInherited_keeps (rm : ResourceModel) (n n' : HTTPRouteNode) :
  httpRouteInherited rm n = Ret n' →
  hr_with_InheritedPolicies None n' = hr_with_InheritedPolicies None n.
Proof.
  unfold httpRouteInherited.
  destruct (inheritedPoliciesOfHTTPRoute rm n); simpl; [|done..]. by intros [= <-].
Qed.

Lemma backendInherited_keeps (rm : ResourceModel) (n n' : BackendNode) :
  backendInherited rm n = Ret n' →
  bk_with_InheritedPolicies None n' = bk_with_InheritedPolicies None n.
Proof.
  unfold backendInherited.
  destruct (inheritedPoliciesOfBackend rm n); simpl; [|done..]. by intros [= <-].
Qed.

Lemma nodeStep_inheritedGateways (rm : ResourceModel) :
  calculateInheritedPoliciesForGateways rm
  = forEach (nodeStep rm_Gateways rm_with_Gateways gatewayInherited)
            (range_order (rm_Gateways rm)).*1 rm.
Proof. apply forEach_ext, gatewayInheritedStep_nodeStep. Qed.

Lemma nodeStep_inheritedHTTPRoutes (rm : ResourceModel) :
  calculateInheritedPoliciesForHTTPRoutes rm
  = forEach (nodeStep rm_HTTPRoutes rm_with_HTTPRoutes httpRouteInherited)
            (range_order (rm_HTTPRoutes rm)).*1 rm.
Proof. apply forEach_ext, httpRouteInheritedStep_nodeStep. Qed.

Lemma nodeStep_inheritedBackends (rm : ResourceModel) :
  calculateInheritedPoliciesForBackends rm
  = forEach (nodeStep rm_Backends rm_with_Backends backendInherited)
            (range_order (rm_Backends rm)).*1 rm.
Proof. apply forEach_ext, backendInheritedStep_nodeStep. Qed.

Ltac pass_keeps H lemma structure :=
  apply lemma in H; [|apply structure|by intros];
  let Hput := fresh "Hput" in let Hnodes := fresh "Hnodes" in
  destruct H as [Hput Hnodes]; rewrite Hput; by repeat split.

Lemma effectiveGateways_keeps (rm rm' : ResourceModel) (o : outcome unit) :
  calculateEffectivePoliciesForGateways rm = (o, rm') → sameButEffective rm rm'.
Proof.
  intros Hrun. rewrite nodeStep_gateways in Hrun.
  pass_keeps Hrun (gatewaysPass_keeps (gw_with_EffectivePolicies None))
             gatewayEffective_keeps.
Qed.

Lemma effectiveHTTPRoutes_keeps (rm rm' : ResourceModel) (o : outcome unit) :
  calculateEffectivePoliciesForHTTPRoutes rm = (o, rm') → sameButEffective rm rm'.
Proof.
  intros Hrun. rewrite nodeStep_httpRoutes in Hrun.
  pass_keeps Hrun (httpRoutesPass_keeps (hr_with_EffectivePolicies None))
             httpRouteEffective_keeps.
Qed.

Lemma effectiveBackends_keeps (rm rm' : ResourceModel) (o : outcome unit) :
  calculateEffectivePoliciesForBackends rm = (o, rm') → sameButEffective rm rm'.
Proof.
  intros Hrun. rewrite nodeStep_backends in Hrun.
  pass_keeps Hrun (backendsPass_keeps (bk_with_EffectivePolicies None))
             backendEffective_keeps.
Qed.

Lemma inheritedGateways_keeps (rm rm' : ResourceModel) (o : outcome unit) :
  calculateInheritedPoliciesForGateways rm = (o, rm') → sameButInherited rm rm'.
Proof.
  intros Hrun. rewrite nodeStep_inheritedGateways in Hrun.
  pass_keeps Hrun (gatewaysPass_keeps (gw_with_InheritedPolicies None))
             gatewayInherited_keeps.
Qed.

Lemma inheritedHTTPRoutes_keeps (rm rm' : ResourceModel) (o : outcome unit) :
  calculateInheritedPoliciesForHTTPRoutes rm = (o, rm') → sameButInherited rm rm'.
Proof.
  intros Hrun. rewrite nodeStep_inheritedHTTPRoutes in Hrun.
  pass_keeps Hrun (httpRoutesPass_keeps (hr_with_InheritedPolicies None))
             httpRouteInherited_keeps.
Qed.

Lemma inheritedBackends_keeps (rm rm' : ResourceModel) (o : outcome unit) :
  calculateInheritedPoliciesForBackends rm = (o, rm') → sameButInherited rm rm'.
Proof.
  intros Hrun. rewrite nodeStep_inheritedBackends in Hrun.
  pass_keeps Hrun (backendsPass_keeps (bk_with_InheritedPolicies None))
             backendInherited_keeps.
Qed.

(** Three passes in a row, each stopping the run when it does not return. *)
Lemma andThen_related (R : ResourceModel → ResourceModel → Prop)
    (f g : ResourceModel → outcome unit * ResourceModel) :
  (∀ rm1 rm2 rm3, R rm1 rm2 → R rm2 rm3 → R rm1 rm3) →
  (∀ rm, R rm (f rm).2) → (∀ rm, R rm (g rm).2) →
  ∀ rm, R rm (andThen f g rm).2.
Proof.
  intros Htrans Hf Hg rm. unfold andThen. specialize (Hf rm).
  destruct (f rm) as [[[]| err |] rm1]; simpl in *; [|done..].
  by apply (Htrans _ rm1).
Qed.

(** X9.  The effective-policy passes write the effective policies and
    nothing else, whether they return, fail or stop half-way: after
    [calculateEffectivePolicies] the model has the same classes,
    namespaces, grants and global policy mapping, and the same gateways,
    routes and backends, each with its resource, its pointers, its
    policies and its inherited policies as before. *)
Theorem effective_passes_write_effective_policies_only (rm : ResourceModel) :
  sameButEffective rm (calculateEffectivePolicies rm).2.
Proof.
  revert rm. unfold calculateEffectivePolicies.
  apply andThen_related; [apply sameButEffective_trans| |].
  - intros rm. apply (effectiveGateways_keeps rm _ _ (surjective_pairing _)).
  - apply andThen_related; [apply sameButEffective_trans| |].
    + intros rm. apply (effectiveHTTPRoutes_keeps rm _ _ (surjective_pairing _)).
    + intros rm. apply (effectiveBackends_keeps rm _ _ (surjective_pairing _)).
Qed.

(** X10.  The inherited-policy passes write the inherited policies and
    nothing else: after [calculateInheritedPolicies] everything but the
    inherited policies of the gateways, routes and backends is as before,
    their effective policies included. *)
Theorem inherited_passes_write_inherited_policies_only (rm : ResourceModel) :
  sameButInherited rm (calculateInheritedPolicies rm).2.
Proof.
  revert rm. unfold calculateInheritedPolicies.
  apply andThen_related; [apply sameButInherited_trans| |].
  - intros rm. apply (inheritedGateways_keeps rm _ _ (surjective_pairing _)).
  - apply andThen_related; [apply sameButInherited_trans| |].
    + intros rm. apply (inheritedHTTPRoutes_keeps rm _ _ (surjective_pairing _)).
    + intros rm. apply (inheritedBackends_keeps rm _ _ (surjective_pairing _)).
Qed.

(** ** The inherited-policy passes: what they compute *)

(** A loop that follows one pointer per entry and folds the node behind it
    into the result: it returns when every pointer leads to a node, panics
    otherwise, and never returns an error. *)
Lemma foldlM_deref_spec {K : Type} `{Countable K} {N G B : Type} (arena : gmap K N)
    (upd : B → N → B) (l : list (G * K)) (acc : B) :
  match foldlM (λ b '(_, ptr), node ← deref arena (Some ptr); mret (upd b node)) l acc with
  | Ret result =>
      ∃ nodes, Forall2 (λ kp node, arena !! kp.2 = Some node) l nodes
               ∧ result = foldl upd acc nodes
  | Fail _ => False
  | Panic => ∃ kp, kp ∈ l ∧ arena !! kp.2 = None
  end.
Proof.
  revert acc. induction l as [|[G0 ptr] l IH]; intros acc; simpl.
  - exists []. split; [constructor|done].
  - destruct (arena !! ptr) as [node|] eqn:Hnode.
    + assert (deref arena (Some ptr) = Ret node) as ->
        by (unfold deref; simpl; by rewrite Hnode).
      simpl. specialize (IH (upd acc node)). revert IH.
      destruct (foldlM _ l (upd acc node)) as [result| err |]; intros IH; [| done |].
      * destruct IH as (nodes & Hall & ->). exists (node :: nodes).
        split; [by constructor|done].
      * destruct IH as (kp & Hkp & Hnone). exists kp. split; [by right|done].
    + assert (deref arena (Some ptr) = Panic) as ->
        by (unfold deref; simpl; by rewrite Hnode).
      simpl. exists (G0, ptr). split; [by left|done].
Qed.

(** What a lookup finds in a mapping that received, node after node, two
    mappings of each node by [maps.Copy]. *)
Lemma foldl_copy_lookup {N : Type} (from1 from2 : N → gmap policyID PolicyNode)
    (nodes : list N) (acc : gmap policyID PolicyNode) (id : policyID) (pn : PolicyNode) :
  foldl (λ b node, maps_Copy (maps_Copy b (from1 node)) (from2 node)) acc nodes !! id
  = Some pn →
  acc !! id = Some pn
  ∨ ∃ node, node ∈ nodes ∧ (from1 node !! id = Some pn ∨ from2 node !! id = Some pn).
Proof.
  revert acc. induction nodes as [|node nodes IH]; intros acc; simpl; [by left|].
  intros Hid. apply IH in Hid as [Hid|(node' & Hin & Hfrom)].
  - unfold maps_Copy in Hid. apply lookup_union_Some_raw in Hid as [Hid|[_ Hid]].
    + right. exists node. split; [by left|by right].
    + apply lookup_union_Some_raw in Hid as [Hid|[_ Hid]]; [|by left].
      right. exists node. split; [by left|by left].
  - right. exists node'. split; [by right|done].
Qed.

Lemma maps_Copy_is_Some {K : Type} `{Countable K} {V : Type} (dst src : gmap K V) (k : K) :
  is_Some (maps_Copy dst src !! k) ↔ is_Some (src !! k) ∨ is_Some (dst !! k).
Proof. unfold maps_Copy. apply lookup_union_is_Some. Qed.

Lemma foldl_copy_is_Some {N : Type} (from1 from2 : N → gmap policyID PolicyNode)
    (nodes : list N) (acc : gmap policyID PolicyNode) (id : policyID) :
  is_Some (acc !! id)
  ∨ (∃ node, node ∈ nodes ∧ (is_Some (from1 node !! id) ∨ is_Some (from2 node !! id))) →
  is_Some (foldl (λ b node, maps_Copy (maps_Copy b (from1 node)) (from2 node))
                 acc nodes !! id).
Proof.
  revert acc. induction nodes as [|node nodes IH]; intros acc; simpl.
  - intros [Hacc|(node & Hin & _)]; [done|by apply elem_of_nil in Hin].
  - intros Hsrc. apply IH. rewrite !maps_Copy_is_Some.
    destruct Hsrc as [Hacc|(node' & Hin & Hfrom)]; [by left; right; right|].
    apply elem_of_cons in Hin as [->|Hin].
    + left. destruct Hfrom; [right; by left|by left].
    + right. by exists node'.
Qed.

(** The pointers of a mapping and the nodes a loop over it found behind
    them. *)
Lemma Forall2_deref_elem {K : Type} `{Countable K} {N G : Type} `{Countable G}
    (arena : gmap K N) (ptrs : gmap G K) (nodes : list N) :
  Forall2 (λ kp node, arena !! kp.2 = Some node) (range_order ptrs) nodes →
  ∀ node, node ∈ nodes ↔ ∃ g ptr, ptrs !! g = Some ptr ∧ arena !! ptr = Some node.
Proof.
  intros Hall node. split.
  - intros Hin. apply list_elem_of_lookup in Hin as [i Hi].
    destruct (Forall2_lookup_r _ _ _ _ _ Hall Hi) as ([g ptr] & Hkp & Hnode).
    exists g, ptr. split; [|done]. apply range_order_elem.
    apply list_elem_of_lookup. by exists i.
  - intros (g & ptr & Hptr & Hnode). apply range_order_elem in Hptr.
    apply list_elem_of_lookup in Hptr as [i Hi].
    destruct (Forall2_lookup_l _ _ _ _ _ Hall Hi) as (node' & Hnode' & Harena).
    simpl in Harena. rewrite Hnode in Harena. injection Harena as <-.
    apply list_elem_of_lookup. by exists i.
Qed.

(** The computation of the inherited policies of a route. *)
Lemma inheritedPoliciesOfHTTPRoute_spec (rm : ResourceModel) (n : HTTPRouteNode) :
  match inheritedPoliciesOfHTTPRoute rm n with
  | Ret result =>
      is_Some (hr_Namespace n ≫= (rm_Namespaces rm !!.))
      ∧ (∀ G ptr, hr_Gateways n !! G = Some ptr → is_Some (rm_Gateways rm !! ptr))
      ∧ (∀ id pn, result !! id = Some pn → routeInheritsFrom rm n id pn)
      ∧ (∀ id pn, routeInheritsFrom rm n id pn → is_Some (result !! id))
  | Fail _ => False
  | Panic => True
  end.
Proof.
  unfold inheritedPoliciesOfHTTPRoute, deref.
  destruct (hr_Namespace n ≫= (rm_Namespaces rm !!.)) as [nsn|] eqn:Hns; simpl; [|done].
  pose proof (foldlM_deref_spec (rm_Gateways rm)
    (λ result gatewayNode,
       maps_Copy (maps_Copy result (default ∅ (gw_InheritedPolicies gatewayNode)))
                 (filterInheritablePolicies (gw_Policies gatewayNode)))
    (range_order (hr_Gateways n))
    (maps_Copy ∅ (filterInheritablePolicies (ns_Policies nsn)))) as Hfold.
  simpl in Hfold. revert Hfold.
  destruct (foldlM _ (range_order (hr_Gateways n)) _) as [result| err |];
    intros Hfold; [|done..].
  destruct Hfold as (nodes & Hall & ->).
  pose proof (Forall2_deref_elem _ _ _ Hall) as Hnodes.
  assert (Hacc : maps_Copy ∅ (filterInheritablePolicies (ns_Policies nsn))
                 = filterInheritablePolicies (ns_Policies nsn))
    by (unfold maps_Copy; apply (right_id_L ∅ (∪))).
  rewrite Hacc. split_and!.
  - eauto.
  - intros G ptr Hptr. apply range_order_elem in Hptr.
    apply list_elem_of_lookup in Hptr as [i Hi].
    destruct (Forall2_lookup_l _ _ _ _ _ Hall Hi) as (node & _ & Hnode). eauto.
  - intros id pn Hid. apply foldl_copy_lookup in Hid as [Hid|(node & Hin & Hfrom)].
    + left. eauto.
    + right. apply Hnodes in Hin as (G & ptr & Hptr & Hnode). eauto 10.
  - intros id pn [(nsn' & Hns' & Hid)|(G & ptr & gn & Hptr & Hgn & Hfrom)];
      apply foldl_copy_is_Some.
    + left. rewrite Hns in Hns'. injection Hns' as <-. eauto.
    + right. exists gn. split; [apply Hnodes; eauto|].
      destruct Hfrom as [Hid|Hid]; [left|right]; eauto.
Qed.

(** The computation of the inherited policies of a backend. *)
Lemma inheritedPoliciesOfBackend_spec (rm : ResourceModel) (n : BackendNode) :
  match inheritedPoliciesOfBackend rm n with
  | Ret result =>
      is_Some (bk_Namespace n ≫= (rm_Namespaces rm !!.))
      ∧ (∀ r ptr, bk_HTTPRoutes n !! r = Some ptr → is_Some (rm_HTTPRoutes rm !! ptr))
      ∧ (∀ id pn, result !! id = Some pn → backendInheritsFrom rm n id pn)
      ∧ (∀ id pn, backendInheritsFrom rm n id pn → is_Some (result !! id))
  | Fail _ => False
  | Panic => True
  end.
Proof.
  unfold inheritedPoliciesOfBackend, deref.
  destruct (bk_Namespace n ≫= (rm_Namespaces rm !!.)) as [nsn|] eqn:Hns; simpl; [|done].
  pose proof (foldlM_deref_spec (rm_HTTPRoutes rm)
    (λ result httpRouteNode,
       maps_Copy (maps_Copy result (default ∅ (hr_InheritedPolicies httpRouteNode)))
                 (filterInheritablePolicies (hr_Policies httpRouteNode)))
    (range_order (bk_HTTPRoutes n))
    (maps_Copy ∅ (filterInheritablePolicies (ns_Policies nsn)))) as Hfold.
  simpl in Hfold. revert Hfold.
  destruct (foldlM _ (range_order (bk_HTTPRoutes n)) _) as [result| err |];
    intros Hfold; [|done..].
  destruct Hfold as (nodes & Hall & ->).
  pose proof (Forall2_deref_elem _ _ _ Hall) as Hnodes.
  assert (Hacc : maps_Copy ∅ (filterInheritablePolicies (ns_Policies nsn))
                 = filterInheritablePolicies (ns_Policies nsn))
    by (unfold maps_Copy; apply (right_id_L ∅ (∪))).
  rewrite Hacc. split_and!.
  - eauto.
  - intros r ptr Hptr. apply range_order_elem in Hptr.
    apply list_elem_of_lookup in Hptr as [i Hi].
    destruct (Forall2_lookup_l _ _ _ _ _ Hall Hi) as (node & _ & Hnode). eauto.
  - intros id pn Hid. apply foldl_copy_lookup in Hid as [Hid|(node & Hin & Hfrom)].
    + left. eauto.
    + right. apply Hnodes in Hin as (r & ptr & Hptr & Hnode). eauto 10.
  - intros id pn [(nsn' & Hns' & Hid)|(r & ptr & hn & Hptr & Hhn & Hfrom)];
      apply foldl_copy_is_Some.
    + left. rewrite Hns in Hns'. injection Hns' as <-. eauto.
    + right. exists hn. split; [apply Hnodes; eauto|].
      destruct Hfrom as [Hid|Hid]; [left|right]; eauto.
Qed.

(** The nodes after a pass that returned are the nodes before it, each
    with what was computed for it. *)
Lemma nodePass_returned {K : Type} `{Countable K} {N : Type}
    (arena : ResourceModel → gmap K N) (put : gmap K N → ResourceModel → ResourceModel)
    (compute : ResourceModel → N → outcome N) (rm rm' : ResourceModel) :
  (∀ m rm, arena (put m rm) = m) →
  (∀ m m' rm, put m (put m' rm) = put m rm) →
  (∀ rm, put (arena rm) rm = rm) →
  (∀ m rm n, compute (put m rm) n = compute rm n) →
  forEach (nodeStep arena put compute) (range_order (arena rm)).*1 rm = (Ret tt, rm') →
  rm' = put (arena rm') rm
  ∧ dom (arena rm') = dom (arena rm)
  ∧ (∀ k node, arena rm !! k = Some node →
       ∃ node', compute rm node = Ret node' ∧ arena rm' !! k = Some node')
  ∧ (∀ k node', arena rm' !! k = Some node' →
       ∃ node, arena rm !! k = Some node ∧ compute rm node = Ret node').
Proof.
  intros H1 H2 H3 H4 Hrun.
  destruct (nodePass_frame arena put compute H1 H2 H3 H4 rm rm' _ Hrun) as [Hput Hdom].
  destruct (nodePass_returns_iff arena put compute H1 H2 H3 H4 rm rm' _ Hrun)
    as [Hret _]. specialize (Hret eq_refl).
  split_and!; [done..|].
  intros k node' Hnode'.
  assert (is_Some (arena rm !! k)) as [node Hnode].
  { apply elem_of_dom. rewrite <- Hdom. apply elem_of_dom. eauto. }
  exists node. split; [done|].
  destruct (Hret k node Hnode) as (node'' & Hc & Hk). congruence.
Qed.

Lemma filterInheritablePolicies_inherited (policies : gmap policyID PolicyNode)
    (id : policyID) (pn : PolicyNode) :
  filterInheritablePolicies policies !! id = Some pn →
  polIsInherited (pn_Policy pn) = true.
Proof.
  unfold filterInheritablePolicies. intros Hid.
  by apply map_lookup_filter_Some in Hid as [_ Hid].
Qed.

Lemma gatewayInheritance_inherited (rm : ResourceModel) (n : GatewayNode)
    (result : gmap policyID PolicyNode) (id : policyID) (pn : PolicyNode) :
  gatewayInheritance rm n result → result !! id = Some pn →
  polIsInherited (pn_Policy pn) = true.
Proof.
  intros (nsn & _ & Hcase) Hid. destruct (gw_GatewayClass n) as [c|].
  - destruct Hcase as (cn & _ & ->).
    apply lookup_union_Some_raw in Hid as [Hid|[_ Hid]];
      by apply filterInheritablePolicies_inherited in Hid.
  - subst result. by apply filterInheritablePolicies_inherited in Hid.
Qed.

(** The three inherited-policy passes, when the run returns. *)
Lemma calculateInheritedPolicies_Ret (rm rm2 : ResourceModel) :
  calculateInheritedPolicies rm = (Ret tt, rm2) ↔
  ∃ rmA rmB,
    calculateInheritedPoliciesForGateways rm = (Ret tt, rmA)
    ∧ calculateInheritedPoliciesForHTTPRoutes rmA = (Ret tt, rmB)
    ∧ calculateInheritedPoliciesForBackends rmB = (Ret tt, rm2).
Proof.
  unfold calculateInheritedPolicies, andThen. split.
  - destruct (calculateInheritedPoliciesForGateways rm) as [[[]| |] rmA] eqn:H1;
      [|done..].
    destruct (calculateInheritedPoliciesForHTTPRoutes rmA) as [[[]| |] rmB] eqn:H2;
      [|done..].
    intros H3. exists rmA, rmB. by split_and!.
  - intros (rmA & rmB & -> & -> & ->). done.
Qed.

Lemma inheritedGateways_returned (rm rm' : ResourceModel) :
  calculateInheritedPoliciesForGateways rm = (Ret tt, rm') →
  rm' = rm_with_Gateways (rm_Gateways rm') rm
  ∧ dom (rm_Gateways rm') = dom (rm_Gateways rm)
  ∧ (∀ g n, rm_Gateways rm !! g = Some n →
       ∃ result, gatewayInheritance rm n result
                 ∧ rm_Gateways rm' !! g = Some (gw_with_InheritedPolicies (Some result) n))
  ∧ (∀ g n', rm_Gateways rm' !! g = Some n' →
       ∃ n result, rm_Gateways rm !! g = Some n
                   ∧ gatewayInheritance rm n result
                   ∧ n' = gw_with_InheritedPolicies (Some result) n).
Proof.
  intros Hrun. rewrite nodeStep_inheritedGateways in Hrun.
  destruct (nodePass_returned rm_Gateways rm_with_Gateways gatewayInherited rm rm'
              (λ _ _, eq_refl) (λ _ _ _, eq_refl) rm_with_Gateways_id
              (λ _ _ _, eq_refl) Hrun) as (Hput & Hdom & Hfwd & Hbwd).
  split_and!; [done..| |].
  - intros g n Hn. destruct (Hfwd g n Hn) as (n' & Hc & Hn').
    unfold gatewayInherited in Hc.
    destruct (inheritedPoliciesOfGateway rm n) as [result| |] eqn:Hr; [|done..].
    simpl in Hc. injection Hc as <-. exists result.
    split; [by apply inheritedPoliciesOfGateway_Ret|done].
  - intros g n' Hn'. destruct (Hbwd g n' Hn') as (n & Hn & Hc).
    unfold gatewayInherited in Hc.
    destruct (inheritedPoliciesOfGateway rm n) as [result| |] eqn:Hr; [|done..].
    simpl in Hc. injection Hc as <-. exists n, result.
    split; [done|]. split; [by apply inheritedPoliciesOfGateway_Ret|done].
Qed.

Lemma inheritedHTTPRoutes_returned (rm rm' : ResourceModel) :
  calculateInheritedPoliciesForHTTPRoutes rm = (Ret tt, rm') →
  rm' = rm_with_HTTPRoutes (rm_HTTPRoutes rm') rm
  ∧ dom (rm_HTTPRoutes rm') = dom (rm_HTTPRoutes rm)
  ∧ (∀ r n, rm_HTTPRoutes rm !! r = Some n →
       ∃ result, inheritedPoliciesOfHTTPRoute rm n = Ret result
                 ∧ rm_HTTPRoutes rm' !! r = Some (hr_with_InheritedPolicies (Some result) n))
  ∧ (∀ r n', rm_HTTPRoutes rm' !! r = Some n' →
       ∃ n result, rm_HTTPRoutes rm !! r = Some n
                   ∧ inheritedPoliciesOfHTTPRoute rm n = Ret result
                   ∧ n' = hr_with_InheritedPolicies (Some result) n).
Proof.
  intros Hrun. rewrite nodeStep_inheritedHTTPRoutes in Hrun.
  destruct (nodePass_returned rm_HTTPRoutes rm_with_HTTPRoutes httpRouteInherited rm rm'
              (λ _ _, eq_refl) (λ _ _ _, eq_refl) rm_with_HTTPRoutes_id
              (λ _ _ _, eq_refl) Hrun) as (Hput & Hdom & Hfwd & Hbwd).
  split_and!; [done..| |].
  - intros r n Hn. destruct (Hfwd r n Hn) as (n' & Hc & Hn').
    unfold httpRouteInherited in Hc.
    destruct (inheritedPoliciesOfHTTPRoute rm n) as [result| |] eqn:Hr; [|done..].
    simpl in Hc. injection Hc as <-. by exists result.
  - intros r n' Hn'. destruct (Hbwd r n' Hn') as (n & Hn & Hc).
    unfold httpRouteInherited in Hc.
    destruct (inheritedPoliciesOfHTTPRoute rm n) as [result| |] eqn:Hr; [|done..].
    simpl in Hc. injection Hc as <-. by exists n, result.
Qed.

Lemma inheritedBackends_returned (rm rm' : ResourceModel) :
  calculateInheritedPoliciesForBackends rm = (Ret tt, rm') →
  rm' = rm_with_Backends (rm_Backends rm') rm
  ∧ dom (rm_Backends rm') = dom (rm_Backends rm)
  ∧ (∀ b n, rm_Backends rm !! b = Some n →
       ∃ result, inheritedPoliciesOfBackend rm n = Ret result
                 ∧ rm_Backends rm' !! b = Some (bk_with_InheritedPolicies (Some result) n))
  ∧ (∀ b n', rm_Backends rm' !! b = Some n' →
       ∃ n result, rm_Backends rm !! b = Some n
                   ∧ inheritedPoliciesOfBackend rm n = Ret result
                   ∧ n' = bk_with_InheritedPolicies (Some result) n).
Proof.
  intros Hrun. rewrite nodeStep_inheritedBackends in Hrun.
  destruct (nodePass_returned rm_Backends rm_with_Backends backendInherited rm rm'
              (λ _ _, eq_refl) (λ _ _ _, eq_refl) rm_with_Backends_id
              (λ _ _ _, eq_refl) Hrun) as (Hput & Hdom & Hfwd & Hbwd).
  split_and!; [done..| |].
  - intros b n Hn. destruct (Hfwd b n Hn) as (n' & Hc & Hn').
    unfold backendInherited in Hc.
    destruct (inheritedPoliciesOfBackend rm n) as [result| |] eqn:Hr; [|done..].
    simpl in Hc. injection Hc as <-. by exists result.
  - intros b n' Hn'. destruct (Hbwd b n' Hn') as (n & Hn & Hc).
    unfold backendInherited in Hc.
    destruct (inheritedPoliciesOfBackend rm n) as [result| |] eqn:Hr; [|done..].
    simpl in Hc. injection Hc as <-. by exists n, result.
Qed.



(** X13.  After [calculateInheritedPolicies] returned, every policy among
    the inherited policies of a gateway, of a route or of a backend is an
    inheritable one, whatever the inherited policies held before the run:
    a route takes over what the gateway pass computed for its gateways, and
    a backend what the route pass computed for its routes. *)
Theorem inherited_policies_are_inheritable (rm rm' : ResourceModel) :
  calculateInheritedPolicies rm = (Ret tt, rm') → inheritedAreInheritable rm'.
Proof.
  intros Hrun. apply calculateInheritedPolicies_Ret in Hrun as (rmA & rmB & H1 & H2 & H3).
  destruct (inheritedGateways_returned rm rmA H1) as (_ & _ & _ & HgA).
  destruct (inheritedHTTPRoutes_returned rmA rmB H2) as (HputB & _ & _ & HrB).
  destruct (inheritedBackends_returned rmB rm' H3) as (Hput' & _ & _ & Hb').
  assert (Hgateways : ∀ g n id pn,
            rm_Gateways rmA !! g = Some n →
            default ∅ (gw_InheritedPolicies n) !! id = Some pn →
            polIsInherited (pn_Policy pn) = true).
  { intros g n id pn Hn Hid. destruct (HgA g n Hn) as (n0 & result & _ & Hinh & ->).
    simpl in Hid. by apply (gatewayInheritance_inherited rm n0 result id pn). }
  assert (Hroutes : ∀ r n id pn,
            rm_HTTPRoutes rmB !! r = Some n →
            default ∅ (hr_InheritedPolicies n) !! id = Some pn →
            polIsInherited (pn_Policy pn) = true).
  { intros r n id pn Hn Hid. destruct (HrB r n Hn) as (n0 & result & _ & Hr & ->).
    simpl in Hid. pose proof (inheritedPoliciesOfHTTPRoute_spec rmA n0) as Hspec.
    rewrite Hr in Hspec. destruct Hspec as (_ & _ & Hsound & _).
    destruct (Hsound id pn Hid) as [(nsn & _ & Hns)|(G & ptr & gn & _ & Hgn & Hfrom)].
    - by apply filterInheritablePolicies_inherited in Hns.
    - destruct Hfrom as [Hinh|Hown].
      + by apply (Hgateways ptr gn id pn).
      + by apply filterInheritablePolicies_inherited in Hown. }
  assert (HgwB : rm_Gateways rmB = rm_Gateways rmA) by (by rewrite HputB).
  assert (Hgw' : rm_Gateways rm' = rm_Gateways rmA) by (by rewrite Hput').
  assert (Hhr' : rm_HTTPRoutes rm' = rm_HTTPRoutes rmB) by (by rewrite Hput').
  split_and!.
  - intros g n id pn Hn. rewrite Hgw' in Hn. by apply (Hgateways g).
  - intros r n id pn Hn. rewrite Hhr' in Hn. by apply (Hroutes r).
  - intros b n id pn Hn Hid. destruct (Hb' b n Hn) as (n0 & result & _ & Hr & ->).
    simpl in Hid. pose proof (inheritedPoliciesOfBackend_spec rmB n0) as Hspec.
    rewrite Hr in Hspec. destruct Hspec as (_ & _ & Hsound & _).
    destruct (Hsound id pn Hid) as [(nsn & _ & Hns)|(r & ptr & hn & _ & Hhn & Hfrom)].
    + by apply filterInheritablePolicies_inherited in Hns.
    + destruct Hfrom as [Hinh|Hown].
      * by apply (Hroutes ptr hn id pn).
      * by apply filterInheritablePolicies_inherited in Hown.
Qed.

(** An inherited-policy pass never returns an error. *)
Lemma inheritedPoliciesOfGateway_no_fail (rm : ResourceModel) (n : GatewayNode)
    (err : error) :
  inheritedPoliciesOfGateway rm n ≠ Fail err.
Proof.
  unfold inheritedPoliciesOfGateway, deref.
  destruct (gw_Namespace n ≫= (rm_Namespaces rm !!.)); simpl; [|done].
  destruct (gw_GatewayClass n) as [c|]; simpl; [|done].
  by destruct (rm_GatewayClasses rm !! c).
Qed.

Lemma inheritedPass_outcome {K : Type} `{Countable K} {N : Type}
    (arena : ResourceModel → gmap K N) (put : gmap K N → ResourceModel → ResourceModel)
    (compute : ResourceModel → N → outcome N) (rm rm' : ResourceModel) (o : outcome unit) :
  (∀ m rm, arena (put m rm) = m) →
  (∀ m m' rm, put m (put m' rm) = put m rm) →
  (∀ rm, put (arena rm) rm = rm) →
  (∀ m rm n, compute (put m rm) n = compute rm n) →
  (∀ rm n err, compute rm n ≠ Fail err) →
  forEach (nodeStep arena put compute) (range_order (arena rm)).*1 rm = (o, rm') →
  o = Ret tt ∨ o = Panic.
Proof.
  intros H1 H2 H3 H4 Hnofail Hrun. destruct o as [[]| err |]; [by left| |by right].
  destruct (nodePass_stops arena put compute H1 H2 H3 H4 rm rm' _ Hrun)
    as (pre & k & post & node & _ & _ & _ & _ & Hstop); [done|].
  apply stopsWith_Fail in Hstop. by apply Hnofail in Hstop.
Qed.

Lemma calculateInheritedPolicies_outcome (rm : ResourceModel) :
  (calculateInheritedPolicies rm).1 = Ret tt ∨ (calculateInheritedPolicies rm).1 = Panic.
Proof.
  unfold calculateInheritedPolicies, andThen.
  destruct (calculateInheritedPoliciesForGateways rm) as [o1 rmA] eqn:H1.
  rewrite nodeStep_inheritedGateways in H1.
  apply (inheritedPass_outcome rm_Gateways rm_with_Gateways gatewayInherited) in H1;
    [|done|done|apply rm_with_Gateways_id|done|].
  2:{ intros rm0 n err Hc. unfold gatewayInherited in Hc.
      destruct (inheritedPoliciesOfGateway rm0 n) as [res| e |] eqn:E;
        simpl in Hc; try done.
      injection Hc as ->. by apply inheritedPoliciesOfGateway_no_fail in E. }
  destruct H1 as [->| ->]; [|by right].
  destruct (calculateInheritedPoliciesForHTTPRoutes rmA) as [o2 rmB] eqn:H2.
  rewrite nodeStep_inheritedHTTPRoutes in H2.
  apply (inheritedPass_outcome rm_HTTPRoutes rm_with_HTTPRoutes httpRouteInherited) in H2;
    [|done|done|apply rm_with_HTTPRoutes_id|done|].
  2:{ intros rm0 n err Hc. unfold httpRouteInherited in Hc.
      pose proof (inheritedPoliciesOfHTTPRoute_spec rm0 n) as Hspec.
      destruct (inheritedPoliciesOfHTTPRoute rm0 n) as [res| e |] eqn:E;
        simpl in Hc; done. }
  destruct H2 as [->| ->]; [|by right].
  destruct (calculateInheritedPoliciesForBackends rmB) as [o3 rm2] eqn:H3.
  rewrite nodeStep_inheritedBackends in H3.
  apply (inheritedPass_outcome rm_Backends rm_with_Backends backendInherited) in H3;
    [|done|done|apply rm_with_Backends_id|done|].
  2:{ intros rm0 n err Hc. unfold backendInherited in Hc.
      pose proof (inheritedPoliciesOfBackend_spec rm0 n) as Hspec.
      destruct (inheritedPoliciesOfBackend rm0 n) as [res| e |] eqn:E;
        simpl in Hc; done. }
  exact H3.
Qed.

Lemma calculateInheritedPolicies_resolved (rm rm' : ResourceModel) :
  calculateInheritedPolicies rm = (Ret tt, rm') → pointersResolved rm.
Proof.
  intros Hrun. apply calculateInheritedPolicies_Ret in Hrun as (rmA & rmB & H1 & H2 & H3).
  destruct (inheritedGateways_returned rm rmA H1) as (HputA & HdomA & HgA & _).
  destruct (inheritedHTTPRoutes_returned rmA rmB H2) as (HputB & HdomB & HrB & _).
  destruct (inheritedBackends_returned rmB rm' H3) as (_ & _ & HbB & _).
  assert (HnsA : rm_Namespaces rmA = rm_Namespaces rm) by (by rewrite HputA).
  assert (HhrA : rm_HTTPRoutes rmA = rm_HTTPRoutes rm) by (by rewrite HputA).
  assert (HbkA : rm_Backends rmA = rm_Backends rm) by (by rewrite HputA).
  assert (HnsB : rm_Namespaces rmB = rm_Namespaces rm) by (by rewrite HputB).
  assert (HbkB : rm_Backends rmB = rm_Backends rm) by (by rewrite HputB).
  split_and!.
  - intros g n Hn. destruct (HgA g n Hn) as (result & (nsn & Hns & Hcase) & _).
    split; [by rewrite Hns|]. intros c Hc. rewrite Hc in Hcase.
    destruct Hcase as (cn & Hcn & _). eauto.
  - intros r n Hn. rewrite <- HhrA in Hn. destruct (HrB r n Hn) as (result & Hr & _).
    pose proof (inheritedPoliciesOfHTTPRoute_spec rmA n) as Hspec.
    rewrite Hr in Hspec. destruct Hspec as (Hns & Hptrs & _).
    rewrite HnsA in Hns. split; [done|]. intros G ptr Hptr.
    apply elem_of_dom. rewrite <- HdomA. apply elem_of_dom. by apply (Hptrs G).
  - intros b n Hn. rewrite <- HbkB in Hn. destruct (HbB b n Hn) as (result & Hr & _).
    pose proof (inheritedPoliciesOfBackend_spec rmB n) as Hspec.
    rewrite Hr in Hspec. destruct Hspec as (Hns & Hptrs & _).
    rewrite HnsB in Hns. split; [done|]. intros r ptr Hptr.
    apply elem_of_dom. rewrite <- HhrA, <- HdomB. apply elem_of_dom. by apply (Hptrs r).
Qed.

(** X14.  The inherited-policy passes return exactly on the models whose
    pointers are resolved (every gateway, route and backend has its
    namespace, and every class, gateway and route pointer leads to a node),
    and panic on the others: [calculateInheritedPolicies] never returns an
    error. *)
Theorem inherited_passes_return_iff_pointers_resolved (rm : ResourceModel) :
  ((calculateInheritedPolicies rm).1 = Ret tt ↔ pointersResolved rm)
  ∧ ((calculateInheritedPolicies rm).1 = Ret tt
     ∨ (calculateInheritedPolicies rm).1 = Panic).
Proof.
  split; [|apply calculateInheritedPolicies_outcome]. split.
  - intros Hret. apply (calculateInheritedPolicies_resolved rm (calculateInheritedPolicies rm).2).
    rewrite <- Hret. apply surjective_pairing.
  - intros Hres. destruct (calculateInheritedPolicies_returns rm Hres) as (rm2 & -> & _).
    done.
Qed.

(** ** The effective-policy passes, one after the other *)


Lemma effectiveGateways_returned (rm rm' : ResourceModel) :
  calculateEffectivePoliciesForGateways rm = (Ret tt, rm') →
  rm' = rm_with_Gateways (rm_Gateways rm') rm
  ∧ ∀ g n', rm_Gateways rm' !! g = Some n' →
      ∃ n, rm_Gateways rm !! g = Some n
           ∧ match gw_GatewayClass n with
             | Some c => ∃ result, gatewayMerge rm n c result
                                   ∧ n' = gw_with_EffectivePolicies result n
             | None => n' = n
             end.
Proof.
  intros Hrun. rewrite nodeStep_gateways in Hrun.
  destruct (nodePass_returned rm_Gateways rm_with_Gateways gatewayEffective rm rm'
              (λ _ _, eq_refl) (λ _ _ _, eq_refl) rm_with_Gateways_id
              (λ _ _ _, eq_refl) Hrun) as (Hput & _ & _ & Hbwd).
  split; [done|]. intros g n' Hn'. destruct (Hbwd g n' Hn') as (n & Hn & Hc).
  exists n. split; [done|]. unfold gatewayEffective in Hc.
  destruct (gw_GatewayClass n) as [c|]; [|by injection Hc].
  destruct (effectivePoliciesOfGateway rm n c) as [result| |] eqn:Hr; [|done..].
  simpl in Hc. injection Hc as <-. exists result.
  split; [by apply effectivePoliciesOfGateway_Ret|done].
Qed.

Lemma effectiveHTTPRoutes_returned (rm rm' : ResourceModel) :
  calculateEffectivePoliciesForHTTPRoutes rm = (Ret tt, rm') →
  rm' = rm_with_HTTPRoutes (rm_HTTPRoutes rm') rm
  ∧ ∀ r n', rm_HTTPRoutes rm' !! r = Some n' →
      ∃ n result, rm_HTTPRoutes rm !! r = Some n
                  ∧ httpRouteMerge rm n result
                  ∧ n' = hr_with_EffectivePolicies (Some result) n.
Proof.
  intros Hrun. rewrite nodeStep_httpRoutes in Hrun.
  destruct (nodePass_returned rm_HTTPRoutes rm_with_HTTPRoutes httpRouteEffective rm rm'
              (λ _ _, eq_refl) (λ _ _ _, eq_refl) rm_with_HTTPRoutes_id
              (λ _ _ _, eq_refl) Hrun) as (Hput & _ & _ & Hbwd).
  split; [done|]. intros r n' Hn'. destruct (Hbwd r n' Hn') as (n & Hn & Hc).
  unfold httpRouteEffective in Hc.
  destruct (effectivePoliciesOfHTTPRoute rm n) as [result| |] eqn:Hr; [|done..].
  simpl in Hc. injection Hc as <-. exists n, result.
  split; [done|]. split; [by apply effectivePoliciesOfHTTPRoute_Ret|done].
Qed.





(** ** The effective-policy passes, from the attached policies *)

(** What a pass hands to the same-kind merge are the attached policies in
    the order of their sort keys. *)
Lemma convertPoliciesMapToSlice_candidates (policies : gmap policyID PolicyNode) :
  candidates policies (convertPoliciesMapToSlice policies).
Proof.
  split; [apply convertPoliciesMapToSlice_perm|apply convertPoliciesMapToSlice_sorted].
Qed.

Local Hint Resolve convertPoliciesMapToSlice_candidates : core.

Lemma effectivePoliciesOfGateway_resolution (rm : ResourceModel) (n : GatewayNode)
    (c : gatewayClassID) (result : PolicyMap) :
  effectivePoliciesOfGateway rm n c = Ret result → gatewayResolution rm n c result.
Proof.
  intros Hr. apply effectivePoliciesOfGateway_Ret in Hr
    as (cn & nsn & cK & nK & gK & a & Hc & Hns & E1 & E2 & E3 & E4 & E5).
  exists cn, nsn, (convertPoliciesMapToSlice (gc_Policies cn)),
    (convertPoliciesMapToSlice (ns_Policies nsn)),
    (convertPoliciesMapToSlice (gw_Policies n)).
  split_and!; [done..|]. by exists cK, nK, gK, a.
Qed.

Lemma effectivePoliciesOfGateway_resolves (rm : ResourceModel) (n : GatewayNode)
    (c : gatewayClassID) :
  gatewayResolves rm n c → ∃ result, effectivePoliciesOfGateway rm n c = Ret result.
Proof.
  intros (cn & nsn & Hc & Hns & Hall).
  destruct (Hall (convertPoliciesMapToSlice (gc_Policies cn))
              (convertPoliciesMapToSlice (ns_Policies nsn))
              (convertPoliciesMapToSlice (gw_Policies n)))
    as (result & cK & nK & gK & a & E1 & E2 & E3 & E4 & E5); [done..|].
  exists result. apply effectivePoliciesOfGateway_Ret. by exists cn, nsn, cK, nK, gK, a.
Qed.

Lemma effectivePoliciesOfHTTPRoute_resolution (rm : ResourceModel) (n : HTTPRouteNode)
    (result : gmap gatewayID PolicyMap) :
  effectivePoliciesOfHTTPRoute rm n = Ret result → httpRouteResolution rm n result.
Proof.
  intros Hr. apply effectivePoliciesOfHTTPRoute_Ret in Hr
    as (nsn & rK & nK & Hns & E1 & E2 & Hdom & Hall).
  exists nsn, (convertPoliciesMapToSlice (hr_Policies n)),
    (convertPoliciesMapToSlice (ns_Policies nsn)).
  split_and!; [done..|]. by exists rK, nK.
Qed.

Lemma effectivePoliciesOfHTTPRoute_resolves (rm : ResourceModel) (n : HTTPRouteNode) :
  httpRouteResolves rm n → ∃ result, effectivePoliciesOfHTTPRoute rm n = Ret result.
Proof.
  intros (nsn & Hns & Hall).
  destruct (Hall (convertPoliciesMapToSlice (hr_Policies n))
              (convertPoliciesMapToSlice (ns_Policies nsn)))
    as (result & rK & nK & E1 & E2 & Hdom & Hentries); [done..|].
  exists result. apply effectivePoliciesOfHTTPRoute_Ret. by exists nsn, rK, nK.
Qed.

Lemma effectivePoliciesOfBackend_resolution (rm : ResourceModel) (n : BackendNode)
    (result : gmap gatewayID PolicyMap) :
  effectivePoliciesOfBackend rm n = Ret result → backendResolution rm n result.
Proof.
  intros Hr. apply effectivePoliciesOfBackend_Ret in Hr
    as (nsn & bK & nK & Hns & E1 & E2 & Hroutes & Hall).
  exists nsn, (convertPoliciesMapToSlice (bk_Policies n)),
    (convertPoliciesMapToSlice (ns_Policies nsn)).
  split_and!; [done..|]. by exists bK, nK.
Qed.

Lemma effectivePoliciesOfBackend_resolves (rm : ResourceModel) (n : BackendNode) :
  backendResolves rm n → ∃ result, effectivePoliciesOfBackend rm n = Ret result.
Proof.
  intros (nsn & Hns & Hroutes & Hall).
  destruct (Hall (convertPoliciesMapToSlice (bk_Policies n))
              (convertPoliciesMapToSlice (ns_Policies nsn)))
    as (result & bK & nK & E1 & E2 & Hentries); [done..|].
  exists result. apply effectivePoliciesOfBackend_Ret. by exists nsn, bK, nK.
Qed.

(** C1.  The gateway pass never writes a gateway whose class pointer is
    nil, whatever the outcome of the pass and whatever policies the model
    holds: the node is afterwards what it was.  When the pass returns
    without error, the effective policies that every gateway with a class
    holds are the pairwise merge (class with namespace, then the result
    with the gateway) of three same-kind merges, each over the policies
    attached to the class, to the namespace of the gateway and to the
    gateway, in the order of their sort keys.  And the pass does return
    without error whenever these merges succeed for every gateway with a
    class.  Whatever the outcome of the pass, a gateway with a class is
    afterwards either as it was or holds that merge. *)
Theorem gateway_effective_policies (rm rm' : ResourceModel) (o : outcome unit) :
  calculateEffectivePoliciesForGateways rm = (o, rm') →
  (∀ g gatewayNode,
     rm_Gateways rm !! g = Some gatewayNode → gw_GatewayClass gatewayNode = None →
     rm_Gateways rm' !! g = Some gatewayNode)
  ∧ (o = Ret tt →
     ∀ g gatewayNode c,
       rm_Gateways rm !! g = Some gatewayNode → gw_GatewayClass gatewayNode = Some c →
       ∃ result gatewayNode',
         gatewayResolution rm gatewayNode c result
         ∧ rm_Gateways rm' !! g = Some gatewayNode'
         ∧ gw_EffectivePolicies gatewayNode' = result
         ∧ gatewayNode' = gw_with_EffectivePolicies result gatewayNode)
  ∧ ((∀ g gatewayNode c,
        rm_Gateways rm !! g = Some gatewayNode → gw_GatewayClass gatewayNode = Some c →
        gatewayResolves rm gatewayNode c) →
     o = Ret tt)
  ∧ (∀ g gatewayNode c,
       rm_Gateways rm !! g = Some gatewayNode → gw_GatewayClass gatewayNode = Some c →
       rm_Gateways rm' !! g = Some gatewayNode
       ∨ ∃ result gatewayNode',
           gatewayResolution rm gatewayNode c result
           ∧ rm_Gateways rm' !! g = Some gatewayNode'
           ∧ gw_EffectivePolicies gatewayNode' = result
           ∧ gatewayNode' = gw_with_EffectivePolicies result gatewayNode).
Proof.
  intros Hrun. rewrite nodeStep_gateways in Hrun.
  destruct (nodePass_returns_iff rm_Gateways rm_with_Gateways gatewayEffective
              (λ _ _, eq_refl) (λ _ _ _, eq_refl) rm_with_Gateways_id (λ _ _ _, eq_refl)
              rm rm' o Hrun) as [Hret Hall].
  assert (Hcomputed : ∀ g n c n',
            gw_GatewayClass n = Some c → gatewayEffective rm n = Ret n' →
            rm_Gateways rm' !! g = Some n' →
            ∃ result gatewayNode',
              gatewayResolution rm n c result
              ∧ rm_Gateways rm' !! g = Some gatewayNode'
              ∧ gw_EffectivePolicies gatewayNode' = result
              ∧ gatewayNode' = gw_with_EffectivePolicies result n).
  { intros g n c n' Hclass Hc Hn'. unfold gatewayEffective in Hc. rewrite Hclass in Hc.
    destruct (effectivePoliciesOfGateway rm n c) as [result| |] eqn:Hr; [|done..].
    simpl in Hc. injection Hc as <-.
    exists result, (gw_with_EffectivePolicies result n).
    split; [by apply effectivePoliciesOfGateway_resolution|done]. }
  split_and!.
  - intros g n Hg Hclass.
    destruct (nodePass_pointwise rm_Gateways rm_with_Gateways gatewayEffective
                (λ _ _, eq_refl) (λ _ _ _, eq_refl) rm_with_Gateways_id
                (λ _ _ _, eq_refl) rm rm' o g n Hrun Hg) as [Hsame|(n' & Hc & Hn')];
      [done|].
    unfold gatewayEffective in Hc. rewrite Hclass in Hc. by injection Hc as <-.
  - intros Ho g n c Hg Hclass. destruct (Hret Ho g n Hg) as (n' & Hc & Hn').
    by apply (Hcomputed g n c n').
  - intros Hmerge. apply Hall. intros g n Hg. unfold gatewayEffective.
    destruct (gw_GatewayClass n) as [c|] eqn:Hclass; [|eauto].
    destruct (effectivePoliciesOfGateway_resolves rm n c (Hmerge g n c Hg Hclass))
      as [result ->].
    simpl. eauto.
  - intros g n c Hg Hclass.
    destruct (nodePass_pointwise rm_Gateways rm_with_Gateways gatewayEffective
                (λ _ _, eq_refl) (λ _ _ _, eq_refl) rm_with_Gateways_id
                (λ _ _ _, eq_refl) rm rm' o g n Hrun Hg) as [Hsame|(n' & Hc & Hn')];
      [by left|right].
    by apply (Hcomputed g n c n').
Qed.

(** C3, as the code has it.  When the route pass returns without error,
    every route holds a mapping with exactly one entry per gateway it is
    connected to; the entry for a gateway is the merge of that gateway's own
    effective policies with the same-kind merge of the policies attached to
    the namespace of the route, and then with the same-kind merge of the
    policies attached to the route.  The pass returns without error
    whenever these merges succeed for every route.  A route connected to no
    gateway gets the empty mapping; its computation returns no error when
    its namespace is resolved and the two same-kind merges succeed, it
    returns the error of the same-kind merge that fails, and it panics when
    the namespace pointer is nil, since the namespace and the same-kind
    merges come before the gateways are visited.  Whatever the outcome of
    the pass, a route is afterwards either as it was or holds such a
    mapping. *)
Theorem route_effective_policies (rm rm' : ResourceModel) (o : outcome unit) :
  calculateEffectivePoliciesForHTTPRoutes rm = (o, rm') →
  (o = Ret tt →
   ∀ r httpRouteNode, rm_HTTPRoutes rm !! r = Some httpRouteNode →
     ∃ result httpRouteNode',
       httpRouteResolution rm httpRouteNode result
       ∧ rm_HTTPRoutes rm' !! r = Some httpRouteNode'
       ∧ hr_EffectivePolicies httpRouteNode' = Some result
       ∧ httpRouteNode' = hr_with_EffectivePolicies (Some result) httpRouteNode
       ∧ (hr_Gateways httpRouteNode = ∅ → result = ∅))
  ∧ ((∀ r httpRouteNode, rm_HTTPRoutes rm !! r = Some httpRouteNode →
        httpRouteResolves rm httpRouteNode) →
     o = Ret tt)
  ∧ (∀ httpRouteNode,
       hr_Gateways httpRouteNode = ∅ →
       (httpRouteLevelsMerge rm httpRouteNode →
        effectivePoliciesOfHTTPRoute rm httpRouteNode = Ret ∅)
       ∧ (∀ err,
            effectivePoliciesOfHTTPRoute rm httpRouteNode = Fail err →
            ∃ slice,
              MergePoliciesOfSimilarKind slice = MergeError err
              ∧ (candidates (hr_Policies httpRouteNode) slice
                 ∨ ∃ namespaceNode,
                     hr_Namespace httpRouteNode ≫= (rm_Namespaces rm !!.)
                     = Some namespaceNode
                     ∧ candidates (ns_Policies namespaceNode) slice))
       ∧ (hr_Namespace httpRouteNode ≫= (rm_Namespaces rm !!.) = None →
          effectivePoliciesOfHTTPRoute rm httpRouteNode = Panic))
  ∧ (∀ r httpRouteNode, rm_HTTPRoutes rm !! r = Some httpRouteNode →
       rm_HTTPRoutes rm' !! r = Some httpRouteNode
       ∨ ∃ result httpRouteNode',
           httpRouteResolution rm httpRouteNode result
           ∧ rm_HTTPRoutes rm' !! r = Some httpRouteNode'
           ∧ hr_EffectivePolicies httpRouteNode' = Some result
           ∧ httpRouteNode' = hr_with_EffectivePolicies (Some result) httpRouteNode
           ∧ (hr_Gateways httpRouteNode = ∅ → result = ∅)).
Proof.
  intros Hrun. rewrite nodeStep_httpRoutes in Hrun.
  destruct (nodePass_returns_iff rm_HTTPRoutes rm_with_HTTPRoutes httpRouteEffective
              (λ _ _, eq_refl) (λ _ _ _, eq_refl) rm_with_HTTPRoutes_id (λ _ _ _, eq_refl)
              rm rm' o Hrun) as [Hret Hall].
  assert (Hcomputed : ∀ r n n',
            httpRouteEffective rm n = Ret n' → rm_HTTPRoutes rm' !! r = Some n' →
            ∃ result httpRouteNode',
              httpRouteResolution rm n result
              ∧ rm_HTTPRoutes rm' !! r = Some httpRouteNode'
              ∧ hr_EffectivePolicies httpRouteNode' = Some result
              ∧ httpRouteNode' = hr_with_EffectivePolicies (Some result) n
              ∧ (hr_Gateways n = ∅ → result = ∅)).
  { intros r n n' Hc Hn'. unfold httpRouteEffective in Hc.
    destruct (effectivePoliciesOfHTTPRoute rm n) as [result| |] eqn:Hres; [|done..].
    simpl in Hc. injection Hc as <-.
    exists result, (hr_with_EffectivePolicies (Some result) n).
    split; [by apply effectivePoliciesOfHTTPRoute_resolution|].
    split_and!; [done..|].
    intros Hempty. apply effectivePoliciesOfHTTPRoute_Ret in Hres
      as (_ & _ & _ & _ & _ & _ & Hdom & _).
    rewrite Hempty, dom_empty_L in Hdom. by apply dom_empty_inv_L in Hdom. }
  split_and!.
  - intros Ho r n Hr. destruct (Hret Ho r n Hr) as (n' & Hc & Hn').
    by apply (Hcomputed r n n').
  - intros Hmerge. apply Hall. intros r n Hr. unfold httpRouteEffective.
    destruct (effectivePoliciesOfHTTPRoute_resolves rm n (Hmerge r n Hr)) as [result ->].
    simpl. eauto.
  - intros n Hempty.
    assert (Hnil : range_order (hr_Gateways n) = []).
    { apply Permutation_nil_r. rewrite range_order_perm, Hempty.
      by rewrite map_to_list_empty. }
    split_and!.
    + intros (nsn & Hns & Hroute & Hnamespace).
      destruct (Hroute (convertPoliciesMapToSlice (hr_Policies n))) as [rK E1]; [done|].
      destruct (Hnamespace (convertPoliciesMapToSlice (ns_Policies nsn))) as [nK E2];
        [done|].
      unfold effectivePoliciesOfHTTPRoute, deref. rewrite Hns. simpl.
      rewrite E1. simpl. rewrite E2. simpl. by rewrite Hnil.
    + intros err. unfold effectivePoliciesOfHTTPRoute, deref.
      destruct (hr_Namespace n ≫= (rm_Namespaces rm !!.)) as [nsn|]; simpl; [|done].
      destruct (MergePoliciesOfSimilarKind (convertPoliciesMapToSlice (hr_Policies n)))
        as [rK|err1] eqn:E1; simpl.
      * destruct (MergePoliciesOfSimilarKind
                    (convertPoliciesMapToSlice (ns_Policies nsn)))
          as [nK|err2] eqn:E2; simpl.
        -- by rewrite Hnil.
        -- intros [= <-]. exists (convertPoliciesMapToSlice (ns_Policies nsn)).
           split; [done|]. right. by exists nsn.
      * intros [= <-]. exists (convertPoliciesMapToSlice (hr_Policies n)).
        split; [done|]. by left.
    + intros Hns. unfold effectivePoliciesOfHTTPRoute, deref. by rewrite Hns.
  - intros r n Hr.
    destruct (nodePass_pointwise rm_HTTPRoutes rm_with_HTTPRoutes httpRouteEffective
                (λ _ _, eq_refl) (λ _ _ _, eq_refl) rm_with_HTTPRoutes_id
                (λ _ _ _, eq_refl) rm rm' o r n Hrun Hr) as [Hsame|(n' & Hc & Hn')];
      [by left|right].
    by apply (Hcomputed r n n').
Qed.

(** The peer merge of the contributions of two routes. *)
Lemma peerFold_two (acc first second : PolicyMap) :
  peerFold acc [first; second]
  = (folded ← liftMerge (MergePoliciesOfSameHierarchy acc first);
     liftMerge (MergePoliciesOfSameHierarchy folded second)).
Proof.
  unfold peerFold. simpl.
  destruct (MergePoliciesOfSameHierarchy acc first) as [a|]; simpl; [|done].
  by destruct (MergePoliciesOfSameHierarchy a second).
Qed.

(** C2.  When the backend pass returns without error, every backend holds,
    for each gateway that some route of the backend has effective policies
    for, the peer (same-hierarchy) merge of what all these routes
    contribute, in the order the routes are visited and starting from the
    nil mapping, overlaid once with the same-kind merge of the policies
    attached to the namespace of the backend and then once with the
    same-kind merge of the policies attached to the backend, by the
    different-hierarchy merge; it holds no entry for any other gateway.
    Two routes that contribute for one gateway are merged with each other
    by the same-hierarchy merge.  The pass returns without error whenever
    these merges succeed for every backend.  Whatever the outcome of the
    pass, a backend is afterwards either as it was or holds such a
    mapping. *)
Theorem backend_effective_policies (rm rm' : ResourceModel) (o : outcome unit) :
  calculateEffectivePoliciesForBackends rm = (o, rm') →
  (o = Ret tt →
   ∀ b backendNode, rm_Backends rm !! b = Some backendNode →
     ∃ result backendNode',
       backendResolution rm backendNode result
       ∧ rm_Backends rm' !! b = Some backendNode'
       ∧ bk_EffectivePolicies backendNode' = Some result
       ∧ backendNode' = bk_with_EffectivePolicies (Some result) backendNode)
  ∧ ((∀ b backendNode, rm_Backends rm !! b = Some backendNode →
        backendResolves rm backendNode) →
     o = Ret tt)
  ∧ (∀ first second,
       peerFold None [first; second]
       = (folded ← liftMerge (MergePoliciesOfSameHierarchy None first);
          liftMerge (MergePoliciesOfSameHierarchy folded second)))
  ∧ (∀ b backendNode, rm_Backends rm !! b = Some backendNode →
       rm_Backends rm' !! b = Some backendNode
       ∨ ∃ result backendNode',
           backendResolution rm backendNode result
           ∧ rm_Backends rm' !! b = Some backendNode'
           ∧ bk_EffectivePolicies backendNode' = Some result
           ∧ backendNode' = bk_with_EffectivePolicies (Some result) backendNode).
Proof.
  intros Hrun. rewrite nodeStep_backends in Hrun.
  destruct (nodePass_returns_iff rm_Backends rm_with_Backends backendEffective
              (λ _ _, eq_refl) (λ _ _ _, eq_refl) rm_with_Backends_id (λ _ _ _, eq_refl)
              rm rm' o Hrun) as [Hret Hall].
  assert (Hcomputed : ∀ b n n',
            backendEffective rm n = Ret n' → rm_Backends rm' !! b = Some n' →
            ∃ result backendNode',
              backendResolution rm n result
              ∧ rm_Backends rm' !! b = Some backendNode'
              ∧ bk_EffectivePolicies backendNode' = Some result
              ∧ backendNode' = bk_with_EffectivePolicies (Some result) n).
  { intros b n n' Hc Hn'. unfold backendEffective in Hc.
    destruct (effectivePoliciesOfBackend rm n) as [result| |] eqn:Hres; [|done..].
    simpl in Hc. injection Hc as <-.
    exists result, (bk_with_EffectivePolicies (Some result) n).
    split; [by apply effectivePoliciesOfBackend_resolution|done]. }
  split_and!.
  - intros Ho b n Hb. destruct (Hret Ho b n Hb) as (n' & Hc & Hn').
    by apply (Hcomputed b n n').
  - intros Hmerge. apply Hall. intros b n Hb. unfold backendEffective.
    destruct (effectivePoliciesOfBackend_resolves rm n (Hmerge b n Hb)) as [result ->].
    simpl. eauto.
  - intros first second. apply peerFold_two.
  - intros b n Hb.
    destruct (nodePass_pointwise rm_Backends rm_with_Backends backendEffective
                (λ _ _, eq_refl) (λ _ _ _, eq_refl) rm_with_Backends_id
                (λ _ _ _, eq_refl) rm rm' o b n Hrun Hb) as [Hsame|(n' & Hc & Hn')];
      [by left|right].
    by apply (Hcomputed b n n').
Qed.

(** ** A pass stops at the first computation that does not return *)




(** ** The inherited-policy passes, from the attached policies *)

Lemma filterInheritablePolicies_inheritable (policies : gmap policyID PolicyNode)
    (id : policyID) (pn : PolicyNode) :
  filterInheritablePolicies policies !! id = Some pn ↔ inheritable policies id pn.
Proof. unfold filterInheritablePolicies, inheritable. by rewrite map_lookup_filter_Some. Qed.

Lemma filterInheritablePolicies_none (policies : gmap policyID PolicyNode) (id : policyID) :
  filterInheritablePolicies policies !! id = None ↔ ∀ other, ¬ inheritable policies id other.
Proof.
  split.
  - intros Hnone other Hinh. apply filterInheritablePolicies_inheritable in Hinh.
    congruence.
  - intros Hall. destruct (filterInheritablePolicies policies !! id) as [pn|] eqn:E;
      [|done].
    apply filterInheritablePolicies_inheritable in E. by destruct (Hall pn).
Qed.

Lemma gatewayInheritance_inherits (rm : ResourceModel) (n : GatewayNode)
    (result : gmap policyID PolicyNode) :
  gatewayInheritance rm n result →
  ∀ id pn, result !! id = Some pn ↔ gatewayInherits rm n id pn.
Proof.
  intros (nsn & Hns & Hcase) id pn. unfold gatewayInherits.
  destruct (gw_GatewayClass n) as [c|] eqn:Hc.
  - destruct Hcase as (cn & Hcn & ->).
    rewrite lookup_union_Some_raw, !filterInheritablePolicies_inheritable,
      filterInheritablePolicies_none.
    split.
    + intros [Hclass|[Hnone Hinh]].
      * left. by exists c, cn.
      * right. exists nsn. split_and!; [done..|].
        intros c' cn' other [= <-] Hcn'. rewrite Hcn in Hcn'. injection Hcn' as <-.
        apply Hnone.
    + intros [(c' & cn' & [= <-] & Hcn' & Hinh)|(nsn' & Hns' & Hinh & Hnone)].
      * rewrite Hcn in Hcn'. injection Hcn' as <-. by left.
      * right. rewrite Hns in Hns'. injection Hns' as <-. split; [|done].
        intros other. by apply (Hnone c cn).
  - subst result. rewrite filterInheritablePolicies_inheritable. split.
    + intros Hinh. right. exists nsn. split_and!; [done..|]. by intros c cn other [=].
    + intros [(c & cn & [=] & _)|(nsn' & Hns' & Hinh & _)].
      rewrite Hns in Hns'. by injection Hns' as <-.
Qed.

(** The gateways after the gateway pass of the inherited policies, run on a
    model that is the graph [rm]. *)
Lemma inheritedGateways_inherits (rm rm1 rmA : ResourceModel) :
  sameGraph rm rm1 →
  calculateInheritedPoliciesForGateways rm1 = (Ret tt, rmA) →
  ∀ g,
    match rm_Gateways rm !! g with
    | Some n =>
        ∃ nA result,
          rm_Gateways rmA !! g = Some nA
          ∧ gw_InheritedPolicies nA = Some result
          ∧ gw_Policies nA = gw_Policies n
          ∧ ∀ id pn, result !! id = Some pn ↔ gatewayInherits rm n id pn
    | None => rm_Gateways rmA !! g = None
    end.
Proof.
  intros Hsame Hrun g.
  destruct (inheritedGateways_returned rm1 rmA Hrun) as (_ & Hdom & Hfwd & _).
  destruct (rm_Gateways rm !! g) as [n|] eqn:Hn.
  - destruct (sameGraph_gateway rm rm1 g n Hsame Hn) as (n1 & Hn1 & Heq).
    destruct (Hfwd g n1 Hn1) as (result & Hinh & HnA).
    exists (gw_with_InheritedPolicies (Some result) n1), result.
    split_and!; [done|done|exact (f_equal gw_Policies Heq)|].
    apply gatewayInheritance_inherits.
    by apply (gatewayInheritance_sameGraph rm rm1 n n1 result).
  - apply not_elem_of_dom. rewrite Hdom. apply not_elem_of_dom.
    destruct (rm_Gateways rm1 !! g) as [n1|] eqn:Hn1; [|done].
    destruct (sameGraph_gateway rm1 rm g n1 (sameGraph_sym _ _ Hsame) Hn1)
      as (n & Hn' & _).
    congruence.
Qed.

(** The routes after the gateway and route passes. *)
Lemma inheritedHTTPRoutes_inherits (rm rm1 rmA rmB : ResourceModel) :
  sameGraph rm rm1 →
  calculateInheritedPoliciesForGateways rm1 = (Ret tt, rmA) →
  calculateInheritedPoliciesForHTTPRoutes rmA = (Ret tt, rmB) →
  ∀ r,
    match rm_HTTPRoutes rm !! r with
    | Some n =>
        ∃ nB result,
          rm_HTTPRoutes rmB !! r = Some nB
          ∧ hr_InheritedPolicies nB = Some result
          ∧ hr_Policies nB = hr_Policies n
          ∧ (∀ id pn, result !! id = Some pn → httpRouteInherits rm n id pn)
          ∧ (∀ id pn, httpRouteInherits rm n id pn → is_Some (result !! id))
    | None => rm_HTTPRoutes rmB !! r = None
    end.
Proof.
  intros Hsame H1 H2 r.
  pose proof (inheritedGateways_inherits rm rm1 rmA Hsame H1) as Hgw.
  destruct (inheritedGateways_returned rm1 rmA H1) as (HputA & _).
  destruct (inheritedHTTPRoutes_returned rmA rmB H2) as (_ & Hdom & Hfwd & _).
  assert (HhrA : rm_HTTPRoutes rmA = rm_HTTPRoutes rm1) by (by rewrite HputA).
  assert (HnsA : rm_Namespaces rmA = rm_Namespaces rm).
  { rewrite HputA. simpl. by destruct Hsame as (_ & -> & _). }
  destruct (rm_HTTPRoutes rm !! r) as [n|] eqn:Hn.
  - destruct (sameGraph_httpRoute rm rm1 r n Hsame Hn) as (n1 & Hn1 & Heq).
    rewrite <- HhrA in Hn1.
    destruct (Hfwd r n1 Hn1) as (result & Hr & HnB).
    pose proof (inheritedPoliciesOfHTTPRoute_spec rmA n1) as Hspec. rewrite Hr in Hspec.
    destruct Hspec as (_ & _ & Hsound & Hcomplete).
    assert (Ens : hr_Namespace n1 = hr_Namespace n) by exact (f_equal hr_Namespace Heq).
    assert (Egw : hr_Gateways n1 = hr_Gateways n) by exact (f_equal hr_Gateways Heq).
    exists (hr_with_InheritedPolicies (Some result) n1), result.
    split_and!; [done|done|exact (f_equal hr_Policies Heq)| |].
    + intros id pn Hid.
      apply Hsound in Hid as [(nsn & Hnsn & Hf)|(G & ptr & gA & Hptr & HgA & Hfrom)].
      * left. exists nsn. rewrite Ens, HnsA in Hnsn. split; [done|].
        by apply filterInheritablePolicies_inheritable.
      * right. specialize (Hgw ptr).
        destruct (rm_Gateways rm !! ptr) as [g|] eqn:Hg; [|congruence].
        destruct Hgw as (gA' & resultG & HgA' & HinhA & Hpol & Hiff).
        rewrite HgA in HgA'. injection HgA' as <-.
        exists G, ptr, g. rewrite Egw in Hptr. split_and!; [done..|].
        destruct Hfrom as [Hfrom|Hfrom].
        -- left. apply Hiff. by rewrite HinhA in Hfrom.
        -- right. apply filterInheritablePolicies_inheritable in Hfrom.
           by rewrite Hpol in Hfrom.
    + intros id pn [(nsn & Hnsn & Hf)|(G & ptr & g & Hptr & Hg & Hfrom)].
      * apply (Hcomplete id pn). left. exists nsn. rewrite Ens, HnsA. split; [done|].
        by apply filterInheritablePolicies_inheritable.
      * specialize (Hgw ptr). rewrite Hg in Hgw.
        destruct Hgw as (gA & resultG & HgA & HinhA & Hpol & Hiff).
        apply (Hcomplete id pn). right. exists G, ptr, gA. rewrite Egw.
        split_and!; [done..|].
        destruct Hfrom as [Hfrom|Hfrom].
        -- left. rewrite HinhA. simpl. by apply Hiff.
        -- right. apply filterInheritablePolicies_inheritable. by rewrite Hpol.
  - apply not_elem_of_dom. rewrite Hdom, HhrA. apply not_elem_of_dom.
    destruct (rm_HTTPRoutes rm1 !! r) as [n1|] eqn:Hn1; [|done].
    destruct (sameGraph_httpRoute rm1 rm r n1 (sameGraph_sym _ _ Hsame) Hn1)
      as (n & Hn' & _).
    congruence.
Qed.

(** The backends after the three passes. *)
Lemma inheritedBackends_inherits (rm rm1 rmA rmB rm2 : ResourceModel) :
  sameGraph rm rm1 →
  calculateInheritedPoliciesForGateways rm1 = (Ret tt, rmA) →
  calculateInheritedPoliciesForHTTPRoutes rmA = (Ret tt, rmB) →
  calculateInheritedPoliciesForBackends rmB = (Ret tt, rm2) →
  ∀ b n, rm_Backends rm !! b = Some n →
    ∃ n2 result,
      rm_Backends rm2 !! b = Some n2
      ∧ bk_InheritedPolicies n2 = Some result
      ∧ (∀ id pn, result !! id = Some pn → backendInherits rm n id pn)
      ∧ (∀ id pn, backendInherits rm n id pn → is_Some (result !! id)).
Proof.
  intros Hsame H1 H2 H3 b n Hn.
  pose proof (inheritedHTTPRoutes_inherits rm rm1 rmA rmB Hsame H1 H2) as Hhr.
  destruct (inheritedGateways_returned rm1 rmA H1) as (HputA & _).
  destruct (inheritedHTTPRoutes_returned rmA rmB H2) as (HputB & _).
  destruct (inheritedBackends_returned rmB rm2 H3) as (_ & _ & Hfwd & _).
  assert (HbkB : rm_Backends rmB = rm_Backends rm1) by (by rewrite HputB, HputA).
  assert (HnsB : rm_Namespaces rmB = rm_Namespaces rm).
  { rewrite HputB, HputA. simpl. by destruct Hsame as (_ & -> & _). }
  destruct (sameGraph_backend rm rm1 b n Hsame Hn) as (n1 & Hn1 & Heq).
  rewrite <- HbkB in Hn1.
  destruct (Hfwd b n1 Hn1) as (result & Hr & Hn2).
  pose proof (inheritedPoliciesOfBackend_spec rmB n1) as Hspec. rewrite Hr in Hspec.
  destruct Hspec as (_ & _ & Hsound & Hcomplete).
  assert (Ens : bk_Namespace n1 = bk_Namespace n) by exact (f_equal bk_Namespace Heq).
  assert (Ehr : bk_HTTPRoutes n1 = bk_HTTPRoutes n) by exact (f_equal bk_HTTPRoutes Heq).
  exists (bk_with_InheritedPolicies (Some result) n1), result.
  split_and!; [done|done| |].
  - intros id pn Hid.
    apply Hsound in Hid as [(nsn & Hnsn & Hf)|(r & ptr & hB & Hptr & HhB & Hfrom)].
    + left. exists nsn. rewrite Ens, HnsB in Hnsn. split; [done|].
      by apply filterInheritablePolicies_inheritable.
    + right. specialize (Hhr ptr).
      destruct (rm_HTTPRoutes rm !! ptr) as [h|] eqn:Hh; [|congruence].
      destruct Hhr as (hB' & resultR & HhB' & HinhB & Hpol & HsoundR & _).
      rewrite HhB in HhB'. injection HhB' as <-.
      exists r, ptr, h. rewrite Ehr in Hptr. split_and!; [done..|].
      destruct Hfrom as [Hfrom|Hfrom].
      * left. apply HsoundR. by rewrite HinhB in Hfrom.
      * right. apply filterInheritablePolicies_inheritable in Hfrom.
        by rewrite Hpol in Hfrom.
  - intros id pn [(nsn & Hnsn & Hf)|(r & ptr & h & Hptr & Hh & Hfrom)].
    + apply (Hcomplete id pn). left. exists nsn. rewrite Ens, HnsB. split; [done|].
      by apply filterInheritablePolicies_inheritable.
    + specialize (Hhr ptr). rewrite Hh in Hhr.
      destruct Hhr as (hB & resultR & HhB & HinhB & Hpol & _ & HcompleteR).
      destruct Hfrom as [Hfrom|Hfrom].
      * destruct (HcompleteR id pn Hfrom) as [pn' Hpn'].
        apply (Hcomplete id pn'). right. exists r, ptr, hB. rewrite Ehr.
        split_and!; [done..|]. left. by rewrite HinhB.
      * apply (Hcomplete id pn). right. exists r, ptr, hB. rewrite Ehr.
        split_and!; [done..|]. right.
        apply filterInheritablePolicies_inheritable. by rewrite Hpol.
Qed.

(** On a graph whose pointers are resolved the inherited-policy passes run
    to the end, whatever the computed fields of the model hold, and write
    for every node what it inherits. *)
Lemma calculateInheritedPolicies_inherits (rm rm1 : ResourceModel) :
  pointersResolved rm →
  sameGraph rm rm1 →
  ∃ rm2,
    calculateInheritedPolicies rm1 = (Ret tt, rm2)
    ∧ (∀ g gatewayNode, rm_Gateways rm !! g = Some gatewayNode →
         ∃ gatewayNode2 result,
           rm_Gateways rm2 !! g = Some gatewayNode2
           ∧ gw_InheritedPolicies gatewayNode2 = Some result
           ∧ (∀ id policyNode,
                result !! id = Some policyNode
                ↔ gatewayInherits rm gatewayNode id policyNode)
           ∧ (gw_GatewayClass gatewayNode = None →
              ∃ namespaceNode,
                gw_Namespace gatewayNode ≫= (rm_Namespaces rm !!.) = Some namespaceNode
                ∧ ∀ id policyNode,
                    result !! id = Some policyNode
                    ↔ inheritable (ns_Policies namespaceNode) id policyNode))
    ∧ (∀ r httpRouteNode, rm_HTTPRoutes rm !! r = Some httpRouteNode →
         ∃ httpRouteNode2 result,
           rm_HTTPRoutes rm2 !! r = Some httpRouteNode2
           ∧ hr_InheritedPolicies httpRouteNode2 = Some result
           ∧ (∀ id policyNode,
                result !! id = Some policyNode →
                httpRouteInherits rm httpRouteNode id policyNode)
           ∧ (∀ id policyNode,
                httpRouteInherits rm httpRouteNode id policyNode →
                is_Some (result !! id)))
    ∧ (∀ b backendNode, rm_Backends rm !! b = Some backendNode →
         ∃ backendNode2 result,
           rm_Backends rm2 !! b = Some backendNode2
           ∧ bk_InheritedPolicies backendNode2 = Some result
           ∧ (∀ id policyNode,
                result !! id = Some policyNode →
                backendInherits rm backendNode id policyNode)
           ∧ (∀ id policyNode,
                backendInherits rm backendNode id policyNode →
                is_Some (result !! id))).
Proof.
  intros Hres Hsame.
  pose proof (pointersResolved_sameGraph _ _ Hsame Hres) as Hres1.
  destruct (calculateInheritedPolicies_returns rm1 Hres1) as (rm2 & Hinh & _).
  exists rm2. split; [done|].
  apply calculateInheritedPolicies_Ret in Hinh as (rmA & rmB & H1 & H2 & H3).
  destruct (inheritedHTTPRoutes_returned rmA rmB H2) as (HputB & _).
  destruct (inheritedBackends_returned rmB rm2 H3) as (Hput2 & _).
  assert (Hgw2 : rm_Gateways rm2 = rm_Gateways rmA) by (by rewrite Hput2, HputB).
  assert (Hhr2 : rm_HTTPRoutes rm2 = rm_HTTPRoutes rmB) by (by rewrite Hput2).
  split_and!.
  - intros g n Hn.
    pose proof (inheritedGateways_inherits rm rm1 rmA Hsame H1 g) as Hg.
    rewrite Hn in Hg. destruct Hg as (nA & result & HnA & Hresult & _ & Hiff).
    exists nA, result. rewrite Hgw2. split_and!; [done..|].
    intros Hclass. destruct Hres as (Hgateways & _).
    destruct (Hgateways g n Hn) as [[nsn Hns] _]. exists nsn. split; [done|].
    intros id pn. rewrite Hiff. unfold gatewayInherits. split.
    + intros [(c & cn & Hc & _)|(nsn' & Hns' & Hi & _)]; [congruence|].
      rewrite Hns in Hns'. by injection Hns' as <-.
    + intros Hi. right. exists nsn. split_and!; [done..|].
      intros c cn other Hc. congruence.
  - intros r n Hn.
    pose proof (inheritedHTTPRoutes_inherits rm rm1 rmA rmB Hsame H1 H2 r) as Hr.
    rewrite Hn in Hr. destruct Hr as (nB & result & HnB & Hresult & _ & Hsound & Hcomplete).
    exists nB, result. rewrite Hhr2. by split_and!.
  - intros b n Hn.
    by apply (inheritedBackends_inherits rm rm1 rmA rmB rm2 Hsame H1 H2 H3).
Qed.

(** ** The inherited policies when a policy identity names one node *)

Lemma gatewayInherits_global (rm : ResourceModel) (n : GatewayNode) (id : policyID)
    (pn : PolicyNode) :
  attachedAreGlobal rm → gatewayInherits rm n id pn → rm_Policies rm !! id = Some pn.
Proof.
  intros Hglobal [(c & cn & _ & Hcn & [Hid _])|(nsn & Hns & [Hid _] & _)].
  - apply (Hglobal (OfGatewayClass c) (gc_Policies cn)); [simpl; by rewrite Hcn|done].
  - destruct (gw_Namespace n) as [ns|]; [|done]. simpl in Hns.
    apply (Hglobal (OfNamespace ns) (ns_Policies nsn)); [simpl; by rewrite Hns|done].
Qed.

Lemma httpRouteInherits_global (rm : ResourceModel) (n : HTTPRouteNode) (id : policyID)
    (pn : PolicyNode) :
  attachedAreGlobal rm → httpRouteInherits rm n id pn → rm_Policies rm !! id = Some pn.
Proof.
  intros Hglobal [(nsn & Hns & [Hid _])|(G & ptr & gn & _ & Hgn & [Hinh|[Hid _]])].
  - destruct (hr_Namespace n) as [ns|]; [|done]. simpl in Hns.
    apply (Hglobal (OfNamespace ns) (ns_Policies nsn)); [simpl; by rewrite Hns|done].
  - by apply (gatewayInherits_global rm gn).
  - apply (Hglobal (OfGateway ptr) (gw_Policies gn)); [simpl; by rewrite Hgn|done].
Qed.

Lemma backendInherits_global (rm : ResourceModel) (n : BackendNode) (id : policyID)
    (pn : PolicyNode) :
  attachedAreGlobal rm → backendInherits rm n id pn → rm_Policies rm !! id = Some pn.
Proof.
  intros Hglobal [(nsn & Hns & [Hid _])|(r & ptr & hn & _ & Hhn & [Hinh|[Hid _]])].
  - destruct (bk_Namespace n) as [ns|]; [|done]. simpl in Hns.
    apply (Hglobal (OfNamespace ns) (ns_Policies nsn)); [simpl; by rewrite Hns|done].
  - by apply (httpRouteInherits_global rm hn).
  - apply (Hglobal (OfHTTPRoute ptr) (hr_Policies hn)); [simpl; by rewrite Hhn|done].
Qed.

(** The inherited-policy passes write the inherited policies only. *)
Lemma calculateInheritedPolicies_keeps (rm : ResourceModel) :
  sameButInherited rm (calculateInheritedPolicies rm).2.
Proof.
  revert rm. unfold calculateInheritedPolicies.
  apply andThen_related; [apply sameButInherited_trans| |].
  - intros rm. apply (inheritedGateways_keeps rm _ _ (surjective_pairing _)).
  - apply andThen_related; [apply sameButInherited_trans| |].
    + intros rm. apply (inheritedHTTPRoutes_keeps rm _ _ (surjective_pairing _)).
    + intros rm. apply (inheritedBackends_keeps rm _ _ (surjective_pairing _)).
Qed.

Lemma sameButInherited_sameGraph (rm rm' : ResourceModel) :
  sameButInherited rm rm' → sameGraph rm rm'.
Proof.
  intros (Hgc & Hns & _ & _ & Hgw & Hhr & Hbk). split_and!; [done..| | |].
  - apply (f_equal (fmap (gw_with_EffectivePolicies None))) in Hgw.
    by rewrite <- !map_fmap_compose in Hgw.
  - apply (f_equal (fmap (hr_with_EffectivePolicies None))) in Hhr.
    by rewrite <- !map_fmap_compose in Hhr.
  - apply (f_equal (fmap (bk_with_EffectivePolicies None))) in Hbk.
    by rewrite <- !map_fmap_compose in Hbk.
Qed.

(** When a policy identity names one node, the passes write exactly what
    each node inherits. *)
Lemma calculateInheritedPolicies_holdsInherited (rm rm1 : ResourceModel) :
  attachedAreGlobal rm → pointersResolved rm → sameGraph rm rm1 →
  ∃ rm2, calculateInheritedPolicies rm1 = (Ret tt, rm2) ∧ holdsInherited rm rm2.
Proof.
  intros Hglobal Hres Hsame.
  destruct (calculateInheritedPolicies_inherits rm rm1 Hres Hsame)
    as (rm2 & Hrun & Hgw & Hhr & Hbk).
  exists rm2. split; [done|]. split_and!.
  - intros g n Hn. destruct (Hgw g n Hn) as (n2 & result & Hn2 & Hresult & Hiff & _).
    by exists n2, result.
  - intros r n Hn.
    destruct (Hhr r n Hn) as (n2 & result & Hn2 & Hresult & Hsound & Hcomplete).
    exists n2, result. split_and!; [done..|]. intros id pn. split; [apply Hsound|].
    intros Hinh. destruct (Hcomplete id pn Hinh) as [pn' Hpn'].
    pose proof (httpRouteInherits_global rm n id pn' Hglobal (Hsound id pn' Hpn')) as H1.
    pose proof (httpRouteInherits_global rm n id pn Hglobal Hinh) as H2. congruence.
  - intros b n Hn.
    destruct (Hbk b n Hn) as (n2 & result & Hn2 & Hresult & Hsound & Hcomplete).
    exists n2, result. split_and!; [done..|]. intros id pn. split; [apply Hsound|].
    intros Hinh. destruct (Hcomplete id pn Hinh) as [pn' Hpn'].
    pose proof (backendInherits_global rm n id pn' Hglobal (Hsound id pn' Hpn')) as H1.
    pose proof (backendInherits_global rm n id pn Hglobal Hinh) as H2. congruence.
Qed.

(** Two mappings of nodes that are the mapping [m] but for one field, and
    agree on that field, are the same mapping. *)
Lemma erased_map_eq {K : Type} `{Countable K} {N F : Type} (erase : N → N)
    (field : N → F) (m m1 m2 : gmap K N) :
  (∀ a b, erase a = erase b → field a = field b → a = b) →
  erase <$> m1 = erase <$> m → erase <$> m2 = erase <$> m →
  (∀ k n, m !! k = Some n →
     ∃ n1 n2, m1 !! k = Some n1 ∧ m2 !! k = Some n2 ∧ field n1 = field n2) →
  m1 = m2.
Proof.
  intros Hinj E1 E2 Hfield. apply map_eq. intros k.
  apply (f_equal (.!! k)) in E1, E2. rewrite !lookup_fmap in E1, E2.
  destruct (m !! k) as [n|] eqn:Hn.
  - destruct (Hfield k n Hn) as (n1 & n2 & H1 & H2 & Hf).
    rewrite H1 in E1 |- *. rewrite H2 in E2 |- *. simpl in *. f_equal.
    apply Hinj; [congruence|done].
  - destruct (m1 !! k), (m2 !! k); simpl in *; congruence.
Qed.

Lemma same_lookups_eq {V : Type} (P : policyID → V → Prop) (m1 m2 : gmap policyID V) :
  (∀ id v, m1 !! id = Some v ↔ P id v) → (∀ id v, m2 !! id = Some v ↔ P id v) →
  m1 = m2.
Proof.
  intros H1 H2. apply map_eq. intros id.
  destruct (m1 !! id) as [v|] eqn:E1.
  - symmetry. apply H2, H1, E1.
  - destruct (m2 !! id) as [v|] eqn:E2; [|done].
    apply H2, H1 in E2. congruence.
Qed.

(** There is one model that is [rm] but for the inherited policies and
    holds what every node inherits. *)
Lemma holdsInherited_unique (rm out1 out2 : ResourceModel) :
  sameButInherited rm out1 → sameButInherited rm out2 →
  holdsInherited rm out1 → holdsInherited rm out2 →
  out1 = out2.
Proof.
  intros (A1 & A2 & A3 & A4 & A5 & A6 & A7) (B1 & B2 & B3 & B4 & B5 & B6 & B7)
    (Hgw1 & Hhr1 & Hbk1) (Hgw2 & Hhr2 & Hbk2).
  assert (Egw : rm_Gateways out1 = rm_Gateways out2).
  { apply (erased_map_eq (gw_with_InheritedPolicies None) gw_InheritedPolicies
             (rm_Gateways rm)); [|done..|].
    - intros [] []; simpl. intros [= -> -> -> -> -> ->] ->. done.
    - intros g n Hn. destruct (Hgw1 g n Hn) as (n1 & r1 & Hn1 & Hr1 & Hiff1).
      destruct (Hgw2 g n Hn) as (n2 & r2 & Hn2 & Hr2 & Hiff2).
      exists n1, n2. split_and!; [done..|]. rewrite Hr1, Hr2. f_equal.
      by apply (same_lookups_eq (gatewayInherits rm n)). }
  assert (Ehr : rm_HTTPRoutes out1 = rm_HTTPRoutes out2).
  { apply (erased_map_eq (hr_with_InheritedPolicies None) hr_InheritedPolicies
             (rm_HTTPRoutes rm)); [|done..|].
    - intros [] []; simpl. intros [= -> -> -> -> -> ->] ->. done.
    - intros r n Hn. destruct (Hhr1 r n Hn) as (n1 & r1 & Hn1 & Hr1 & Hiff1).
      destruct (Hhr2 r n Hn) as (n2 & r2 & Hn2 & Hr2 & Hiff2).
      exists n1, n2. split_and!; [done..|]. rewrite Hr1, Hr2. f_equal.
      by apply (same_lookups_eq (httpRouteInherits rm n)). }
  assert (Ebk : rm_Backends out1 = rm_Backends out2).
  { apply (erased_map_eq (bk_with_InheritedPolicies None) bk_InheritedPolicies
             (rm_Backends rm)); [|done..|].
    - intros [] []; simpl. intros [= -> -> -> -> -> ->] ->. done.
    - intros b n Hn. destruct (Hbk1 b n Hn) as (n1 & r1 & Hn1 & Hr1 & Hiff1).
      destruct (Hbk2 b n Hn) as (n2 & r2 & Hn2 & Hr2 & Hiff2).
      exists n1, n2. split_and!; [done..|]. rewrite Hr1, Hr2. f_equal.
      by apply (same_lookups_eq (backendInherits rm n)). }
  destruct out1, out2. simpl in *. congruence.
Qed.

(** ** Running a pass again *)

(** A pass over nodes that are already what it computes for them changes
    nothing. *)
Lemma nodePass_fixpoint {K : Type} `{Countable K} {N : Type}
    (arena : ResourceModel → gmap K N) (put : gmap K N → ResourceModel → ResourceModel)
    (compute : ResourceModel → N → outcome N) (rm : ResourceModel) :
  (∀ m rm, arena (put m rm) = m) →
  (∀ m m' rm, put m (put m' rm) = put m rm) →
  (∀ rm, put (arena rm) rm = rm) →
  (∀ m rm n, compute (put m rm) n = compute rm n) →
  (∀ k n, arena rm !! k = Some n → compute rm n = Ret n) →
  forEach (nodeStep arena put compute) (range_order (arena rm)).*1 rm = (Ret tt, rm).
Proof.
  intros H1 H2 H3 H4 Hfix.
  destruct (forEach (nodeStep arena put compute) (range_order (arena rm)).*1 rm)
    as [o rm2] eqn:Hrun.
  destruct (nodePass_returns_iff arena put compute H1 H2 H3 H4 rm rm2 o Hrun)
    as [_ Hall].
  assert (o = Ret tt) as -> by (apply Hall; intros k n Hn; exists n; by apply (Hfix k)).
  destruct (nodePass_returned arena put compute rm rm2 H1 H2 H3 H4 Hrun)
    as (Hput & Hdom & Hfwd & _).
  f_equal. rewrite Hput. rewrite <- (H3 rm) at 2. f_equal. apply map_eq. intros k.
  destruct (arena rm !! k) as [n|] eqn:Hn.
  - destruct (Hfwd k n Hn) as (n' & Hc & ->). rewrite (Hfix k n Hn) in Hc. congruence.
  - apply not_elem_of_dom. rewrite Hdom. by apply not_elem_of_dom.
Qed.

(** Under one runtime, the gateway pass run on the model it returned
    returns it again. *)
Lemma gatewaysPass_again (rm rm' : ResourceModel) :
  calculateEffectivePoliciesForGateways rm = (Ret tt, rm') →
  calculateEffectivePoliciesForGateways rm' = (Ret tt, rm').
Proof.
  intros Hrun. destruct (effectiveGateways_returned rm rm' Hrun) as (Hput & Hbwd).
  rewrite nodeStep_gateways. apply nodePass_fixpoint; try done;
    [apply rm_with_Gateways_id|].
  intros g n' Hn'. destruct (Hbwd g n' Hn') as (n & Hn & Hcase).
  unfold gatewayEffective. destruct (gw_GatewayClass n) as [c|] eqn:Hc.
  - destruct Hcase as (result & Hmerge & ->). simpl. rewrite Hc.
    assert (effectivePoliciesOfGateway rm' (gw_with_EffectivePolicies result n) c
            = effectivePoliciesOfGateway rm n c) as ->
      by (unfold effectivePoliciesOfGateway; simpl; by rewrite Hput).
    apply effectivePoliciesOfGateway_Ret in Hmerge. rewrite Hmerge. simpl.
    by destruct n.
  - subst n'. by rewrite Hc.
Qed.

(** The same for the route pass. *)
Lemma httpRoutesPass_again (rm rm' : ResourceModel) :
  calculateEffectivePoliciesForHTTPRoutes rm = (Ret tt, rm') →
  calculateEffectivePoliciesForHTTPRoutes rm' = (Ret tt, rm').
Proof.
  intros Hrun. destruct (effectiveHTTPRoutes_returned rm rm' Hrun) as (Hput & Hbwd).
  rewrite nodeStep_httpRoutes. apply nodePass_fixpoint; try done;
    [apply rm_with_HTTPRoutes_id|].
  intros r n' Hn'. destruct (Hbwd r n' Hn') as (n & result & Hn & Hmerge & ->).
  unfold httpRouteEffective.
  assert (effectivePoliciesOfHTTPRoute rm' (hr_with_EffectivePolicies (Some result) n)
          = effectivePoliciesOfHTTPRoute rm n) as ->
    by (unfold effectivePoliciesOfHTTPRoute; simpl; by rewrite Hput).
  apply effectivePoliciesOfHTTPRoute_Ret in Hmerge. rewrite Hmerge. simpl.
  by destruct n.
Qed.

End Resolver.

(** * Graph builder: insertion is idempotent *)

Section InsertIfAbsent.

Context {K : Type} `{Countable K} {N : Type}.
Variable nodes : ResourceModel → gmap K N.
Variable id : Object → K.
Variable step : ResourceModel → Object → ResourceModel.

Hypothesis step_present : ∀ rm x, is_Some (nodes rm !! id x) → step rm x = rm.
Hypothesis step_inserts : ∀ rm x, is_Some (nodes (step rm x) !! id x).
Hypothesis step_keeps : ∀ rm x k, is_Some (nodes rm !! k) → is_Some (nodes (step rm x) !! k).

Lemma foldl_step_keeps (l : list Object) (rm : ResourceModel) (k : K) :
  is_Some (nodes rm !! k) → is_Some (nodes (foldl step rm l) !! k).
Proof.
  revert rm. induction l as [|y l IH]; intros rm Hk; simpl; [done|].
  apply IH, step_keeps, Hk.
Qed.

Lemma foldl_step_member (l : list Object) (rm : ResourceModel) (x : Object) :
  x ∈ l → is_Some (nodes (foldl step rm l) !! id x).
Proof.
  revert rm. induction l as [|y l IH]; intros rm Hx; [by apply elem_of_nil in Hx|].
  apply elem_of_cons in Hx as [->|Hx]; simpl.
  - apply foldl_step_keeps, step_inserts.
  - by apply IH.
Qed.

Lemma foldl_insertsOnce : insertsOnce (λ l rm, foldl step rm l) nodes id.
Proof.
  intros rm x pre mid post. repeat split.
  - intros Hx. simpl. by apply step_present.
  - rewrite !foldl_app. simpl. rewrite !foldl_app. simpl. f_equal.
    apply step_present, foldl_step_keeps, step_inserts.
  - simpl. apply step_present, foldl_step_member.
    apply elem_of_app. right. by left.
  - simpl. apply step_inserts.
  - intros y Hy. simpl. f_equal. apply step_present. rewrite Hy. apply step_inserts.
Qed.

End InsertIfAbsent.

Ltac case_lookup E :=
  match goal with
  | |- context [match ?m !! ?k with _ => _ end] => destruct (m !! k) eqn:E
  end.

Ltac insert_if_absent :=
  let E := fresh "E" in
  apply foldl_insertsOnce;
  [ intros rm x [n Hn]; cbn in *; by rewrite Hn
  | intros rm x; cbn; case_lookup E; cbn;
    [by rewrite E | by rewrite lookup_insert_eq]
  | intros rm x k [n Hn]; cbn; case_lookup E; cbn; [by rewrite Hn |];
    match goal with
    | |- is_Some (<[?i:=_]> _ !! _) => destruct (decide (i = k)) as [->|Hne]
    end; [by rewrite lookup_insert_eq | rewrite lookup_insert_ne by done; by rewrite Hn] ].

Lemma addGatewayClasses_insertsOnce :
  insertsOnce addGatewayClasses rm_GatewayClasses (λ x, GatewayClassID (objName x)).
Proof.
  unfold addGatewayClasses, gc_ID, GatewayClassID. insert_if_absent.
Qed.

Lemma addNamespace_insertsOnce :
  insertsOnce addNamespace rm_Namespaces (λ x, NamespaceID (objName x)).
Proof. unfold addNamespace, ns_ID, NamespaceID. insert_if_absent. Qed.

Lemma addGateways_insertsOnce :
  insertsOnce addGateways rm_Gateways (λ x, GatewayID (objNamespace x) (objName x)).
Proof. unfold addGateways, gw_ID, GatewayID. insert_if_absent. Qed.

Lemma addHTTPRoutes_insertsOnce :
  insertsOnce addHTTPRoutes rm_HTTPRoutes (λ x, HTTPRouteID (objNamespace x) (objName x)).
Proof. unfold addHTTPRoutes, hr_ID, HTTPRouteID. insert_if_absent. Qed.

Lemma addBackends_insertsOnce :
  insertsOnce addBackends rm_Backends
    (λ x, BackendID (objGroup x) (objKind x) (objNamespace x) (objName x)).
Proof. unfold addBackends, bk_ID, BackendID. insert_if_absent. Qed.

Lemma addReferenceGrants_insertsOnce :
  insertsOnce addReferenceGrants rm_ReferenceGrants
    (λ x, ReferenceGrantID (objNamespace x) (objName x)).
Proof.
  unfold addReferenceGrants, rg_ID, ReferenceGrantID. insert_if_absent.
Qed.

(** C8.  For each of the six resource kinds, inserting a resource that is
    already in the model (its identity has a node) leaves the model
    unchanged; a second occurrence of a resource in a batch, or in a later
    batch, changes nothing; after an insertion the identity has a node; and
    a different resource with the same identity does not replace it. *)
Theorem insertion_is_idempotent :
  insertsOnce addGatewayClasses rm_GatewayClasses (λ x, GatewayClassID (objName x))
  ∧ insertsOnce addNamespace rm_Namespaces (λ x, NamespaceID (objName x))
  ∧ insertsOnce addGateways rm_Gateways (λ x, GatewayID (objNamespace x) (objName x))
  ∧ insertsOnce addHTTPRoutes rm_HTTPRoutes (λ x, HTTPRouteID (objNamespace x) (objName x))
  ∧ insertsOnce addBackends rm_Backends
      (λ x, BackendID (objGroup x) (objKind x) (objNamespace x) (objName x))
  ∧ insertsOnce addReferenceGrants rm_ReferenceGrants
      (λ x, ReferenceGrantID (objNamespace x) (objName x)).
Proof.
  repeat apply conj.
  - apply addGatewayClasses_insertsOnce.
  - apply addNamespace_insertsOnce.
  - apply addGateways_insertsOnce.
  - apply addHTTPRoutes_insertsOnce.
  - apply addBackends_insertsOnce.
  - apply addReferenceGrants_insertsOnce.
Qed.

(** * The sample runtime and the sample graphs *)

Lemma mapOrder_visits : visitsEveryEntry mapOrder.
Proof. by intros K EqK CntK V m. Qed.

Lemma reverseMapOrder_visits : visitsEveryEntry reverseMapOrder.
Proof. intros K EqK CntK V m. unfold reverseMapOrder. apply reverse_Permutation. Qed.

(** Unfolds a statement about the entries of a concrete mapping into one
    case per entry. *)
Ltac each_entry H :=
  apply elem_of_map_to_list in H; vm_compute in H;
  repeat (apply elem_of_cons in H as [H|H]);
  [injection H as -> ->..|by apply elem_of_nil in H].

Lemma isSome_true {A : Type} (o : option A) : isSome o = true → is_Some o.
Proof. destruct o; [eauto|done]. Qed.

Lemma forallb_map_to_list {K : Type} `{Countable K} {V : Type} (f : K * V → bool)
    (m : gmap K V) (k : K) (v : V) :
  forallb f (map_to_list m) = true → m !! k = Some v → f (k, v) = true.
Proof.
  intros Hall Hkv. apply elem_of_map_to_list in Hkv.
  rewrite forallb_forall in Hall. apply Hall. by apply list_elem_of_In.
Qed.

Lemma pointersResolvedCheck_correct (rm : ResourceModel) :
  pointersResolvedCheck rm = true → pointersResolved rm.
Proof.
  unfold pointersResolvedCheck. rewrite !andb_true_iff. intros [[Hgw Hhr] Hbk].
  split; [|split].
  - intros g n Hn. pose proof (forallb_map_to_list _ _ g n Hgw Hn) as Hg.
    simpl in Hg. apply andb_true_iff in Hg as [Hns Hclass].
    split; [by apply isSome_true|]. intros c Hc. rewrite Hc in Hclass.
    by apply isSome_true.
  - intros r n Hn. pose proof (forallb_map_to_list _ _ r n Hhr Hn) as Hr.
    simpl in Hr. apply andb_true_iff in Hr as [Hns Hptrs].
    split; [by apply isSome_true|]. intros G ptr Hptr.
    apply isSome_true. apply (forallb_map_to_list _ _ G ptr Hptrs Hptr).
  - intros b n Hn. pose proof (forallb_map_to_list _ _ b n Hbk Hn) as Hb.
    simpl in Hb. apply andb_true_iff in Hb as [Hns Hptrs].
    split; [by apply isSome_true|]. intros r ptr Hptr.
    apply isSome_true. apply (forallb_map_to_list _ _ r ptr Hptrs Hptr).
Qed.

Lemma pointersResolved_sampleModel : pointersResolved sampleModel.
Proof. apply pointersResolvedCheck_correct. by vm_compute. Qed.

Lemma pointersResolved_conflictModel : pointersResolved conflictModel.
Proof. apply pointersResolvedCheck_correct. by vm_compute. Qed.


(** * The passes on the sample graphs *)


(** On the sample model, whose pointers are resolved, no pass panics; a
    gateway whose namespace pointer is nil makes the computation panic, and
    so does the pass over a graph in which the gateway was connected to its
    class but its namespace was missing. *)
Lemma namespace_is_dereferenced_unchecked_witness :
  let run := calculateEffectivePoliciesForGateways mapOrder insertionSort
               sampleMergeSimilar sampleMergeMaps sampleModel in
  (run.1 ≠ Panic
   ∧ effectivePoliciesOfGateway mapOrder insertionSort sampleMergeSimilar sampleMergeMaps
       sampleModel (NewGatewayNode (sampleObject "Gateway" "ns" "g3")) "c" = Panic)
  ∧ (calculateEffectivePoliciesForGateways mapOrder insertionSort sampleMergeSimilar
       sampleMergeMaps noNamespaceModel).1 = Panic.
Proof.
  intros run. split; [|vm_compute; reflexivity].
  destruct (namespace_is_dereferenced_unchecked mapOrder insertionSort
              sampleMergeSimilar sampleMergeMaps sampleMergeMaps mapOrder_visits
              sampleModel run.2 run.1) as ((Hnil & _) & _ & _ & _ & Hno).
  split.
  - apply (proj1 (Hno pointersResolved_sampleModel)). apply surjective_pairing.
  - apply Hnil; [apply isSome_true; vm_compute; reflexivity|done].
Defined.

(** * The candidates of a same-kind merge *)

(** C5, as the code has it.  Whatever the order in which the runtime visits
    the mapping and whatever sort [sort.Slice] runs, the slice handed to the
    same-kind merge holds the policies of the mapping, sorted by the
    byte-wise order of the string [PolicyCrdID/namespace/name]; and when
    these strings tell the policies of the mapping apart, two runs hand the
    merge the same slice. *)
Theorem candidates_are_sorted_by_sort_key
    (range1 range2 : ∀ (K : Type) (EqK : EqDecision K) (CntK : Countable K) (V : Type),
                       gmap K V → list (K * V))
    (sort1 sort2 : (Policy → Policy → bool) → list Policy → list Policy)
    (policies : gmap policyID PolicyNode) :
  visitsEveryEntry range1 → visitsEveryEntry range2 →
  sortsPolicies sort1 → sortsPolicies sort2 →
  convertPoliciesMapToSlice range1 sort1 policies ≡ₚ policiesOf policies
  ∧ Sorted (λ a b, String.ltb (sortKey b) (sortKey a) = false)
           (convertPoliciesMapToSlice range1 sort1 policies)
  ∧ (distinctSortKeys policies →
     convertPoliciesMapToSlice range1 sort1 policies
     = convertPoliciesMapToSlice range2 sort2 policies).
Proof.
  intros Hr1 Hr2 Hs1 Hs2. split; [|split].
  - by apply convertPoliciesMapToSlice_perm.
  - by apply convertPoliciesMapToSlice_sorted.
  - intros Hdistinct.
    rewrite (convertPoliciesMapToSlice_canonical range1 sort1 Hr1 Hs1 policies Hdistinct).
    by rewrite (convertPoliciesMapToSlice_canonical range2 sort2 Hr2 Hs2 policies Hdistinct).
Qed.

Lemma NoDup_fmap_eq {A B : Type} (f : A → B) (l : list A) (x y : A) :
  NoDup (f <$> l) → x ∈ l → y ∈ l → f x = f y → x = y.
Proof.
  induction l as [|a l IH]; intros Hnd Hx Hy Hf; [by apply elem_of_nil in Hx|].
  simpl in Hnd. apply NoDup_cons in Hnd as [Ha Hnd].
  apply elem_of_cons in Hx as [->|Hx]; apply elem_of_cons in Hy as [->|Hy]; auto.
  - exfalso. apply Ha. rewrite Hf. apply list_elem_of_fmap. eauto.
  - exfalso. apply Ha. rewrite <- Hf. apply list_elem_of_fmap. eauto.
Qed.

(** Sort keys without repetition tell the policies apart. *)
Lemma distinctSortKeys_NoDup (policies : gmap policyID PolicyNode) :
  NoDup (sortKey <$> policiesOf policies) → distinctSortKeys policies.
Proof.
  intros Hnd k1 k2 n1 n2 H1 H2 Hkey.
  apply (NoDup_fmap_eq sortKey (policiesOf policies)); [done| | |done].
  - unfold policiesOf. apply list_elem_of_fmap. exists (k1, n1).
    split; [done|]. by apply elem_of_map_to_list.
  - unfold policiesOf. apply list_elem_of_fmap. exists (k2, n2).
    split; [done|]. by apply elem_of_map_to_list.
Qed.

Lemma distinctSortKeys_twoNamespaces :
  distinctSortKeys (policiesOfSampleClass twoNamespacesModel).
Proof.
  apply distinctSortKeys_NoDup. apply (bool_decide_unpack _). by vm_compute.
Qed.

(** The two policies in the namespaces [a] and [a-b]: both orders of the
    visit give the same slice. *)
Lemma candidates_are_sorted_by_sort_key_witness :
  convertPoliciesMapToSlice mapOrder insertionSort
    (policiesOfSampleClass twoNamespacesModel)
  = convertPoliciesMapToSlice reverseMapOrder insertionSort
      (policiesOfSampleClass twoNamespacesModel).
Proof.
  apply (candidates_are_sorted_by_sort_key mapOrder reverseMapOrder insertionSort
           insertionSort (policiesOfSampleClass twoNamespacesModel)
           mapOrder_visits reverseMapOrder_visits insertionSort_sorts insertionSort_sorts).
  apply distinctSortKeys_twoNamespaces.
Defined.

(** C5 fails.  First, the slice is not in the order of kind, then
    namespace, then name: of two policies of one kind in the namespaces [a]
    and [a-b], the one in [a-b] comes first, because [-] sorts before the
    [/] that ends the namespace in the sort key.  Second, the result of a
    pass does depend on the order in which the runtime visits the nodes: in
    the conflict model the gateway [g1] has its effective policies after the
    gateway pass when it is visited before [g2], and has none when it is
    visited after. *)
Lemma candidates_order_and_pass_results_differ :
  (convertPoliciesMapToSlice mapOrder insertionSort
     (policiesOfSampleClass twoNamespacesModel) = [policyInAB; policyInA]
   ∧ kindNamespaceNameCompare policyInA policyInAB = Lt)
  ∧ (isSome (effectiveOfGateway
               (calculateEffectivePoliciesForGateways mapOrder insertionSort
                  sampleMergeSimilar sampleMergeMaps conflictModel).2 ("ns", "g1")) = true
     ∧ effectiveOfGateway
         (calculateEffectivePoliciesForGateways reverseMapOrder insertionSort
            sampleMergeSimilar sampleMergeMaps conflictModel).2 ("ns", "g1") = None).
Proof.
  repeat split; vm_compute; reflexivity.
Qed.


(** * Connections *)

#[local] Set Warnings "-clear-no-such-hyp".

Ltac unfold_refs :=
  unfold classOfGateway, namespaceOfGateway, namespaceOfHTTPRoute, namespaceOfBackend,
    classHoldsGateway, namespaceHoldsGateway, namespaceHoldsHTTPRoute,
    namespaceHoldsBackend, httpRouteHoldsGateway, gatewayHoldsHTTPRoute,
    httpRouteHoldsBackend, backendHoldsHTTPRoute, referenceGrantHoldsBackend,
    backendHoldsReferenceGrant in *.

Ltac solve_ref :=
  intros; unfold_refs; simpl;
  repeat (rewrite lookup_insert; case_decide; simplify_eq; simpl);
  repeat match goal with H : _ !! _ = Some _ |- _ => rewrite H end; simpl;
  repeat (rewrite lookup_insert; case_decide; simplify_eq; simpl);
  repeat (case_decide; simplify_eq; simpl);
  try done; try naive_solver.

(** What a connect call that finds both endpoints changes: the pointer
    (or mapping entry) at the child and the reverse index at the parent,
    and no other cross-reference. *)
Lemma connectGatewayWithGatewayClass_effect (g0 : gatewayID) (c0 : gatewayClassID)
    (rm rm' : ResourceModel) (log : list Diagnostic) :
  endpointsExist (GatewayWithGatewayClass g0 c0) rm →
  connectGatewayWithGatewayClass g0 c0 rm = (rm', log) →
  log = []
  ∧ (∀ g, classOfGateway rm' g = if decide (g = g0) then Some c0 else classOfGateway rm g)
  ∧ (∀ g, namespaceOfGateway rm' g = namespaceOfGateway rm g)
  ∧ (∀ r, namespaceOfHTTPRoute rm' r = namespaceOfHTTPRoute rm r)
  ∧ (∀ b, namespaceOfBackend rm' b = namespaceOfBackend rm b)
  ∧ (∀ c g, classHoldsGateway rm' c g ↔ (c = c0 ∧ g = g0) ∨ classHoldsGateway rm c g)
  ∧ (∀ n g, namespaceHoldsGateway rm' n g ↔ namespaceHoldsGateway rm n g)
  ∧ (∀ n r, namespaceHoldsHTTPRoute rm' n r ↔ namespaceHoldsHTTPRoute rm n r)
  ∧ (∀ n b, namespaceHoldsBackend rm' n b ↔ namespaceHoldsBackend rm n b)
  ∧ (∀ r g, httpRouteHoldsGateway rm' r g ↔ httpRouteHoldsGateway rm r g)
  ∧ (∀ g r, gatewayHoldsHTTPRoute rm' g r ↔ gatewayHoldsHTTPRoute rm g r)
  ∧ (∀ r b, httpRouteHoldsBackend rm' r b ↔ httpRouteHoldsBackend rm r b)
  ∧ (∀ b r, backendHoldsHTTPRoute rm' b r ↔ backendHoldsHTTPRoute rm b r)
  ∧ (∀ rg b, referenceGrantHoldsBackend rm' rg b ↔ referenceGrantHoldsBackend rm rg b)
  ∧ (∀ b rg, backendHoldsReferenceGrant rm' b rg ↔ backendHoldsReferenceGrant rm b rg).
Proof.
  intros [[child Hchild] [parent Hparent]]. unfold connectGatewayWithGatewayClass.
  rewrite Hchild, Hparent. intros [= <- <-]. split_and!; [done|solve_ref..].
Qed.

Lemma connectHTTPRouteWithGateway_effect (r0 : httpRouteID) (g0 : gatewayID)
    (rm rm' : ResourceModel) (log : list Diagnostic) :
  endpointsExist (HTTPRouteWithGateway r0 g0) rm →
  connectHTTPRouteWithGateway r0 g0 rm = (rm', log) →
  log = []
  ∧ (∀ g, classOfGateway rm' g = classOfGateway rm g)
  ∧ (∀ g, namespaceOfGateway rm' g = namespaceOfGateway rm g)
  ∧ (∀ r, namespaceOfHTTPRoute rm' r = namespaceOfHTTPRoute rm r)
  ∧ (∀ b, namespaceOfBackend rm' b = namespaceOfBackend rm b)
  ∧ (∀ c g, classHoldsGateway rm' c g ↔ classHoldsGateway rm c g)
  ∧ (∀ n g, namespaceHoldsGateway rm' n g ↔ namespaceHoldsGateway rm n g)
  ∧ (∀ n r, namespaceHoldsHTTPRoute rm' n r ↔ namespaceHoldsHTTPRoute rm n r)
  ∧ (∀ n b, namespaceHoldsBackend rm' n b ↔ namespaceHoldsBackend rm n b)
  ∧ (∀ r g, httpRouteHoldsGateway rm' r g ↔ (r = r0 ∧ g = g0) ∨ httpRouteHoldsGateway rm r g)
  ∧ (∀ g r, gatewayHoldsHTTPRoute rm' g r ↔ (g = g0 ∧ r = r0) ∨ gatewayHoldsHTTPRoute rm g r)
  ∧ (∀ r b, httpRouteHoldsBackend rm' r b ↔ httpRouteHoldsBackend rm r b)
  ∧ (∀ b r, backendHoldsHTTPRoute rm' b r ↔ backendHoldsHTTPRoute rm b r)
  ∧ (∀ rg b, referenceGrantHoldsBackend rm' rg b ↔ referenceGrantHoldsBackend rm rg b)
  ∧ (∀ b rg, backendHoldsReferenceGrant rm' b rg ↔ backendHoldsReferenceGrant rm b rg).
Proof.
  intros [[child Hchild] [parent Hparent]]. unfold connectHTTPRouteWithGateway.
  rewrite Hchild, Hparent. intros [= <- <-]. split_and!; [done|solve_ref..].
Qed.

Lemma connectHTTPRouteWithBackend_effect (r0 : httpRouteID) (b0 : backendID)
    (rm rm' : ResourceModel) (log : list Diagnostic) :
  endpointsExist (HTTPRouteWithBackend r0 b0) rm →
  connectHTTPRouteWithBackend r0 b0 rm = (rm', log) →
  log = []
  ∧ (∀ g, classOfGateway rm' g = classOfGateway rm g)
  ∧ (∀ g, namespaceOfGateway rm' g = namespaceOfGateway rm g)
  ∧ (∀ r, namespaceOfHTTPRoute rm' r = namespaceOfHTTPRoute rm r)
  ∧ (∀ b, namespaceOfBackend rm' b = namespaceOfBackend rm b)
  ∧ (∀ c g, classHoldsGateway rm' c g ↔ classHoldsGateway rm c g)
  ∧ (∀ n g, namespaceHoldsGateway rm' n g ↔ namespaceHoldsGateway rm n g)
  ∧ (∀ n r, namespaceHoldsHTTPRoute rm' n r ↔ namespaceHoldsHTTPRoute rm n r)
  ∧ (∀ n b, namespaceHoldsBackend rm' n b ↔ namespaceHoldsBackend rm n b)
  ∧ (∀ r g, httpRouteHoldsGateway rm' r g ↔ httpRouteHoldsGateway rm r g)
  ∧ (∀ g r, gatewayHoldsHTTPRoute rm' g r ↔ gatewayHoldsHTTPRoute rm g r)
  ∧ (∀ r b, httpRouteHoldsBackend rm' r b ↔ (r = r0 ∧ b = b0) ∨ httpRouteHoldsBackend rm r b)
  ∧ (∀ b r, backendHoldsHTTPRoute rm' b r ↔ (b = b0 ∧ r = r0) ∨ backendHoldsHTTPRoute rm b r)
  ∧ (∀ rg b, referenceGrantHoldsBackend rm' rg b ↔ referenceGrantHoldsBackend rm rg b)
  ∧ (∀ b rg, backendHoldsReferenceGrant rm' b rg ↔ backendHoldsReferenceGrant rm b rg).
Proof.
  intros [[child Hchild] [parent Hparent]]. unfold connectHTTPRouteWithBackend.
  rewrite Hchild, Hparent. intros [= <- <-]. split_and!; [done|solve_ref..].
Qed.

Lemma connectGatewayWithNamespace_effect (g0 : gatewayID) (n0 : namespaceID)
    (rm rm' : ResourceModel) (log : list Diagnostic) :
  endpointsExist (GatewayWithNamespace g0 n0) rm →
  connectGatewayWithNamespace g0 n0 rm = (rm', log) →
  log = []
  ∧ (∀ g, classOfGateway rm' g = classOfGateway rm g)
  ∧ (∀ g, namespaceOfGateway rm' g = if decide (g = g0) then Some n0 else namespaceOfGateway rm g)
  ∧ (∀ r, namespaceOfHTTPRoute rm' r = namespaceOfHTTPRoute rm r)
  ∧ (∀ b, namespaceOfBackend rm' b = namespaceOfBackend rm b)
  ∧ (∀ c g, classHoldsGateway rm' c g ↔ classHoldsGateway rm c g)
  ∧ (∀ n g, namespaceHoldsGateway rm' n g ↔ (n = n0 ∧ g = g0) ∨ namespaceHoldsGateway rm n g)
  ∧ (∀ n r, namespaceHoldsHTTPRoute rm' n r ↔ namespaceHoldsHTTPRoute rm n r)
  ∧ (∀ n b, namespaceHoldsBackend rm' n b ↔ namespaceHoldsBackend rm n b)
  ∧ (∀ r g, httpRouteHoldsGateway rm' r g ↔ httpRouteHoldsGateway rm r g)
  ∧ (∀ g r, gatewayHoldsHTTPRoute rm' g r ↔ gatewayHoldsHTTPRoute rm g r)
  ∧ (∀ r b, httpRouteHoldsBackend rm' r b ↔ httpRouteHoldsBackend rm r b)
  ∧ (∀ b r, backendHoldsHTTPRoute rm' b r ↔ backendHoldsHTTPRoute rm b r)
  ∧ (∀ rg b, referenceGrantHoldsBackend rm' rg b ↔ referenceGrantHoldsBackend rm rg b)
  ∧ (∀ b rg, backendHoldsReferenceGrant rm' b rg ↔ backendHoldsReferenceGrant rm b rg).
Proof.
  intros [[child Hchild] [parent Hparent]]. unfold connectGatewayWithNamespace.
  rewrite Hchild, Hparent. intros [= <- <-]. split_and!; [done|solve_ref..].
Qed.

Lemma connectHTTPRouteWithNamespace_effect (r0 : httpRouteID) (n0 : namespaceID)
    (rm rm' : ResourceModel) (log : list Diagnostic) :
  endpointsExist (HTTPRouteWithNamespace r0 n0) rm →
  connectHTTPRouteWithNamespace r0 n0 rm = (rm', log) →
  log = []
  ∧ (∀ g, classOfGateway rm' g = classOfGateway rm g)
  ∧ (∀ g, namespaceOfGateway rm' g = namespaceOfGateway rm g)
  ∧ (∀ r, namespaceOfHTTPRoute rm' r = if decide (r = r0) then Some n0 else namespaceOfHTTPRoute rm r)
  ∧ (∀ b, namespaceOfBackend rm' b = namespaceOfBackend rm b)
  ∧ (∀ c g, classHoldsGateway rm' c g ↔ classHoldsGateway rm c g)
  ∧ (∀ n g, namespaceHoldsGateway rm' n g ↔ namespaceHoldsGateway rm n g)
  ∧ (∀ n r, namespaceHoldsHTTPRoute rm' n r ↔ (n = n0 ∧ r = r0) ∨ namespaceHoldsHTTPRoute rm n r)
  ∧ (∀ n b, namespaceHoldsBackend rm' n b ↔ namespaceHoldsBackend rm n b)
  ∧ (∀ r g, httpRouteHoldsGateway rm' r g ↔ httpRouteHoldsGateway rm r g)
  ∧ (∀ g r, gatewayHoldsHTTPRoute rm' g r ↔ gatewayHoldsHTTPRoute rm g r)
  ∧ (∀ r b, httpRouteHoldsBackend rm' r b ↔ httpRouteHoldsBackend rm r b)
  ∧ (∀ b r, backendHoldsHTTPRoute rm' b r ↔ backendHoldsHTTPRoute rm b r)
  ∧ (∀ rg b, referenceGrantHoldsBackend rm' rg b ↔ referenceGrantHoldsBackend rm rg b)
  ∧ (∀ b rg, backendHoldsReferenceGrant rm' b rg ↔ backendHoldsReferenceGrant rm b rg).
Proof.
  intros [[child Hchild] [parent Hparent]]. unfold connectHTTPRouteWithNamespace.
  rewrite Hchild, Hparent. intros [= <- <-]. split_and!; [done|solve_ref..].
Qed.

Lemma connectBackendWithNamespace_effect (b0 : backendID) (n0 : namespaceID)
    (rm rm' : ResourceModel) (log : list Diagnostic) :
  endpointsExist (BackendWithNamespace b0 n0) rm →
  connectBackendWithNamespace b0 n0 rm = (rm', log) →
  log = []
  ∧ (∀ g, classOfGateway rm' g = classOfGateway rm g)
  ∧ (∀ g, namespaceOfGateway rm' g = namespaceOfGateway rm g)
  ∧ (∀ r, namespaceOfHTTPRoute rm' r = namespaceOfHTTPRoute rm r)
  ∧ (∀ b, namespaceOfBackend rm' b = if decide (b = b0) then Some n0 else namespaceOfBackend rm b)
  ∧ (∀ c g, classHoldsGateway rm' c g ↔ classHoldsGateway rm c g)
  ∧ (∀ n g, namespaceHoldsGateway rm' n g ↔ namespaceHoldsGateway rm n g)
  ∧ (∀ n r, namespaceHoldsHTTPRoute rm' n r ↔ namespaceHoldsHTTPRoute rm n r)
  ∧ (∀ n b, namespaceHoldsBackend rm' n b ↔ (n = n0 ∧ b = b0) ∨ namespaceHoldsBackend rm n b)
  ∧ (∀ r g, httpRouteHoldsGateway rm' r g ↔ httpRouteHoldsGateway rm r g)
  ∧ (∀ g r, gatewayHoldsHTTPRoute rm' g r ↔ gatewayHoldsHTTPRoute rm g r)
  ∧ (∀ r b, httpRouteHoldsBackend rm' r b ↔ httpRouteHoldsBackend rm r b)
  ∧ (∀ b r, backendHoldsHTTPRoute rm' b r ↔ backendHoldsHTTPRoute rm b r)
  ∧ (∀ rg b, referenceGrantHoldsBackend rm' rg b ↔ referenceGrantHoldsBackend rm rg b)
  ∧ (∀ b rg, backendHoldsReferenceGrant rm' b rg ↔ backendHoldsReferenceGrant rm b rg).
Proof.
  intros [[child Hchild] [parent Hparent]]. unfold connectBackendWithNamespace.
  rewrite Hchild, Hparent. intros [= <- <-]. split_and!; [done|solve_ref..].
Qed.

Lemma connectReferenceGrantWithBackend_effect (rg0 : referenceGrantID) (b0 : backendID)
    (rm rm' : ResourceModel) (log : list Diagnostic) :
  endpointsExist (ReferenceGrantWithBackend rg0 b0) rm →
  connectReferenceGrantWithBackend rg0 b0 rm = (rm', log) →
  log = []
  ∧ (∀ g, classOfGateway rm' g = classOfGateway rm g)
  ∧ (∀ g, namespaceOfGateway rm' g = namespaceOfGateway rm g)
  ∧ (∀ r, namespaceOfHTTPRoute rm' r = namespaceOfHTTPRoute rm r)
  ∧ (∀ b, namespaceOfBackend rm' b = namespaceOfBackend rm b)
  ∧ (∀ c g, classHoldsGateway rm' c g ↔ classHoldsGateway rm c g)
  ∧ (∀ n g, namespaceHoldsGateway rm' n g ↔ namespaceHoldsGateway rm n g)
  ∧ (∀ n r, namespaceHoldsHTTPRoute rm' n r ↔ namespaceHoldsHTTPRoute rm n r)
  ∧ (∀ n b, namespaceHoldsBackend rm' n b ↔ namespaceHoldsBackend rm n b)
  ∧ (∀ r g, httpRouteHoldsGateway rm' r g ↔ httpRouteHoldsGateway rm r g)
  ∧ (∀ g r, gatewayHoldsHTTPRoute rm' g r ↔ gatewayHoldsHTTPRoute rm g r)
  ∧ (∀ r b, httpRouteHoldsBackend rm' r b ↔ httpRouteHoldsBackend rm r b)
  ∧ (∀ b r, backendHoldsHTTPRoute rm' b r ↔ backendHoldsHTTPRoute rm b r)
  ∧ (∀ rg b, referenceGrantHoldsBackend rm' rg b ↔ (rg = rg0 ∧ b = b0) ∨ referenceGrantHoldsBackend rm rg b)
  ∧ (∀ b rg, backendHoldsReferenceGrant rm' b rg ↔ (b = b0 ∧ rg = rg0) ∨ backendHoldsReferenceGrant rm b rg).
Proof.
  intros [[child Hchild] [parent Hparent]]. unfold connectReferenceGrantWithBackend.
  rewrite Hchild, Hparent. intros [= <- <-]. split_and!; [done|solve_ref..].
Qed.

(** A connect call either finds both endpoints, or changes nothing and logs
    one diagnostic. *)
Lemma connect_cases (op : connectOp) (rm : ResourceModel) :
  endpointsExist op rm ∨ (¬ endpointsExist op rm ∧ ∃ d, connect op rm = (rm, [d])).
Proof.
  destruct op; simpl.
  - unfold connectGatewayWithGatewayClass.
    destruct (rm_Gateways rm !! g) eqn:E1; [|right; split; [by intros [[? ?] _]|eauto]].
    destruct (rm_GatewayClasses rm !! c) eqn:E2;
      [|right; split; [by intros [_ [? ?]]|eauto]].
    left. eauto.
  - unfold connectHTTPRouteWithGateway.
    destruct (rm_HTTPRoutes rm !! r) eqn:E1; [|right; split; [by intros [[? ?] _]|eauto]].
    destruct (rm_Gateways rm !! g) eqn:E2; [|right; split; [by intros [_ [? ?]]|eauto]].
    left. eauto.
  - unfold connectHTTPRouteWithBackend.
    destruct (rm_HTTPRoutes rm !! r) eqn:E1; [|right; split; [by intros [[? ?] _]|eauto]].
    destruct (rm_Backends rm !! b) eqn:E2; [|right; split; [by intros [_ [? ?]]|eauto]].
    left. eauto.
  - unfold connectGatewayWithNamespace.
    destruct (rm_Gateways rm !! g) eqn:E1; [|right; split; [by intros [[? ?] _]|eauto]].
    destruct (rm_Namespaces rm !! n) eqn:E2; [|right; split; [by intros [_ [? ?]]|eauto]].
    left. eauto.
  - unfold connectHTTPRouteWithNamespace.
    destruct (rm_HTTPRoutes rm !! r) eqn:E1; [|right; split; [by intros [[? ?] _]|eauto]].
    destruct (rm_Namespaces rm !! n) eqn:E2; [|right; split; [by intros [_ [? ?]]|eauto]].
    left. eauto.
  - unfold connectBackendWithNamespace.
    destruct (rm_Backends rm !! b) eqn:E1; [|right; split; [by intros [[? ?] _]|eauto]].
    destruct (rm_Namespaces rm !! n) eqn:E2; [|right; split; [by intros [_ [? ?]]|eauto]].
    left. eauto.
  - unfold connectReferenceGrantWithBackend.
    destruct (rm_ReferenceGrants rm !! rg) eqn:E1;
      [|right; split; [by intros [[? ?] _]|eauto]].
    destruct (rm_Backends rm !! b) eqn:E2; [|right; split; [by intros [_ [? ?]]|eauto]].
    left. eauto.
Qed.

Ltac with_effects Hex :=
  match goal with
  | |- context [connect ?op ?rm] =>
      simpl connect;
      match goal with
      | |- context [(?f ?a ?b rm)] =>
          let rm' := fresh "rm'" in let log := fresh "log" in let E := fresh "E" in
          destruct (f a b rm) as [rm' log] eqn:E;
          first
            [ pose proof (connectGatewayWithGatewayClass_effect _ _ _ _ _ Hex E)
            | pose proof (connectHTTPRouteWithGateway_effect _ _ _ _ _ Hex E)
            | pose proof (connectHTTPRouteWithBackend_effect _ _ _ _ _ Hex E)
            | pose proof (connectGatewayWithNamespace_effect _ _ _ _ _ Hex E)
            | pose proof (connectHTTPRouteWithNamespace_effect _ _ _ _ _ Hex E)
            | pose proof (connectBackendWithNamespace_effect _ _ _ _ _ Hex E)
            | pose proof (connectReferenceGrantWithBackend_effect _ _ _ _ _ Hex E) ]
      end
  end.

Ltac rewrite_effects :=
  repeat match goal with
         | E : ∀ _, _ = _ |- _ => rewrite E; clear E
         | E : ∀ _ _, _ ↔ _ |- _ => rewrite E; clear E
         end.

Lemma connect_parentsMirrored (op : connectOp) (rm : ResourceModel) :
  parentsMirrored rm → parentsMirrored (connect op rm).1.
Proof.
  intros Hinv. destruct (connect_cases op rm) as [Hex|(_ & d & ->)]; [|done].
  destruct op; with_effects Hex; destruct_and!; simpl.
  all: destruct Hinv as (I1 & I2 & I3 & I4).
  all: split_and!; intros x y; rewrite_effects.
  all: try case_decide; naive_solver.
Qed.

Lemma connect_edgesMirrored (op : connectOp) (rm : ResourceModel) :
  edgesMirrored rm → edgesMirrored (connect op rm).1.
Proof.
  intros Hinv. destruct (connect_cases op rm) as [Hex|(_ & d & ->)]; [|done].
  destruct op; with_effects Hex; destruct_and!; simpl.
  all: destruct Hinv as (I1 & I2 & I3).
  all: split_and!; intros x y; rewrite_effects.
  all: naive_solver.
Qed.

Lemma connect_indexesMirrored (op : connectOp) (rm : ResourceModel) :
  indexesMirrored rm → ¬ reparents op rm → indexesMirrored (connect op rm).1.
Proof.
  intros Hinv Hre. destruct (connect_cases op rm) as [Hex|(_ & d & ->)]; [|done].
  destruct op; with_effects Hex; destruct_and!; simpl in *.
  all: destruct Hinv as (I1 & I2 & I3 & I4).
  all: split_and!; intros x y; rewrite_effects.
  all: try (first [exact (I1 x y)|exact (I2 x y)|exact (I3 x y)|exact (I4 x y)]).
  all: intros [[-> ->]|Hold]; [by rewrite decide_True|].
  all: first [apply I1 in Hold|apply I2 in Hold|apply I3 in Hold|apply I4 in Hold].
  all: case_decide as Hy; [subst y|done].
  all: match goal with |- Some ?c = Some ?x' =>
         destruct (decide (x' = c)) as [->|Hne]; [done|exfalso; apply Hre; eauto] end.
Qed.

Lemma connect_connected (op : connectOp) (rm : ResourceModel) :
  endpointsExist op rm → (connect op rm).2 = [] ∧ connected op (connect op rm).1.
Proof.
  intros Hex. destruct op; with_effects Hex; destruct_and!; simpl.
  all: split; [done|]; rewrite_effects.
  all: split; first [by rewrite decide_True|by left].
Qed.

(** A loop that threads the model and appends what each step logs. *)
Section Batches.
Context {A D : Type} (f : A → ResourceModel → ResourceModel * list D).

Let batch (xs : list A) (rm : ResourceModel) (log : list D) :=
  foldl (λ '(rm, log) x, let '(rm', lines) := f x rm in (rm', log ++ lines))
        (rm, log) xs.

Lemma batch_from (xs : list A) (rm : ResourceModel) (log : list D) :
  batch xs rm log = ((batch xs rm []).1, log ++ (batch xs rm []).2).
Proof.
  revert rm log. induction xs as [|x xs IH]; intros rm log.
  - simpl. by rewrite app_nil_r.
  - unfold batch in *. simpl. destruct (f x rm) as [rm' lines]. simpl.
    rewrite (IH rm' (log ++ lines)), (IH rm' lines). simpl.
    by rewrite app_assoc.
Qed.

Lemma batch_cons (x : A) (xs : list A) (rm : ResourceModel) :
  batch (x :: xs) rm []
  = ((batch xs (f x rm).1 []).1, (f x rm).2 ++ (batch xs (f x rm).1 []).2).
Proof.
  unfold batch. simpl. destruct (f x rm) as [rm' lines]. simpl.
  apply (batch_from xs rm' lines).
Qed.

Lemma batch_app (xs ys : list A) (rm : ResourceModel) :
  batch (xs ++ ys) rm []
  = ((batch ys (batch xs rm []).1 []).1,
     (batch xs rm []).2 ++ (batch ys (batch xs rm []).1 []).2).
Proof.
  unfold batch. rewrite foldl_app.
  destruct (foldl _ (rm, []) xs) as [rm' lines]. simpl.
  apply (batch_from ys rm' lines).
Qed.
End Batches.

Lemma connectAll_cons (op : connectOp) (ops : list connectOp) (rm : ResourceModel) :
  connectAll (op :: ops) rm
  = ((connectAll ops (connect op rm).1).1,
     (connect op rm).2 ++ (connectAll ops (connect op rm).1).2).
Proof. apply (batch_cons connect). Qed.

Lemma connectAll_parentsMirrored (ops : list connectOp) (rm : ResourceModel) :
  parentsMirrored rm → parentsMirrored (connectAll ops rm).1.
Proof.
  revert rm. induction ops as [|op ops IH]; intros rm Hinv; [done|].
  rewrite connectAll_cons. simpl. by apply IH, connect_parentsMirrored.
Qed.

Lemma connectAll_edgesMirrored (ops : list connectOp) (rm : ResourceModel) :
  edgesMirrored rm → edgesMirrored (connectAll ops rm).1.
Proof.
  revert rm. induction ops as [|op ops IH]; intros rm Hinv; [done|].
  rewrite connectAll_cons. simpl. by apply IH, connect_edgesMirrored.
Qed.

Lemma connectAll_indexesMirrored (ops : list connectOp) (rm : ResourceModel) :
  indexesMirrored rm → neverReparents ops rm → indexesMirrored (connectAll ops rm).1.
Proof.
  revert rm. induction ops as [|op ops IH]; intros rm Hinv Hnever; [done|].
  destruct Hnever as [Hop Hnever].
  rewrite connectAll_cons. simpl. by apply IH; [apply connect_indexesMirrored|].
Qed.

(** C7 (amended).  A connect operation that misses an endpoint leaves the
    model as it was and logs exactly one diagnostic.  One that finds both
    logs nothing and stores the edge at both endpoints: the child's
    reference to the parent and the parent's reverse index.  After any
    sequence of connect operations on a model where this holds, every parent
    pointer of a child is in the reverse index of that parent, and every
    route-gateway, route-backend and grant-backend edge is stored at both
    ends.  Every stored cross-reference is bidirectional after the sequence
    when no call of it gives a child that already has a parent a different
    one: the operations overwrite the child's pointer and never remove the
    child from the index of its earlier parent. *)
Theorem connect_stores_the_edge_at_both_endpoints
    (op : connectOp) (ops : list connectOp) (rm : ResourceModel) :
  (¬ endpointsExist op rm → ∃ d, connect op rm = (rm, [d]))
  ∧ (endpointsExist op rm → (connect op rm).2 = [] ∧ connected op (connect op rm).1)
  ∧ (parentsMirrored rm → parentsMirrored (connectAll ops rm).1)
  ∧ (edgesMirrored rm → edgesMirrored (connectAll ops rm).1)
  ∧ (bidirectional rm → neverReparents ops rm → bidirectional (connectAll ops rm).1).
Proof.
  split_and!.
  - intros Hno. by destruct (connect_cases op rm) as [?|[_ ?]].
  - apply connect_connected.
  - apply connectAll_parentsMirrored.
  - apply connectAll_edgesMirrored.
  - intros (Hp & Hi & He) Hnever. split_and!.
    + by apply connectAll_parentsMirrored.
    + by apply connectAll_indexesMirrored.
    + by apply connectAll_edgesMirrored.
Qed.

(** A model whose nodes hold no pointer to one another. *)
Lemma isEmpty_true {K : Type} `{Countable K} {V : Type} (m : gmap K V) :
  isEmpty m = true → m = ∅.
Proof.
  unfold isEmpty. destruct (map_to_list m) eqn:E; [|done].
  intros _. by apply map_to_list_empty_iff.
Qed.

Lemma isNone_true {A : Type} (o : option A) : isNone o = true → o = None.
Proof. by destruct o. Qed.

Lemma unconnectedCheck_correct (rm : ResourceModel) :
  unconnectedCheck rm = true → bidirectional rm.
Proof.
  unfold unconnectedCheck. rewrite !andb_true_iff.
  intros [[[[[Hgc Hns] Hgw] Hhr] Hbk] Hrg].
  pose proof (λ k v, forallb_map_to_list _ _ k v Hgc) as Fgc.
  pose proof (λ k v, forallb_map_to_list _ _ k v Hns) as Fns.
  pose proof (λ k v, forallb_map_to_list _ _ k v Hgw) as Fgw.
  pose proof (λ k v, forallb_map_to_list _ _ k v Hhr) as Fhr.
  pose proof (λ k v, forallb_map_to_list _ _ k v Hbk) as Fbk.
  pose proof (λ k v, forallb_map_to_list _ _ k v Hrg) as Frg.
  assert (∀ g, classOfGateway rm g = None) as N1.
  { intros g. unfold classOfGateway. destruct (rm_Gateways rm !! g) as [n|] eqn:E; [|done].
    apply Fgw in E. simpl in E. rewrite !andb_true_iff in E.
    destruct E as [[E _] _]. by apply isNone_true. }
  assert (∀ g, namespaceOfGateway rm g = None) as N2.
  { intros g. unfold namespaceOfGateway.
    destruct (rm_Gateways rm !! g) as [n|] eqn:E; [|done].
    apply Fgw in E. simpl in E. rewrite !andb_true_iff in E.
    destruct E as [[_ E] _]. by apply isNone_true. }
  assert (∀ r, namespaceOfHTTPRoute rm r = None) as N3.
  { intros r. unfold namespaceOfHTTPRoute.
    destruct (rm_HTTPRoutes rm !! r) as [n|] eqn:E; [|done].
    apply Fhr in E. simpl in E. rewrite !andb_true_iff in E.
    destruct E as [[E _] _]. by apply isNone_true. }
  assert (∀ b, namespaceOfBackend rm b = None) as N4.
  { intros b. unfold namespaceOfBackend.
    destruct (rm_Backends rm !! b) as [n|] eqn:E; [|done].
    apply Fbk in E. simpl in E. rewrite !andb_true_iff in E.
    destruct E as [[E _] _]. by apply isNone_true. }
  assert (∀ c g, ¬ classHoldsGateway rm c g) as M1.
  { intros c g. unfold classHoldsGateway.
    destruct (rm_GatewayClasses rm !! c) as [n|] eqn:E; [|done].
    apply Fgc in E. simpl in E. apply isEmpty_true in E. simpl. by rewrite E. }
  assert (∀ ns g, ¬ namespaceHoldsGateway rm ns g) as M2.
  { intros ns g. unfold namespaceHoldsGateway.
    destruct (rm_Namespaces rm !! ns) as [n|] eqn:E; [|done].
    apply Fns in E. simpl in E. rewrite !andb_true_iff in E.
    destruct E as [[E _] _]. apply isEmpty_true in E. simpl. by rewrite E. }
  assert (∀ ns r, ¬ namespaceHoldsHTTPRoute rm ns r) as M3.
  { intros ns r. unfold namespaceHoldsHTTPRoute.
    destruct (rm_Namespaces rm !! ns) as [n|] eqn:E; [|done].
    apply Fns in E. simpl in E. rewrite !andb_true_iff in E.
    destruct E as [[_ E] _]. apply isEmpty_true in E. simpl. by rewrite E. }
  assert (∀ ns b, ¬ namespaceHoldsBackend rm ns b) as M4.
  { intros ns b. unfold namespaceHoldsBackend.
    destruct (rm_Namespaces rm !! ns) as [n|] eqn:E; [|done].
    apply Fns in E. simpl in E. rewrite !andb_true_iff in E.
    destruct E as [_ E]. apply isEmpty_true in E. simpl. by rewrite E. }
  assert (∀ r g, ¬ httpRouteHoldsGateway rm r g) as E1.
  { intros r g. unfold httpRouteHoldsGateway.
    destruct (rm_HTTPRoutes rm !! r) as [n|] eqn:E; [|done].
    apply Fhr in E. simpl in E. rewrite !andb_true_iff in E.
    destruct E as [[_ E] _]. apply isEmpty_true in E. simpl. by rewrite E. }
  assert (∀ g r, ¬ gatewayHoldsHTTPRoute rm g r) as E2.
  { intros g r. unfold gatewayHoldsHTTPRoute.
    destruct (rm_Gateways rm !! g) as [n|] eqn:E; [|done].
    apply Fgw in E. simpl in E. rewrite !andb_true_iff in E.
    destruct E as [_ E]. apply isEmpty_true in E. simpl. by rewrite E. }
  assert (∀ r b, ¬ httpRouteHoldsBackend rm r b) as E3.
  { intros r b. unfold httpRouteHoldsBackend.
    destruct (rm_HTTPRoutes rm !! r) as [n|] eqn:E; [|done].
    apply Fhr in E. simpl in E. rewrite !andb_true_iff in E.
    destruct E as [_ E]. apply isEmpty_true in E. simpl. by rewrite E. }
  assert (∀ b r, ¬ backendHoldsHTTPRoute rm b r) as E4.
  { intros b r. unfold backendHoldsHTTPRoute.
    destruct (rm_Backends rm !! b) as [n|] eqn:E; [|done].
    apply Fbk in E. simpl in E. rewrite !andb_true_iff in E.
    destruct E as [[_ E] _]. apply isEmpty_true in E. simpl. by rewrite E. }
  assert (∀ rg b, ¬ referenceGrantHoldsBackend rm rg b) as E5.
  { intros rg b. unfold referenceGrantHoldsBackend.
    destruct (rm_ReferenceGrants rm !! rg) as [n|] eqn:E; [|done].
    apply Frg in E. simpl in E. apply isEmpty_true in E. simpl. by rewrite E. }
  assert (∀ b rg, ¬ backendHoldsReferenceGrant rm b rg) as E6.
  { intros b rg. unfold backendHoldsReferenceGrant.
    destruct (rm_Backends rm !! b) as [n|] eqn:E; [|done].
    apply Fbk in E. simpl in E. rewrite !andb_true_iff in E.
    destruct E as [_ E]. apply isEmpty_true in E. simpl. by rewrite E. }
  unfold bidirectional, parentsMirrored, indexesMirrored, edgesMirrored.
  split_and!; intros x y; rewrite ?N1, ?N2, ?N3, ?N4; try done; naive_solver.
Qed.

Lemma bidirectional_twoClassesModel : bidirectional twoClassesModel.
Proof. apply unconnectedCheck_correct. by vm_compute. Qed.

Lemma connect_stores_the_edge_at_both_endpoints_witness :
  bidirectional twoClassesModel
  ∧ endpointsExist (GatewayWithGatewayClass ("ns", "g") "c1") twoClassesModel
  ∧ connected (GatewayWithGatewayClass ("ns", "g") "c1")
      (connect (GatewayWithGatewayClass ("ns", "g") "c1") twoClassesModel).1
  ∧ bidirectional
      (connectAll [GatewayWithGatewayClass ("ns", "g") "c1";
                   GatewayWithGatewayClass ("ns", "g") "c1"] twoClassesModel).1.
Proof.
  destruct (connect_stores_the_edge_at_both_endpoints
              (GatewayWithGatewayClass ("ns", "g") "c1")
              [GatewayWithGatewayClass ("ns", "g") "c1";
               GatewayWithGatewayClass ("ns", "g") "c1"] twoClassesModel)
    as (_ & Hboth & _ & _ & Hall).
  assert (endpointsExist (GatewayWithGatewayClass ("ns", "g") "c1") twoClassesModel)
    as Hex by (split; apply isSome_true; by vm_compute).
  split_and!.
  - exact bidirectional_twoClassesModel.
  - exact Hex.
  - exact (proj2 (Hboth Hex)).
  - apply Hall; [exact bidirectional_twoClassesModel|].
    split; [intros (c' & Hc & _); by vm_compute in Hc|].
    split; [|done]. intros (c' & Hc & Hne). vm_compute in Hc.
    apply Hne. by injection Hc as <-.
Defined.

(** C7, as stated, fails: a gateway connected to one class and then to
    another points to the second class only, and the reverse index of the
    first class still holds it. *)
Lemma reconnected_gateway_stays_in_the_first_index :
  bidirectional twoClassesModel
  ∧ classOfGateway reparentedModel ("ns", "g") = Some "c2"
  ∧ classHoldsGateway reparentedModel "c1" ("ns", "g")
  ∧ ¬ bidirectional reparentedModel.
Proof.
  assert (classOfGateway reparentedModel ("ns", "g") = Some "c2") as Hptr
    by (by vm_compute).
  assert (classHoldsGateway reparentedModel "c1" ("ns", "g")) as Hidx
    by (by vm_compute).
  split_and!; [exact bidirectional_twoClassesModel|done|done|].
  intros (_ & (Hclass & _) & _). apply Hclass in Hidx. congruence.
Qed.

(** * Policies whose target kind is not resolved *)

(** C6, at the input where the code departs from it: a policy whose target
    is in the routing group and of kind GRPCRoute matches no case of the
    inner switch.  It is dropped, the model is unchanged and no diagnostic
    is logged. *)
Theorem unresolved_routing_kind_is_dropped_silently (rm : ResourceModel) :
  addPolicyIfTargetExists [grpcRoutePolicy] rm = (rm, []).
Proof. reflexivity. Qed.

Lemma insertion_is_idempotent_witness :
  is_Some (rm_Gateways sampleModel !! GatewayID "ns" "g1")
  ∧ addGateways [sampleObject "Gateway" "ns" "g1"] sampleModel = sampleModel.
Proof.
  assert (is_Some (rm_Gateways sampleModel !! GatewayID "ns" "g1")) as Hin
    by (apply isSome_true; by vm_compute).
  split; [exact Hin|].
  destruct insertion_is_idempotent as (_ & _ & Hgw & _).
  destruct (Hgw sampleModel (sampleObject "Gateway" "ns" "g1") [] [] []) as [Hsame _].
  apply Hsame. exact Hin.
Defined.

(** * Graph builder: what a lookup finds after an insertion *)

Section InsertLookup.

Context {K : Type} `{Countable K} {N : Type}.
Variable nodes : ResourceModel → gmap K N.
Variable put : gmap K N → ResourceModel → ResourceModel.
Variable id : Object → K.
Variable new : Object → N.

Hypothesis nodes_put : ∀ m rm, nodes (put m rm) = m.

Let step (rm : ResourceModel) (x : Object) : ResourceModel :=
  match nodes rm !! id x with
  | Some _ => rm
  | None => put (<[id x := new x]> (nodes rm)) rm
  end.

Lemma foldl_insertsAbsent : insertsAbsent (λ l rm, foldl step rm l) nodes id new.
Proof.
  intros rm batch. revert rm. induction batch as [|x batch IH]; intros rm k.
  - simpl. by destruct (nodes rm !! k).
  - simpl. rewrite IH. unfold firstWithID. rewrite filter_cons. unfold step.
    destruct (nodes rm !! id x) as [n|] eqn:Hx.
    + destruct (nodes rm !! k) as [nk|] eqn:Hk; [done|].
      rewrite decide_False; [done|]. intros Heq. rewrite Heq in Hx. congruence.
    + rewrite nodes_put. destruct (decide (id x = k)) as [Heq|Hne].
      * rewrite <- Heq. rewrite lookup_insert_eq. by rewrite Hx.
      * by rewrite lookup_insert_ne.
Qed.

End InsertLookup.

(** X1.  After an insertion, a lookup finds the node that was there before
    the call, whatever the batch holds; and for an identity the model had no
    node for, the fresh node of the first resource of the batch with that
    identity, or nothing when the batch has none.  So for each of the six
    kinds an insertion never replaces or removes a node, and of two
    resources with one identity the first one wins. *)
Theorem insertion_lookup :
  insertsAbsent addGatewayClasses rm_GatewayClasses (λ x, GatewayClassID (objName x))
    NewGatewayClassNode
  ∧ insertsAbsent addNamespace rm_Namespaces (λ x, NamespaceID (objName x))
      NewNamespaceNode
  ∧ insertsAbsent addGateways rm_Gateways (λ x, GatewayID (objNamespace x) (objName x))
      NewGatewayNode
  ∧ insertsAbsent addHTTPRoutes rm_HTTPRoutes
      (λ x, HTTPRouteID (objNamespace x) (objName x)) NewHTTPRouteNode
  ∧ insertsAbsent addBackends rm_Backends
      (λ x, BackendID (objGroup x) (objKind x) (objNamespace x) (objName x))
      NewBackendNode
  ∧ insertsAbsent addReferenceGrants rm_ReferenceGrants
      (λ x, ReferenceGrantID (objNamespace x) (objName x)) NewReferenceGrantNode.
Proof.
  split_and!.
  - apply (foldl_insertsAbsent rm_GatewayClasses rm_with_GatewayClasses). done.
  - apply (foldl_insertsAbsent rm_Namespaces rm_with_Namespaces). done.
  - apply (foldl_insertsAbsent rm_Gateways rm_with_Gateways). done.
  - apply (foldl_insertsAbsent rm_HTTPRoutes rm_with_HTTPRoutes). done.
  - apply (foldl_insertsAbsent rm_Backends rm_with_Backends). done.
  - apply (foldl_insertsAbsent rm_ReferenceGrants rm_with_ReferenceGrants). done.
Qed.

(** * Attaching policies *)

Ltac attach_cases :=
  unfold policyTarget, attachPolicy in *;
  repeat (case_decide; simplify_eq; simpl in * );
  try done.

(** A policy whose target is not in the model: the model is unchanged and
    one diagnostic names the policy and the target. *)
Lemma attachPolicy_missing (policy : Policy) (rm : ResourceModel)
    (kind : string) (t : resourceID) :
  policyTarget (polTargetRef policy) = Some (kind, t) →
  policiesAt rm t = None →
  attachPolicy policy rm = (rm, [skippingPolicy kind policy t]).
Proof.
  intros Htarget Hnone. attach_cases.
  all: match goal with
       | H : _ <$> ?m !! ?k = None |- _ => destruct (m !! k) eqn:E; [done|]
       end.
  all: done.
Qed.

(** A policy that no case of the switch takes: nothing happens. *)
Lemma attachPolicy_unresolved (policy : Policy) (rm : ResourceModel) :
  policyTarget (polTargetRef policy) = None → attachPolicy policy rm = (rm, []).
Proof. intros Htarget. attach_cases. Qed.

(** A policy whose target is in the model: what the attachment writes. *)
Lemma attachPolicy_effect (policy : Policy) (rm : ResourceModel)
    (kind : string) (t : resourceID) :
  policyTarget (polTargetRef policy) = Some (kind, t) →
  is_Some (policiesAt rm t) →
  let policyNode := attachedNode policy t in
  (attachPolicy policy rm).2 = []
  ∧ rm_Policies (attachPolicy policy rm).1
    = <[pn_ID policyNode := policyNode]> (rm_Policies rm)
  ∧ policiesAt (attachPolicy policy rm).1 t
    = (<[pn_ID policyNode := policyNode]> <$> policiesAt rm t)
  ∧ ∀ t', t' ≠ t → policiesAt (attachPolicy policy rm).1 t' = policiesAt rm t'.
Proof.
  intros Htarget [local Hlocal]. attach_cases.
  all: match goal with
       | H : _ <$> ?m !! ?k = Some _ |- _ => destruct (m !! k) eqn:E; [|done]
       end.
  all: simpl in *; simplify_eq.
  all: split_and!; [reflexivity|reflexivity| |].
  all: try (simpl; rewrite lookup_insert_eq; reflexivity).
  all: intros [] Hne; simpl; try done.
  all: rewrite lookup_insert_ne; [done|congruence].
Qed.

Lemma attachedNode_policy (policy : Policy) (t : resourceID) :
  pn_Policy (attachedNode policy t) = policy ∧ pn_ID (attachedNode policy t) = pn_ID (NewPolicyNode policy).
Proof. by destruct t. Qed.

Lemma attachedNode_backReferences (policy : Policy) (kind : string) (t : resourceID) :
  policyTarget (polTargetRef policy) = Some (kind, t) →
  backReferences (attachedNode policy t) = [t].
Proof. intros Htarget. attach_cases. Qed.

Lemma addPolicyIfTargetExists_cons (policy : Policy) (rest : list Policy)
    (rm : ResourceModel) :
  addPolicyIfTargetExists (policy :: rest) rm
  = ((addPolicyIfTargetExists rest (attachPolicy policy rm).1).1,
     (attachPolicy policy rm).2
     ++ (addPolicyIfTargetExists rest (attachPolicy policy rm).1).2).
Proof. apply (batch_cons attachPolicy). Qed.

Lemma addPolicyIfTargetExists_one (policy : Policy) (rm : ResourceModel) :
  addPolicyIfTargetExists [policy] rm = attachPolicy policy rm.
Proof.
  rewrite addPolicyIfTargetExists_cons. simpl. rewrite app_nil_r.
  by destruct (attachPolicy policy rm).
Qed.

(** X2.  A policy whose target node is not in the model is skipped: the
    batch goes on with the model as it was, and the log gets exactly one
    diagnostic, which names the policy and the identity of the missing
    target. *)
Theorem policy_without_target_is_skipped (policy : Policy) (rest : list Policy)
    (rm : ResourceModel) (kind : string) (t : resourceID) :
  policyTarget (polTargetRef policy) = Some (kind, t) →
  policiesAt rm t = None →
  addPolicyIfTargetExists (policy :: rest) rm
  = ((addPolicyIfTargetExists rest rm).1,
     skippingPolicy kind policy t :: (addPolicyIfTargetExists rest rm).2).
Proof.
  intros Htarget Hnone. rewrite addPolicyIfTargetExists_cons.
  by rewrite (attachPolicy_missing policy rm kind t).
Qed.

Lemma policy_without_target_is_skipped_witness :
  let policy := samplePolicy "Timeout" "ns" "t" "1s" false (gatewayTarget "ns" "absent") in
  policyTarget (polTargetRef policy) = Some ("Gateway", OfGateway ("ns", "absent"))
  ∧ policiesAt twoClassesModel (OfGateway ("ns", "absent")) = None
  ∧ addPolicyIfTargetExists [policy; grpcRoutePolicy] twoClassesModel
    = ((addPolicyIfTargetExists [grpcRoutePolicy] twoClassesModel).1,
       skippingPolicy "Gateway" policy (OfGateway ("ns", "absent"))
       :: (addPolicyIfTargetExists [grpcRoutePolicy] twoClassesModel).2).
Proof.
  intros policy.
  assert (policyTarget (polTargetRef policy) = Some ("Gateway", OfGateway ("ns", "absent")))
    as Htarget by reflexivity.
  assert (policiesAt twoClassesModel (OfGateway ("ns", "absent")) = None) as Hnone
    by (by vm_compute).
  split_and!; [exact Htarget|exact Hnone|].
  exact (policy_without_target_is_skipped policy [grpcRoutePolicy] twoClassesModel
           "Gateway" (OfGateway ("ns", "absent")) Htarget Hnone).
Defined.

(** X3.  A policy whose target node is in the model is registered without a
    diagnostic: the global mapping and the mapping of the target hold, under
    the identity of the policy, the same policy node, which carries the
    policy and exactly one back-reference, to the target.  Every other entry
    of the global mapping and the mapping of every other node are as
    before. *)
Theorem policy_is_registered_at_its_target (policy : Policy) (rm : ResourceModel)
    (kind : string) (t : resourceID) :
  policyTarget (polTargetRef policy) = Some (kind, t) →
  is_Some (policiesAt rm t) →
  let run := addPolicyIfTargetExists [policy] rm in
  let policyNode := attachedNode policy t in
  run.2 = []
  ∧ pn_Policy policyNode = policy
  ∧ backReferences policyNode = [t]
  ∧ rm_Policies run.1 !! pn_ID policyNode = Some policyNode
  ∧ policiesAt run.1 t ≫= (.!! pn_ID policyNode) = Some policyNode
  ∧ (∀ id, id ≠ pn_ID policyNode → rm_Policies run.1 !! id = rm_Policies rm !! id)
  ∧ (∀ id, id ≠ pn_ID policyNode →
       policiesAt run.1 t ≫= (.!! id) = policiesAt rm t ≫= (.!! id))
  ∧ (∀ t', t' ≠ t → policiesAt run.1 t' = policiesAt rm t').
Proof.
  intros Htarget Hsome run policyNode. subst run.
  rewrite addPolicyIfTargetExists_one.
  destruct (attachPolicy_effect policy rm kind t Htarget Hsome)
    as (Hlog & Hglobal & Hlocal & Hother).
  destruct Hsome as [local Hsome].
  split_and!.
  - exact Hlog.
  - apply attachedNode_policy.
  - by apply (attachedNode_backReferences policy kind).
  - rewrite Hglobal. apply lookup_insert_eq.
  - rewrite Hlocal, Hsome. simpl. apply lookup_insert_eq.
  - intros id Hid. rewrite Hglobal. by apply lookup_insert_ne.
  - intros id Hid. rewrite Hlocal, Hsome. simpl. by apply lookup_insert_ne.
  - exact Hother.
Qed.

Lemma policy_is_registered_at_its_target_witness :
  let policy := samplePolicy "Timeout" "ns" "t" "1s" false (gatewayTarget "ns" "g") in
  let run := addPolicyIfTargetExists [policy] twoClassesModel in
  policyTarget (polTargetRef policy) = Some ("Gateway", OfGateway ("ns", "g"))
  ∧ is_Some (policiesAt twoClassesModel (OfGateway ("ns", "g")))
  ∧ run.2 = []
  ∧ rm_Policies run.1 !! PolicyID "policy.example.com" "Timeout" "ns" "t"
    = Some (pn_with_Gateway ("ns", "g") (NewPolicyNode policy))
  ∧ policiesAt run.1 (OfGateway ("ns", "g"))
      ≫= (.!! PolicyID "policy.example.com" "Timeout" "ns" "t")
    = Some (pn_with_Gateway ("ns", "g") (NewPolicyNode policy)).
Proof.
  intros policy run.
  assert (policyTarget (polTargetRef policy) = Some ("Gateway", OfGateway ("ns", "g")))
    as Htarget by reflexivity.
  assert (is_Some (policiesAt twoClassesModel (OfGateway ("ns", "g")))) as Hsome
    by (apply isSome_true; by vm_compute).
  destruct (policy_is_registered_at_its_target policy twoClassesModel "Gateway"
              (OfGateway ("ns", "g")) Htarget Hsome)
    as (Hlog & _ & _ & Hglobal & Hlocal & _).
  split_and!; [exact Htarget|exact Hsome|exact Hlog|exact Hglobal|exact Hlocal].
Defined.

(** A step that keeps the policies anchored. *)
Lemma attachPolicy_anchored (policy : Policy) (rm : ResourceModel) :
  policiesAnchored rm → policiesAnchored (attachPolicy policy rm).1.
Proof.
  intros Hinv.
  destruct (policyTarget (polTargetRef policy)) as [[kind t]|] eqn:Htarget;
    [|by rewrite attachPolicy_unresolved].
  destruct (policiesAt rm t) as [local|] eqn:Hlocal;
    [|by rewrite (attachPolicy_missing policy rm kind t)].
  destruct (attachPolicy_effect policy rm kind t Htarget) as (_ & Hglobal & Hat & Hother);
    [by rewrite Hlocal|].
  intros id policyNode. rewrite Hglobal.
  destruct (decide (id = pn_ID (attachedNode policy t))) as [->|Hid].
  - rewrite lookup_insert_eq. intros [= <-]. split; [done|]. exists t.
    split; [by apply (attachedNode_backReferences policy kind)|].
    rewrite Hat, Hlocal. simpl. apply lookup_insert_eq.
  - rewrite lookup_insert_ne by done. intros Hnode.
    destruct (Hinv id policyNode Hnode) as (Hpn & t1 & Hback & Hheld).
    split; [done|]. exists t1. split; [done|].
    destruct (decide (t1 = t)) as [->|Hne].
    + rewrite Hat, Hlocal. rewrite Hlocal in Hheld. simpl in *.
      by rewrite lookup_insert_ne.
    + by rewrite Hother.
Qed.

Lemma addPolicyIfTargetExists_anchored (policies : list Policy) (rm : ResourceModel) :
  policiesAnchored rm → policiesAnchored (addPolicyIfTargetExists policies rm).1.
Proof.
  revert rm. induction policies as [|policy rest IH]; intros rm Hinv; [done|].
  rewrite addPolicyIfTargetExists_cons. simpl. by apply IH, attachPolicy_anchored.
Qed.

Lemma policiesAnchored_no_policies (rm : ResourceModel) :
  rm_Policies rm = ∅ → policiesAnchored rm.
Proof. intros Hempty id policyNode. by rewrite Hempty, lookup_empty. Qed.

(** X4.  Attaching a batch of policies keeps the global policy mapping
    anchored in the graph: every policy node it holds is kept under its own
    identity, refers back to exactly one node, and that node holds the same
    policy node under the same identity.  So a policy that was skipped is
    never in the global mapping, and none is there without its target. *)
Theorem attached_policies_stay_anchored (policies : list Policy) (rm : ResourceModel) :
  policiesAnchored rm → policiesAnchored (addPolicyIfTargetExists policies rm).1.
Proof. apply addPolicyIfTargetExists_anchored. Qed.

Lemma attached_policies_stay_anchored_witness :
  policiesAnchored sampleGraph
  ∧ policiesAnchored (addPolicyIfTargetExists (grpcRoutePolicy :: samplePolicies) sampleGraph).1.
Proof.
  assert (policiesAnchored sampleGraph) as Hinv
    by (apply policiesAnchored_no_policies; by vm_compute).
  split; [exact Hinv|].
  exact (attached_policies_stay_anchored (grpcRoutePolicy :: samplePolicies) sampleGraph Hinv).
Defined.

(** * Operations that leave the nodes and the links as they are *)

Lemma sameNodes_refl (rm : ResourceModel) : sameNodes rm rm.
Proof. by repeat split. Qed.

Lemma sameNodes_trans (rm1 rm2 rm3 : ResourceModel) :
  sameNodes rm1 rm2 → sameNodes rm2 rm3 → sameNodes rm1 rm3.
Proof.
  intros (A1 & A2 & A3 & A4 & A5 & A6) (B1 & B2 & B3 & B4 & B5 & B6).
  unfold sameNodes. split_and!; congruence.
Qed.

Lemma sameLinks_refl (rm : ResourceModel) : sameLinks rm rm.
Proof. unfold sameLinks. by split_and!. Qed.

Lemma sameLinks_trans (rm1 rm2 rm3 : ResourceModel) :
  sameLinks rm1 rm2 → sameLinks rm2 rm3 → sameLinks rm1 rm3.
Proof.
  unfold sameLinks. intros A B. destruct_and!.
  split_and!; intros; first [congruence | etrans; eauto].
Qed.

Lemma sameLinks_bidirectional (rm rm' : ResourceModel) :
  sameLinks rm rm' → bidirectional rm → bidirectional rm'.
Proof.
  unfold sameLinks, bidirectional, parentsMirrored, indexesMirrored, edgesMirrored.
  intros A B. destruct_and!.
  split_and!; intros x y; rewrite_effects; auto.
Qed.

Ltac same_dom :=
  simpl; try done;
  match goal with
  | E : ?m !! ?k = Some _ |- dom (<[?k := _]> ?m) = dom ?m =>
      apply dom_insert_lookup_L; by rewrite E
  end.

Lemma attachPolicy_sameNodes (policy : Policy) (rm : ResourceModel) :
  sameNodes rm (attachPolicy policy rm).1.
Proof.
  unfold attachPolicy. repeat case_decide; try apply sameNodes_refl.
  all: case_lookup E; try apply sameNodes_refl.
  all: unfold sameNodes; split_and!; same_dom.
Qed.

Lemma attachPolicy_sameLinks (policy : Policy) (rm : ResourceModel) :
  sameLinks rm (attachPolicy policy rm).1.
Proof.
  unfold attachPolicy. repeat case_decide; try apply sameLinks_refl.
  all: case_lookup E; try apply sameLinks_refl.
  all: unfold sameLinks; split_and!; solve_ref.
Qed.

Lemma addPolicyIfTargetExists_sameNodes (policies : list Policy) (rm : ResourceModel) :
  sameNodes rm (addPolicyIfTargetExists policies rm).1.
Proof.
  revert rm. induction policies as [|policy rest IH]; intros rm; [apply sameNodes_refl|].
  rewrite addPolicyIfTargetExists_cons. simpl.
  eapply sameNodes_trans; [apply attachPolicy_sameNodes|apply IH].
Qed.

Lemma addPolicyIfTargetExists_sameLinks (policies : list Policy) (rm : ResourceModel) :
  sameLinks rm (addPolicyIfTargetExists policies rm).1.
Proof.
  revert rm. induction policies as [|policy rest IH]; intros rm; [apply sameLinks_refl|].
  rewrite addPolicyIfTargetExists_cons. simpl.
  eapply sameLinks_trans; [apply attachPolicy_sameLinks|apply IH].
Qed.

(** X5.  Attaching policies adds and removes no node of the graph and
    changes no cross-reference between its nodes; in particular a graph
    whose cross-references are bidirectional stays so. *)
Theorem attaching_policies_keeps_the_graph (policies : list Policy) (rm : ResourceModel) :
  let rm' := (addPolicyIfTargetExists policies rm).1 in
  sameNodes rm rm' ∧ sameLinks rm rm' ∧ (bidirectional rm → bidirectional rm').
Proof.
  intros rm'. split_and!.
  - apply addPolicyIfTargetExists_sameNodes.
  - apply addPolicyIfTargetExists_sameLinks.
  - apply sameLinks_bidirectional, addPolicyIfTargetExists_sameLinks.
Qed.

(** * Connecting twice *)

(** X6.  Connecting a pair a second time changes nothing: the call returns
    the model the first call returned, and logs what the first call logged
    (nothing when both endpoints exist, the one diagnostic otherwise). *)
Theorem connecting_twice_is_connecting_once (op : connectOp) (rm : ResourceModel) :
  connect op (connect op rm).1 = connect op rm.
Proof.
  destruct (connect_cases op rm) as [Hex|(_ & d & Hd)]; [|by rewrite Hd; simpl].
  destruct op; simpl in *; destruct Hex as [[child Hchild] [parent Hparent]].
  - unfold connectGatewayWithGatewayClass. rewrite Hchild, Hparent. simpl.
    rewrite !lookup_insert_eq. simpl. rewrite !insert_insert_eq. done.
  - unfold connectHTTPRouteWithGateway. rewrite Hchild, Hparent. simpl.
    rewrite !lookup_insert_eq. simpl. rewrite !insert_insert_eq. done.
  - unfold connectHTTPRouteWithBackend. rewrite Hchild, Hparent. simpl.
    rewrite !lookup_insert_eq. simpl. rewrite !insert_insert_eq. done.
  - unfold connectGatewayWithNamespace. rewrite Hchild, Hparent. simpl.
    rewrite !lookup_insert_eq. simpl. rewrite !insert_insert_eq. done.
  - unfold connectHTTPRouteWithNamespace. rewrite Hchild, Hparent. simpl.
    rewrite !lookup_insert_eq. simpl. rewrite !insert_insert_eq. done.
  - unfold connectBackendWithNamespace. rewrite Hchild, Hparent. simpl.
    rewrite !lookup_insert_eq. simpl. rewrite !insert_insert_eq. done.
  - unfold connectReferenceGrantWithBackend. rewrite Hchild, Hparent. simpl.
    rewrite !lookup_insert_eq. simpl. rewrite !insert_insert_eq. done.
Qed.

(** * What the builder keeps true *)

Lemma sameNodes_nodesKept (rm rm' : ResourceModel) : sameNodes rm rm' → nodesKept rm rm'.
Proof.
  intros (A1 & A2 & A3 & A4 & A5 & A6). unfold nodesKept.
  rewrite A1, A2, A3, A4, A5, A6. done.
Qed.

Lemma nodesKept_refl (rm : ResourceModel) : nodesKept rm rm.
Proof. by repeat split. Qed.

Lemma nodesKept_trans (rm1 rm2 rm3 : ResourceModel) :
  nodesKept rm1 rm2 → nodesKept rm2 rm3 → nodesKept rm1 rm3.
Proof.
  intros (A1 & A2 & A3 & A4 & A5 & A6) (B1 & B2 & B3 & B4 & B5 & B6).
  unfold nodesKept. split_and!; set_solver.
Qed.

Lemma policiesKept_refl (rm : ResourceModel) : policiesKept rm rm.
Proof. by split. Qed.

Lemma policiesKept_trans (rm1 rm2 rm3 : ResourceModel) :
  policiesKept rm1 rm2 → policiesKept rm2 rm3 → policiesKept rm1 rm3.
Proof.
  intros [A1 A2] [B1 B2]. split; [congruence|]. intros t held Ht. by apply B2, A2.
Qed.

Lemma sameLinks_parentsMirrored (rm rm' : ResourceModel) :
  sameLinks rm rm' → parentsMirrored rm → parentsMirrored rm'.
Proof.
  unfold sameLinks, parentsMirrored. intros A B. destruct_and!.
  split_and!; intros x y; rewrite_effects; auto.
Qed.

Lemma sameLinks_edgesMirrored (rm rm' : ResourceModel) :
  sameLinks rm rm' → edgesMirrored rm → edgesMirrored rm'.
Proof.
  unfold sameLinks, edgesMirrored. intros A B. destruct_and!.
  split_and!; intros x y; rewrite_effects; auto.
Qed.

Lemma kept_is_Some {K : Type} `{Countable K} {V : Type} (m m' : gmap K V) (k : K) :
  dom m ⊆ dom m' → is_Some (m !! k) → is_Some (m' !! k).
Proof. intros Hsub Hk. apply elem_of_dom, Hsub, elem_of_dom, Hk. Qed.

Lemma sameLinks_noDanglingLinks (rm rm' : ResourceModel) :
  sameLinks rm rm' → nodesKept rm rm' → noDanglingLinks rm → noDanglingLinks rm'.
Proof.
  unfold sameLinks, nodesKept, noDanglingLinks. intros A B C. destruct_and!.
  split_and!; intros x y; rewrite_effects; intros Hxy;
    (eapply kept_is_Some; [eassumption|]); eauto.
Qed.

Lemma policiesKept_anchored (rm rm' : ResourceModel) :
  policiesKept rm rm' → policiesAnchored rm → policiesAnchored rm'.
Proof.
  intros [Hglobal Hat] Hinv id policyNode. rewrite Hglobal. intros Hnode.
  destruct (Hinv id policyNode Hnode) as (Hid & t & Hback & Hheld).
  split; [done|]. exists t. split; [done|].
  destruct (policiesAt rm t) as [held|] eqn:Ht; [|done].
  by rewrite (Hat t held Ht).
Qed.

Lemma foldl_related {A : Type} (R : ResourceModel → ResourceModel → Prop)
    (f : ResourceModel → A → ResourceModel) :
  (∀ rm, R rm rm) →
  (∀ rm1 rm2 rm3, R rm1 rm2 → R rm2 rm3 → R rm1 rm3) →
  (∀ rm x, R rm (f rm x)) →
  ∀ l rm, R rm (foldl f rm l).
Proof.
  intros Hrefl Htrans Hstep l. induction l as [|x l IH]; intros rm; simpl; [done|].
  eapply Htrans; [apply Hstep|apply IH].
Qed.

Ltac solve_fresh :=
  intros; unfold_refs; simpl;
  repeat (rewrite lookup_insert; case_decide; simplify_eq; simpl);
  repeat match goal with H : _ !! _ = None |- _ => rewrite H end; simpl;
  try done.

Ltac add_sameLinks :=
  apply (foldl_related sameLinks); [apply sameLinks_refl|apply sameLinks_trans|];
  let E := fresh "E" in
  intros rm x; cbn; case_lookup E; [apply sameLinks_refl|];
  unfold sameLinks; split_and!; solve_fresh.

Ltac add_nodesKept :=
  apply (foldl_related nodesKept); [apply nodesKept_refl|apply nodesKept_trans|];
  let E := fresh "E" in
  intros rm x; cbn; case_lookup E; [apply nodesKept_refl|];
  unfold nodesKept; split_and!; simpl; try done; apply dom_insert_subseteq.

Ltac add_policiesKept :=
  apply (foldl_related policiesKept); [apply policiesKept_refl|apply policiesKept_trans|];
  let E := fresh "E" in
  intros rm x; cbn; case_lookup E; [apply policiesKept_refl|];
  split; [done|]; intros [] held; simpl; try done;
  try (rewrite lookup_insert; case_decide; [subst; by rewrite E|done]).

Lemma add_sameLinks (rm : ResourceModel) (l : list Object) :
  sameLinks rm (addGatewayClasses l rm) ∧ sameLinks rm (addNamespace l rm)
  ∧ sameLinks rm (addGateways l rm) ∧ sameLinks rm (addHTTPRoutes l rm)
  ∧ sameLinks rm (addBackends l rm) ∧ sameLinks rm (addReferenceGrants l rm).
Proof.
  revert l rm.
  assert (∀ l rm, sameLinks rm (addGatewayClasses l rm)) by add_sameLinks.
  assert (∀ l rm, sameLinks rm (addNamespace l rm)) by add_sameLinks.
  assert (∀ l rm, sameLinks rm (addGateways l rm)) by add_sameLinks.
  assert (∀ l rm, sameLinks rm (addHTTPRoutes l rm)) by add_sameLinks.
  assert (∀ l rm, sameLinks rm (addBackends l rm)) by add_sameLinks.
  assert (∀ l rm, sameLinks rm (addReferenceGrants l rm)) by add_sameLinks.
  intros l rm. by split_and!.
Qed.

Lemma add_nodesKept (rm : ResourceModel) (l : list Object) :
  nodesKept rm (addGatewayClasses l rm) ∧ nodesKept rm (addNamespace l rm)
  ∧ nodesKept rm (addGateways l rm) ∧ nodesKept rm (addHTTPRoutes l rm)
  ∧ nodesKept rm (addBackends l rm) ∧ nodesKept rm (addReferenceGrants l rm).
Proof.
  revert l rm.
  assert (∀ l rm, nodesKept rm (addGatewayClasses l rm)) by add_nodesKept.
  assert (∀ l rm, nodesKept rm (addNamespace l rm)) by add_nodesKept.
  assert (∀ l rm, nodesKept rm (addGateways l rm)) by add_nodesKept.
  assert (∀ l rm, nodesKept rm (addHTTPRoutes l rm)) by add_nodesKept.
  assert (∀ l rm, nodesKept rm (addBackends l rm)) by add_nodesKept.
  assert (∀ l rm, nodesKept rm (addReferenceGrants l rm)) by add_nodesKept.
  intros l rm. by split_and!.
Qed.

Lemma add_policiesKept (rm : ResourceModel) (l : list Object) :
  policiesKept rm (addGatewayClasses l rm) ∧ policiesKept rm (addNamespace l rm)
  ∧ policiesKept rm (addGateways l rm) ∧ policiesKept rm (addHTTPRoutes l rm)
  ∧ policiesKept rm (addBackends l rm) ∧ policiesKept rm (addReferenceGrants l rm).
Proof.
  revert l rm.
  assert (∀ l rm, policiesKept rm (addGatewayClasses l rm)) by add_policiesKept.
  assert (∀ l rm, policiesKept rm (addNamespace l rm)) by add_policiesKept.
  assert (∀ l rm, policiesKept rm (addGateways l rm)) by add_policiesKept.
  assert (∀ l rm, policiesKept rm (addHTTPRoutes l rm)) by add_policiesKept.
  assert (∀ l rm, policiesKept rm (addBackends l rm)) by add_policiesKept.
  assert (∀ l rm, policiesKept rm (addReferenceGrants l rm)) by add_policiesKept.
  intros l rm. by split_and!.
Qed.

Lemma connect_sameNodes (op : connectOp) (rm : ResourceModel) :
  sameNodes rm (connect op rm).1.
Proof.
  destruct (connect_cases op rm) as [Hex|(_ & d & ->)]; [|apply sameNodes_refl].
  destruct op; simpl in *; destruct Hex as [[child Hchild] [parent Hparent]].
  - unfold connectGatewayWithGatewayClass. rewrite Hchild, Hparent.
    unfold sameNodes; split_and!; same_dom.
  - unfold connectHTTPRouteWithGateway. rewrite Hchild, Hparent.
    unfold sameNodes; split_and!; same_dom.
  - unfold connectHTTPRouteWithBackend. rewrite Hchild, Hparent.
    unfold sameNodes; split_and!; same_dom.
  - unfold connectGatewayWithNamespace. rewrite Hchild, Hparent.
    unfold sameNodes; split_and!; same_dom.
  - unfold connectHTTPRouteWithNamespace. rewrite Hchild, Hparent.
    unfold sameNodes; split_and!; same_dom.
  - unfold connectBackendWithNamespace. rewrite Hchild, Hparent.
    unfold sameNodes; split_and!; same_dom.
  - unfold connectReferenceGrantWithBackend. rewrite Hchild, Hparent.
    unfold sameNodes; split_and!; same_dom.
Qed.

(** A connect call leaves the global policy mapping and the policies of
    every node as they are. *)
Lemma connect_policies (op : connectOp) (rm : ResourceModel) :
  rm_Policies (connect op rm).1 = rm_Policies rm
  ∧ ∀ t, policiesAt (connect op rm).1 t = policiesAt rm t.
Proof.
  destruct (connect_cases op rm) as [Hex|(_ & d & ->)]; [|done].
  destruct op; simpl in *; destruct Hex as [[child Hchild] [parent Hparent]].
  - unfold connectGatewayWithGatewayClass. rewrite Hchild, Hparent.
    split; [done|]. intros []; simpl; try done.
    all: rewrite lookup_insert; case_decide; [subst|done].
    all: by repeat match goal with H : _ !! _ = Some _ |- _ => rewrite H end.
  - unfold connectHTTPRouteWithGateway. rewrite Hchild, Hparent.
    split; [done|]. intros []; simpl; try done.
    all: rewrite lookup_insert; case_decide; [subst|done].
    all: by repeat match goal with H : _ !! _ = Some _ |- _ => rewrite H end.
  - unfold connectHTTPRouteWithBackend. rewrite Hchild, Hparent.
    split; [done|]. intros []; simpl; try done.
    all: rewrite lookup_insert; case_decide; [subst|done].
    all: by repeat match goal with H : _ !! _ = Some _ |- _ => rewrite H end.
  - unfold connectGatewayWithNamespace. rewrite Hchild, Hparent.
    split; [done|]. intros []; simpl; try done.
    all: rewrite lookup_insert; case_decide; [subst|done].
    all: by repeat match goal with H : _ !! _ = Some _ |- _ => rewrite H end.
  - unfold connectHTTPRouteWithNamespace. rewrite Hchild, Hparent.
    split; [done|]. intros []; simpl; try done.
    all: rewrite lookup_insert; case_decide; [subst|done].
    all: by repeat match goal with H : _ !! _ = Some _ |- _ => rewrite H end.
  - unfold connectBackendWithNamespace. rewrite Hchild, Hparent.
    split; [done|]. intros []; simpl; try done.
    all: rewrite lookup_insert; case_decide; [subst|done].
    all: by repeat match goal with H : _ !! _ = Some _ |- _ => rewrite H end.
  - unfold connectReferenceGrantWithBackend. rewrite Hchild, Hparent.
    split; [done|]. intros []; simpl; try done.
    all: rewrite lookup_insert; case_decide; [subst|done].
    all: by repeat match goal with H : _ !! _ = Some _ |- _ => rewrite H end.
Qed.

Lemma connect_policiesKept (op : connectOp) (rm : ResourceModel) :
  policiesKept rm (connect op rm).1.
Proof.
  destruct (connect_policies op rm) as [Hglobal Hat]. split; [done|].
  intros t held. by rewrite Hat.
Qed.

Lemma connect_noDanglingLinks (op : connectOp) (rm : ResourceModel) :
  noDanglingLinks rm → noDanglingLinks (connect op rm).1.
Proof.
  intros Hinv. pose proof (sameNodes_nodesKept _ _ (connect_sameNodes op rm)) as Hkept.
  destruct (connect_cases op rm) as [Hex|(_ & d & Hd)]; [|by rewrite Hd].
  revert Hkept. destruct op; with_effects Hex; intros Hkept; destruct_and!; simpl in *.
  all: destruct Hex as [Hchild Hparent].
  all: destruct Hkept as (K1 & K2 & K3 & K4 & K5 & K6).
  all: unfold noDanglingLinks in *; destruct_and!.
  all: split_and!; intros x y; rewrite_effects.
  all: try case_decide.
  all: intros Hxy; (eapply kept_is_Some; [eassumption|]).
  all: try (destruct Hxy as [[-> ->]|Hxy]); simplify_eq; eauto.
Qed.

Lemma connectAll_related (R : ResourceModel → ResourceModel → Prop) :
  (∀ rm, R rm rm) →
  (∀ rm1 rm2 rm3, R rm1 rm2 → R rm2 rm3 → R rm1 rm3) →
  (∀ op rm, R rm (connect op rm).1) →
  ∀ ops rm, R rm (connectAll ops rm).1.
Proof.
  intros Hrefl Htrans Hstep ops. induction ops as [|op ops IH]; intros rm; [apply Hrefl|].
  rewrite connectAll_cons. simpl. eapply Htrans; [apply Hstep|apply IH].
Qed.

(** X7.  Connect operations add and remove no node, and leave the global
    policy mapping and the policies attached to every node as they are. *)
Theorem connecting_keeps_nodes_and_policies (ops : list connectOp) (rm : ResourceModel) :
  let rm' := (connectAll ops rm).1 in
  sameNodes rm rm'
  ∧ rm_Policies rm' = rm_Policies rm
  ∧ ∀ t, policiesAt rm' t = policiesAt rm t.
Proof.
  intros rm'. subst rm'. split.
  - apply (connectAll_related sameNodes);
      [apply sameNodes_refl|apply sameNodes_trans|apply connect_sameNodes].
  - apply (connectAll_related
             (λ rm rm', rm_Policies rm' = rm_Policies rm
                        ∧ ∀ t, policiesAt rm' t = policiesAt rm t)).
    + done.
    + intros rm1 rm2 rm3 [A1 A2] [B1 B2]. split; [congruence|].
      intros t. by rewrite B2.
    + apply connect_policies.
Qed.

Lemma consistent_emptyModel : consistent emptyModel.
Proof.
  split_and!.
  - apply (unconnectedCheck_correct emptyModel). by vm_compute.
  - apply (unconnectedCheck_correct emptyModel). by vm_compute.
  - unfold noDanglingLinks. split_and!; intros x y; unfold_refs; simpl;
      by rewrite lookup_empty.
  - by apply policiesAnchored_no_policies.
Qed.

Lemma build_consistent (op : builderOp) (rm : ResourceModel) :
  consistent rm → consistent (build op rm).
Proof.
  intros (Hp & He & Hd & Ha).
  assert (∀ rm', sameLinks rm rm' → nodesKept rm rm' → policiesKept rm rm' →
                 consistent rm') as Hkept.
  { intros rm' Hl Hn Hk. split_and!.
    - by apply (sameLinks_parentsMirrored rm).
    - by apply (sameLinks_edgesMirrored rm).
    - by apply (sameLinks_noDanglingLinks rm).
    - by apply (policiesKept_anchored rm). }
  destruct op as [l|l|l|l|l|l|l|op]; simpl.
  - apply Hkept; [apply (add_sameLinks rm l)|apply (add_nodesKept rm l)
                 |apply (add_policiesKept rm l)].
  - apply Hkept; [apply (add_sameLinks rm l)|apply (add_nodesKept rm l)
                 |apply (add_policiesKept rm l)].
  - apply Hkept; [apply (add_sameLinks rm l)|apply (add_nodesKept rm l)
                 |apply (add_policiesKept rm l)].
  - apply Hkept; [apply (add_sameLinks rm l)|apply (add_nodesKept rm l)
                 |apply (add_policiesKept rm l)].
  - apply Hkept; [apply (add_sameLinks rm l)|apply (add_nodesKept rm l)
                 |apply (add_policiesKept rm l)].
  - apply Hkept; [apply (add_sameLinks rm l)|apply (add_nodesKept rm l)
                 |apply (add_policiesKept rm l)].
  - pose proof (addPolicyIfTargetExists_sameLinks l rm) as Hl.
    pose proof (sameNodes_nodesKept _ _ (addPolicyIfTargetExists_sameNodes l rm)) as Hn.
    split_and!.
    + by apply (sameLinks_parentsMirrored rm).
    + by apply (sameLinks_edgesMirrored rm).
    + by apply (sameLinks_noDanglingLinks rm).
    + by apply addPolicyIfTargetExists_anchored.
  - split_and!.
    + by apply connect_parentsMirrored.
    + by apply connect_edgesMirrored.
    + by apply connect_noDanglingLinks.
    + apply (policiesKept_anchored rm); [apply connect_policiesKept|done].
Qed.

(** X8.  The builder keeps the graph consistent.  Whatever sequence of
    insertions, connect calls and policy attachments runs on a consistent
    model, in any order and with any arguments, afterwards every parent
    pointer of a child is in the reverse index of that parent, every
    route-gateway, route-backend and grant-backend edge is stored at both
    ends, every stored cross-reference leads to a node of the model, and
    every policy node of the global mapping is held by the one node it
    refers back to. *)
Theorem builder_keeps_the_graph_consistent (ops : list builderOp) (rm : ResourceModel) :
  consistent rm → consistent (buildAll ops rm).
Proof.
  revert rm. induction ops as [|op ops IH]; intros rm Hinv; [done|].
  simpl. by apply IH, build_consistent.
Qed.

Lemma builder_keeps_the_graph_consistent_witness :
  consistent emptyModel
  ∧ consistent
      (buildAll [AddGateways [sampleObject "Gateway" "ns" "g"];
                 Connect (GatewayWithGatewayClass ("ns", "g") "c1");
                 AddGatewayClasses [sampleObject "GatewayClass" "" "c1";
                                    sampleObject "GatewayClass" "" "c2"];
                 Connect (GatewayWithGatewayClass ("ns", "g") "c1");
                 AddPolicyIfTargetExists
                   [samplePolicy "Timeout" "ns" "t" "1s" true (gatewayClassTarget "c1");
                    grpcRoutePolicy];
                 Connect (GatewayWithGatewayClass ("ns", "g") "c2")] emptyModel).
Proof.
  split; [exact consistent_emptyModel|].
  apply builder_keeps_the_graph_consistent. exact consistent_emptyModel.
Defined.

(** * The passes under two runtimes *)

Section TwoRuntimes.

Variables range1 range2 :
  ∀ (K : Type) (EqK : EqDecision K) (CntK : Countable K) (V : Type),
    gmap K V → list (K * V).
Variables sort1 sort2 : (Policy → Policy → bool) → list Policy → list Policy.
Variable MergePoliciesOfSimilarKind : list Policy → merged.
Variable MergePoliciesOfDifferentHierarchy : PolicyMap → PolicyMap → merged.

Hypothesis range1_visits : visitsEveryEntry range1.
Hypothesis range2_visits : visitsEveryEntry range2.
Hypothesis sort1_sorts : sortsPolicies sort1.
Hypothesis sort2_sorts : sortsPolicies sort2.

Lemma convertPoliciesMapToSlice_runtime (policies : gmap policyID PolicyNode) :
  distinctSortKeys policies →
  convertPoliciesMapToSlice range1 sort1 policies
  = convertPoliciesMapToSlice range2 sort2 policies.
Proof.
  intros Hdistinct.
  rewrite (convertPoliciesMapToSlice_canonical range1 sort1 range1_visits sort1_sorts)
    by done.
  by rewrite (convertPoliciesMapToSlice_canonical range2 sort2 range2_visits sort2_sorts).
Qed.

Lemma gatewayEffective_runtime (rm : ResourceModel) (g : gatewayID) (n : GatewayNode) :
  candidatesDistinct rm → rm_Gateways rm !! g = Some n →
  gatewayEffective range1 sort1 MergePoliciesOfSimilarKind
                   MergePoliciesOfDifferentHierarchy rm n
  = gatewayEffective range2 sort2 MergePoliciesOfSimilarKind
                     MergePoliciesOfDifferentHierarchy rm n.
Proof.
  intros (Hgc & Hns & Hgw & _) Hn. unfold gatewayEffective.
  destruct (gw_GatewayClass n) as [c|]; [|done].
  unfold effectivePoliciesOfGateway, deref. simpl.
  destruct (rm_GatewayClasses rm !! c) as [cn|] eqn:Hcn; [|done]. simpl.
  destruct (gw_Namespace n ≫= (rm_Namespaces rm !!.)) as [nsn|] eqn:Hnsn; [|done].
  simpl.
  assert (∃ ns, rm_Namespaces rm !! ns = Some nsn) as [ns Hnsn'].
  { destruct (gw_Namespace n) as [ns|]; [|done]. by exists ns. }
  rewrite (convertPoliciesMapToSlice_runtime (gc_Policies cn)) by by apply (Hgc c).
  rewrite (convertPoliciesMapToSlice_runtime (ns_Policies nsn)) by by apply (Hns ns).
  rewrite (convertPoliciesMapToSlice_runtime (gw_Policies n)) by by apply (Hgw g).
  done.
Qed.

(** A pass that returns under the first runtime returns the same model
    under the second, when what it computes for a node does. *)
Lemma nodePass_runtime {K : Type} `{Countable K} {N : Type}
    (arena : ResourceModel → gmap K N) (put : gmap K N → ResourceModel → ResourceModel)
    (compute1 compute2 : ResourceModel → N → outcome N) (rm rm' : ResourceModel) :
  (∀ m rm, arena (put m rm) = m) →
  (∀ m m' rm, put m (put m' rm) = put m rm) →
  (∀ rm, put (arena rm) rm = rm) →
  (∀ m rm n, compute1 (put m rm) n = compute1 rm n) →
  (∀ m rm n, compute2 (put m rm) n = compute2 rm n) →
  (∀ k n n', arena rm !! k = Some n → compute1 rm n = Ret n' → compute2 rm n = Ret n') →
  forEach (nodeStep arena put compute1) (range1 _ _ _ _ (arena rm)).*1 rm = (Ret tt, rm') →
  forEach (nodeStep arena put compute2) (range2 _ _ _ _ (arena rm)).*1 rm = (Ret tt, rm').
Proof.
  intros H1 H2 H3 H4 H4' Hsame Hrun1.
  destruct (nodePass_returned range1 range1_visits arena put compute1 rm rm'
              H1 H2 H3 H4 Hrun1) as (Hput1 & Hdom1 & Hfwd1 & _).
  destruct (forEach (nodeStep arena put compute2) (range2 _ _ _ _ (arena rm)).*1 rm)
    as [o2 rm2] eqn:Hrun2.
  destruct (nodePass_returns_iff range2 range2_visits arena put compute2
              H1 H2 H3 H4' rm rm2 o2 Hrun2) as [_ Hall2].
  assert (o2 = Ret tt) as ->.
  { apply Hall2. intros k n Hn. destruct (Hfwd1 k n Hn) as (n' & Hc & _).
    exists n'. by apply (Hsame k). }
  destruct (nodePass_returned range2 range2_visits arena put compute2 rm rm2
              H1 H2 H3 H4' Hrun2) as (Hput2 & Hdom2 & Hfwd2 & _).
  f_equal. rewrite Hput1, Hput2. f_equal. apply map_eq. intros k.
  destruct (arena rm !! k) as [n|] eqn:Hn.
  - destruct (Hfwd1 k n Hn) as (n1 & Hc1 & ->).
    destruct (Hfwd2 k n Hn) as (n2 & Hc2 & ->).
    apply (Hsame k n n1 Hn) in Hc1. congruence.
  - assert (arena rm' !! k = None) as ->
      by (apply not_elem_of_dom; rewrite Hdom1; by apply not_elem_of_dom).
    apply not_elem_of_dom. rewrite Hdom2. by apply not_elem_of_dom.
Qed.

Lemma httpRouteEffective_runtime (rm : ResourceModel) (r : httpRouteID)
    (n n' : HTTPRouteNode) :
  candidatesDistinct rm → rm_HTTPRoutes rm !! r = Some n →
  httpRouteEffective range1 sort1 MergePoliciesOfSimilarKind
                     MergePoliciesOfDifferentHierarchy rm n = Ret n' →
  httpRouteEffective range2 sort2 MergePoliciesOfSimilarKind
                     MergePoliciesOfDifferentHierarchy rm n = Ret n'.
Proof.
  intros (_ & Hns & _ & Hhr & _) Hn. unfold httpRouteEffective.
  destruct (effectivePoliciesOfHTTPRoute range1 _ _ _ rm n) as [result| |] eqn:Hr;
    [|done..].
  simpl. intros [= <-].
  apply (effectivePoliciesOfHTTPRoute_Ret range1 sort1 _ _ range1_visits) in Hr.
  destruct Hr as (nsn & rK & nK & Hnsn & HrK & HnK & Hrest).
  assert (∃ ns, rm_Namespaces rm !! ns = Some nsn) as [ns Hnsn'].
  { destruct (hr_Namespace n) as [ns|]; [|done]. by exists ns. }
  rewrite (convertPoliciesMapToSlice_runtime (hr_Policies n)) in HrK by by apply (Hhr r).
  rewrite (convertPoliciesMapToSlice_runtime (ns_Policies nsn)) in HnK by by apply (Hns ns).
  assert (effectivePoliciesOfHTTPRoute range2 sort2 MergePoliciesOfSimilarKind
            MergePoliciesOfDifferentHierarchy rm n = Ret result) as ->; [|done].
  apply (effectivePoliciesOfHTTPRoute_Ret range2 sort2 _ _ range2_visits).
  by exists nsn, rK, nK.
Qed.

(** X16.  When the sort keys tell the policies of every mapping apart, the
    outcome of a gateway pass that returns does not depend on the runtime:
    under any other order in which [range] visits the maps, and any other
    sort that [sort.Slice] runs, the pass returns as well, and with the same
    model. *)
Theorem gateway_pass_is_independent_of_the_runtime (rm rm' : ResourceModel) :
  candidatesDistinct rm →
  calculateEffectivePoliciesForGateways range1 sort1 MergePoliciesOfSimilarKind
    MergePoliciesOfDifferentHierarchy rm = (Ret tt, rm') →
  calculateEffectivePoliciesForGateways range2 sort2 MergePoliciesOfSimilarKind
    MergePoliciesOfDifferentHierarchy rm = (Ret tt, rm').
Proof.
  intros Hdistinct Hrun1. rewrite nodeStep_gateways in *.
  revert Hrun1. apply nodePass_runtime; try done; [apply rm_with_Gateways_id|].
  intros g n n' Hn Hc. by rewrite <- (gatewayEffective_runtime rm g n).
Qed.

(** X17.  When the sort keys tell the policies of every mapping apart, the
    outcome of a route pass that returns does not depend on the runtime
    either: the entries of a route are computed gateway by gateway and kept
    under the identity of the gateway, so the order in which the gateways of
    the route are visited does not show in the result. *)
Theorem route_pass_is_independent_of_the_runtime (rm rm' : ResourceModel) :
  candidatesDistinct rm →
  calculateEffectivePoliciesForHTTPRoutes range1 sort1 MergePoliciesOfSimilarKind
    MergePoliciesOfDifferentHierarchy rm = (Ret tt, rm') →
  calculateEffectivePoliciesForHTTPRoutes range2 sort2 MergePoliciesOfSimilarKind
    MergePoliciesOfDifferentHierarchy rm = (Ret tt, rm').
Proof.
  intros Hdistinct Hrun1. rewrite nodeStep_httpRoutes in *.
  revert Hrun1. apply nodePass_runtime; try done; [apply rm_with_HTTPRoutes_id|].
  intros r n n' Hn Hc. by apply (httpRouteEffective_runtime rm r).
Qed.

End TwoRuntimes.

Lemma candidatesDistinctCheck_correct (rm : ResourceModel) :
  candidatesDistinctCheck rm = true → candidatesDistinct rm.
Proof.
  unfold candidatesDistinctCheck. rewrite !andb_true_iff.
  intros [[[[Hgc Hns] Hgw] Hhr] Hbk].
  split_and!; intros k n Hn; apply distinctSortKeys_NoDup.
  - apply (bool_decide_eq_true_1 _ (forallb_map_to_list _ _ k n Hgc Hn)).
  - apply (bool_decide_eq_true_1 _ (forallb_map_to_list _ _ k n Hns Hn)).
  - apply (bool_decide_eq_true_1 _ (forallb_map_to_list _ _ k n Hgw Hn)).
  - apply (bool_decide_eq_true_1 _ (forallb_map_to_list _ _ k n Hhr Hn)).
  - apply (bool_decide_eq_true_1 _ (forallb_map_to_list _ _ k n Hbk Hn)).
Qed.

Lemma candidatesDistinct_sampleModel : candidatesDistinct sampleModel.
Proof. apply candidatesDistinctCheck_correct. by vm_compute. Qed.

Lemma gateway_pass_is_independent_of_the_runtime_witness :
  let run := calculateEffectivePoliciesForGateways mapOrder insertionSort
               sampleMergeSimilar sampleMergeMaps sampleModel in
  candidatesDistinct sampleModel
  ∧ run.1 = Ret tt
  ∧ calculateEffectivePoliciesForGateways reverseMapOrder insertionSort
      sampleMergeSimilar sampleMergeMaps sampleModel = (Ret tt, run.2).
Proof.
  intros run.
  assert (Hok : run.1 = Ret tt) by (vm_compute; reflexivity).
  split_and!; [exact candidatesDistinct_sampleModel|exact Hok|].
  apply (gateway_pass_is_independent_of_the_runtime mapOrder reverseMapOrder
           insertionSort insertionSort sampleMergeSimilar sampleMergeMaps
           mapOrder_visits reverseMapOrder_visits insertionSort_sorts insertionSort_sorts
           sampleModel run.2 candidatesDistinct_sampleModel).
  rewrite <- Hok. apply surjective_pairing.
Defined.

Lemma route_pass_is_independent_of_the_runtime_witness :
  let run := calculateEffectivePoliciesForHTTPRoutes mapOrder insertionSort
               sampleMergeSimilar sampleMergeMaps sampleModel in
  candidatesDistinct sampleModel
  ∧ run.1 = Ret tt
  ∧ calculateEffectivePoliciesForHTTPRoutes reverseMapOrder insertionSort
      sampleMergeSimilar sampleMergeMaps sampleModel = (Ret tt, run.2).
Proof.
  intros run.
  assert (Hok : run.1 = Ret tt) by (vm_compute; reflexivity).
  split_and!; [exact candidatesDistinct_sampleModel|exact Hok|].
  apply (route_pass_is_independent_of_the_runtime mapOrder reverseMapOrder
           insertionSort insertionSort sampleMergeSimilar sampleMergeMaps
           mapOrder_visits reverseMapOrder_visits insertionSort_sorts insertionSort_sorts
           sampleModel run.2 candidatesDistinct_sampleModel).
  rewrite <- Hok. apply surjective_pairing.
Defined.

(** * The resolution passes on the sample graphs *)

Lemma effective_passes_write_effective_policies_only_witness :
  let run := calculateEffectivePolicies mapOrder insertionSort sampleMergeSimilar
               sampleMergeMaps sampleMergeMaps conflictModel in
  run.1 = Fail "conflict" ∧ sameButEffective conflictModel run.2.
Proof.
  intros run. split; [vm_compute; reflexivity|].
  exact (effective_passes_write_effective_policies_only mapOrder insertionSort
           sampleMergeSimilar sampleMergeMaps sampleMergeMaps mapOrder_visits
           conflictModel).
Defined.

Lemma inherited_passes_write_inherited_policies_only_witness :
  let run := calculateInheritedPolicies mapOrder sampleModel in
  run.1 = Ret tt ∧ sameButInherited sampleModel run.2.
Proof.
  intros run. split; [vm_compute; reflexivity|].
  exact (inherited_passes_write_inherited_policies_only mapOrder mapOrder_visits
           sampleModel).
Defined.



Lemma inherited_policies_are_inheritable_witness :
  let run := calculateInheritedPolicies mapOrder sampleModel in
  run.1 = Ret tt ∧ inheritedAreInheritable run.2.
Proof.
  intros run.
  assert (Hok : run.1 = Ret tt) by (vm_compute; reflexivity).
  split; [exact Hok|].
  apply (inherited_policies_are_inheritable mapOrder mapOrder_visits sampleModel run.2).
  rewrite <- Hok. apply surjective_pairing.
Defined.

Lemma inherited_passes_return_iff_pointers_resolved_witness :
  ((calculateInheritedPolicies mapOrder noNamespaceModel).1 = Ret tt
   ↔ pointersResolved noNamespaceModel)
  ∧ (calculateInheritedPolicies mapOrder noNamespaceModel).1 = Panic.
Proof.
  split; [|vm_compute; reflexivity].
  exact (proj1 (inherited_passes_return_iff_pointers_resolved mapOrder mapOrder_visits
                  noNamespaceModel)).
Defined.


(** * Built graphs and the pointers the passes follow *)

Ltac mapped_step :=
  unfold mappedPointersExist in *; simpl;
  match goal with
  | H : _ ∧ _ |- _ => destruct H as [Hroutes Hbackends]
  end;
  split; intros ? ? ? ? Hn Hptr; simpl in *;
  repeat match goal with
         | H : <[_ := _]> _ !! _ = Some _ |- _ =>
             rewrite lookup_insert in H; case_decide; simplify_eq; simpl in *
         end;
  repeat match goal with
         | |- is_Some (<[_ := _]> _ !! _) =>
             rewrite lookup_insert; case_decide; simplify_eq; simpl; try (by eauto)
         end;
  try done; eauto.

Lemma add_mappedPointersExist (rm : ResourceModel) (l : list Object) :
  mappedPointersExist rm →
  mappedPointersExist (addGatewayClasses l rm) ∧ mappedPointersExist (addNamespace l rm)
  ∧ mappedPointersExist (addGateways l rm) ∧ mappedPointersExist (addHTTPRoutes l rm)
  ∧ mappedPointersExist (addBackends l rm) ∧ mappedPointersExist (addReferenceGrants l rm).
Proof.
  revert rm.
  assert (∀ (f : ResourceModel → Object → ResourceModel),
            (∀ rm x, mappedPointersExist rm → mappedPointersExist (f rm x)) →
            ∀ l rm, mappedPointersExist rm → mappedPointersExist (foldl f rm l)) as Hfold.
  { intros f Hstep l0. induction l0 as [|x l0 IH]; intros rm Hinv; simpl; [done|].
    by apply IH, Hstep. }
  intros rm Hinv. split_and!; (apply Hfold; [|done]); clear rm Hinv;
    intros rm x Hinv; cbn; case_lookup E; try done; mapped_step.
Qed.

Lemma attachPolicy_mappedPointersExist (policy : Policy) (rm : ResourceModel) :
  mappedPointersExist rm → mappedPointersExist (attachPolicy policy rm).1.
Proof.
  intros Hinv. unfold attachPolicy. repeat case_decide; try done.
  all: case_lookup E; try done; mapped_step.
Qed.

Lemma addPolicyIfTargetExists_mappedPointersExist (policies : list Policy)
    (rm : ResourceModel) :
  mappedPointersExist rm → mappedPointersExist (addPolicyIfTargetExists policies rm).1.
Proof.
  revert rm. induction policies as [|policy rest IH]; intros rm Hinv; [done|].
  rewrite addPolicyIfTargetExists_cons. simpl.
  by apply IH, attachPolicy_mappedPointersExist.
Qed.

Lemma connect_mappedPointersExist (op : connectOp) (rm : ResourceModel) :
  mappedPointersExist rm → mappedPointersExist (connect op rm).1.
Proof.
  intros Hinv. destruct (connect_cases op rm) as [Hex|(_ & d & ->)]; [|done].
  destruct op; simpl in *; destruct Hex as [[child Hchild] [parent Hparent]].
  - unfold connectGatewayWithGatewayClass. rewrite Hchild, Hparent. mapped_step.
  - unfold connectHTTPRouteWithGateway. rewrite Hchild, Hparent. mapped_step.
  - unfold connectHTTPRouteWithBackend. rewrite Hchild, Hparent. mapped_step.
  - unfold connectGatewayWithNamespace. rewrite Hchild, Hparent. mapped_step.
  - unfold connectHTTPRouteWithNamespace. rewrite Hchild, Hparent. mapped_step.
  - unfold connectBackendWithNamespace. rewrite Hchild, Hparent. mapped_step.
  - unfold connectReferenceGrantWithBackend. rewrite Hchild, Hparent. mapped_step.
Qed.

Lemma build_mappedPointersExist (op : builderOp) (rm : ResourceModel) :
  mappedPointersExist rm → mappedPointersExist (build op rm).
Proof.
  intros Hinv. destruct op as [l|l|l|l|l|l|l|op]; simpl.
  1-6: by apply (add_mappedPointersExist rm l).
  - by apply addPolicyIfTargetExists_mappedPointersExist.
  - by apply connect_mappedPointersExist.
Qed.

Lemma buildAll_invariant (P : ResourceModel → Prop) :
  (∀ op rm, P rm → P (build op rm)) →
  ∀ ops rm, P rm → P (buildAll ops rm).
Proof.
  intros Hstep ops. induction ops as [|op ops IH]; intros rm Hinv; [done|].
  simpl. by apply IH, Hstep.
Qed.

Lemma resolved_of_connected (rm : ResourceModel) :
  noDanglingLinks rm → mappedPointersExist rm → namespacesConnected rm →
  pointersResolved rm.
Proof.
  intros Hlinks [Hgateways Hroutes] (Cgw & Chr & Cbk).
  destruct Hlinks as (L1 & L2 & L3 & L4 & _).
  split_and!.
  - intros g n Hn. split.
    + destruct (Cgw g n Hn) as [ns Hns]. rewrite Hns. simpl.
      apply (L2 g ns). unfold namespaceOfGateway. by rewrite Hn.
    + intros c Hc. apply (L1 g c). unfold classOfGateway. by rewrite Hn.
  - intros r n Hn. split.
    + destruct (Chr r n Hn) as [ns Hns]. rewrite Hns. simpl.
      apply (L3 r ns). unfold namespaceOfHTTPRoute. by rewrite Hn.
    + intros G ptr Hptr. by apply (Hgateways r n G ptr).
  - intros b n Hn. split.
    + destruct (Cbk b n Hn) as [ns Hns]. rewrite Hns. simpl.
      apply (L4 b ns). unfold namespaceOfBackend. by rewrite Hn.
    + intros r ptr Hptr. by apply (Hroutes b n r ptr).
Qed.

Lemma mappedPointersExist_emptyModel : mappedPointersExist emptyModel.
Proof. split; intros ? ? ? ? Hn; simpl in Hn; by rewrite lookup_empty in Hn. Qed.

(** X20.  On a graph the builder made from the empty model, by any sequence
    of insertions, connect calls and policy attachments, every pointer the
    resolution passes follow leads to a node as soon as every gateway, route
    and backend has been given its namespace; so the inherited-policy passes
    return on it, under every order in which [range] visits the maps. *)
Theorem built_graphs_have_resolved_pointers (ops : list builderOp)
    (range : ∀ (K : Type) (EqK : EqDecision K) (CntK : Countable K) (V : Type),
               gmap K V → list (K * V)) :
  let rm := buildAll ops emptyModel in
  namespacesConnected rm →
  pointersResolved rm
  ∧ (visitsEveryEntry range → (calculateInheritedPolicies range rm).1 = Ret tt).
Proof.
  intros rm Hconnected.
  assert (pointersResolved rm) as Hresolved.
  { apply resolved_of_connected; [| |done].
    - apply (buildAll_invariant consistent build_consistent ops emptyModel),
        consistent_emptyModel.
    - apply (buildAll_invariant mappedPointersExist build_mappedPointersExist),
        mappedPointersExist_emptyModel. }
  split; [done|]. intros Hvisits.
  destruct (calculateInheritedPolicies_returns range Hvisits rm Hresolved)
    as (rm2 & -> & _).
  done.
Qed.

Lemma namespacesConnectedCheck_correct (rm : ResourceModel) :
  namespacesConnectedCheck rm = true → namespacesConnected rm.
Proof.
  unfold namespacesConnectedCheck. rewrite !andb_true_iff. intros [[Hgw Hhr] Hbk].
  split_and!; intros k n Hn; apply isSome_true.
  - apply (forallb_map_to_list _ _ k n Hgw Hn).
  - apply (forallb_map_to_list _ _ k n Hhr Hn).
  - apply (forallb_map_to_list _ _ k n Hbk Hn).
Qed.

Lemma built_graphs_have_resolved_pointers_witness :
  let rm := buildAll sampleBuild emptyModel in
  namespacesConnected rm
  ∧ pointersResolved rm
  ∧ (calculateInheritedPolicies reverseMapOrder rm).1 = Ret tt.
Proof.
  intros rm.
  assert (namespacesConnected rm) as Hconnected
    by (apply namespacesConnectedCheck_correct; by vm_compute).
  destruct (built_graphs_have_resolved_pointers sampleBuild reverseMapOrder Hconnected)
    as [Hresolved Hreturns].
  split_and!; [exact Hconnected|exact Hresolved|exact (Hreturns reverseMapOrder_visits)].
Defined.


(** * The resolution passes on the sample graphs *)

(** On the sample model the gateway pass returns without error.  The
    gateway [g1], of class [c], then holds the merge C1 describes, which is
    the rate limit attached to its namespace and the timeout attached to
    its class; and so for every gateway with a class. *)
Lemma gateway_effective_policies_witness :
  let run := calculateEffectivePoliciesForGateways mapOrder insertionSort
               sampleMergeSimilar sampleMergeMaps sampleModel in
  run.1 = Ret tt
  ∧ (∃ gatewayNode result gatewayNode',
       rm_Gateways sampleModel !! ("ns", "g1") = Some gatewayNode
       ∧ gatewayResolution sampleMergeSimilar sampleMergeMaps sampleModel
           gatewayNode "c" result
       ∧ rm_Gateways run.2 !! ("ns", "g1") = Some gatewayNode'
       ∧ gw_EffectivePolicies gatewayNode' = result
       ∧ policyNames result = [("RateLimit", "limit"); ("Timeout", "class-timeout")])
  ∧ (∀ g gatewayNode c,
       rm_Gateways sampleModel !! g = Some gatewayNode →
       gw_GatewayClass gatewayNode = Some c →
       ∃ result gatewayNode',
         gatewayResolution sampleMergeSimilar sampleMergeMaps sampleModel
           gatewayNode c result
         ∧ rm_Gateways run.2 !! g = Some gatewayNode'
         ∧ gw_EffectivePolicies gatewayNode' = result
         ∧ gatewayNode' = gw_with_EffectivePolicies result gatewayNode).
Proof.
  intros run.
  assert (Hok : run.1 = Ret tt) by (vm_compute; reflexivity).
  destruct (gateway_effective_policies mapOrder insertionSort sampleMergeSimilar
              sampleMergeMaps mapOrder_visits insertionSort_sorts sampleModel run.2 run.1
              (surjective_pairing run)) as (_ & Hall & _).
  specialize (Hall Hok).
  split; [exact Hok|]. split; [|exact Hall].
  assert (Hv : policyNames (effectiveOfGateway run.2 ("ns", "g1"))
               = [("RateLimit", "limit"); ("Timeout", "class-timeout")])
    by (vm_compute; reflexivity).
  assert (Hc : gw_GatewayClass <$> rm_Gateways sampleModel !! ("ns", "g1")
               = Some (Some "c")) by (vm_compute; reflexivity).
  destruct (rm_Gateways sampleModel !! ("ns", "g1")) as [n|] eqn:Hn; [|discriminate Hc].
  simpl in Hc. injection Hc as Hc.
  destruct (Hall ("ns", "g1") n "c" Hn Hc) as (result & n' & Hres & Hn' & Heff & _).
  exists n, result, n'. split_and!; [done..|].
  unfold effectiveOfGateway in Hv. rewrite Hn' in Hv. simpl in Hv. by rewrite Heff in Hv.
Defined.

(** On the sample model, after the gateway pass, the route pass returns
    without error.  The route [r1], connected to the gateways [g1] and
    [g2], then holds one entry for each of them and no other, made of the
    effective policies of that gateway and of the header policy attached to
    the route. *)
Lemma route_effective_policies_witness :
  let rm := (calculateEffectivePoliciesForGateways mapOrder insertionSort
               sampleMergeSimilar sampleMergeMaps sampleModel).2 in
  let run := calculateEffectivePoliciesForHTTPRoutes mapOrder insertionSort
               sampleMergeSimilar sampleMergeMaps rm in
  run.1 = Ret tt
  ∧ (∃ httpRouteNode result httpRouteNode',
       rm_HTTPRoutes rm !! ("ns", "r1") = Some httpRouteNode
       ∧ httpRouteResolution sampleMergeSimilar sampleMergeMaps rm httpRouteNode result
       ∧ rm_HTTPRoutes run.2 !! ("ns", "r1") = Some httpRouteNode'
       ∧ hr_EffectivePolicies httpRouteNode' = Some result
       ∧ (map_to_list result).*1 = [("ns", "g1"); ("ns", "g2")]
       ∧ policyNames <$> result !! ("ns", "g1")
         = Some [("RateLimit", "limit"); ("Timeout", "class-timeout");
                 ("Header", "r1-header")]
       ∧ policyNames <$> result !! ("ns", "g2")
         = Some [("RateLimit", "limit"); ("Timeout", "class-timeout");
                 ("Header", "r1-header")])
  ∧ (∀ r httpRouteNode,
       rm_HTTPRoutes rm !! r = Some httpRouteNode →
       ∃ result httpRouteNode',
         httpRouteResolution sampleMergeSimilar sampleMergeMaps rm httpRouteNode result
         ∧ rm_HTTPRoutes run.2 !! r = Some httpRouteNode'
         ∧ hr_EffectivePolicies httpRouteNode' = Some result
         ∧ httpRouteNode' = hr_with_EffectivePolicies (Some result) httpRouteNode
         ∧ (hr_Gateways httpRouteNode = ∅ → result = ∅)).
Proof.
  intros rm run.
  assert (Hok : run.1 = Ret tt) by (vm_compute; reflexivity).
  destruct (route_effective_policies mapOrder insertionSort sampleMergeSimilar
              sampleMergeMaps mapOrder_visits insertionSort_sorts rm run.2 run.1
              (surjective_pairing run)) as (Hall & _).
  specialize (Hall Hok).
  split; [exact Hok|]. split; [|exact Hall].
  assert (Hv : (λ result : gmap gatewayID PolicyMap,
                  ((map_to_list result).*1,
                   policyNames <$> result !! ("ns", "g1"),
                   policyNames <$> result !! ("ns", "g2")))
               <$> (rm_HTTPRoutes run.2 !! ("ns", "r1") ≫= hr_EffectivePolicies)
               = Some ([("ns", "g1"); ("ns", "g2")],
                       Some [("RateLimit", "limit"); ("Timeout", "class-timeout");
                             ("Header", "r1-header")],
                       Some [("RateLimit", "limit"); ("Timeout", "class-timeout");
                             ("Header", "r1-header")]))
    by (vm_compute; reflexivity).
  assert (Hsome : isSome (rm_HTTPRoutes rm !! ("ns", "r1")) = true)
    by (vm_compute; reflexivity).
  destruct (rm_HTTPRoutes rm !! ("ns", "r1")) as [n|] eqn:Hn; [|discriminate Hsome].
  destruct (Hall ("ns", "r1") n Hn) as (result & n' & Hres & Hn' & Heff & _).
  exists n, result, n'. rewrite Hn' in Hv. simpl in Hv. rewrite Heff in Hv.
  simpl in Hv. injection Hv as Hdom H1 H2. by split_and!.
Defined.

(** On the sample model, after the gateway and route passes, the backend
    pass returns without error.  The routes [r1] and [r2] of the backend
    both contribute for the gateway [g1], and only [r1] for [g2]: the
    backend then holds, for [g1], the peer merge of the two contributions
    (in which the header policy of [r2], visited last, stands) and, for
    [g2], the contribution of [r1], each overlaid with the retry policy
    attached to the backend. *)
Lemma backend_effective_policies_witness :
  let rm := (calculateEffectivePoliciesForHTTPRoutes mapOrder insertionSort
               sampleMergeSimilar sampleMergeMaps
               (calculateEffectivePoliciesForGateways mapOrder insertionSort
                  sampleMergeSimilar sampleMergeMaps sampleModel).2).2 in
  let run := calculateEffectivePoliciesForBackends mapOrder insertionSort
               sampleMergeSimilar sampleMergeMaps sampleMergeMaps rm in
  run.1 = Ret tt
  ∧ (∃ backendNode result backendNode',
       rm_Backends rm !! ("", "Service", "ns", "b") = Some backendNode
       ∧ backendResolution mapOrder sampleMergeSimilar sampleMergeMaps sampleMergeMaps
           rm backendNode result
       ∧ rm_Backends run.2 !! ("", "Service", "ns", "b") = Some backendNode'
       ∧ bk_EffectivePolicies backendNode' = Some result
       ∧ length (contributions mapOrder rm backendNode ("ns", "g1")) = 2
       ∧ length (contributions mapOrder rm backendNode ("ns", "g2")) = 1
       ∧ (map_to_list result).*1 = [("ns", "g1"); ("ns", "g2")]
       ∧ policyNames <$> result !! ("ns", "g1")
         = Some [("Retry", "b-retry"); ("RateLimit", "limit");
                 ("Timeout", "class-timeout"); ("Header", "r2-header")]
       ∧ policyNames <$> result !! ("ns", "g2")
         = Some [("Retry", "b-retry"); ("RateLimit", "limit");
                 ("Timeout", "class-timeout"); ("Header", "r1-header")])
  ∧ (∀ b backendNode,
       rm_Backends rm !! b = Some backendNode →
       ∃ result backendNode',
         backendResolution mapOrder sampleMergeSimilar sampleMergeMaps sampleMergeMaps
           rm backendNode result
         ∧ rm_Backends run.2 !! b = Some backendNode'
         ∧ bk_EffectivePolicies backendNode' = Some result
         ∧ backendNode' = bk_with_EffectivePolicies (Some result) backendNode).
Proof.
  intros rm run.
  assert (Hok : run.1 = Ret tt) by (vm_compute; reflexivity).
  destruct (backend_effective_policies mapOrder insertionSort sampleMergeSimilar
              sampleMergeMaps sampleMergeMaps mapOrder_visits insertionSort_sorts
              rm run.2 run.1 (surjective_pairing run)) as (Hall & _).
  specialize (Hall Hok).
  split; [exact Hok|]. split; [|exact Hall].
  assert (Hv : (λ result : gmap gatewayID PolicyMap,
                  ((map_to_list result).*1,
                   policyNames <$> result !! ("ns", "g1"),
                   policyNames <$> result !! ("ns", "g2")))
               <$> (rm_Backends run.2 !! ("", "Service", "ns", "b")
                    ≫= bk_EffectivePolicies)
               = Some ([("ns", "g1"); ("ns", "g2")],
                       Some [("Retry", "b-retry"); ("RateLimit", "limit");
                             ("Timeout", "class-timeout"); ("Header", "r2-header")],
                       Some [("Retry", "b-retry"); ("RateLimit", "limit");
                             ("Timeout", "class-timeout"); ("Header", "r1-header")]))
    by (vm_compute; reflexivity).
  assert (Hc : (λ backendNode,
                  (length (contributions mapOrder rm backendNode ("ns", "g1")),
                   length (contributions mapOrder rm backendNode ("ns", "g2"))))
               <$> rm_Backends rm !! ("", "Service", "ns", "b") = Some (2, 1))
    by (vm_compute; reflexivity).
  destruct (rm_Backends rm !! ("", "Service", "ns", "b")) as [n|] eqn:Hn;
    [|discriminate Hc].
  destruct (Hall ("", "Service", "ns", "b") n Hn) as (result & n' & Hres & Hn' & Heff & _).
  exists n, result, n'. rewrite Hn' in Hv. simpl in Hv. rewrite Heff in Hv.
  simpl in Hv. injection Hv as Hdom H1 H2. simpl in Hc. injection Hc as Hc1 Hc2.
  by split_and!.
Defined.

(** C3 fails.  The route of this model is connected to no gateway, its
    namespace is resolved, and two policies attached to it conflict: the
    route pass returns the error of their same-kind merge, and so does
    [calculateEffectivePolicies]; the route is left without a mapping. *)
Lemma route_without_gateways_returns_an_error :
  let run := calculateEffectivePoliciesForHTTPRoutes mapOrder insertionSort
               sampleMergeSimilar sampleMergeMaps lonelyRouteModel in
  hr_Gateways <$> rm_HTTPRoutes lonelyRouteModel !! ("ns", "r1") = Some ∅
  ∧ hr_Namespace <$> rm_HTTPRoutes lonelyRouteModel !! ("ns", "r1") = Some (Some "ns")
  ∧ isSome (rm_Namespaces lonelyRouteModel !! "ns") = true
  ∧ run.1 = Fail "conflict"
  ∧ hr_EffectivePolicies <$> rm_HTTPRoutes run.2 !! ("ns", "r1") = Some None
  ∧ (calculateEffectivePolicies mapOrder insertionSort sampleMergeSimilar sampleMergeMaps
       sampleMergeMaps lonelyRouteModel).1 = Fail "conflict".
Proof.
  intros run. repeat split; vm_compute; reflexivity.
Qed.


(** * The inherited-policy passes after the effective-policy passes *)

Section TwoRuns.

(** The runtime under which the effective-policy passes run and the one
    under which the inherited-policy passes run: [range] picks its order
    anew each time. *)
Variables range1 range2 :
  ∀ (K : Type) (EqK : EqDecision K) (CntK : Countable K) (V : Type),
    gmap K V → list (K * V).
Variable sort_Slice : (Policy → Policy → bool) → list Policy → list Policy.
Variable MergePoliciesOfSimilarKind : list Policy → merged.
Variable MergePoliciesOfDifferentHierarchy : PolicyMap → PolicyMap → merged.
Variable MergePoliciesOfSameHierarchy : PolicyMap → PolicyMap → merged.

Hypothesis range1_visits : visitsEveryEntry range1.
Hypothesis range2_visits : visitsEveryEntry range2.

(** C9, as the code has it.  On a graph whose pointers are resolved, the
    inherited-policy passes run to the end after
    [calculateEffectivePolicies], whatever its outcome was, and so for
    every merge capability and every error it raises: they write the
    inherited policies of every gateway, route and backend.  A gateway
    inherits the inheritable policies attached to its class, when it has
    one, and those attached to its namespace; a gateway without a class
    gets exactly the inheritable policies of its namespace.  A route
    inherits the inheritable policies of its namespace and, from every
    gateway it is connected to, what that gateway inherits and the
    inheritable policies attached to that gateway; a backend inherits in
    the same way from its namespace and from the routes that reference it.
    Every entry written comes from one of these sources, and every policy
    identity of these sources has an entry. *)
Theorem inherited_policies_despite_merge_errors (rm rm1 : ResourceModel)
    (o : outcome unit) :
  pointersResolved rm →
  calculateEffectivePolicies range1 sort_Slice MergePoliciesOfSimilarKind
    MergePoliciesOfDifferentHierarchy MergePoliciesOfSameHierarchy rm = (o, rm1) →
  ∃ rm2,
    calculateInheritedPolicies range2 rm1 = (Ret tt, rm2)
    ∧ (∀ g gatewayNode, rm_Gateways rm !! g = Some gatewayNode →
         ∃ gatewayNode2 result,
           rm_Gateways rm2 !! g = Some gatewayNode2
           ∧ gw_InheritedPolicies gatewayNode2 = Some result
           ∧ (∀ id policyNode,
                result !! id = Some policyNode
                ↔ gatewayInherits rm gatewayNode id policyNode)
           ∧ (gw_GatewayClass gatewayNode = None →
              ∃ namespaceNode,
                gw_Namespace gatewayNode ≫= (rm_Namespaces rm !!.) = Some namespaceNode
                ∧ ∀ id policyNode,
                    result !! id = Some policyNode
                    ↔ inheritable (ns_Policies namespaceNode) id policyNode))
    ∧ (∀ r httpRouteNode, rm_HTTPRoutes rm !! r = Some httpRouteNode →
         ∃ httpRouteNode2 result,
           rm_HTTPRoutes rm2 !! r = Some httpRouteNode2
           ∧ hr_InheritedPolicies httpRouteNode2 = Some result
           ∧ (∀ id policyNode,
                result !! id = Some policyNode →
                httpRouteInherits rm httpRouteNode id policyNode)
           ∧ (∀ id policyNode,
                httpRouteInherits rm httpRouteNode id policyNode →
                is_Some (result !! id)))
    ∧ (∀ b backendNode, rm_Backends rm !! b = Some backendNode →
         ∃ backendNode2 result,
           rm_Backends rm2 !! b = Some backendNode2
           ∧ bk_InheritedPolicies backendNode2 = Some result
           ∧ (∀ id policyNode,
                result !! id = Some policyNode →
                backendInherits rm backendNode id policyNode)
           ∧ (∀ id policyNode,
                backendInherits rm backendNode id policyNode →
                is_Some (result !! id))).
Proof.
  intros Hres Hrun.
  apply (calculateInheritedPolicies_inherits range2 range2_visits); [done|].
  by apply (calculateEffectivePolicies_sameGraph range1 sort_Slice
              MergePoliciesOfSimilarKind MergePoliciesOfDifferentHierarchy
              MergePoliciesOfSameHierarchy range1_visits rm rm1 o).
Qed.

End TwoRuns.

(** C9 fails.  The gateway of this model was inserted and never connected:
    it has no class and no namespace.  The effective-policy passes skip it
    and return without error; the inherited-policy passes panic on its
    namespace pointer and leave it without inherited policies. *)
Lemma inherited_passes_panic_on_a_nil_namespace :
  let effective := calculateEffectivePolicies mapOrder insertionSort sampleMergeSimilar
                     sampleMergeMaps sampleMergeMaps unconnectedGatewayModel in
  let inherited := calculateInheritedPolicies mapOrder effective.2 in
  gw_GatewayClass <$> rm_Gateways unconnectedGatewayModel !! ("ns", "g1") = Some None
  ∧ gw_Namespace <$> rm_Gateways unconnectedGatewayModel !! ("ns", "g1") = Some None
  ∧ effective.1 = Ret tt
  ∧ inherited.1 = Panic
  ∧ gw_InheritedPolicies <$> rm_Gateways inherited.2 !! ("ns", "g1") = Some None.
Proof.
  intros effective inherited. repeat split; vm_compute; reflexivity.
Qed.

(** In the conflict model [calculateEffectivePolicies] returns the error of
    the merge for [g2]; the inherited-policy passes, which visit the maps
    in another order, run to the end on the model it leaves.  The gateway [g2], the route [r1] and the backend then
    hold the two inheritable policies, that of the class and that of the
    namespace, and none of the policies attached to gateways, routes and
    backends, which are not inheritable. *)
Lemma inherited_policies_despite_merge_errors_witness :
  let failed := calculateEffectivePolicies mapOrder insertionSort sampleMergeSimilar
                  sampleMergeMaps sampleMergeMaps conflictModel in
  let inherited := calculateInheritedPolicies reverseMapOrder failed.2 in
  pointersResolved conflictModel
  ∧ failed.1 = Fail "conflict"
  ∧ inherited.1 = Ret tt
  ∧ (∃ httpRouteNode httpRouteNode2 result,
       rm_HTTPRoutes conflictModel !! ("ns", "r1") = Some httpRouteNode
       ∧ rm_HTTPRoutes inherited.2 !! ("ns", "r1") = Some httpRouteNode2
       ∧ hr_InheritedPolicies httpRouteNode2 = Some result
       ∧ (∀ id policyNode,
            result !! id = Some policyNode →
            httpRouteInherits conflictModel httpRouteNode id policyNode)
       ∧ (∀ id policyNode,
            httpRouteInherits conflictModel httpRouteNode id policyNode →
            is_Some (result !! id))
       ∧ (map_to_list result).*1
         = [("policy.example.com", "Timeout", "ns", "class-timeout");
            ("policy.example.com", "RateLimit", "ns", "limit")])
  ∧ policyIDs (inheritedOfGateway inherited.2 ("ns", "g2"))
    = [("policy.example.com", "Timeout", "ns", "class-timeout");
       ("policy.example.com", "RateLimit", "ns", "limit")]
  ∧ policyIDs (inheritedOfBackend inherited.2 ("", "Service", "ns", "b"))
    = [("policy.example.com", "Timeout", "ns", "class-timeout");
       ("policy.example.com", "RateLimit", "ns", "limit")].
Proof.
  intros failed inherited.
  destruct (inherited_policies_despite_merge_errors mapOrder reverseMapOrder
              insertionSort sampleMergeSimilar sampleMergeMaps sampleMergeMaps
              mapOrder_visits reverseMapOrder_visits conflictModel failed.2 failed.1
              pointersResolved_conflictModel (surjective_pairing failed))
    as (rm2 & Hinh & _ & Hroutes & _).
  assert (Hrm2 : inherited.2 = rm2) by (unfold inherited; by rewrite Hinh).
  split_and!; [exact pointersResolved_conflictModel|vm_compute; reflexivity|
               unfold inherited; by rewrite Hinh| |vm_compute; reflexivity..].
  assert (Hv : (λ result : gmap policyID PolicyNode, (map_to_list result).*1)
               <$> inheritedOfHTTPRoute inherited.2 ("ns", "r1")
               = Some [("policy.example.com", "Timeout", "ns", "class-timeout");
                       ("policy.example.com", "RateLimit", "ns", "limit")])
    by (vm_compute; reflexivity).
  assert (Hsome : isSome (rm_HTTPRoutes conflictModel !! ("ns", "r1")) = true)
    by (vm_compute; reflexivity).
  destruct (rm_HTTPRoutes conflictModel !! ("ns", "r1")) as [n|] eqn:Hn;
    [|discriminate Hsome].
  destruct (Hroutes ("ns", "r1") n Hn) as (n2 & result & Hn2 & Hresult & Hsound & Hcomplete).
  exists n, n2, result. rewrite Hrm2. unfold inheritedOfHTTPRoute in Hv.
  rewrite Hrm2, Hn2 in Hv. simpl in Hv. rewrite Hresult in Hv. simpl in Hv.
  injection Hv as Hv. by split_and!.
Defined.

(** * Running the passes again, under another runtime *)

Lemma attachedAreGlobalCheck_correct (rm : ResourceModel) :
  attachedAreGlobalCheck rm = true → attachedAreGlobal rm.
Proof.
  unfold attachedAreGlobalCheck. rewrite !andb_true_iff.
  intros [[[[Hgc Hns] Hgw] Hhr] Hbk] t policies id pn Hat Hid.
  assert (Hone : ∀ m : gmap policyID PolicyNode,
            forallb (λ kv : policyID * PolicyNode,
                       bool_decide (rm_Policies rm !! kv.1 = Some kv.2))
                    (map_to_list m) = true →
            m !! id = Some pn → rm_Policies rm !! id = Some pn).
  { intros m Hall Hm. pose proof (forallb_map_to_list _ _ id pn Hall Hm) as Hb.
    simpl in Hb. by apply bool_decide_eq_true_1 in Hb. }
  destruct t as [c|ns|g|r|b|rg]; simpl in Hat; [| | | | |done].
  - destruct (rm_GatewayClasses rm !! c) as [n|] eqn:Hn; [|done]. injection Hat as <-.
    apply (Hone (gc_Policies n)); [|done]. apply (forallb_map_to_list _ _ c n Hgc Hn).
  - destruct (rm_Namespaces rm !! ns) as [n|] eqn:Hn; [|done]. injection Hat as <-.
    apply (Hone (ns_Policies n)); [|done]. apply (forallb_map_to_list _ _ ns n Hns Hn).
  - destruct (rm_Gateways rm !! g) as [n|] eqn:Hn; [|done]. injection Hat as <-.
    apply (Hone (gw_Policies n)); [|done]. apply (forallb_map_to_list _ _ g n Hgw Hn).
  - destruct (rm_HTTPRoutes rm !! r) as [n|] eqn:Hn; [|done]. injection Hat as <-.
    apply (Hone (hr_Policies n)); [|done]. apply (forallb_map_to_list _ _ r n Hhr Hn).
  - destruct (rm_Backends rm !! b) as [n|] eqn:Hn; [|done]. injection Hat as <-.
    apply (Hone (bk_Policies n)); [|done]. apply (forallb_map_to_list _ _ b n Hbk Hn).
Qed.

Section RunAgain.

(** The runtimes of two runs: [range] picks its order anew each time. *)
Variables range1 range2 :
  ∀ (K : Type) (EqK : EqDecision K) (CntK : Countable K) (V : Type),
    gmap K V → list (K * V).

Variables sort1 sort2 : (Policy → Policy → bool) → list Policy → list Policy.
Variable MergePoliciesOfSimilarKind : list Policy → merged.
Variable MergePoliciesOfDifferentHierarchy : PolicyMap → PolicyMap → merged.

Hypothesis range1_visits : visitsEveryEntry range1.
Hypothesis range2_visits : visitsEveryEntry range2.
Hypothesis sort1_sorts : sortsPolicies sort1.
Hypothesis sort2_sorts : sortsPolicies sort2.

(** X18.  When the sort keys tell the policies of every mapping apart, the
    gateway pass and the route pass of the effective policies can each be
    run again: a second run of the pass on the model the first run
    returned, under any order in which [range] visits the maps and any
    sort that [sort.Slice] runs, returns that model again.  (The backend
    pass is left out: the order in which it visits the routes of a backend
    shows in the peer merge.) *)
Theorem effective_passes_can_be_run_again (rm rm' : ResourceModel) :
  candidatesDistinct rm →
  (calculateEffectivePoliciesForGateways range1 sort1 MergePoliciesOfSimilarKind
     MergePoliciesOfDifferentHierarchy rm = (Ret tt, rm') →
   calculateEffectivePoliciesForGateways range2 sort2 MergePoliciesOfSimilarKind
     MergePoliciesOfDifferentHierarchy rm' = (Ret tt, rm'))
  ∧ (calculateEffectivePoliciesForHTTPRoutes range1 sort1 MergePoliciesOfSimilarKind
       MergePoliciesOfDifferentHierarchy rm = (Ret tt, rm') →
     calculateEffectivePoliciesForHTTPRoutes range2 sort2 MergePoliciesOfSimilarKind
       MergePoliciesOfDifferentHierarchy rm' = (Ret tt, rm')).
Proof.
  intros Hdistinct. split.
  - intros Hrun1.
    apply (gatewaysPass_again range2 sort2 MergePoliciesOfSimilarKind
             MergePoliciesOfDifferentHierarchy range2_visits rm rm').
    rewrite nodeStep_gateways in *. revert Hrun1.
    apply (nodePass_runtime range1 range2 range1_visits range2_visits); try done;
      [apply rm_with_Gateways_id|].
    intros g n n' Hn Hc.
    by rewrite <- (gatewayEffective_runtime range1 range2 sort1 sort2
                     MergePoliciesOfSimilarKind MergePoliciesOfDifferentHierarchy
                     range1_visits range2_visits sort1_sorts sort2_sorts rm g n).
  - intros Hrun1.
    apply (httpRoutesPass_again range2 sort2 MergePoliciesOfSimilarKind
             MergePoliciesOfDifferentHierarchy range2_visits rm rm').
    rewrite nodeStep_httpRoutes in *. revert Hrun1.
    apply (nodePass_runtime range1 range2 range1_visits range2_visits); try done;
      [apply rm_with_HTTPRoutes_id|].
    intros r n n' Hn Hc.
    by apply (httpRouteEffective_runtime range1 range2 sort1 sort2
                MergePoliciesOfSimilarKind MergePoliciesOfDifferentHierarchy
                range1_visits range2_visits sort1_sorts sort2_sorts rm r).
Qed.

(** X19.  When a policy identity names one policy node (every policy node
    attached to a node is the one the model keeps under that identity), the
    outcome of [calculateInheritedPolicies] does not depend on the order in
    which the runtime visits the maps, and the passes can be run again:
    a run that returns under one runtime returns the same model under any
    other, and a second run, under any runtime, on the model the first
    returned changes nothing. *)
Theorem inherited_passes_can_be_run_again (rm rm' : ResourceModel) :
  attachedAreGlobal rm →
  calculateInheritedPolicies range1 rm = (Ret tt, rm') →
  calculateInheritedPolicies range2 rm = (Ret tt, rm')
  ∧ calculateInheritedPolicies range2 rm' = (Ret tt, rm').
Proof.
  intros Hglobal Hrun.
  pose proof (calculateInheritedPolicies_resolved range1 range1_visits rm rm' Hrun)
    as Hres.
  pose proof (calculateInheritedPolicies_keeps range1 range1_visits rm) as Hkeeps.
  rewrite Hrun in Hkeeps. simpl in Hkeeps.
  destruct (calculateInheritedPolicies_holdsInherited range1 range1_visits rm rm
              Hglobal Hres (sameGraph_refl rm)) as (out1 & Hrun1 & Hheld).
  rewrite Hrun in Hrun1. injection Hrun1 as <-.
  split.
  - destruct (calculateInheritedPolicies_holdsInherited range2 range2_visits rm rm
                Hglobal Hres (sameGraph_refl rm)) as (out2 & Hrun2 & Hheld2).
    pose proof (calculateInheritedPolicies_keeps range2 range2_visits rm) as Hkeeps2.
    rewrite Hrun2 in Hkeeps2. simpl in Hkeeps2.
    by rewrite Hrun2, (holdsInherited_unique rm out2 rm').
  - destruct (calculateInheritedPolicies_holdsInherited range2 range2_visits rm rm'
                Hglobal Hres (sameButInherited_sameGraph rm rm' Hkeeps))
      as (out3 & Hrun3 & Hheld3).
    pose proof (calculateInheritedPolicies_keeps range2 range2_visits rm') as Hkeeps3.
    rewrite Hrun3 in Hkeeps3. simpl in Hkeeps3.
    rewrite Hrun3, (holdsInherited_unique rm out3 rm'); [done| |done..].
    by apply (sameButInherited_trans rm rm' out3).
Qed.

End RunAgain.

Lemma inherited_passes_can_be_run_again_witness :
  let run := calculateInheritedPolicies mapOrder sampleModel in
  attachedAreGlobal sampleModel
  ∧ run.1 = Ret tt
  ∧ calculateInheritedPolicies reverseMapOrder sampleModel = (Ret tt, run.2)
  ∧ calculateInheritedPolicies reverseMapOrder run.2 = (Ret tt, run.2).
Proof.
  intros run.
  assert (Hglobal : attachedAreGlobal sampleModel)
    by (apply attachedAreGlobalCheck_correct; vm_compute; reflexivity).
  assert (Hok : run.1 = Ret tt) by (vm_compute; reflexivity).
  split; [exact Hglobal|]. split; [exact Hok|].
  apply (inherited_passes_can_be_run_again mapOrder reverseMapOrder mapOrder_visits
           reverseMapOrder_visits sampleModel run.2 Hglobal).
  rewrite <- Hok. apply surjective_pairing.
Defined.

Lemma effective_passes_can_be_run_again_witness :
  let gateways := calculateEffectivePoliciesForGateways mapOrder insertionSort
                    sampleMergeSimilar sampleMergeMaps sampleModel in
  let routes := calculateEffectivePoliciesForHTTPRoutes mapOrder insertionSort
                  sampleMergeSimilar sampleMergeMaps sampleModel in
  candidatesDistinct sampleModel
  ∧ gateways.1 = Ret tt
  ∧ routes.1 = Ret tt
  ∧ calculateEffectivePoliciesForGateways reverseMapOrder insertionSort
      sampleMergeSimilar sampleMergeMaps gateways.2 = (Ret tt, gateways.2)
  ∧ calculateEffectivePoliciesForHTTPRoutes reverseMapOrder insertionSort
      sampleMergeSimilar sampleMergeMaps routes.2 = (Ret tt, routes.2).
Proof.
  intros gateways routes.
  assert (Hg : gateways.1 = Ret tt) by (vm_compute; reflexivity).
  assert (Hr : routes.1 = Ret tt) by (vm_compute; reflexivity).
  split_and!; [exact candidatesDistinct_sampleModel|exact Hg|exact Hr| |].
  - apply (proj1 (effective_passes_can_be_run_again mapOrder reverseMapOrder
                    insertionSort insertionSort sampleMergeSimilar sampleMergeMaps
                    mapOrder_visits reverseMapOrder_visits insertionSort_sorts
                    insertionSort_sorts sampleModel gateways.2
                    candidatesDistinct_sampleModel)).
    rewrite <- Hg. apply surjective_pairing.
  - apply (proj2 (effective_passes_can_be_run_again mapOrder reverseMapOrder
                    insertionSort insertionSort sampleMergeSimilar sampleMergeMaps
                    mapOrder_visits reverseMapOrder_visits insertionSort_sorts
                    insertionSort_sorts sampleModel routes.2
                    candidatesDistinct_sampleModel)).
    rewrite <- Hr. apply surjective_pairing.
Defined.
